(* ===== verification/_CoqProject ===== *)
-Q . S2P
Prelude.v
Bitops.v
BitSpec.v
Hash.v
Proto.v
World.v
Icache.v
IcacheFacts.v
Attr.v
Rpc.v
NfsInode.v
Sample.v
CacheSpec.v
Wp.v
Blocks.v
Nfs3Ops.v
Nfs3Spec.v
Acl.v
FuseOps.v
FuseIo.v
FileSpec.v
FuseSpec.v
RefSpec.v
Session.v
Calm.v
LostConn.v
SessionSpec.v
AttrSpec.v
AttrTypes.v
TypeSafe.v
AclSpec.v
FsSpec.v
Mntent.v
MntentSpec.v
Klist.v
KlistFacts.v
HashPtr.v
ListSpec.v
Lock.v
LockSpec.v
Mtab.v
MtabFacts.v
MtabUpdate.v
MtabSpec.v
Options.v
MainOpts.v
OptionsSpec.v
Xcommon.v
XcommonSpec.v
MainSpec.v
Getopt.v
GetoptSpec.v
Mount.v
MountSpec.v
MountLoop.v
Main.v
ProgSpec.v
MountFail.v
ProgTypes.v
