(* ===== verification/Prelude.v ===== *)
(** * HSFS: an NFSv3 client over FUSE

    HSFS mounts the export of an NFSv3 server through FUSE.  The kernel sends
    requests (LOOKUP, READ, FORGET, ...) to a user process; a handler
    ([src/fuse/hsx_fuse_*.c]) finds the inodes it is about in the inode cache
    ([src/lib/hsfs_inode.c], [src/nfs_common/hsi_nfs_inode.c]), an operation
    ([src/nfs3/hsi_nfs3_*.c]) calls the server by RPC and brings the cache up
    to date with the answer, and the handler sends one reply.  The library
    models this path whole, from the table of handlers down to the bits of the
    hash function and the words of memory its lists are made of, and what is
    before and after it: [main] with the command line and the mount options, the
    mount, which builds the superblock a session starts from, the unmount, and the
    mount table /etc/mtab with its lock.

    ** State and effects

    A step of the program is a function [M world A := world -> outcome] (below):
    it returns, fails an assertion, does something C leaves undefined (a
    dereference of what is no inode, a call or a release on a destroyed RPC
    client, a write past a buffer), or runs out of the fuel of a loop.  The
    [world] (World.v) holds the heap of inodes by address, the superblock, the
    live RPC clients, the state of the environment and the replies sent.
    Integers are [Z] with the wrap-around of their C type written out
    ([u32], [u64], [s32], ...).  DEBUG and ERR messages print only and have no
    definition.

    Code outside the repository is the class [Env] (World.v): the RPC library
    with the server behind it, the allocator, and the address of
    [bad_hsfs_inode].  It is a state machine that may answer anything.
    What the theorems need of it are classes of documented laws:
    [MallocLaws] (a new inode overlaps no other one), [ClntLaws] (the handle
    of a new client is not null and not in use), [Connected] (a call does not fail with a lost
    connection), [ServerLaws] (a handle has at most 64 bytes, a reply that
    names an object carries its handle and attributes, a failed result has a
    failure status), [MemLaws] (memory for inodes and small buffers),
    [FileServer] (READ and WRITE act on the contents of a file, perhaps in part),
    [WireLaws] (what XDR decodes is in the range of its type on the wire)
    and the proposition [bad_inode_placed].  Sample.v and Calm.v give concrete
    environments, the second an instance of all of these classes: a server
    with a directory and a file that fails by script and answers short reads
    and writes.  The witnesses run the handlers on them.

    More parts have their own state and parameters.  Lists (Klist.v) run on
    memory as a map from addresses to words.  The mount table (Mtab.v) runs on
    the files, the chain of entries by address, and the statics of [fstab.c]; a
    step returns or ends the process with a code, and the calls of the system
    are the class [SysEnv], each free to fail.  The mount (Mount.v) runs on the
    [world] with the services of [MountEnv], and the command line (MainOpts.v)
    with libfuse as [FuseLib].  The string functions (Xcommon.v) run on blocks of
    bytes in a heap, with the allocator and [realpath] as [StrEnv].  [main]
    (Main.v) runs on a [world] and a state of the mount table side by side, with
    the session of libfuse as [LibFuse].  Laws again are classes: [Clients] (clients
    can be made), [Services] (the services of a mount answer), [RootLaws] (the root
    that is mounted exists), [ClockLaws] (time passes), [ChnLaws] and
    [StrLaws] (the allocators), [LoopLaws] (the loop of libfuse runs the handler
    of INIT and then of each request) and [LoopStarts] (it is entered).  That only
    [allowed] requests arrive is a hypothesis of its own, [allowed_sessions].

    ** Files

    - Prelude: integers, the monad, steps that may exit, lists; Bitops, Hash: [include/hsfs/bitops.h],
      [log2.h], [hash.h], [hashtable.h] (a bucket is the list its [hlist]
      links).
    - Proto: the messages of [nfs3.x] and [acl3.x] as records, the procedures as
      a type indexed by their result ([nfsproc]), [hsi_nfs3_stat_to_errno].
    - World: [include/hsfs.h], [include/hsfs/hsi_nfs.h], [include/hsfs/err.h].
    - Icache with IcacheFacts: [lib/hsfs_inode.c] and the invariant of the
      cache; the super operations it calls back are a record with the laws
      [SopLaws], which NfsInode discharges.
    - Attr: the conversions of attributes; AttrTypes: their ranges; TypeSafe:
      triples [typed m Q] (a step keeps every field in the range of its C type) for
      all operations and handlers.
    - Rpc: [hsi_nfs3_clnt_call] with its retries, and reconnection.
    - NfsInode: [nfs_common/hsi_nfs_inode.c].
    - Blocks: block and transfer sizes, STATFS.
    - Nfs3Ops: the operations of [nfs3/]; Acl: [hsi_acl3.c] and the extended
      attributes.
    - FuseOps, FuseIo: the handlers; Session: the table [hsfs_oper] of
      [fuse/hsfs_main.c], the requests, and sessions as a transition system.
    - Klist with KlistFacts: [include/hsfs/list.h] on words of memory, and the
      predicates [ring] and [chain] for what a list occupies; HashPtr:
      [hashtable.h] on top of it.
    - Mntent: [nfs3/nfs_mntent.c].
    - Lock: [lock_mtab], [unlock_mtab] and [die] as an automaton from one system
      call to the next; Mtab: the rest of [nfs3/fstab.c]; MtabFacts, MtabUpdate:
      rules for steps that may exit, the chain as a list.
    - Options: the parsing half of [nfs3/hsi_nfs3_mount.c]; Mount: the mount and
      the unmount.
    - MainOpts: the options and the mount table entry of [fuse/hsfs_main.c];
      Getopt: the long options and the letters of the program, with a model of
      [getopt_long] of the GNU C library that reads the arguments with them;
      Main: [main].
    - Xcommon: [fuse/xcommon.c], and [hsi_fix_opts_string] with its strings in
      memory.
    - Wp, Nfs3Spec, FileSpec, FuseSpec, RefSpec: total-correctness rules
      ([wp m Q w]: from [w] the step returns and [Q] holds) and the
      specifications of operations and handlers.
    - BitSpec, CacheSpec, SessionSpec, AttrSpec, AttrTypes, AclSpec, FsSpec,
      MntentSpec, ListSpec, LockSpec, MtabSpec, OptionsSpec, XcommonSpec,
      GetoptSpec, MainSpec, MountSpec, MountLoop, MountFail, LostConn, ProgSpec,
      ProgTypes: the properties with their witnesses; those that state what the
      program promises are numbered.

    ** What is proved

    Each theorem names its conditions; the comment before it says which failures
    they exclude, and where the code fails without them another theorem or a finding
    shows it.

    - The program (ProgSpec): from its arguments to its exit status.  When the
      services answer, the connection stays and only [allowed] requests arrive,
      [main] mounts, replies once to each request, and ends with the mount table as
      it was and the client destroyed.  The proof composes the theorems on the
      parts: the mount makes what a session starts from, the session keeps what the
      unmount needs.  Through every run that ends (TypeSafe, ProgTypes), with any
      requests, on error paths and after lost connections too, the integers of
      inodes, superblock and replies keep to the ranges of their C types.
    - Sessions (SessionSpec): the kernel's side is a ledger of the references it
      holds.  In every state that [allowed] requests lead to the cache is consistent
      and every reference the kernel holds is counted on a cached inode; every
      [allowed] request is served: the handler returns, with exactly one reply.
      LOOKUP replies the one inode of the object; READ and WRITE move exactly
      the requested bytes, whatever short answers the server gives.  The connection
      is not lost, objects come with attributes, and memory suffices.
    - Lost connections (LostConn): whatever calls fail and connections are lost,
      GETATTR, LOOKUP (when its answers carry attributes), RMDIR and STATFS, which
      release results on the client the superblock holds after the call, return with
      one reply, and both clients are live unless it is an error.
    - Cache (CacheSpec): a lookup through the hash table is a search of all
      inodes; a new inode gets a free number; a file handle has at most one
      inode, which [hsi_nfs_fhget] finds or makes and refreshes; dropping a
      reference keeps the cache consistent; a call on a live client returns.
    - Attributes, directories, lists, sizes (AttrSpec, AclSpec, FsSpec): what
      GETATTR and SETATTR reply and send, which entries a READDIR reply holds,
      the round trip of access control lists, the bounds on transfer sizes,
      the figures of STATFS, the error of a status.
    - Words (BitSpec): the branches of the macros of [log2.h] agree; rotations and
      sign extension at 8, 16 and 32 bits.
    - Mount (MountSpec): when the services answer, a mount returns a channel and
      leaves the state in which a session starts: what SessionSpec assumes of
      its first state is what the mount makes.  The attempts in the foreground
      end, and none starts after the time of [retry] (MountLoop).  While clients can
      be made, a mount whose services fail at any later step returns, with what a session starts
      from or with nothing left behind (MountFail).
    - Options (OptionsSpec): splitting a string is the inverse of joining its
      items; the options for the mount reach its parser, in order, and neither
      buffer overflows; the string of the mount table gives its flags and the
      options of the mount back.
    - Command line and strings (GetoptSpec, XcommonSpec): options in every spelling
      of [getopt_long], together, abbreviated or with attached arguments, are read
      back; the string of the mount table, built block by block in memory
      that may run out, is the one of the list definition, and no block is lost.
    - Mount table (MntentSpec, MtabSpec, MainSpec): a well-formed entry that is
      written is read back; [update_mtab] gives the lock up whatever fails, and while
      reading and closing do not fail it is atomic: the table is the old one or the
      one its comments ask for, but for an absent entry, which is not added to a
      table that has others; adding the entry of a mount and removing it restores
      the table.
    - Lock (LockSpec): several processes in any order, any call may fail: at most
      one has the lock; without signals and while the lock file can be removed, one
      that waits, with rounds left, can get it; each run of the functions ends.
    - Lists (ListSpec): the operations on memory refine those on lists, touch
      nothing else, and loops end after one round for each entry; the hash
      table of pointers refines the table of lists that Icache uses.
    - Where the code does not do what it means to, a theorem states what it
      does: LINK does not count its reference, SETXATTR replies twice, six
      handlers are silent about an unknown inode, error pointers are never
      recognised, a result is released on a destroyed client after a
      reconnection, granted rights are ignored, the size query for a list
      answers 34, small server maxima are exceeded, an entry that starts with #
      is lost, explicit times are sent as the time of the server, a signal in
      [unlock_mtab] lets two processes have the lock, a
      read error empties /etc/mtab, a new entry is not added to a table that
      has others, a mount without an answer from the NFS server destroys a null
      client, an option of 127 bytes overflows its buffer, [tcp] marks the mount
      read-only, [main] returns 0 after a mount that failed, attempts in the
      background never end, a refused mount leaves its clients open, GETATTR of an
      object that has been replaced replies a negative error, and setting one
      access control list of a directory overwrites the other one.

    ** Bounds and fuel

    The loops of READ and WRITE have no bound in the code.  [hsfs_oper] gives
    them one round for each byte and one for the last test; a server that
    obeys [FileServer] moves at least one byte in a round, so the fuel never runs
    out ([request_served]).  The loop that picks a number gets one round more
    than there are inodes, which [new_number_free] shows to be enough.
    [nfs_getmntent] consumes a byte in each round and gets one more round than
    there are bytes ([getmntent_total]).  The lock gets 1100000 rounds, and
    [run_lock_ends] shows that it ends within 1000020: the code counts 100000
    failures of two kinds, each within five calls.  A loop over the chain of
    entries gets one round more than the heap has entries ([places_size]).  The
    loop of the mount ends at the first success; in the background nothing else
    ends it ([background_mount_forever]), so its fuel is an argument of
    [hsx_fuse_mount] and [main].  In the foreground [foreground_mount_ends] gives
    the fuel that is enough: a round for each tick of the clock in the time of
    [retry], and one.  A session is within [limits]: at most 2^31 inodes, counts below 2^63, as an execution that starts from 0 is for
    any practical length.

    [allowed] (Session.v) is the set of requests the session theorems cover: about
    inodes the kernel holds, within the sizes of the FUSE protocol.  It leaves out LINK and
    SETXATTR, names of 255 characters for MKNOD (written past the end of a
    buffer) and a CREATE that finds an inode the kernel already holds (a
    failed assertion); the first two have theorems of their own.

    ** Not modelled

    The text of messages, of the usage and of the version; the mode and owner of
    /etc/mtab.tmp; the memory of the strings of the chain and of the command line, so
    neither who owns the strings that [dup_mntent] makes, [update_mtab] stores in the
    chain and [discard_mntentchn] and [free_mntent] release;
    XDR coding, which rpcgen generates; the test programs under HSFS_NFS3_TEST;
    code under #if 0 and [nfs_common/hsi_nfs_getroot.c], kernel code that nothing
    compiles; the variants of [hashtable.h] for RCU.  The session is
    single-threaded, as [fuse_session_loop] runs it.  The other lines of the
    implementation files are comments, prototypes, includes, calls that print,
    constants and fields that nothing uses, and what the preprocessor removes. *)

From stdpp Require Export base tactics option list numbers strings gmap.
From Stdlib Require Export ZArith Lia.

Set Default Proof Using "Type".

Declare Scope hsfs_scope.
Delimit Scope hsfs_scope with hsfs.
Global Open Scope hsfs_scope.
Global Open Scope Z_scope.

(** ** Machine integers

    An integer of the source is a [Z] in the range of its C type; the
    conversions of C are written out where the source performs them. *)

Definition u8 (x : Z) : Z := x mod 2 ^ 8.
Definition u16 (x : Z) : Z := x mod 2 ^ 16.
Definition u32 (x : Z) : Z := x mod 2 ^ 32.
Definition u64 (x : Z) : Z := x mod 2 ^ 64.

Definition s32 (x : Z) : Z :=
  if u32 x <? 2 ^ 31 then u32 x else u32 x - 2 ^ 32.
Definition s64 (x : Z) : Z :=
  if u64 x <? 2 ^ 63 then u64 x else u64 x - 2 ^ 64.

(** The C truth value of [x & m]. *)
Definition flag (x m : Z) : bool := negb (Z.land x m =? 0).

(** [x &= ~m] on an unsigned operand: the bits of [m] are cleared. *)
Definition clear_bits (x m : Z) : Z := Z.ldiff x m.

Lemma u32_range x : 0 <= u32 x < 2 ^ 32.
Proof. apply Z.mod_pos_bound. lia. Qed.

Lemma u64_range x : 0 <= u64 x < 2 ^ 64.
Proof. apply Z.mod_pos_bound. lia. Qed.

Lemma u32_small x : 0 <= x < 2 ^ 32 -> u32 x = x.
Proof. apply Z.mod_small. Qed.

Lemma u64_small x : 0 <= x < 2 ^ 64 -> u64 x = x.
Proof. apply Z.mod_small. Qed.

Lemma s64_small x : 0 <= x < 2 ^ 63 -> s64 x = x.
Proof.
  intros Hx. unfold s64. rewrite u64_small by lia.
  destruct (Z.ltb_spec x (2 ^ 63)); lia.
Qed.

Lemma s32_small x : 0 <= x < 2 ^ 31 -> s32 x = x.
Proof.
  intros Hx. unfold s32. rewrite u32_small by lia.
  destruct (Z.ltb_spec x (2 ^ 31)); lia.
Qed.

(** ** Outcomes and the state monad

    A step of the program returns, fails an [assert], touches memory that
    is not there (a freed or invalid pointer, or a write past a buffer), or
    exceeds the bound put on a loop of the source.  The last case exists only
    in the model; a theorem of termination rules it out. *)

Inductive outcome (W A : Type) : Type :=
  | Ret (a : A) (w : W)
  | Abort
  | Undef
  | NoFuel.
Arguments Ret {W A} _ _.
Arguments Abort {W A}.
Arguments Undef {W A}.
Arguments NoFuel {W A}.

Definition M (W A : Type) : Type := W -> outcome W A.

Definition ret {W A} (a : A) : M W A := fun w => Ret a w.

Definition bind {W A B} (m : M W A) (k : A -> M W B) : M W B :=
  fun w =>
    match m w with
    | Ret a w' => k a w'
    | Abort => Abort
    | Undef => Undef
    | NoFuel => NoFuel
    end.

Definition undef {W A} : M W A := fun _ => Undef.
Definition get {W} : M W W := fun w => Ret w w.
Definition modify {W} (f : W -> W) : M W unit := fun w => Ret tt (f w).

(** [assert(b)] of <assert.h>. *)
Definition c_assert {W} (b : bool) : M W unit :=
  fun w => if b then Ret tt w else Abort.

Notation "'let!' x ':=' m 'in' k" := (bind m (fun x => k))
  (at level 10, x name, m at level 100, k at level 200,
   format "'[v' 'let!'  x  ':='  m  'in' '/' k ']'") : hsfs_scope.
Notation "'do!' m 'in' k" := (bind m (fun _ => k))
  (at level 10, m at level 100, k at level 200,
   format "'[v' 'do!'  m  'in' '/' k ']'") : hsfs_scope.

Lemma bind_ret_inv {W A B} (m : M W A) (k : A -> M W B) w b w' :
  bind m k w = Ret b w' -> exists a w1, m w = Ret a w1 /\ k a w1 = Ret b w'.
Proof. unfold bind. destruct (m w); naive_solver. Qed.

Lemma bind_ret {W A B} (m : M W A) (k : A -> M W B) w a w1 :
  m w = Ret a w1 -> bind m k w = k a w1.
Proof. unfold bind. by intros ->. Qed.

(** ** Total correctness

    [wp m Q w]: from [w] the step returns, with a result and a state that satisfy
    [Q] (so it neither fails an assertion nor is undefined nor runs out of
    fuel). *)
Definition wp {W A} (m : M W A) (Q : A -> W -> Prop) (w : W) : Prop :=
  exists a w', m w = Ret a w' /\ Q a w'.

Section WpRules.
Context {W : Type}.

Lemma wp_ret {A} (a : A) (Q : A -> W -> Prop) w : Q a w -> wp (ret a) Q w.
Proof. intros HQ. by exists a, w. Qed.

Lemma wp_bind {A B} (m : M W A) (k : A -> M W B) Q w :
  wp m (fun a w' => wp (k a) Q w') w -> wp (bind m k) Q w.
Proof.
  intros (a & w1 & Hm & b & w2 & Hk & HQ). exists b, w2. split; [|done].
  by rewrite (bind_ret _ _ _ _ _ Hm).
Qed.

Lemma wp_mono {A} (m : M W A) (Q Q' : A -> W -> Prop) w :
  wp m Q w -> (forall a w', Q a w' -> Q' a w') -> wp m Q' w.
Proof. intros (a & w' & Hm & HQ) Himp. exists a, w'. auto. Qed.

Lemma wp_and {A} (m : M W A) (Q Q' : A -> W -> Prop) w :
  wp m Q w -> wp m Q' w -> wp m (fun a w' => Q a w' /\ Q' a w') w.
Proof. intros (a & w' & Hm & HQ) (b & w2 & Hm2 & HQ'). rewrite Hm in Hm2. injection Hm2 as <- <-. by exists a, w'. Qed.

Lemma wp_assert b (Q : unit -> W -> Prop) w : b = true -> Q tt w -> wp (c_assert b) Q w.
Proof. intros -> HQ. by exists tt, w. Qed.
End WpRules.

(** ** Processes that may exit

    A step that returns a value or ends the process with the code of [exit]. *)
Definition XM (W A : Type) : Type := M W (A + Z).

Definition xret {W A} (a : A) : XM W A := ret (inl a).
Definition xexit {W A} (code : Z) : XM W A := ret (inr code).
Definition xbind {W A B} (x : XM W A) (k : A -> XM W B) : XM W B :=
  let! r := x in match r with inl a => k a | inr c => xexit c end.
Definition xget {W} : XM W W := fun w => Ret (inl w) w.
Definition xmodify {W} (f : W -> W) : XM W unit := fun w => Ret (inl tt) (f w).

Notation "'let^' x ':=' m 'in' k" := (xbind m (fun x => k))
  (at level 10, x name, m at level 100, k at level 200) : hsfs_scope.
Notation "'do^' m 'in' k" := (xbind m (fun _ => k))
  (at level 10, m at level 100, k at level 200) : hsfs_scope.

Section ExitRules.
Context {W : Type}.

Lemma wp_xbind {A B} (x : XM W A) (k : A -> XM W B) (Q : B + Z -> W -> Prop) w :
  wp x (fun r w' => match r with inl a => wp (k a) Q w' | inr c => Q (inr c) w' end) w ->
  wp (xbind x k) Q w.
Proof.
  intros Hx. apply wp_bind. eapply wp_mono; [exact Hx|]. intros [a|c] w' H; [done|by apply wp_ret].
Qed.

Lemma wp_xret {A} (a : A) (Q : A + Z -> W -> Prop) w : Q (inl a) w -> wp (xret a) Q w.
Proof. apply wp_ret. Qed.

Lemma wp_xget (Q : W + Z -> W -> Prop) w : Q (inl w) w -> wp xget Q w.
Proof. intros. by exists (inl w), w. Qed.

Lemma wp_xmodify f (Q : unit + Z -> W -> Prop) w : Q (inl tt) (f w) -> wp (xmodify f) Q w.
Proof. intros. by exists (inl tt), (f w). Qed.
End ExitRules.

(** [inv_bind] opens every hypothesis that a sequence of steps returned. *)
Ltac inv_bind :=
  repeat match goal with
  | H : bind _ _ _ = Ret _ _ |- _ =>
      let x := fresh "x" in let w := fresh "w" in
      let H1 := fresh "Hm" in let H2 := fresh "Hk" in
      apply bind_ret_inv in H as (x & w & H1 & H2)
  | H : ret _ _ = Ret _ _ |- _ => injection H as ? ?; subst
  | H : get _ = Ret _ _ |- _ => injection H as ? ?; subst
  | H : modify _ _ = Ret _ _ |- _ => injection H as ? ?; subst
  | H : undef _ = Ret _ _ |- _ => discriminate H
  end.

(** [case_if] splits on the conditions of the source in the goal, or, as
    [case_if_in H], in a hypothesis, and puts comparisons in [Prop]. *)
Ltac to_prop :=
  repeat match goal with
  | H : (_ =? _) = true |- _ => apply Z.eqb_eq in H
  | H : (_ =? _) = false |- _ => apply Z.eqb_neq in H
  | H : (_ <? _) = true |- _ => apply Z.ltb_lt in H
  | H : (_ <? _) = false |- _ => apply Z.ltb_ge in H
  | H : (_ <=? _) = true |- _ => apply Z.leb_le in H
  | H : (_ <=? _) = false |- _ => apply Z.leb_gt in H
  | H : negb _ = true |- _ => apply negb_true_iff in H
  | H : negb _ = false |- _ => apply negb_false_iff in H
  | H : _ && _ = true |- _ => apply andb_true_iff in H as [? ?]
  | H : _ || _ = false |- _ => apply orb_false_iff in H as [? ?]
  end.

Ltac case_if :=
  match goal with
  | |- context [if ?b then _ else _] =>
      let E := fresh "E" in destruct b eqn:E; to_prop
  end.

Ltac case_if_in H :=
  match type of H with
  | context [if ?b then _ else _] =>
      let E := fresh "E" in destruct b eqn:E; to_prop
  end.

(** ** Lemmas on lists shared by the components *)

Lemma take_app_exact {A} (l1 l2 : list A) n :
  n = length l1 -> take n (l1 ++ l2) = l1.
Proof. intros ->. by rewrite take_app_length. Qed.

Lemma drop_app_exact {A} (l1 l2 : list A) n :
  n = length l1 -> drop n (l1 ++ l2) = l2.
Proof. intros ->. by rewrite drop_app_length. Qed.

(** The last of a list with what comes before it. *)
Lemma last_cons_hd (a n : Z) l : List.last (n :: l) a = List.last l n.
Proof.
  revert a n. induction l as [|b l IH]; intros a n; [done|].
  change (List.last (n :: b :: l) a) with (List.last (b :: l) a).
  by rewrite (IH a b), (IH n b).
Qed.

Lemma last_in (a : Z) l : List.last l a ∈ a :: l.
Proof.
  destruct l as [|x l _] using rev_ind; [left|]. rewrite last_last. right. apply elem_of_app. right. left.
Qed.

(** The bytes of a string. *)
Definition bytes_of (s : string) : list Z :=
  (fun a => Z.of_nat (Ascii.nat_of_ascii a)) <$> String.list_ascii_of_string s.

Create HintDb hsfs.
#[export] Hint Resolve u32_range u64_range : hsfs.

(** The contents [C] after [d] is written at [off]; a gap is filled with zeros,
    and a write of nothing does nothing. *)
Definition splice (off : nat) (d C : list Z) : list Z :=
  match d with
  | [] => C
  | _ => take off (C ++ replicate (off - length C) 0) ++ d ++ drop (off + length d) C
  end.

Lemma splice_lookup off d C i :
  splice off d C !! i =
    if decide (d = []) then C !! i
    else if decide (i < off)%nat then Some (default 0 (C !! i))
    else if decide (i < off + length d)%nat then d !! (i - off)%nat
    else C !! i.
Proof.
  destruct d as [|x d]; [done|]. set (d' := x :: d).
  change (splice off d' C) with
    (take off (C ++ replicate (off - length C) 0) ++ d' ++ drop (off + length d') C).
  assert (Hlen : length (take off (C ++ replicate (off - length C) 0)) = off)
    by (rewrite length_take, length_app, length_replicate; lia).
  rewrite (decide_False (P := d' = [])) by done.
  destruct (decide (i < off)%nat) as [Hi|Hi].
  - rewrite lookup_app_l by lia. rewrite lookup_take_lt by done.
    destruct (decide (i < length C)%nat) as [Hc|Hc].
    + rewrite lookup_app_l by done. destruct (lookup_lt_is_Some_2 C i Hc) as [y Hy]. by rewrite Hy.
    + rewrite lookup_app_r by lia. rewrite (lookup_ge_None_2 C) by lia.
      apply lookup_replicate_2. lia.
  - rewrite lookup_app_r by lia. rewrite Hlen.
    destruct (decide (i < off + length d')%nat).
    + by rewrite lookup_app_l by lia.
    + rewrite lookup_app_r by lia. rewrite lookup_drop. f_equal. lia.
Qed.

(** Writing the next piece of [buf] after the first [j] bytes of it. *)
Lemma splice_next off cnt j k buf C :
  (cnt <= j)%nat -> (cnt + k <= length buf)%nat -> (j <= length buf)%nat ->
  splice (off + cnt) (take k (drop cnt buf)) (splice off (take j buf) C) =
    splice off (take (Nat.max j (cnt + k)) buf) C.
Proof.
  intros Hj Hk Hjl. destruct (decide (k = 0)%nat) as [->|Hk0].
  { rewrite take_0. simpl. f_equal. f_equal. lia. }
  assert (Hlt : length (take k (drop cnt buf)) = k) by (rewrite length_take, length_drop; lia).
  assert (Hlm : length (take (Nat.max j (cnt + k)) buf) = Nat.max j (cnt + k))
    by (rewrite length_take; lia).
  assert (Hlj : length (take j buf) = j) by (rewrite length_take; lia).
  apply list_eq. intros i. rewrite !splice_lookup, Hlt, Hlm, Hlj.
  rewrite (decide_False (P := take k (drop cnt buf) = []))
    by (intros H0; rewrite H0 in Hlt; simpl in Hlt; lia).
  rewrite (decide_False (P := take (Nat.max j (cnt + k)) buf = []))
    by (intros H0; rewrite H0 in Hlm; simpl in Hlm; lia).
  assert (Hnil : take j buf = [] <-> j = 0%nat).
  { rewrite <- Hlj at 2. by rewrite length_zero_iff_nil. }
  rewrite (decide_ext (take j buf = []) (j = 0%nat)) by done.
  repeat case_decide; try lia;
    rewrite ?lookup_take_lt, ?lookup_drop by lia; try done; try (f_equal; lia).
  - assert (Hi : is_Some (buf !! (i - off)%nat)) by (apply lookup_lt_is_Some; lia).
    by destruct Hi as [y ->].
Qed.
