(* ===== verification/Bitops.v ===== *)
(** * Bit operations and binary logarithms

    [include/hsfs/compiler.h], [include/hsfs/bitops.h] and
    [include/hsfs/log2.h]: find-last-set, rotations, powers of two.  A call
    whose behaviour C leaves undefined (a count of leading zeros of 0, a
    shift by the width of the operand) is [None]. *)

From S2P Require Import Prelude.

(** ** compiler.h *)

(** [__builtin_clz(x)] of a 32-bit and [__builtin_clzll(x)] of a 64-bit
    operand: undefined at 0. *)
Definition clz (w x : Z) : option Z :=
  if x =? 0 then None else Some (w - 1 - Z.log2 x).

Definition fls (x : Z) : option Z :=
  c ← clz 32 (u32 x); Some (32 - c).
Definition fls64 (x : Z) : option Z :=
  c ← clz 64 (u64 x); Some (64 - c).

(** [__builtin_ffs] of a 32-bit operand: one more than the index of the lowest
    set bit, or 0; [__ffs] passes its operand on as an [int]. *)
Definition builtin_ffs (x : Z) : Z :=
  if u32 x =? 0 then 0 else Z.log2 (Z.land (u32 x) (- u32 x)) + 1.
Definition __ffs (x : Z) : Z := builtin_ffs x.

(** ** bitops.h *)

(** A rotation of a [w]-bit word, [shift] a count in [0, w): at [shift = 0]
    the source shifts by [w], which is undefined. *)
Definition rol_w (w word shift : Z) : option Z :=
  if (0 <? shift) && (shift <? w) then
    Some (Z.lor (Z.shiftl word shift mod 2 ^ w) (Z.shiftr word (w - shift)))
  else None.
Definition ror_w (w word shift : Z) : option Z :=
  if (0 <? shift) && (shift <? w) then
    Some (Z.lor (Z.shiftr word shift) (Z.shiftl word (w - shift) mod 2 ^ w))
  else None.

Definition rol64 := rol_w 64.
Definition ror64 := ror_w 64.
Definition rol32 := rol_w 32.
Definition ror32 := ror_w 32.

(** The narrow words are promoted to [int] before they are shifted: a shift by
    the width is defined, a left shift out of the range of [int] is not, and the
    result is cut to the width. *)
Definition shl_int (x shift : Z) : option Z :=
  if Z.shiftl x shift <? 2 ^ 31 then Some (Z.shiftl x shift) else None.

Definition rol_narrow (w word shift : Z) : option Z :=
  if (0 <=? shift) && (shift <=? w) then
    l ← shl_int word shift; Some (Z.lor l (Z.shiftr word (w - shift)) mod 2 ^ w)
  else None.
Definition ror_narrow (w word shift : Z) : option Z :=
  if (0 <=? shift) && (shift <=? w) then
    l ← shl_int word (w - shift); Some (Z.lor (Z.shiftr word shift) l mod 2 ^ w)
  else None.

Definition rol16 := rol_narrow 16.
Definition ror16 := ror_narrow 16.
Definition rol8 := rol_narrow 8.
Definition ror8 := ror_narrow 8.

(** [shift] is a [__u8]; a shift of a 32-bit word by 32 or more is undefined.
    The right shift of a negative [__s32] keeps its sign. *)
Definition sign_extend32 (value index : Z) : option Z :=
  let shift := u8 (31 - index) in
  if shift <? 32 then Some (Z.shiftr (s32 (Z.shiftl value shift)) shift) else None.

Definition get_bitmask_order (count : Z) : option Z := fls count.

Definition get_count_order (count : Z) : option Z :=
  order ← fls count;
  let order := order - 1 in
  Some (if flag count (u32 (count - 1)) then order + 1 else order).

(** [fls_long] on a machine with 64-bit longs. *)
Definition fls_long (l : Z) : option Z := fls64 l.

(** [__ffs64] on such a machine: the [unsigned long] is passed on to [__ffs],
    and the [int] comes back as an [unsigned long]. *)
Definition __ffs64 (word : Z) : Z := u64 (__ffs word).

(** ** log2.h *)

Definition __ilog2_u32 (n : Z) : option Z := c ← fls n; Some (c - 1).
Definition __ilog2_u64 (n : Z) : option Z := c ← fls64 n; Some (c - 1).

Definition is_power_of_2 (n : Z) : bool :=
  negb (n =? 0) && (Z.land n (u64 (n - 1)) =? 0).

Definition __roundup_pow_of_two (n : Z) : option Z :=
  c ← fls_long (u64 (n - 1));
  if c <? 64 then Some (u64 (Z.shiftl 1 c)) else None.

Definition __rounddown_pow_of_two (n : Z) : option Z :=
  c ← fls_long n; Some (u64 (Z.shiftl 1 (c - 1))).

(** The macros have a branch for constants: a chain of tests from bit 63 down.
    [constant] is what [__builtin_constant_p] answers and [size] is [sizeof(n)];
    [____ilog2_NaN] is nowhere defined. *)
Fixpoint ilog2_chain (bits : nat) (n : Z) : option Z :=
  match bits with
  | O => None
  | S b => if flag n (Z.shiftl 1 (Z.of_nat b)) then Some (Z.of_nat b) else ilog2_chain b n
  end.

Definition ilog2 (constant : bool) (size n : Z) : option Z :=
  if constant then if n <? 1 then None else ilog2_chain 64 n
  else if size <=? 4 then __ilog2_u32 n else __ilog2_u64 n.

(** On an [unsigned long]; a shift by 64 is undefined. *)
Definition roundup_pow_of_two (constant : bool) (n : Z) : option Z :=
  if constant then
    if n =? 1 then Some 1
    else l ← ilog2 true 8 (u64 (n - 1)); if l + 1 <? 64 then Some (Z.shiftl 1 (l + 1)) else None
  else __roundup_pow_of_two n.

Definition rounddown_pow_of_two (constant : bool) (n : Z) : option Z :=
  if constant then l ← ilog2 true 8 n; Some (Z.shiftl 1 l) else __rounddown_pow_of_two n.

Definition order_base_2 (constant : bool) (n : Z) : option Z :=
  p ← roundup_pow_of_two constant n; ilog2 constant 8 p.

(** ** Properties *)

Lemma fls64_log2 n :
  0 < n < 2 ^ 64 -> fls64 n = Some (Z.log2 n + 1).
Proof.
  intros Hn. unfold fls64, clz. rewrite u64_small by lia.
  destruct (Z.eqb_spec n 0); [lia|]. simpl. f_equal. lia.
Qed.

Lemma ilog2_u64_log2 n :
  0 < n < 2 ^ 64 -> __ilog2_u64 n = Some (Z.log2 n).
Proof. intros Hn. unfold __ilog2_u64. rewrite fls64_log2 by done. simpl. f_equal. lia. Qed.

Lemma log2_lt_width n w : 0 < n < 2 ^ w -> 0 <= Z.log2 n < w.
Proof.
  intros Hn. split; [apply Z.log2_nonneg|]. apply Z.log2_lt_pow2; lia.
Qed.

(** Clearing the lowest bit: [n & (n - 1)] is 0 exactly at the powers of two. *)
Lemma land_pred_log2 n :
  0 < n -> Z.land n (n - 1) = 0 <-> n = 2 ^ Z.log2 n.
Proof.
  intros Hn. pose proof (Z.log2_spec n Hn) as [Hlo Hhi]. split.
  - intros H0. destruct (Z.eq_dec n (2 ^ Z.log2 n)) as [|Hne]; [done|].
    exfalso. assert (Htb : Z.testbit (Z.land n (n - 1)) (Z.log2 n) = true).
    { rewrite Z.land_spec, Z.bit_log2 by lia. simpl.
      replace (Z.log2 n) with (Z.log2 (n - 1)); [apply Z.bit_log2|].
      - pose proof (Z.pow_pos_nonneg 2 (Z.log2 n)). pose proof (Z.log2_nonneg n). lia.
      - apply Z.log2_unique; [apply Z.log2_nonneg|]. lia. }
    by rewrite H0, Z.bits_0 in Htb.
  - intros ->. set (k := Z.log2 n).
    replace (2 ^ k - 1) with (Z.ones k) by (rewrite Z.ones_equiv; lia).
    rewrite Z.land_ones by apply Z.log2_nonneg.
    apply Z.mod_same. pose proof (Z.pow_pos_nonneg 2 k). pose proof (Z.log2_nonneg n). lia.
Qed.

Lemma is_power_of_2_spec n :
  0 <= n < 2 ^ 64 ->
  is_power_of_2 n = true <-> exists k, 0 <= k < 64 /\ n = 2 ^ k.
Proof.
  intros Hn. unfold is_power_of_2.
  destruct (Z.eqb_spec n 0) as [->|Hn0]; simpl.
  - split; [done|]. intros (k & Hk & E). pose proof (Z.pow_pos_nonneg 2 k). lia.
  - rewrite u64_small, Z.eqb_eq, land_pred_log2 by lia. split.
    + intros E. exists (Z.log2 n). split; [apply log2_lt_width; lia|done].
    + intros (k & Hk & ->). by rewrite Z.log2_pow2 by lia.
Qed.

Lemma rounddown_pow_of_two_spec n :
  0 < n < 2 ^ 64 ->
  exists r, __rounddown_pow_of_two n = Some r /\
    is_power_of_2 r = true /\ r <= n < 2 * r.
Proof.
  intros Hn. pose proof (log2_lt_width n 64 Hn) as Hk.
  pose proof (Z.log2_spec n) as Hs. exists (2 ^ Z.log2 n).
  assert (Hr : 0 < 2 ^ Z.log2 n < 2 ^ 64)
    by (split; [apply Z.pow_pos_nonneg|apply Z.pow_lt_mono_r]; lia).
  split_and!.
  - unfold __rounddown_pow_of_two, fls_long. rewrite fls64_log2 by done. simpl.
    replace (Z.log2 n + 1 - 1) with (Z.log2 n) by lia.
    by rewrite Z.shiftl_1_l, u64_small by lia.
  - apply is_power_of_2_spec; [lia|]. exists (Z.log2 n). lia.
  - lia.
  - rewrite Z.pow_succ_r in Hs; lia.
Qed.

(** Two words agree when their low [w] bits do. *)
Definition fits (w x : Z) : Prop := forall i, w <= i -> Z.testbit x i = false.

Lemma fits_range w x : 0 <= w -> 0 <= x < 2 ^ w -> fits w x.
Proof.
  intros Hw Hx i Hi. rewrite <- (Z.mod_small x (2 ^ w)) by done.
  apply Z.mod_pow2_bits_high. lia.
Qed.

Lemma rol_w_bits w word shift r i :
  fits w word -> rol_w w word shift = Some r -> 0 <= i ->
  Z.testbit r i = if i <? w then Z.testbit word ((i - shift) mod w) else false.
Proof.
  intros Hw Hr Hi. unfold rol_w in Hr. case_if_in Hr; [|done]. injection Hr as <-.
  rewrite Z.lor_spec, Z.shiftr_spec by lia. destruct (Z.ltb_spec i w).
  - rewrite Z.mod_pow2_bits_low, Z.shiftl_spec by lia.
    destruct (Z.ltb_spec i shift).
    + rewrite Z.testbit_neg_r by lia. simpl. f_equal.
      apply (Z.mod_unique _ _ (-1)); lia.
    + rewrite (Hw (i + (w - shift))) by lia. rewrite orb_false_r. f_equal.
      symmetry. apply Z.mod_small. lia.
  - rewrite Z.mod_pow2_bits_high by lia. simpl. apply Hw. lia.
Qed.

Lemma ror_w_bits w word shift r i :
  fits w word -> ror_w w word shift = Some r -> 0 <= i ->
  Z.testbit r i = if i <? w then Z.testbit word ((i + shift) mod w) else false.
Proof.
  intros Hw Hr Hi. unfold ror_w in Hr. case_if_in Hr; [|done]. injection Hr as <-.
  rewrite Z.lor_spec, Z.shiftr_spec by lia. destruct (Z.ltb_spec i w).
  - rewrite Z.mod_pow2_bits_low, Z.shiftl_spec by lia.
    destruct (Z.ltb_spec i (w - shift)).
    + rewrite (Z.testbit_neg_r _ (i - _)), orb_false_r by lia. f_equal.
      symmetry. apply Z.mod_small. lia.
    + rewrite (Hw (i + shift)) by lia. simpl. f_equal.
      apply (Z.mod_unique _ _ 1); lia.
  - rewrite Z.mod_pow2_bits_high, (Hw (i + shift)) by lia. done.
Qed.

Lemma rol_w_fits w word shift r :
  0 <= w -> fits w word -> rol_w w word shift = Some r -> fits w r.
Proof.
  intros Hw Hf Hr i Hi. rewrite (rol_w_bits _ _ _ _ _ Hf Hr) by lia.
  by destruct (Z.ltb_spec i w); [lia|].
Qed.

Lemma ror_rol_w w word shift :
  0 < shift < w -> 0 <= word < 2 ^ w ->
  rol_w w word shift ≫= (fun r => ror_w w r shift) = Some word.
Proof.
  intros Hs Hword. pose proof (fits_range w word ltac:(lia) Hword) as Hf.
  destruct (rol_w w word shift) as [r|] eqn:Hr; simpl.
  2:{ unfold rol_w in Hr. destruct (Z.ltb_spec 0 shift), (Z.ltb_spec shift w); simpl in Hr; lia || done. }
  pose proof (rol_w_fits w word shift r ltac:(lia) Hf Hr) as Hfr.
  destruct (ror_w w r shift) as [v|] eqn:Hv.
  2:{ unfold ror_w in Hv. destruct (Z.ltb_spec 0 shift), (Z.ltb_spec shift w); simpl in Hv; lia || done. }
  f_equal. apply Z.bits_inj'. intros i Hi.
  rewrite (ror_w_bits _ _ _ _ _ Hfr Hv Hi). destruct (Z.ltb_spec i w).
  - rewrite (rol_w_bits _ _ _ _ _ Hf Hr) by (apply Z.mod_pos_bound; lia).
    pose proof (Z.mod_pos_bound (i + shift) w ltac:(lia)).
    destruct (Z.ltb_spec ((i + shift) mod w) w); [|lia].
    rewrite Zminus_mod_idemp_l. f_equal. rewrite Z.add_simpl_r. apply Z.mod_small. lia.
  - symmetry. apply Hf. lia.
Qed.

(** Rotating a 64-bit or a 32-bit word right undoes rotating it left by the
    same count. *)
Lemma ror64_rol64 word shift :
  0 < shift < 64 -> 0 <= word < 2 ^ 64 ->
  rol64 word shift ≫= (fun r => ror64 r shift) = Some word.
Proof. apply ror_rol_w. Qed.
