(* ===== verification/BitSpec.v ===== *)
(** * Properties of logarithms, powers of two and narrow words

    The macros of [include/hsfs/log2.h] have one branch for constants, which the
    compiler folds, and one that runs; both compute the same function where
    they are defined. *)

From S2P Require Import Prelude Bitops.

(** ** The chain of tests *)

Lemma flag_pow2 n b : 0 <= b -> flag n (Z.shiftl 1 b) = Z.testbit n b.
Proof.
  intros Hb. unfold flag. rewrite Z.shiftl_1_l.
  assert (E : Z.land n (2 ^ b) = if Z.testbit n b then 2 ^ b else 0).
  { apply Z.bits_inj'. intros i Hi. rewrite Z.land_spec, Z.pow2_bits_eqb by done.
    destruct (Z.eqb_spec b i) as [<-|Hne].
    - rewrite andb_true_r. destruct (Z.testbit n b) eqn:Hn; [|by rewrite Z.bits_0].
      by rewrite Z.pow2_bits_true.
    - rewrite andb_false_r. destruct (Z.testbit n b); [by rewrite Z.pow2_bits_false|by rewrite Z.bits_0]. }
  rewrite E. destruct (Z.testbit n b); [|done].
  destruct (Z.eqb_spec (2 ^ b) 0); [|done]. pose proof (Z.pow_pos_nonneg 2 b). lia.
Qed.

Lemma ilog2_chain_log2 bits n :
  0 < n < 2 ^ Z.of_nat bits -> ilog2_chain bits n = Some (Z.log2 n).
Proof.
  induction bits as [|b IH]; intros Hn; [simpl in Hn; lia|].
  cbn [ilog2_chain]. rewrite flag_pow2 by lia. destruct (Z.testbit n (Z.of_nat b)) eqn:Hb.
  - f_equal. pose proof (log2_lt_width n _ Hn). destruct (Z.eq_dec (Z.log2 n) (Z.of_nat b)); [done|].
    rewrite Z.bits_above_log2 in Hb by lia. done.
  - apply IH. split; [lia|]. destruct (Z.lt_ge_cases n (2 ^ Z.of_nat b)) as [|Hge]; [done|]. exfalso.
    rewrite <- (Z.log2_unique n (Z.of_nat b)), Z.bit_log2 in Hb; [done|lia|lia|].
    split; [done|]. rewrite <- Nat2Z.inj_succ. lia.
Qed.

Lemma fls_log2 n : 0 < n < 2 ^ 32 -> fls n = Some (Z.log2 n + 1).
Proof.
  intros Hn. unfold fls, clz. rewrite u32_small by lia.
  destruct (Z.eqb_spec n 0); [lia|]. simpl. f_equal. lia.
Qed.

Lemma ilog2_u32_log2 n : 0 < n < 2 ^ 32 -> __ilog2_u32 n = Some (Z.log2 n).
Proof. intros Hn. unfold __ilog2_u32. rewrite fls_log2 by done. simpl. f_equal. lia. Qed.

Lemma ilog2_value constant n : 0 < n < 2 ^ 64 -> ilog2 constant 8 n = Some (Z.log2 n).
Proof.
  intros Hn. unfold ilog2. destruct constant; [|by apply ilog2_u64_log2].
  destruct (Z.ltb_spec n 1); [lia|]. by apply ilog2_chain_log2.
Qed.

(** [log2_up n] is the exponent of the least power of two that is not below. *)
Lemma log2_pred_up n : 1 < n -> Z.log2 (n - 1) + 1 = Z.log2_up n.
Proof. intros Hn. rewrite Z.log2_up_eqn by done. rewrite <- Z.sub_1_r. lia. Qed.

Lemma log2_up_63 n : 1 < n <= 2 ^ 63 -> 0 < Z.log2_up n <= 63.
Proof.
  intros Hn. split; [apply Z.log2_up_pos; lia|].
  rewrite <- (Z.log2_up_pow2 63) by lia. apply Z.log2_up_le_mono. lia.
Qed.

Lemma roundup_value constant n :
  1 < n <= 2 ^ 63 -> roundup_pow_of_two constant n = Some (2 ^ Z.log2_up n).
Proof.
  intros Hn. pose proof (log2_up_63 n Hn) as Hu.
  assert (Hp : 0 < 2 ^ Z.log2_up n < 2 ^ 64)
    by (split; [apply Z.pow_pos_nonneg|apply Z.pow_lt_mono_r]; lia).
  unfold roundup_pow_of_two, __roundup_pow_of_two, fls_long. rewrite u64_small by lia.
  destruct constant.
  - destruct (Z.eqb_spec n 1); [lia|]. rewrite ilog2_value by lia. simpl.
    rewrite log2_pred_up by lia. destruct (Z.ltb_spec (Z.log2_up n) 64); [|lia]. by rewrite Z.shiftl_1_l.
  - rewrite fls64_log2 by lia. simpl. rewrite log2_pred_up by lia.
    destruct (Z.ltb_spec (Z.log2_up n) 64); [|lia]. by rewrite Z.shiftl_1_l, u64_small by lia.
Qed.

Lemma rounddown_value constant n :
  0 < n < 2 ^ 64 -> rounddown_pow_of_two constant n = Some (2 ^ Z.log2 n).
Proof.
  intros Hn. pose proof (log2_lt_width n 64 Hn).
  assert (Hp : 0 < 2 ^ Z.log2 n < 2 ^ 64)
    by (split; [apply Z.pow_pos_nonneg|apply Z.pow_lt_mono_r]; lia).
  unfold rounddown_pow_of_two, __rounddown_pow_of_two, fls_long. destruct constant.
  - rewrite ilog2_value by done. simpl. by rewrite Z.shiftl_1_l.
  - rewrite fls64_log2 by done. simpl. rewrite Z.add_simpl_r. by rewrite Z.shiftl_1_l, u64_small by lia.
Qed.

(** The two branches of the macros of [log2.h] compute the same function:
    [ilog2] is the binary logarithm of every 64-bit number but 0, by the chain of
    tests, by counting leading zeros in 64 bits and, for a number of 32 bits, in
    32; [rounddown_pow_of_two] and [roundup_pow_of_two] give the powers of two
    next to the number, and [order_base_2] the exponent of the latter.  At 1 they
    part: the constant branch of [roundup_pow_of_two] answers 1, and the other one
    counts the leading zeros of 0, which is undefined. *)
Theorem log2_branches_agree n :
  0 < n < 2 ^ 64 ->
  (ilog2 true 8 n = Some (Z.log2 n) /\ ilog2 false 8 n = Some (Z.log2 n) /\
   (n < 2 ^ 32 -> ilog2 true 4 n = Some (Z.log2 n) /\ ilog2 false 4 n = Some (Z.log2 n))) /\
  (forall constant, exists d, rounddown_pow_of_two constant n = Some d /\
     is_power_of_2 d = true /\ d <= n < 2 * d) /\
  (1 < n <= 2 ^ 63 -> forall constant, exists u, roundup_pow_of_two constant n = Some u /\
     is_power_of_2 u = true /\ n <= u < 2 * n /\ order_base_2 constant n = Some (Z.log2 u)) /\
  roundup_pow_of_two true 1 = Some 1 /\ roundup_pow_of_two false 1 = None.
Proof.
  intros Hn. pose proof (log2_lt_width n 64 Hn) as Hw. split_and!; [by apply ilog2_value..| | | |done|done].
  - intros H32. assert (H : 0 < n < 2 ^ 32) by lia. split; [|by apply ilog2_u32_log2].
    change (ilog2 true 4 n) with (ilog2 true 8 n). by apply ilog2_value.
  - intros constant. exists (2 ^ Z.log2 n). split; [by apply rounddown_value|].
    pose proof (Z.log2_spec n ltac:(lia)) as Hs. rewrite Z.pow_succ_r in Hs by lia. split; [|lia].
    apply is_power_of_2_spec; [lia|]. exists (Z.log2 n). lia.
  - intros H1 constant. pose proof (log2_up_63 n H1) as Hu.
    assert (Hlt : 2 ^ Z.log2_up n < 2 ^ 64) by (apply Z.pow_lt_mono_r; lia).
    pose proof (Z.log2_up_spec n ltac:(lia)) as Hs.
    assert (E : 2 ^ Z.log2_up n = 2 * 2 ^ Z.pred (Z.log2_up n)).
    { rewrite <- Z.pow_succ_r by lia. f_equal. lia. }
    exists (2 ^ Z.log2_up n). split; [by apply roundup_value|]. split_and!.
    + apply is_power_of_2_spec; [lia|]. exists (Z.log2_up n). lia.
    + lia.
    + lia.
    + unfold order_base_2. rewrite roundup_value by done. simpl. apply ilog2_value. lia.
Qed.

Lemma log2_branches_agree_witness :
  roundup_pow_of_two true 1000 = Some 1024 /\ roundup_pow_of_two false 1000 = Some 1024 /\
  (exists u, roundup_pow_of_two false 1000 = Some u /\ is_power_of_2 u = true /\ 1000 <= u < 2 * 1000 /\
     order_base_2 false 1000 = Some (Z.log2 u)).
Proof.
  split; [by vm_compute|]. split; [by vm_compute|].
  apply (log2_branches_agree 1000); lia.
Defined.

(** ** Narrow words *)

Lemma lor_mod_low w x y : 0 <= w -> fits w y -> Z.lor x y mod 2 ^ w = Z.lor (x mod 2 ^ w) y.
Proof.
  intros Hw Hy. apply Z.bits_inj'. intros i Hi. rewrite Z.lor_spec. destruct (Z.lt_ge_cases i w).
  - by rewrite !Z.mod_pow2_bits_low, Z.lor_spec by lia.
  - by rewrite !Z.mod_pow2_bits_high, Hy by lia.
Qed.

Lemma fits_shiftr w x s : 0 <= s -> 0 <= w -> fits w x -> fits w (Z.shiftr x s).
Proof. intros Hs Hw Hx i Hi. rewrite Z.shiftr_spec by lia. apply Hx. lia. Qed.

Lemma shl_int_small w x s : 0 <= x < 2 ^ w -> 0 <= s -> 0 <= w -> w + s <= 31 -> shl_int x s = Some (Z.shiftl x s).
Proof.
  intros Hx Hs Hw Hsum. unfold shl_int. rewrite Z.shiftl_mul_pow2 by done.
  assert (x * 2 ^ s < 2 ^ 31); [|by rewrite (proj2 (Z.ltb_lt _ _))].
  apply Z.lt_le_trans with (2 ^ w * 2 ^ s).
  - apply Z.mul_lt_mono_pos_r; [apply Z.pow_pos_nonneg|]; lia.
  - rewrite <- Z.pow_add_r by done. apply Z.pow_le_mono_r; lia.
Qed.

(** Below the width, a narrow rotation is the rotation of the narrow word. *)
Lemma rol_narrow_rol w word shift :
  0 <= word < 2 ^ w -> 0 < shift < w -> w <= 16 -> rol_narrow w word shift = rol_w w word shift.
Proof.
  intros Hword Hs Hw. unfold rol_narrow, rol_w.
  rewrite (proj2 (Z.leb_le 0 shift)), (proj2 (Z.leb_le shift w)), (proj2 (Z.ltb_lt 0 shift)),
    (proj2 (Z.ltb_lt shift w)) by lia. simpl.
  rewrite (shl_int_small w) by lia. simpl. f_equal. apply lor_mod_low; [lia|].
  apply fits_shiftr; [lia..|]. apply fits_range; lia.
Qed.

Lemma ror_narrow_ror w word shift :
  0 <= word < 2 ^ w -> 0 < shift < w -> w <= 16 -> ror_narrow w word shift = ror_w w word shift.
Proof.
  intros Hword Hs Hw. unfold ror_narrow, ror_w.
  rewrite (proj2 (Z.leb_le 0 shift)), (proj2 (Z.leb_le shift w)), (proj2 (Z.ltb_lt 0 shift)),
    (proj2 (Z.ltb_lt shift w)) by lia. simpl.
  rewrite (shl_int_small w) by lia. simpl. f_equal. rewrite Z.lor_comm, (Z.lor_comm (Z.shiftr _ _)).
  apply lor_mod_low; [lia|]. apply fits_shiftr; [lia..|]. apply fits_range; lia.
Qed.

(** [sign_extend32] copies the bit at [index] into the bits above it. *)
Lemma sign_extend32_spec value index :
  0 <= value < 2 ^ 32 -> 0 <= index < 32 ->
  exists r, sign_extend32 value index = Some r /\ - 2 ^ index <= r < 2 ^ index /\
    r mod 2 ^ (index + 1) = value mod 2 ^ (index + 1).
Proof.
  intros Hv Hi. unfold sign_extend32, u8. rewrite Z.mod_small by lia.
  destruct (Z.ltb_spec (31 - index) 32); [|lia]. eexists. split; [done|].
  set (s := 31 - index). set (v := value mod 2 ^ (index + 1)).
  assert (Hp : 2 ^ 32 = 2 ^ (index + 1) * 2 ^ s) by (rewrite <- Z.pow_add_r by lia; f_equal; lia).
  assert (Hp' : 2 ^ 31 = 2 ^ index * 2 ^ s) by (rewrite <- Z.pow_add_r by lia; f_equal; lia).
  assert (Hps : 0 < 2 ^ s) by (apply Z.pow_pos_nonneg; lia).
  assert (Hpi : 2 ^ (index + 1) = 2 * 2 ^ index) by (rewrite Z.add_1_r, Z.pow_succ_r; lia).
  assert (Hi0 : 0 < 2 ^ index) by (apply Z.pow_pos_nonneg; lia).
  assert (Hvr : 0 <= v < 2 ^ (index + 1)) by (apply Z.mod_pos_bound; lia).
  assert (Hu : u32 (Z.shiftl value s) = v * 2 ^ s).
  { unfold u32. rewrite Z.shiftl_mul_pow2, Hp by lia. apply Z.mul_mod_distr_r; lia. }
  unfold s32. rewrite Hu, Z.shiftr_div_pow2 by lia. destruct (Z.ltb_spec (v * 2 ^ s) (2 ^ 31)) as [Hlt|Hge].
  - rewrite Z.div_mul by lia. assert (v < 2 ^ index) by (apply (Z.mul_lt_mono_pos_r (2 ^ s)); lia).
    split; [lia|]. unfold v. apply Z.mod_mod. lia.
  - assert (2 ^ index <= v) by (apply (Z.mul_le_mono_pos_r _ _ (2 ^ s)); lia).
    replace (v * 2 ^ s - 2 ^ 32) with ((v - 2 ^ (index + 1)) * 2 ^ s) by lia.
    rewrite Z.div_mul by lia. split; [lia|].
    replace (v - 2 ^ (index + 1)) with (v + (-1) * 2 ^ (index + 1)) by lia.
    rewrite Z.mod_add by lia. unfold v. apply Z.mod_mod. lia.
Qed.

(** [__ffs64] looks at the low 32 bits only and counts from 1. *)
Example ffs64_low : __ffs64 1 = 1 /\ __ffs64 (2 ^ 40) = 0 /\ __ffs64 (2 ^ 40 + 2 ^ 4) = 5.
Proof. split_and!; by vm_compute. Qed.
