(* ===== verification/Hash.v ===== *)
(** * Multiplicative hashing and the hash table

    [include/hsfs/hash.h] and [include/hsfs/hashtable.h].  A table is the
    array of its buckets; a bucket is the sequence of the objects (pointers)
    its [hlist] links, the head first. *)

From S2P Require Import Prelude Bitops.

Definition GOLDEN_RATIO_PRIME_32 : Z := 0x9e370001.
Definition GOLDEN_RATIO_PRIME_64 : Z := 0x9e37fffffffc0001.

(** The shift-and-add form of the source, each step in 64-bit arithmetic. *)
Definition hash_64 (val bits : Z) : Z :=
  let hash := u64 val in
  let n := hash in
  let n := u64 (Z.shiftl n 18) in
  let hash := u64 (hash - n) in
  let n := u64 (Z.shiftl n 33) in
  let hash := u64 (hash - n) in
  let n := u64 (Z.shiftl n 3) in
  let hash := u64 (hash + n) in
  let n := u64 (Z.shiftl n 3) in
  let hash := u64 (hash - n) in
  let n := u64 (Z.shiftl n 4) in
  let hash := u64 (hash + n) in
  let n := u64 (Z.shiftl n 2) in
  let hash := u64 (hash + n) in
  Z.shiftr hash (64 - bits).

Definition hash_32 (val bits : Z) : Z :=
  Z.shiftr (u32 (val * GOLDEN_RATIO_PRIME_32)) (32 - bits).

(** [hash_long] and [hash_ptr] with 64-bit longs. *)
Definition hash_long (val bits : Z) : Z := hash_64 val bits.
Definition hash_ptr (ptr bits : Z) : Z := hash_long ptr bits.

(** [hash_min] on a key of [size] bytes, with 64-bit longs. *)
Definition hash_min (size val bits : Z) : Z :=
  if size <=? 4 then hash_32 val bits else hash_long val bits.

Lemma u64_sub a b : u64 (u64 a - u64 b) = u64 (a - b).
Proof. unfold u64. by rewrite Zminus_mod_idemp_l, Zminus_mod_idemp_r. Qed.

Lemma u64_add a b : u64 (u64 a + u64 b) = u64 (a + b).
Proof. unfold u64. by rewrite Zplus_mod_idemp_l, Zplus_mod_idemp_r. Qed.

Lemma u64_mul_l a b : u64 (u64 a * b) = u64 (a * b).
Proof. apply Zmult_mod_idemp_l. Qed.

(** Multiplying by the constant is what the shifts compute. *)
Lemma hash_64_mul val bits :
  hash_64 val bits = Z.shiftr (u64 (val * GOLDEN_RATIO_PRIME_64)) (64 - bits).
Proof.
  unfold hash_64. cbv zeta. rewrite !Z.shiftl_mul_pow2 by lia.
  repeat (rewrite u64_mul_l || rewrite <- Z.mul_assoc).
  rewrite (u64_sub val), (u64_sub (val - _)), (u64_add (val - _ - _)),
    (u64_sub (val - _ - _ + _)), (u64_add (val - _ - _ + _ - _)),
    (u64_add (val - _ - _ + _ - _ + _)).
  unfold GOLDEN_RATIO_PRIME_64. do 2 f_equal. lia.
Qed.

Lemma shiftr_top_range x w bits :
  0 <= x < 2 ^ w -> 0 <= bits <= w -> 0 <= Z.shiftr x (w - bits) < 2 ^ bits.
Proof.
  intros Hx Hb. rewrite Z.shiftr_div_pow2 by lia. split; [apply Z.div_pos; lia|].
  apply Z.div_lt_upper_bound; [lia|]. rewrite <- Z.pow_add_r by lia.
  replace (w - bits + bits) with w by lia. lia.
Qed.

Lemma hash_64_range val bits :
  0 <= bits <= 64 -> 0 <= hash_64 val bits < 2 ^ bits.
Proof.
  intros Hb. rewrite hash_64_mul. apply shiftr_top_range; [apply u64_range|done].
Qed.

(** ** hashtable.h *)

Abbreviation hashtable := (list (list Z)).

(** [HASH_BITS] of a table whose size is a power of two. *)
Definition HASH_BITS (ht : hashtable) : Z :=
  match __ilog2_u64 (Z.of_nat (length ht)) with Some b => b | None => 0 end.

(** The bucket a 64-bit key selects. *)
Definition bucket_of (ht : hashtable) (key : Z) : nat :=
  Z.to_nat (hash_min 8 key (HASH_BITS ht)).

Definition __hash_init (sz : nat) : hashtable := replicate sz [].

Definition hash_add (ht : hashtable) (node key : Z) : hashtable :=
  alter (cons node) (bucket_of ht key) ht.

Definition hash_for_each_possible (ht : hashtable) (key : Z) : list Z :=
  default [] (ht !! bucket_of ht key).

Definition __hash_empty (ht : hashtable) : bool :=
  forallb (fun b => match b with [] => true | _ => false end) ht.

(** [hash_del] unlinks the node from the list it is on. *)
Definition hash_del (ht : hashtable) (node : Z) : hashtable :=
  map (filter (fun p => p <> node)) ht.

(** [p] is linked on the table, in the bucket of [key]. *)
Definition hashed_at (ht : hashtable) (key p : Z) : Prop :=
  p ∈ hash_for_each_possible ht key.

Lemma length_hash_add ht node key : length (hash_add ht node key) = length ht.
Proof. apply length_alter. Qed.

Lemma bucket_of_hash_add ht node k key : bucket_of (hash_add ht node k) key = bucket_of ht key.
Proof. unfold bucket_of, HASH_BITS. by rewrite length_hash_add. Qed.

Lemma HASH_BITS_1024 ht : length ht = 1024%nat -> HASH_BITS ht = 10.
Proof. unfold HASH_BITS. by intros ->. Qed.

(** With 2^10 buckets, as [HSFS_ID_HASH_BITS] and [HSFS_FH_HASH_BITS] say,
    every key selects a bucket of the table. *)
Lemma bucket_of_lt ht key : length ht = 1024%nat -> (bucket_of ht key < length ht)%nat.
Proof.
  intros Hl. unfold bucket_of, hash_min, hash_long. rewrite HASH_BITS_1024, Hl by done.
  change (8 <=? 4) with false. cbv iota.
  pose proof (hash_64_range key 10 ltac:(lia)). lia.
Qed.

Lemma hash_add_possible ht node k key :
  length ht = 1024%nat ->
  hash_for_each_possible (hash_add ht node k) key =
    if decide (bucket_of ht k = bucket_of ht key)
    then node :: hash_for_each_possible ht key
    else hash_for_each_possible ht key.
Proof.
  intros Hl. unfold hash_for_each_possible. rewrite bucket_of_hash_add. unfold hash_add.
  case_decide as Hb.
  - rewrite Hb, list_lookup_alter_eq.
    destruct (lookup_lt_is_Some_2 ht (bucket_of ht key)) as [b Hb'];
      [by apply bucket_of_lt|]. by rewrite Hb'.
  - by rewrite list_lookup_alter_ne.
Qed.

Lemma hash_init_possible sz key : hash_for_each_possible (__hash_init sz) key = [].
Proof.
  unfold hash_for_each_possible, __hash_init.
  destruct (replicate sz [] !! _) eqn:E; [|done].
  apply lookup_replicate in E as [-> _]. done.
Qed.

Lemma hash_empty_possible ht key :
  __hash_empty ht = true -> hash_for_each_possible ht key = [].
Proof.
  unfold __hash_empty, hash_for_each_possible. intros Hall.
  destruct (ht !! _) as [b|] eqn:E; [|done]. simpl.
  rewrite forallb_forall in Hall. specialize (Hall b).
  destruct b; [done|]. discriminate Hall. apply list_elem_of_In, list_elem_of_lookup. eauto.
Qed.

(** Every linked node, whatever its bucket. *)
Definition hash_nodes (ht : hashtable) : list Z := concat ht.

Lemma elem_of_hash_nodes ht p : p ∈ hash_nodes ht <-> exists b l, ht !! b = Some l /\ p ∈ l.
Proof.
  unfold hash_nodes. rewrite list_elem_of_In, in_concat. split.
  - intros (l & Hl & Hp). apply list_elem_of_In, list_elem_of_lookup in Hl as [b Hb].
    exists b, l. by rewrite list_elem_of_In.
  - intros (b & l & Hb & Hp). exists l. rewrite <- !list_elem_of_In.
    split; [|done]. apply list_elem_of_lookup. eauto.
Qed.

Lemma hash_add_nodes ht node k :
  length ht = 1024%nat -> hash_nodes (hash_add ht node k) ≡ₚ node :: hash_nodes ht.
Proof.
  intros Hl. pose proof (bucket_of_lt ht k Hl) as Hb. unfold hash_add, hash_nodes.
  generalize (bucket_of ht k) as n, Hb. clear. intros n.
  revert n. induction ht as [|b ht IH]; intros [|n] Hn; simpl in *; [lia..|done|].
  etransitivity; [apply Permutation_app_head, (IH n); lia|]. by rewrite Permutation_middle.
Qed.

Lemma elem_of_possible ht key p : p ∈ hash_for_each_possible ht key -> p ∈ hash_nodes ht.
Proof.
  unfold hash_for_each_possible. intros Hp. apply elem_of_hash_nodes.
  destruct (ht !! bucket_of ht key) as [l|] eqn:Hb; simpl in Hp; [eauto|].
  by apply not_elem_of_nil in Hp.
Qed.

Lemma hash_init_nodes sz : hash_nodes (__hash_init sz) = [].
Proof. unfold hash_nodes, __hash_init. induction sz; simpl; done. Qed.
