(* ===== verification/Proto.v ===== *)
(** * The NFSv3 protocol data

    The types of [nfs3/nfs3.x] and [nfs3/acl3.x] the client exchanges with
    the server, the status and error numbers, and the table that maps the
    former to the latter.  An XDR optional ([post_op_attr], [set_uint32], ...)
    is an [option]; a union over the status is [nfsres].  The XDR filters that
    rpcgen produces from these files are not modelled: a call takes its
    arguments and gives its result as values. *)

From S2P Require Import Prelude.

(** ** Error numbers (Linux) *)
Definition EPERM : Z := 1.
Definition ENOENT : Z := 2.
Definition EIO : Z := 5.
Definition ENXIO : Z := 6.
Definition EAGAIN : Z := 11.
Definition ENOMEM : Z := 12.
Definition EACCES : Z := 13.
Definition EEXIST : Z := 17.
Definition EXDEV : Z := 18.
Definition ENODEV : Z := 19.
Definition ENOTDIR : Z := 20.
Definition EISDIR : Z := 21.
Definition EINVAL : Z := 22.
Definition EFBIG : Z := 27.
Definition ENOSPC : Z := 28.
Definition EROFS : Z := 30.
Definition EMLINK : Z := 31.
Definition ERANGE : Z := 34.
Definition ENAMETOOLONG : Z := 36.
Definition ENOTEMPTY : Z := 39.
Definition EREMOTE : Z := 66.
Definition ENOTSUP : Z := 95.
Definition ECONNRESET : Z := 104.
Definition ENOTCONN : Z := 107.
Definition ESTALE : Z := 116.
Definition EDQUOT : Z := 122.

(** ** File mode bits *)
Definition S_IFMT : Z := 0xf000.
Definition S_IFSOCK : Z := 0xc000.
Definition S_IFLNK : Z := 0xa000.
Definition S_IFREG : Z := 0x8000.
Definition S_IFBLK : Z := 0x6000.
Definition S_IFDIR : Z := 0x4000.
Definition S_IFCHR : Z := 0x2000.
Definition S_IFIFO : Z := 0x1000.
Definition S_IALLUGO : Z := 0xfff.
Definition S_IRWXU : Z := 0x1c0.
Definition S_IRWXG : Z := 0x38.
Definition S_IRWXO : Z := 0x7.

Definition S_ISDIR (m : Z) : bool := Z.land m S_IFMT =? S_IFDIR.
Definition S_ISREG (m : Z) : bool := Z.land m S_IFMT =? S_IFREG.

(** ** Status numbers of the protocol *)
Definition NFS3_OK : Z := 0.
Definition NFS3ERR_PERM : Z := 1.
Definition NFS3ERR_NOENT : Z := 2.
Definition NFS3ERR_IO : Z := 5.
Definition NFS3ERR_NXIO : Z := 6.
Definition NFS3ERR_ACCES : Z := 13.
Definition NFS3ERR_EXIST : Z := 17.
Definition NFS3ERR_XDEV : Z := 18.
Definition NFS3ERR_NODEV : Z := 19.
Definition NFS3ERR_NOTDIR : Z := 20.
Definition NFS3ERR_ISDIR : Z := 21.
Definition NFS3ERR_INVAL : Z := 22.
Definition NFS3ERR_FBIG : Z := 27.
Definition NFS3ERR_NOSPC : Z := 28.
Definition NFS3ERR_ROFS : Z := 30.
Definition NFS3ERR_MLINK : Z := 31.
Definition NFS3ERR_NAMETOOLONG : Z := 63.
Definition NFS3ERR_NOTEMPTY : Z := 66.
Definition NFS3ERR_DQUOT : Z := 69.
Definition NFS3ERR_STALE : Z := 70.
Definition NFS3ERR_REMOTE : Z := 71.
Definition NFS3ERR_BADHANDLE : Z := 10001.
Definition NFS3ERR_NOT_SYNC : Z := 10002.
Definition NFS3ERR_BAD_COOKIE : Z := 10003.
Definition NFS3ERR_NOTSUPP : Z := 10004.
Definition NFS3ERR_TOOSMALL : Z := 10005.
Definition NFS3ERR_SERVERFAULT : Z := 10006.
Definition NFS3ERR_BADTYPE : Z := 10007.
Definition NFS3ERR_JUKEBOX : Z := 10008.

(** The table of [hsi_nfs3_unlink.c]; [EWFLUSH] is not defined on Linux. *)
Definition nfs_errtbl : list (Z * Z) :=
  [ (NFS3_OK, 0); (NFS3ERR_PERM, EPERM); (NFS3ERR_NOENT, ENOENT); (NFS3ERR_IO, EIO);
    (NFS3ERR_NXIO, ENXIO); (NFS3ERR_ACCES, EACCES); (NFS3ERR_EXIST, EEXIST);
    (NFS3ERR_XDEV, EXDEV); (NFS3ERR_NODEV, ENODEV); (NFS3ERR_NOTDIR, ENOTDIR);
    (NFS3ERR_ISDIR, EISDIR); (NFS3ERR_INVAL, EINVAL); (NFS3ERR_FBIG, EFBIG);
    (NFS3ERR_NOSPC, ENOSPC); (NFS3ERR_ROFS, EROFS); (NFS3ERR_MLINK, EMLINK);
    (NFS3ERR_NAMETOOLONG, ENAMETOOLONG); (NFS3ERR_NOTEMPTY, ENOTEMPTY);
    (NFS3ERR_DQUOT, EDQUOT); (NFS3ERR_STALE, ESTALE); (NFS3ERR_REMOTE, EREMOTE);
    (-1, EIO) ].

(** The loop of [hsi_nfs3_stat_to_errno]: it stops at the entry of -1. *)
Fixpoint errtbl_scan (tbl : list (Z * Z)) (stat : Z) : Z :=
  match tbl with
  | [] => 0
  | (nfs_err, sys_err) :: tbl =>
      if nfs_err =? -1 then sys_err
      else if nfs_err =? stat then sys_err
      else errtbl_scan tbl stat
  end.

Definition hsi_nfs3_stat_to_errno (stat : Z) : Z := errtbl_scan nfs_errtbl stat.

(** ** Attributes and handles *)
Definition NFS3_FHSIZE : Z := 64.

Abbreviation nfs_fh3 := (list Z).

Inductive ftype3 : Set := NF3REG | NF3DIR | NF3BLK | NF3CHR | NF3LNK | NF3SOCK | NF3FIFO.

Definition ftype3_val (t : ftype3) : Z :=
  match t with
  | NF3REG => 1 | NF3DIR => 2 | NF3BLK => 3 | NF3CHR => 4
  | NF3LNK => 5 | NF3SOCK => 6 | NF3FIFO => 7
  end.

Record specdata3 := { major3 : Z; minor3 : Z }.
Record nfstime3 := { seconds : Z; nseconds : Z }.

(** [f3_type] is the number on the wire: the filter of an enumeration does
    not check it. *)
Record fattr3 := {
  f3_type : Z; f3_mode : Z; f3_nlink : Z; f3_uid : Z; f3_gid : Z;
  f3_size : Z; f3_used : Z; f3_rdev : specdata3; f3_fsid : Z; f3_fileid : Z;
  f3_atime : nfstime3; f3_mtime : nfstime3; f3_ctime : nfstime3 }.

Abbreviation post_op_attr := (option fattr3).
Abbreviation post_op_fh3 := (option nfs_fh3).

Record wcc_attr := { wa_size : Z; wa_mtime : nfstime3; wa_ctime : nfstime3 }.
Record wcc_data := { before : option wcc_attr; after : post_op_attr }.

Inductive set_time :=
  | DONT_CHANGE
  | SET_TO_SERVER_TIME
  | SET_TO_CLIENT_TIME (t : nfstime3).

Record sattr3 := {
  sa_mode : option Z; sa_uid : option Z; sa_gid : option Z; sa_size : option Z;
  sa_atime : set_time; sa_mtime : set_time }.

(** [memset(&sattr, 0, ...)]. *)
Definition sattr3_zero : sattr3 :=
  {| sa_mode := None; sa_uid := None; sa_gid := None; sa_size := None;
     sa_atime := DONT_CHANGE; sa_mtime := DONT_CHANGE |}.

Record diropargs3 := { da_dir : nfs_fh3; da_name : string }.

(** ** Results: a union over the status *)
Inductive nfsres (ok fail : Type) : Type :=
  | RES_OK (resok : ok)
  | RES_FAIL (status : Z) (resfail : fail).
Arguments RES_OK {_ _} _.
Arguments RES_FAIL {_ _} _ _.

Definition status {ok fail} (r : nfsres ok fail) : Z :=
  match r with RES_OK _ => NFS3_OK | RES_FAIL st _ => st end.

Record diropres3ok := {
  do_obj : post_op_fh3; do_obj_attributes : post_op_attr; do_dir_wcc : wcc_data }.
Record lookup3resok := {
  lk_object : nfs_fh3; lk_obj_attributes : post_op_attr; lk_dir_attributes : post_op_attr }.
Record access3args := { ac_object : nfs_fh3; ac_access : Z }.
Record access3resok := { acr_obj_attributes : post_op_attr; acr_access : Z }.
Record readlink3resok := { rl_symlink_attributes : post_op_attr; rl_data : string }.
Record read3args := { rd_file : nfs_fh3; rd_offset : Z; rd_count : Z }.
Record read3resok := {
  rdr_file_attributes : post_op_attr; rdr_count : Z; rdr_eof : bool; rdr_data : list Z }.
Record write3args := {
  wr_file : nfs_fh3; wr_offset : Z; wr_count : Z; wr_stable : Z; wr_data : list Z }.
Record write3resok := {
  wrr_file_wcc : wcc_data; wrr_count : Z; wrr_committed : Z; wrr_verf : Z }.

Inductive createhow3 :=
  | UNCHECKED (obj_attributes : sattr3)
  | GUARDED (obj_attributes : sattr3)
  | EXCLUSIVE (verf : Z)
  | BADMODE (mode : Z).

Record create3args := { cr_where : diropargs3; cr_how : createhow3 }.
Record mkdir3args := { mk_where : diropargs3; mk_attributes : sattr3 }.
Record symlink3args := {
  sy_where : diropargs3; sy_symlink_attributes : sattr3; sy_symlink_data : string }.

Inductive mknoddata3 :=
  | MK_DEVICE (type : ftype3) (dev_attributes : sattr3) (spec : specdata3)
  | MK_PIPE (type : ftype3) (pipe_attributes : sattr3)
  | MK_VOID.

Record mknod3args := { mn_where : diropargs3; mn_what : mknoddata3 }.
Record rename3args := { rn_from : diropargs3; rn_to : diropargs3 }.
Record rename3wcc := { rn_fromdir_wcc : wcc_data; rn_todir_wcc : wcc_data }.
Record link3args := { ln_file : nfs_fh3; ln_link : diropargs3 }.
Record link3wcc := { ln_file_attributes : post_op_attr; ln_linkdir_wcc : wcc_data }.
Record setattr3args := {
  se_object : nfs_fh3; se_new_attributes : sattr3; se_guard : option nfstime3 }.

Record readdir3args := {
  ra_dir : nfs_fh3; ra_cookie : Z; ra_cookieverf : Z; ra_count : Z }.
Record entry3 := { e3_fileid : Z; e3_name : string; e3_cookie : Z }.
Record readdir3resok := {
  rr_dir_attributes : post_op_attr; rr_cookieverf : Z;
  rr_entries : list entry3; rr_eof : bool }.
Record readdirplus3args := {
  rp_dir : nfs_fh3; rp_cookie : Z; rp_cookieverf : Z; rp_dircount : Z; rp_maxcount : Z }.
Record entryplus3 := {
  ep_fileid : Z; ep_name : string; ep_cookie : Z;
  ep_name_attributes : post_op_attr; ep_name_handle : post_op_fh3 }.
Record readdirplus3resok := {
  rpr_dir_attributes : post_op_attr; rpr_cookieverf : Z;
  rpr_entries : list entryplus3; rpr_eof : bool }.

Record fsstat3resok := {
  fs_obj_attributes : post_op_attr; fs_tbytes : Z; fs_fbytes : Z; fs_abytes : Z;
  fs_tfiles : Z; fs_ffiles : Z; fs_afiles : Z; fs_invarsec : Z }.
Record fsinfo3resok := {
  fi_obj_attributes : post_op_attr; fi_rtmax : Z; fi_rtpref : Z; fi_rtmult : Z;
  fi_wtmax : Z; fi_wtpref : Z; fi_wtmult : Z; fi_dtpref : Z; fi_maxfilesize : Z;
  fi_time_delta : nfstime3; fi_properties : Z }.
Record pathconf3resok := {
  pc_obj_attributes : post_op_attr; pc_link_max : Z; pc_name_max : Z; pc_no_trunc : bool;
  pc_chown_restricted : bool; pc_case_insensitive : bool; pc_case_preserving : bool }.

(** ** acl3.x *)
Record aclent := { ae_type : Z; ae_id : Z; ae_perm : Z }.
Record secattr := {
  sec_mask : Z; sec_aclcnt : Z; sec_aclent : list aclent;
  sec_dfaclcnt : Z; sec_dfaclent : list aclent }.
Record GETACL3args := { ga_fh : nfs_fh3; ga_mask : Z }.
Record GETACL3resok := { gar_attr : post_op_attr; gar_acl : secattr }.
Record SETACL3args := { sx_fh : nfs_fh3; sx_acl : secattr }.

(** ** The procedures: the argument, and the type of the result *)
Inductive nfsproc : Type -> Type :=
  | NULLPROC : nfsproc unit
  | NFSPROC3_GETATTR (fh : nfs_fh3) : nfsproc (nfsres fattr3 unit)
  | NFSPROC3_SETATTR (a : setattr3args) : nfsproc (nfsres wcc_data wcc_data)
  | NFSPROC3_LOOKUP (a : diropargs3) : nfsproc (nfsres lookup3resok post_op_attr)
  | NFSPROC3_ACCESS (a : access3args) : nfsproc (nfsres access3resok post_op_attr)
  | NFSPROC3_READLINK (fh : nfs_fh3) : nfsproc (nfsres readlink3resok post_op_attr)
  | NFSPROC3_READ (a : read3args) : nfsproc (nfsres read3resok post_op_attr)
  | NFSPROC3_WRITE (a : write3args) : nfsproc (nfsres write3resok wcc_data)
  | NFSPROC3_CREATE (a : create3args) : nfsproc (nfsres diropres3ok wcc_data)
  | NFSPROC3_MKDIR (a : mkdir3args) : nfsproc (nfsres diropres3ok wcc_data)
  | NFSPROC3_SYMLINK (a : symlink3args) : nfsproc (nfsres diropres3ok wcc_data)
  | NFSPROC3_MKNOD (a : mknod3args) : nfsproc (nfsres diropres3ok wcc_data)
  | NFSPROC3_REMOVE (a : diropargs3) : nfsproc (nfsres wcc_data wcc_data)
  | NFSPROC3_RMDIR (a : diropargs3) : nfsproc (nfsres wcc_data wcc_data)
  | NFSPROC3_RENAME (a : rename3args) : nfsproc (nfsres rename3wcc rename3wcc)
  | NFSPROC3_LINK (a : link3args) : nfsproc (nfsres link3wcc link3wcc)
  | NFSPROC3_READDIR (a : readdir3args) : nfsproc (nfsres readdir3resok post_op_attr)
  | NFSPROC3_READDIRPLUS (a : readdirplus3args) : nfsproc (nfsres readdirplus3resok post_op_attr)
  | NFSPROC3_FSSTAT (fh : nfs_fh3) : nfsproc (nfsres fsstat3resok post_op_attr)
  | NFSPROC3_FSINFO (fh : nfs_fh3) : nfsproc (nfsres fsinfo3resok post_op_attr)
  | NFSPROC3_PATHCONF (fh : nfs_fh3) : nfsproc (nfsres pathconf3resok post_op_attr)
  | ACLPROC3_GETACL (a : GETACL3args) : nfsproc (nfsres GETACL3resok post_op_attr)
  | ACLPROC3_SETACL (a : SETACL3args) : nfsproc (nfsres post_op_attr post_op_attr).

(** The status of a result that is a failure. *)
Definition fail_status {ok fail} (r : nfsres ok fail) : option Z :=
  match r with RES_OK _ => None | RES_FAIL st _ => Some st end.

Definition failed_status {R} (p : nfsproc R) : R -> option Z :=
  match p in nfsproc R return R -> option Z with
  | NULLPROC => fun _ => None
  | NFSPROC3_GETATTR _ => fail_status | NFSPROC3_SETATTR _ => fail_status
  | NFSPROC3_LOOKUP _ => fail_status | NFSPROC3_ACCESS _ => fail_status
  | NFSPROC3_READLINK _ => fail_status | NFSPROC3_READ _ => fail_status
  | NFSPROC3_WRITE _ => fail_status | NFSPROC3_CREATE _ => fail_status
  | NFSPROC3_MKDIR _ => fail_status | NFSPROC3_SYMLINK _ => fail_status
  | NFSPROC3_MKNOD _ => fail_status | NFSPROC3_REMOVE _ => fail_status
  | NFSPROC3_RMDIR _ => fail_status | NFSPROC3_RENAME _ => fail_status
  | NFSPROC3_LINK _ => fail_status | NFSPROC3_READDIR _ => fail_status
  | NFSPROC3_READDIRPLUS _ => fail_status | NFSPROC3_FSSTAT _ => fail_status
  | NFSPROC3_FSINFO _ => fail_status | NFSPROC3_PATHCONF _ => fail_status
  | ACLPROC3_GETACL _ => fail_status | ACLPROC3_SETACL _ => fail_status
  end.

(** ** The error table *)

(** A status maps to 0 exactly when the call succeeded, so testing the errno
    or the status is the same test. *)
Lemma stat_to_errno_zero st : hsi_nfs3_stat_to_errno st = 0 <-> st = NFS3_OK.
Proof.
  unfold hsi_nfs3_stat_to_errno, nfs_errtbl, errtbl_scan. split; [|by intros ->].
  repeat (case_if; try done).
Qed.

Lemma stat_to_errno_nonneg st : 0 <= hsi_nfs3_stat_to_errno st.
Proof.
  unfold hsi_nfs3_stat_to_errno, nfs_errtbl, errtbl_scan.
  repeat (case_if; try (by compute)).
Qed.

Lemma errtbl_scan_default tbl e st :
  st ∉ tbl.*1 -> Forall (fun x => x.1 <> -1) tbl -> errtbl_scan (tbl ++ [(-1, e)]) st = e.
Proof.
  induction tbl as [|[n s] tbl IH]; simpl; [done|]. intros Hst Hall.
  apply not_elem_of_cons in Hst as [Hne Hst]. apply Forall_cons in Hall as [Hn Hall].
  simpl in *. destruct (Z.eqb_spec n (-1)), (Z.eqb_spec n st); [congruence..|]. by apply IH.
Qed.

(** Every status the table does not list is reported as [EIO]. *)
Lemma stat_to_errno_default st :
  st ∉ (nfs_errtbl.*1) -> hsi_nfs3_stat_to_errno st = EIO.
Proof.
  intros Hst. apply (errtbl_scan_default (take 21 nfs_errtbl) EIO).
  - intros Hin. apply Hst. rewrite <- (take_drop 21 nfs_errtbl), fmap_app.
    apply elem_of_app. by left.
  - by repeat constructor.
Qed.
