(* ===== verification/World.v ===== *)
(** * The state of the client and the environment it runs in

    The structures of [include/hsfs.h] and [include/hsfs/hsi_nfs.h], the error
    pointers of [include/hsfs/err.h], and the world a handler runs in: the heap
    of inodes, the mounted superblock, the live RPC clients, the environment,
    and the replies sent to the kernel through libfuse.

    A pointer is its address.  An inode lives in the heap under the address of
    its [hsfs_inode]; [NFS_I] (a [container_of]) is then the same entry.  One
    superblock is mounted per process, so [inode->sb] is that superblock, and
    its operations [sop] are [hsi_nfs_sop]. *)

From S2P Require Import Prelude Bitops Hash Proto.

Record timespec := { tv_sec : Z; tv_nsec : Z }.
Definition timespec_zero : timespec := {| tv_sec := 0; tv_nsec := 0 |}.

(** ** Inodes *)

Record hsfs_iattr := mk_iattr {
  ia_valid : Z;
  ia_mode : Z;
  ia_uid : Z;
  ia_gid : Z;
  ia_size : Z;
  ia_atime : timespec;
  ia_mtime : timespec;
  ia_ctime : timespec }.

Definition set_ia_valid (v : Z) (r : hsfs_iattr) : hsfs_iattr :=
  mk_iattr v (ia_mode r) (ia_uid r) (ia_gid r) (ia_size r) (ia_atime r) (ia_mtime r) (ia_ctime r).
Definition set_ia_mode (v : Z) (r : hsfs_iattr) : hsfs_iattr :=
  mk_iattr (ia_valid r) v (ia_uid r) (ia_gid r) (ia_size r) (ia_atime r) (ia_mtime r) (ia_ctime r).
Definition set_ia_uid (v : Z) (r : hsfs_iattr) : hsfs_iattr :=
  mk_iattr (ia_valid r) (ia_mode r) v (ia_gid r) (ia_size r) (ia_atime r) (ia_mtime r) (ia_ctime r).
Definition set_ia_gid (v : Z) (r : hsfs_iattr) : hsfs_iattr :=
  mk_iattr (ia_valid r) (ia_mode r) (ia_uid r) v (ia_size r) (ia_atime r) (ia_mtime r) (ia_ctime r).
Definition set_ia_size (v : Z) (r : hsfs_iattr) : hsfs_iattr :=
  mk_iattr (ia_valid r) (ia_mode r) (ia_uid r) (ia_gid r) v (ia_atime r) (ia_mtime r) (ia_ctime r).
Definition set_ia_atime (v : timespec) (r : hsfs_iattr) : hsfs_iattr :=
  mk_iattr (ia_valid r) (ia_mode r) (ia_uid r) (ia_gid r) (ia_size r) v (ia_mtime r) (ia_ctime r).
Definition set_ia_mtime (v : timespec) (r : hsfs_iattr) : hsfs_iattr :=
  mk_iattr (ia_valid r) (ia_mode r) (ia_uid r) (ia_gid r) (ia_size r) (ia_atime r) v (ia_ctime r).
Definition set_ia_ctime (v : timespec) (r : hsfs_iattr) : hsfs_iattr :=
  mk_iattr (ia_valid r) (ia_mode r) (ia_uid r) (ia_gid r) (ia_size r) (ia_atime r) (ia_mtime r) v.

Definition iattr_zero : hsfs_iattr :=
  mk_iattr 0 0 0 0 0 timespec_zero timespec_zero timespec_zero.

Definition HSFS_ATTR_MODE : Z := 1.
Definition HSFS_ATTR_UID : Z := 2.
Definition HSFS_ATTR_GID : Z := 4.
Definition HSFS_ATTR_SIZE : Z := 8.
Definition HSFS_ATTR_ATIME : Z := 16.
Definition HSFS_ATTR_MTIME : Z := 32.
Definition HSFS_ATTR_CTIME : Z := 64.
Definition HSFS_ATTR_ATIME_SET : Z := 128.
Definition HSFS_ATTR_MTIME_SET : Z := 256.

(** The hash links [fh_hash] and [id_hash] are represented by the buckets of
    the tables that link the inode. *)
Record hsfs_inode := mk_inode {
  in_iattr : hsfs_iattr;
  in_i_state : Z;
  in_i_nlink : Z;
  in_i_blocks : Z;
  in_private : Z;
  in_i_count : Z;
  in_real_ino : Z;
  in_i_blkbits : Z;
  in_ino : Z;
  in_i_rdev : Z;
  in_generation : Z }.

Definition set_in_iattr (v : hsfs_iattr) (r : hsfs_inode) : hsfs_inode :=
  mk_inode v (in_i_state r) (in_i_nlink r) (in_i_blocks r) (in_private r) (in_i_count r) (in_real_ino r) (in_i_blkbits r) (in_ino r) (in_i_rdev r) (in_generation r).
Definition set_in_i_state (v : Z) (r : hsfs_inode) : hsfs_inode :=
  mk_inode (in_iattr r) v (in_i_nlink r) (in_i_blocks r) (in_private r) (in_i_count r) (in_real_ino r) (in_i_blkbits r) (in_ino r) (in_i_rdev r) (in_generation r).
Definition set_in_i_nlink (v : Z) (r : hsfs_inode) : hsfs_inode :=
  mk_inode (in_iattr r) (in_i_state r) v (in_i_blocks r) (in_private r) (in_i_count r) (in_real_ino r) (in_i_blkbits r) (in_ino r) (in_i_rdev r) (in_generation r).
Definition set_in_i_blocks (v : Z) (r : hsfs_inode) : hsfs_inode :=
  mk_inode (in_iattr r) (in_i_state r) (in_i_nlink r) v (in_private r) (in_i_count r) (in_real_ino r) (in_i_blkbits r) (in_ino r) (in_i_rdev r) (in_generation r).
Definition set_in_private (v : Z) (r : hsfs_inode) : hsfs_inode :=
  mk_inode (in_iattr r) (in_i_state r) (in_i_nlink r) (in_i_blocks r) v (in_i_count r) (in_real_ino r) (in_i_blkbits r) (in_ino r) (in_i_rdev r) (in_generation r).
Definition set_in_i_count (v : Z) (r : hsfs_inode) : hsfs_inode :=
  mk_inode (in_iattr r) (in_i_state r) (in_i_nlink r) (in_i_blocks r) (in_private r) v (in_real_ino r) (in_i_blkbits r) (in_ino r) (in_i_rdev r) (in_generation r).
Definition set_in_real_ino (v : Z) (r : hsfs_inode) : hsfs_inode :=
  mk_inode (in_iattr r) (in_i_state r) (in_i_nlink r) (in_i_blocks r) (in_private r) (in_i_count r) v (in_i_blkbits r) (in_ino r) (in_i_rdev r) (in_generation r).
Definition set_in_i_blkbits (v : Z) (r : hsfs_inode) : hsfs_inode :=
  mk_inode (in_iattr r) (in_i_state r) (in_i_nlink r) (in_i_blocks r) (in_private r) (in_i_count r) (in_real_ino r) v (in_ino r) (in_i_rdev r) (in_generation r).
Definition set_in_ino (v : Z) (r : hsfs_inode) : hsfs_inode :=
  mk_inode (in_iattr r) (in_i_state r) (in_i_nlink r) (in_i_blocks r) (in_private r) (in_i_count r) (in_real_ino r) (in_i_blkbits r) v (in_i_rdev r) (in_generation r).
Definition set_in_i_rdev (v : Z) (r : hsfs_inode) : hsfs_inode :=
  mk_inode (in_iattr r) (in_i_state r) (in_i_nlink r) (in_i_blocks r) (in_private r) (in_i_count r) (in_real_ino r) (in_i_blkbits r) (in_ino r) v (in_generation r).
Definition set_in_generation (v : Z) (r : hsfs_inode) : hsfs_inode :=
  mk_inode (in_iattr r) (in_i_state r) (in_i_nlink r) (in_i_blocks r) (in_private r) (in_i_count r) (in_real_ino r) (in_i_blkbits r) (in_ino r) (in_i_rdev r) v.

Definition I_NEW : Z := 8.

Definition is_bad_inode (i : hsfs_inode) : bool := in_ino i =? 0.

(** A file handle is an array of [NFS_MAXFHSIZE] bytes of which [fh_size] are
    valid. *)
Definition NFS_MAXFHSIZE : Z := 128.
Record nfs_fh := { fh_size : Z; fh_data : list Z }.

Definition nfs_fh_zero : nfs_fh :=
  {| fh_size := 0; fh_data := replicate (Z.to_nat NFS_MAXFHSIZE) 0 |}.

(** Returns 0 (here [false]) iff the sizes and the first [size] bytes agree. *)
Definition nfs_compare_fh (a b : nfs_fh) : bool :=
  negb (fh_size a =? fh_size b) ||
  negb (bool_decide (take (Z.to_nat (fh_size a)) (fh_data a) =
                     take (Z.to_nat (fh_size a)) (fh_data b))).

(** [memcpy(target->data, source, len)] leaves the rest of the array alone. *)
Definition copy_bytes (target source : list Z) (len : nat) : list Z :=
  take len source ++ drop len target.

Definition nfs_copy_fh (target source : nfs_fh) : nfs_fh :=
  {| fh_size := fh_size source;
     fh_data := copy_bytes (fh_data target) (fh_data source) (Z.to_nat (fh_size source)) |}.

(** The copy from a handle on the wire; [None] when it writes past the array. *)
Definition nfs_copy_fh3 (target : nfs_fh) (source : nfs_fh3) : option nfs_fh :=
  if Z.of_nat (length source) <=? NFS_MAXFHSIZE then
    Some {| fh_size := Z.of_nat (length source);
            fh_data := copy_bytes (fh_data target) source (length source) |}
  else None.

Record nfs_inode := mk_nfsi {
  ni_fileid : Z;
  ni_fh : nfs_fh;
  ni_flags : Z;
  ni_attrtimeo : Z;
  ni_hsfs_inode : hsfs_inode;
  ni_cookieverf : Z }.

Definition set_ni_fileid (v : Z) (r : nfs_inode) : nfs_inode :=
  mk_nfsi v (ni_fh r) (ni_flags r) (ni_attrtimeo r) (ni_hsfs_inode r) (ni_cookieverf r).
Definition set_ni_fh (v : nfs_fh) (r : nfs_inode) : nfs_inode :=
  mk_nfsi (ni_fileid r) v (ni_flags r) (ni_attrtimeo r) (ni_hsfs_inode r) (ni_cookieverf r).
Definition set_ni_hsfs_inode (v : hsfs_inode) (r : nfs_inode) : nfs_inode :=
  mk_nfsi (ni_fileid r) (ni_fh r) (ni_flags r) (ni_attrtimeo r) v (ni_cookieverf r).
Definition set_ni_cookieverf (v : Z) (r : nfs_inode) : nfs_inode :=
  mk_nfsi (ni_fileid r) (ni_fh r) (ni_flags r) (ni_attrtimeo r) (ni_hsfs_inode r) v.

Definition NFS_INO_STALE : Z := 2.
Definition NFS_STALE (n : nfs_inode) : bool := flag NFS_INO_STALE (ni_flags n).

(** [bzero(nfsi, sizeof(struct nfs_inode))]. *)
Definition nfs_inode_zero : nfs_inode :=
  mk_nfsi 0 nfs_fh_zero 0 0 (mk_inode iattr_zero 0 0 0 0 0 0 0 0 0 0) 0.

Definition set_nfs_fileid (fileid : Z) (n : nfs_inode) : nfs_inode :=
  set_ni_hsfs_inode (set_in_real_ino fileid (ni_hsfs_inode n)) (set_ni_fileid fileid n).

(** [hsi_nfs3_getfh3]: the handle as the protocol sends it. *)
Definition hsi_nfs3_getfh3 (n : nfs_inode) : nfs_fh3 :=
  take (Z.to_nat (fh_size (ni_fh n))) (fh_data (ni_fh n)).

(** Attributes as the server gives them, apart from their encoding
    ([struct nfs_fattr]); the NFSv2 and NFSv4 fields are never set. *)
Record nfs_fattr := mk_fattr {
  fa_valid : Z; fa_mode : Z; fa_nlink : Z; fa_uid : Z; fa_gid : Z; fa_rdev : Z;
  fa_size : Z; fa_used : Z; fa_fsid_major : Z; fa_fsid_minor : Z; fa_fileid : Z;
  fa_atime : timespec; fa_mtime : timespec; fa_ctime : timespec }.

Definition NFS_ATTR_FATTR : Z := 0x7c7f.
Definition NFS_ATTR_FATTR_SPACE_USED : Z := 0x200.
Definition NFS_ATTR_FATTR_V3 : Z := Z.lor NFS_ATTR_FATTR NFS_ATTR_FATTR_SPACE_USED.
Definition NFS_ATTR_FATTR_V4 : Z := Z.lor NFS_ATTR_FATTR_V3 0x20000.

(** [nfs_init_fattr] sets [valid] only; a local of the source holds
    arbitrary values elsewhere, which are not read while [valid] is 0. *)
Definition nfs_init_fattr (fa : nfs_fattr) : nfs_fattr :=
  mk_fattr 0 (fa_mode fa) (fa_nlink fa) (fa_uid fa) (fa_gid fa) (fa_rdev fa)
    (fa_size fa) (fa_used fa) (fa_fsid_major fa) (fa_fsid_minor fa) (fa_fileid fa)
    (fa_atime fa) (fa_mtime fa) (fa_ctime fa).

Definition fattr_local : nfs_fattr :=
  mk_fattr 0 0 0 0 0 0 0 0 0 0 0 timespec_zero timespec_zero timespec_zero.

(** ** The superblock *)

Record sockaddr_in := { sin_addr : Z; sin_port : Z }.
Record pmap := { pm_prog : Z; pm_vers : Z; pm_prot : Z; pm_port : Z }.
Record clnt_addr_t := { ca_hostname : string; ca_saddr : sockaddr_in; ca_pmap : pmap }.

Definition sockaddr_zero : sockaddr_in := {| sin_addr := 0; sin_port := 0 |}.
Definition pmap_zero : pmap := {| pm_prog := 0; pm_vers := 0; pm_prot := 0; pm_port := 0 |}.
Definition clnt_addr_zero : clnt_addr_t :=
  {| ca_hostname := ""; ca_saddr := sockaddr_zero; ca_pmap := pmap_zero |}.

Record hsfs_super := mk_super {
  sb_fh_table : hashtable;
  sb_id_table : hashtable;
  sb_curr_id : Z;
  sb_clntp : Z;
  sb_acl_clntp : Z;
  sb_flags : Z;
  sb_rsize : Z;
  sb_wsize : Z;
  sb_timeo : Z;
  sb_retrans : Z;
  sb_acregmin : Z;
  sb_acregmax : Z;
  sb_acdirmin : Z;
  sb_acdirmax : Z;
  sb_addr : sockaddr_in;
  sb_namlen : Z;
  sb_dtsize : Z;
  sb_bsize : Z;
  sb_bsize_bits : Z;
  sb_root : Z;
  sb_rtmax : Z;
  sb_rtpref : Z;
  sb_rtmult : Z;
  sb_wtmax : Z;
  sb_wtpref : Z;
  sb_wtmult : Z;
  sb_dtpref : Z;
  sb_maxfilesize : Z;
  sb_time_delta : nfstime3;
  sb_properties : Z;
  sb_tbytes : Z;
  sb_fbytes : Z;
  sb_abytes : Z;
  sb_tfiles : Z;
  sb_ffiles : Z;
  sb_afiles : Z }.

Definition set_sb_fh_table (v : hashtable) (r : hsfs_super) : hsfs_super :=
  mk_super v (sb_id_table r) (sb_curr_id r) (sb_clntp r) (sb_acl_clntp r) (sb_flags r) (sb_rsize r) (sb_wsize r) (sb_timeo r) (sb_retrans r) (sb_acregmin r) (sb_acregmax r) (sb_acdirmin r) (sb_acdirmax r) (sb_addr r) (sb_namlen r) (sb_dtsize r) (sb_bsize r) (sb_bsize_bits r) (sb_root r) (sb_rtmax r) (sb_rtpref r) (sb_rtmult r) (sb_wtmax r) (sb_wtpref r) (sb_wtmult r) (sb_dtpref r) (sb_maxfilesize r) (sb_time_delta r) (sb_properties r) (sb_tbytes r) (sb_fbytes r) (sb_abytes r) (sb_tfiles r) (sb_ffiles r) (sb_afiles r).
Definition set_sb_id_table (v : hashtable) (r : hsfs_super) : hsfs_super :=
  mk_super (sb_fh_table r) v (sb_curr_id r) (sb_clntp r) (sb_acl_clntp r) (sb_flags r) (sb_rsize r) (sb_wsize r) (sb_timeo r) (sb_retrans r) (sb_acregmin r) (sb_acregmax r) (sb_acdirmin r) (sb_acdirmax r) (sb_addr r) (sb_namlen r) (sb_dtsize r) (sb_bsize r) (sb_bsize_bits r) (sb_root r) (sb_rtmax r) (sb_rtpref r) (sb_rtmult r) (sb_wtmax r) (sb_wtpref r) (sb_wtmult r) (sb_dtpref r) (sb_maxfilesize r) (sb_time_delta r) (sb_properties r) (sb_tbytes r) (sb_fbytes r) (sb_abytes r) (sb_tfiles r) (sb_ffiles r) (sb_afiles r).
Definition set_sb_curr_id (v : Z) (r : hsfs_super) : hsfs_super :=
  mk_super (sb_fh_table r) (sb_id_table r) v (sb_clntp r) (sb_acl_clntp r) (sb_flags r) (sb_rsize r) (sb_wsize r) (sb_timeo r) (sb_retrans r) (sb_acregmin r) (sb_acregmax r) (sb_acdirmin r) (sb_acdirmax r) (sb_addr r) (sb_namlen r) (sb_dtsize r) (sb_bsize r) (sb_bsize_bits r) (sb_root r) (sb_rtmax r) (sb_rtpref r) (sb_rtmult r) (sb_wtmax r) (sb_wtpref r) (sb_wtmult r) (sb_dtpref r) (sb_maxfilesize r) (sb_time_delta r) (sb_properties r) (sb_tbytes r) (sb_fbytes r) (sb_abytes r) (sb_tfiles r) (sb_ffiles r) (sb_afiles r).
Definition set_sb_clntp (v : Z) (r : hsfs_super) : hsfs_super :=
  mk_super (sb_fh_table r) (sb_id_table r) (sb_curr_id r) v (sb_acl_clntp r) (sb_flags r) (sb_rsize r) (sb_wsize r) (sb_timeo r) (sb_retrans r) (sb_acregmin r) (sb_acregmax r) (sb_acdirmin r) (sb_acdirmax r) (sb_addr r) (sb_namlen r) (sb_dtsize r) (sb_bsize r) (sb_bsize_bits r) (sb_root r) (sb_rtmax r) (sb_rtpref r) (sb_rtmult r) (sb_wtmax r) (sb_wtpref r) (sb_wtmult r) (sb_dtpref r) (sb_maxfilesize r) (sb_time_delta r) (sb_properties r) (sb_tbytes r) (sb_fbytes r) (sb_abytes r) (sb_tfiles r) (sb_ffiles r) (sb_afiles r).
Definition set_sb_acl_clntp (v : Z) (r : hsfs_super) : hsfs_super :=
  mk_super (sb_fh_table r) (sb_id_table r) (sb_curr_id r) (sb_clntp r) v (sb_flags r) (sb_rsize r) (sb_wsize r) (sb_timeo r) (sb_retrans r) (sb_acregmin r) (sb_acregmax r) (sb_acdirmin r) (sb_acdirmax r) (sb_addr r) (sb_namlen r) (sb_dtsize r) (sb_bsize r) (sb_bsize_bits r) (sb_root r) (sb_rtmax r) (sb_rtpref r) (sb_rtmult r) (sb_wtmax r) (sb_wtpref r) (sb_wtmult r) (sb_dtpref r) (sb_maxfilesize r) (sb_time_delta r) (sb_properties r) (sb_tbytes r) (sb_fbytes r) (sb_abytes r) (sb_tfiles r) (sb_ffiles r) (sb_afiles r).
Definition set_sb_flags (v : Z) (r : hsfs_super) : hsfs_super :=
  mk_super (sb_fh_table r) (sb_id_table r) (sb_curr_id r) (sb_clntp r) (sb_acl_clntp r) v (sb_rsize r) (sb_wsize r) (sb_timeo r) (sb_retrans r) (sb_acregmin r) (sb_acregmax r) (sb_acdirmin r) (sb_acdirmax r) (sb_addr r) (sb_namlen r) (sb_dtsize r) (sb_bsize r) (sb_bsize_bits r) (sb_root r) (sb_rtmax r) (sb_rtpref r) (sb_rtmult r) (sb_wtmax r) (sb_wtpref r) (sb_wtmult r) (sb_dtpref r) (sb_maxfilesize r) (sb_time_delta r) (sb_properties r) (sb_tbytes r) (sb_fbytes r) (sb_abytes r) (sb_tfiles r) (sb_ffiles r) (sb_afiles r).
Definition set_sb_rsize (v : Z) (r : hsfs_super) : hsfs_super :=
  mk_super (sb_fh_table r) (sb_id_table r) (sb_curr_id r) (sb_clntp r) (sb_acl_clntp r) (sb_flags r) v (sb_wsize r) (sb_timeo r) (sb_retrans r) (sb_acregmin r) (sb_acregmax r) (sb_acdirmin r) (sb_acdirmax r) (sb_addr r) (sb_namlen r) (sb_dtsize r) (sb_bsize r) (sb_bsize_bits r) (sb_root r) (sb_rtmax r) (sb_rtpref r) (sb_rtmult r) (sb_wtmax r) (sb_wtpref r) (sb_wtmult r) (sb_dtpref r) (sb_maxfilesize r) (sb_time_delta r) (sb_properties r) (sb_tbytes r) (sb_fbytes r) (sb_abytes r) (sb_tfiles r) (sb_ffiles r) (sb_afiles r).
Definition set_sb_wsize (v : Z) (r : hsfs_super) : hsfs_super :=
  mk_super (sb_fh_table r) (sb_id_table r) (sb_curr_id r) (sb_clntp r) (sb_acl_clntp r) (sb_flags r) (sb_rsize r) v (sb_timeo r) (sb_retrans r) (sb_acregmin r) (sb_acregmax r) (sb_acdirmin r) (sb_acdirmax r) (sb_addr r) (sb_namlen r) (sb_dtsize r) (sb_bsize r) (sb_bsize_bits r) (sb_root r) (sb_rtmax r) (sb_rtpref r) (sb_rtmult r) (sb_wtmax r) (sb_wtpref r) (sb_wtmult r) (sb_dtpref r) (sb_maxfilesize r) (sb_time_delta r) (sb_properties r) (sb_tbytes r) (sb_fbytes r) (sb_abytes r) (sb_tfiles r) (sb_ffiles r) (sb_afiles r).
Definition set_sb_timeo (v : Z) (r : hsfs_super) : hsfs_super :=
  mk_super (sb_fh_table r) (sb_id_table r) (sb_curr_id r) (sb_clntp r) (sb_acl_clntp r) (sb_flags r) (sb_rsize r) (sb_wsize r) v (sb_retrans r) (sb_acregmin r) (sb_acregmax r) (sb_acdirmin r) (sb_acdirmax r) (sb_addr r) (sb_namlen r) (sb_dtsize r) (sb_bsize r) (sb_bsize_bits r) (sb_root r) (sb_rtmax r) (sb_rtpref r) (sb_rtmult r) (sb_wtmax r) (sb_wtpref r) (sb_wtmult r) (sb_dtpref r) (sb_maxfilesize r) (sb_time_delta r) (sb_properties r) (sb_tbytes r) (sb_fbytes r) (sb_abytes r) (sb_tfiles r) (sb_ffiles r) (sb_afiles r).
Definition set_sb_retrans (v : Z) (r : hsfs_super) : hsfs_super :=
  mk_super (sb_fh_table r) (sb_id_table r) (sb_curr_id r) (sb_clntp r) (sb_acl_clntp r) (sb_flags r) (sb_rsize r) (sb_wsize r) (sb_timeo r) v (sb_acregmin r) (sb_acregmax r) (sb_acdirmin r) (sb_acdirmax r) (sb_addr r) (sb_namlen r) (sb_dtsize r) (sb_bsize r) (sb_bsize_bits r) (sb_root r) (sb_rtmax r) (sb_rtpref r) (sb_rtmult r) (sb_wtmax r) (sb_wtpref r) (sb_wtmult r) (sb_dtpref r) (sb_maxfilesize r) (sb_time_delta r) (sb_properties r) (sb_tbytes r) (sb_fbytes r) (sb_abytes r) (sb_tfiles r) (sb_ffiles r) (sb_afiles r).
Definition set_sb_acregmin (v : Z) (r : hsfs_super) : hsfs_super :=
  mk_super (sb_fh_table r) (sb_id_table r) (sb_curr_id r) (sb_clntp r) (sb_acl_clntp r) (sb_flags r) (sb_rsize r) (sb_wsize r) (sb_timeo r) (sb_retrans r) v (sb_acregmax r) (sb_acdirmin r) (sb_acdirmax r) (sb_addr r) (sb_namlen r) (sb_dtsize r) (sb_bsize r) (sb_bsize_bits r) (sb_root r) (sb_rtmax r) (sb_rtpref r) (sb_rtmult r) (sb_wtmax r) (sb_wtpref r) (sb_wtmult r) (sb_dtpref r) (sb_maxfilesize r) (sb_time_delta r) (sb_properties r) (sb_tbytes r) (sb_fbytes r) (sb_abytes r) (sb_tfiles r) (sb_ffiles r) (sb_afiles r).
Definition set_sb_acregmax (v : Z) (r : hsfs_super) : hsfs_super :=
  mk_super (sb_fh_table r) (sb_id_table r) (sb_curr_id r) (sb_clntp r) (sb_acl_clntp r) (sb_flags r) (sb_rsize r) (sb_wsize r) (sb_timeo r) (sb_retrans r) (sb_acregmin r) v (sb_acdirmin r) (sb_acdirmax r) (sb_addr r) (sb_namlen r) (sb_dtsize r) (sb_bsize r) (sb_bsize_bits r) (sb_root r) (sb_rtmax r) (sb_rtpref r) (sb_rtmult r) (sb_wtmax r) (sb_wtpref r) (sb_wtmult r) (sb_dtpref r) (sb_maxfilesize r) (sb_time_delta r) (sb_properties r) (sb_tbytes r) (sb_fbytes r) (sb_abytes r) (sb_tfiles r) (sb_ffiles r) (sb_afiles r).
Definition set_sb_acdirmin (v : Z) (r : hsfs_super) : hsfs_super :=
  mk_super (sb_fh_table r) (sb_id_table r) (sb_curr_id r) (sb_clntp r) (sb_acl_clntp r) (sb_flags r) (sb_rsize r) (sb_wsize r) (sb_timeo r) (sb_retrans r) (sb_acregmin r) (sb_acregmax r) v (sb_acdirmax r) (sb_addr r) (sb_namlen r) (sb_dtsize r) (sb_bsize r) (sb_bsize_bits r) (sb_root r) (sb_rtmax r) (sb_rtpref r) (sb_rtmult r) (sb_wtmax r) (sb_wtpref r) (sb_wtmult r) (sb_dtpref r) (sb_maxfilesize r) (sb_time_delta r) (sb_properties r) (sb_tbytes r) (sb_fbytes r) (sb_abytes r) (sb_tfiles r) (sb_ffiles r) (sb_afiles r).
Definition set_sb_acdirmax (v : Z) (r : hsfs_super) : hsfs_super :=
  mk_super (sb_fh_table r) (sb_id_table r) (sb_curr_id r) (sb_clntp r) (sb_acl_clntp r) (sb_flags r) (sb_rsize r) (sb_wsize r) (sb_timeo r) (sb_retrans r) (sb_acregmin r) (sb_acregmax r) (sb_acdirmin r) v (sb_addr r) (sb_namlen r) (sb_dtsize r) (sb_bsize r) (sb_bsize_bits r) (sb_root r) (sb_rtmax r) (sb_rtpref r) (sb_rtmult r) (sb_wtmax r) (sb_wtpref r) (sb_wtmult r) (sb_dtpref r) (sb_maxfilesize r) (sb_time_delta r) (sb_properties r) (sb_tbytes r) (sb_fbytes r) (sb_abytes r) (sb_tfiles r) (sb_ffiles r) (sb_afiles r).
Definition set_sb_addr (v : sockaddr_in) (r : hsfs_super) : hsfs_super :=
  mk_super (sb_fh_table r) (sb_id_table r) (sb_curr_id r) (sb_clntp r) (sb_acl_clntp r) (sb_flags r) (sb_rsize r) (sb_wsize r) (sb_timeo r) (sb_retrans r) (sb_acregmin r) (sb_acregmax r) (sb_acdirmin r) (sb_acdirmax r) v (sb_namlen r) (sb_dtsize r) (sb_bsize r) (sb_bsize_bits r) (sb_root r) (sb_rtmax r) (sb_rtpref r) (sb_rtmult r) (sb_wtmax r) (sb_wtpref r) (sb_wtmult r) (sb_dtpref r) (sb_maxfilesize r) (sb_time_delta r) (sb_properties r) (sb_tbytes r) (sb_fbytes r) (sb_abytes r) (sb_tfiles r) (sb_ffiles r) (sb_afiles r).
Definition set_sb_namlen (v : Z) (r : hsfs_super) : hsfs_super :=
  mk_super (sb_fh_table r) (sb_id_table r) (sb_curr_id r) (sb_clntp r) (sb_acl_clntp r) (sb_flags r) (sb_rsize r) (sb_wsize r) (sb_timeo r) (sb_retrans r) (sb_acregmin r) (sb_acregmax r) (sb_acdirmin r) (sb_acdirmax r) (sb_addr r) v (sb_dtsize r) (sb_bsize r) (sb_bsize_bits r) (sb_root r) (sb_rtmax r) (sb_rtpref r) (sb_rtmult r) (sb_wtmax r) (sb_wtpref r) (sb_wtmult r) (sb_dtpref r) (sb_maxfilesize r) (sb_time_delta r) (sb_properties r) (sb_tbytes r) (sb_fbytes r) (sb_abytes r) (sb_tfiles r) (sb_ffiles r) (sb_afiles r).
Definition set_sb_dtsize (v : Z) (r : hsfs_super) : hsfs_super :=
  mk_super (sb_fh_table r) (sb_id_table r) (sb_curr_id r) (sb_clntp r) (sb_acl_clntp r) (sb_flags r) (sb_rsize r) (sb_wsize r) (sb_timeo r) (sb_retrans r) (sb_acregmin r) (sb_acregmax r) (sb_acdirmin r) (sb_acdirmax r) (sb_addr r) (sb_namlen r) v (sb_bsize r) (sb_bsize_bits r) (sb_root r) (sb_rtmax r) (sb_rtpref r) (sb_rtmult r) (sb_wtmax r) (sb_wtpref r) (sb_wtmult r) (sb_dtpref r) (sb_maxfilesize r) (sb_time_delta r) (sb_properties r) (sb_tbytes r) (sb_fbytes r) (sb_abytes r) (sb_tfiles r) (sb_ffiles r) (sb_afiles r).
Definition set_sb_bsize (v : Z) (r : hsfs_super) : hsfs_super :=
  mk_super (sb_fh_table r) (sb_id_table r) (sb_curr_id r) (sb_clntp r) (sb_acl_clntp r) (sb_flags r) (sb_rsize r) (sb_wsize r) (sb_timeo r) (sb_retrans r) (sb_acregmin r) (sb_acregmax r) (sb_acdirmin r) (sb_acdirmax r) (sb_addr r) (sb_namlen r) (sb_dtsize r) v (sb_bsize_bits r) (sb_root r) (sb_rtmax r) (sb_rtpref r) (sb_rtmult r) (sb_wtmax r) (sb_wtpref r) (sb_wtmult r) (sb_dtpref r) (sb_maxfilesize r) (sb_time_delta r) (sb_properties r) (sb_tbytes r) (sb_fbytes r) (sb_abytes r) (sb_tfiles r) (sb_ffiles r) (sb_afiles r).
Definition set_sb_bsize_bits (v : Z) (r : hsfs_super) : hsfs_super :=
  mk_super (sb_fh_table r) (sb_id_table r) (sb_curr_id r) (sb_clntp r) (sb_acl_clntp r) (sb_flags r) (sb_rsize r) (sb_wsize r) (sb_timeo r) (sb_retrans r) (sb_acregmin r) (sb_acregmax r) (sb_acdirmin r) (sb_acdirmax r) (sb_addr r) (sb_namlen r) (sb_dtsize r) (sb_bsize r) v (sb_root r) (sb_rtmax r) (sb_rtpref r) (sb_rtmult r) (sb_wtmax r) (sb_wtpref r) (sb_wtmult r) (sb_dtpref r) (sb_maxfilesize r) (sb_time_delta r) (sb_properties r) (sb_tbytes r) (sb_fbytes r) (sb_abytes r) (sb_tfiles r) (sb_ffiles r) (sb_afiles r).
Definition set_sb_root (v : Z) (r : hsfs_super) : hsfs_super :=
  mk_super (sb_fh_table r) (sb_id_table r) (sb_curr_id r) (sb_clntp r) (sb_acl_clntp r) (sb_flags r) (sb_rsize r) (sb_wsize r) (sb_timeo r) (sb_retrans r) (sb_acregmin r) (sb_acregmax r) (sb_acdirmin r) (sb_acdirmax r) (sb_addr r) (sb_namlen r) (sb_dtsize r) (sb_bsize r) (sb_bsize_bits r) v (sb_rtmax r) (sb_rtpref r) (sb_rtmult r) (sb_wtmax r) (sb_wtpref r) (sb_wtmult r) (sb_dtpref r) (sb_maxfilesize r) (sb_time_delta r) (sb_properties r) (sb_tbytes r) (sb_fbytes r) (sb_abytes r) (sb_tfiles r) (sb_ffiles r) (sb_afiles r).
Definition set_sb_rtmax (v : Z) (r : hsfs_super) : hsfs_super :=
  mk_super (sb_fh_table r) (sb_id_table r) (sb_curr_id r) (sb_clntp r) (sb_acl_clntp r) (sb_flags r) (sb_rsize r) (sb_wsize r) (sb_timeo r) (sb_retrans r) (sb_acregmin r) (sb_acregmax r) (sb_acdirmin r) (sb_acdirmax r) (sb_addr r) (sb_namlen r) (sb_dtsize r) (sb_bsize r) (sb_bsize_bits r) (sb_root r) v (sb_rtpref r) (sb_rtmult r) (sb_wtmax r) (sb_wtpref r) (sb_wtmult r) (sb_dtpref r) (sb_maxfilesize r) (sb_time_delta r) (sb_properties r) (sb_tbytes r) (sb_fbytes r) (sb_abytes r) (sb_tfiles r) (sb_ffiles r) (sb_afiles r).
Definition set_sb_rtpref (v : Z) (r : hsfs_super) : hsfs_super :=
  mk_super (sb_fh_table r) (sb_id_table r) (sb_curr_id r) (sb_clntp r) (sb_acl_clntp r) (sb_flags r) (sb_rsize r) (sb_wsize r) (sb_timeo r) (sb_retrans r) (sb_acregmin r) (sb_acregmax r) (sb_acdirmin r) (sb_acdirmax r) (sb_addr r) (sb_namlen r) (sb_dtsize r) (sb_bsize r) (sb_bsize_bits r) (sb_root r) (sb_rtmax r) v (sb_rtmult r) (sb_wtmax r) (sb_wtpref r) (sb_wtmult r) (sb_dtpref r) (sb_maxfilesize r) (sb_time_delta r) (sb_properties r) (sb_tbytes r) (sb_fbytes r) (sb_abytes r) (sb_tfiles r) (sb_ffiles r) (sb_afiles r).
Definition set_sb_rtmult (v : Z) (r : hsfs_super) : hsfs_super :=
  mk_super (sb_fh_table r) (sb_id_table r) (sb_curr_id r) (sb_clntp r) (sb_acl_clntp r) (sb_flags r) (sb_rsize r) (sb_wsize r) (sb_timeo r) (sb_retrans r) (sb_acregmin r) (sb_acregmax r) (sb_acdirmin r) (sb_acdirmax r) (sb_addr r) (sb_namlen r) (sb_dtsize r) (sb_bsize r) (sb_bsize_bits r) (sb_root r) (sb_rtmax r) (sb_rtpref r) v (sb_wtmax r) (sb_wtpref r) (sb_wtmult r) (sb_dtpref r) (sb_maxfilesize r) (sb_time_delta r) (sb_properties r) (sb_tbytes r) (sb_fbytes r) (sb_abytes r) (sb_tfiles r) (sb_ffiles r) (sb_afiles r).
Definition set_sb_wtmax (v : Z) (r : hsfs_super) : hsfs_super :=
  mk_super (sb_fh_table r) (sb_id_table r) (sb_curr_id r) (sb_clntp r) (sb_acl_clntp r) (sb_flags r) (sb_rsize r) (sb_wsize r) (sb_timeo r) (sb_retrans r) (sb_acregmin r) (sb_acregmax r) (sb_acdirmin r) (sb_acdirmax r) (sb_addr r) (sb_namlen r) (sb_dtsize r) (sb_bsize r) (sb_bsize_bits r) (sb_root r) (sb_rtmax r) (sb_rtpref r) (sb_rtmult r) v (sb_wtpref r) (sb_wtmult r) (sb_dtpref r) (sb_maxfilesize r) (sb_time_delta r) (sb_properties r) (sb_tbytes r) (sb_fbytes r) (sb_abytes r) (sb_tfiles r) (sb_ffiles r) (sb_afiles r).
Definition set_sb_wtpref (v : Z) (r : hsfs_super) : hsfs_super :=
  mk_super (sb_fh_table r) (sb_id_table r) (sb_curr_id r) (sb_clntp r) (sb_acl_clntp r) (sb_flags r) (sb_rsize r) (sb_wsize r) (sb_timeo r) (sb_retrans r) (sb_acregmin r) (sb_acregmax r) (sb_acdirmin r) (sb_acdirmax r) (sb_addr r) (sb_namlen r) (sb_dtsize r) (sb_bsize r) (sb_bsize_bits r) (sb_root r) (sb_rtmax r) (sb_rtpref r) (sb_rtmult r) (sb_wtmax r) v (sb_wtmult r) (sb_dtpref r) (sb_maxfilesize r) (sb_time_delta r) (sb_properties r) (sb_tbytes r) (sb_fbytes r) (sb_abytes r) (sb_tfiles r) (sb_ffiles r) (sb_afiles r).
Definition set_sb_wtmult (v : Z) (r : hsfs_super) : hsfs_super :=
  mk_super (sb_fh_table r) (sb_id_table r) (sb_curr_id r) (sb_clntp r) (sb_acl_clntp r) (sb_flags r) (sb_rsize r) (sb_wsize r) (sb_timeo r) (sb_retrans r) (sb_acregmin r) (sb_acregmax r) (sb_acdirmin r) (sb_acdirmax r) (sb_addr r) (sb_namlen r) (sb_dtsize r) (sb_bsize r) (sb_bsize_bits r) (sb_root r) (sb_rtmax r) (sb_rtpref r) (sb_rtmult r) (sb_wtmax r) (sb_wtpref r) v (sb_dtpref r) (sb_maxfilesize r) (sb_time_delta r) (sb_properties r) (sb_tbytes r) (sb_fbytes r) (sb_abytes r) (sb_tfiles r) (sb_ffiles r) (sb_afiles r).
Definition set_sb_dtpref (v : Z) (r : hsfs_super) : hsfs_super :=
  mk_super (sb_fh_table r) (sb_id_table r) (sb_curr_id r) (sb_clntp r) (sb_acl_clntp r) (sb_flags r) (sb_rsize r) (sb_wsize r) (sb_timeo r) (sb_retrans r) (sb_acregmin r) (sb_acregmax r) (sb_acdirmin r) (sb_acdirmax r) (sb_addr r) (sb_namlen r) (sb_dtsize r) (sb_bsize r) (sb_bsize_bits r) (sb_root r) (sb_rtmax r) (sb_rtpref r) (sb_rtmult r) (sb_wtmax r) (sb_wtpref r) (sb_wtmult r) v (sb_maxfilesize r) (sb_time_delta r) (sb_properties r) (sb_tbytes r) (sb_fbytes r) (sb_abytes r) (sb_tfiles r) (sb_ffiles r) (sb_afiles r).
Definition set_sb_maxfilesize (v : Z) (r : hsfs_super) : hsfs_super :=
  mk_super (sb_fh_table r) (sb_id_table r) (sb_curr_id r) (sb_clntp r) (sb_acl_clntp r) (sb_flags r) (sb_rsize r) (sb_wsize r) (sb_timeo r) (sb_retrans r) (sb_acregmin r) (sb_acregmax r) (sb_acdirmin r) (sb_acdirmax r) (sb_addr r) (sb_namlen r) (sb_dtsize r) (sb_bsize r) (sb_bsize_bits r) (sb_root r) (sb_rtmax r) (sb_rtpref r) (sb_rtmult r) (sb_wtmax r) (sb_wtpref r) (sb_wtmult r) (sb_dtpref r) v (sb_time_delta r) (sb_properties r) (sb_tbytes r) (sb_fbytes r) (sb_abytes r) (sb_tfiles r) (sb_ffiles r) (sb_afiles r).
Definition set_sb_time_delta (v : nfstime3) (r : hsfs_super) : hsfs_super :=
  mk_super (sb_fh_table r) (sb_id_table r) (sb_curr_id r) (sb_clntp r) (sb_acl_clntp r) (sb_flags r) (sb_rsize r) (sb_wsize r) (sb_timeo r) (sb_retrans r) (sb_acregmin r) (sb_acregmax r) (sb_acdirmin r) (sb_acdirmax r) (sb_addr r) (sb_namlen r) (sb_dtsize r) (sb_bsize r) (sb_bsize_bits r) (sb_root r) (sb_rtmax r) (sb_rtpref r) (sb_rtmult r) (sb_wtmax r) (sb_wtpref r) (sb_wtmult r) (sb_dtpref r) (sb_maxfilesize r) v (sb_properties r) (sb_tbytes r) (sb_fbytes r) (sb_abytes r) (sb_tfiles r) (sb_ffiles r) (sb_afiles r).
Definition set_sb_properties (v : Z) (r : hsfs_super) : hsfs_super :=
  mk_super (sb_fh_table r) (sb_id_table r) (sb_curr_id r) (sb_clntp r) (sb_acl_clntp r) (sb_flags r) (sb_rsize r) (sb_wsize r) (sb_timeo r) (sb_retrans r) (sb_acregmin r) (sb_acregmax r) (sb_acdirmin r) (sb_acdirmax r) (sb_addr r) (sb_namlen r) (sb_dtsize r) (sb_bsize r) (sb_bsize_bits r) (sb_root r) (sb_rtmax r) (sb_rtpref r) (sb_rtmult r) (sb_wtmax r) (sb_wtpref r) (sb_wtmult r) (sb_dtpref r) (sb_maxfilesize r) (sb_time_delta r) v (sb_tbytes r) (sb_fbytes r) (sb_abytes r) (sb_tfiles r) (sb_ffiles r) (sb_afiles r).
Definition set_sb_tbytes (v : Z) (r : hsfs_super) : hsfs_super :=
  mk_super (sb_fh_table r) (sb_id_table r) (sb_curr_id r) (sb_clntp r) (sb_acl_clntp r) (sb_flags r) (sb_rsize r) (sb_wsize r) (sb_timeo r) (sb_retrans r) (sb_acregmin r) (sb_acregmax r) (sb_acdirmin r) (sb_acdirmax r) (sb_addr r) (sb_namlen r) (sb_dtsize r) (sb_bsize r) (sb_bsize_bits r) (sb_root r) (sb_rtmax r) (sb_rtpref r) (sb_rtmult r) (sb_wtmax r) (sb_wtpref r) (sb_wtmult r) (sb_dtpref r) (sb_maxfilesize r) (sb_time_delta r) (sb_properties r) v (sb_fbytes r) (sb_abytes r) (sb_tfiles r) (sb_ffiles r) (sb_afiles r).
Definition set_sb_fbytes (v : Z) (r : hsfs_super) : hsfs_super :=
  mk_super (sb_fh_table r) (sb_id_table r) (sb_curr_id r) (sb_clntp r) (sb_acl_clntp r) (sb_flags r) (sb_rsize r) (sb_wsize r) (sb_timeo r) (sb_retrans r) (sb_acregmin r) (sb_acregmax r) (sb_acdirmin r) (sb_acdirmax r) (sb_addr r) (sb_namlen r) (sb_dtsize r) (sb_bsize r) (sb_bsize_bits r) (sb_root r) (sb_rtmax r) (sb_rtpref r) (sb_rtmult r) (sb_wtmax r) (sb_wtpref r) (sb_wtmult r) (sb_dtpref r) (sb_maxfilesize r) (sb_time_delta r) (sb_properties r) (sb_tbytes r) v (sb_abytes r) (sb_tfiles r) (sb_ffiles r) (sb_afiles r).
Definition set_sb_abytes (v : Z) (r : hsfs_super) : hsfs_super :=
  mk_super (sb_fh_table r) (sb_id_table r) (sb_curr_id r) (sb_clntp r) (sb_acl_clntp r) (sb_flags r) (sb_rsize r) (sb_wsize r) (sb_timeo r) (sb_retrans r) (sb_acregmin r) (sb_acregmax r) (sb_acdirmin r) (sb_acdirmax r) (sb_addr r) (sb_namlen r) (sb_dtsize r) (sb_bsize r) (sb_bsize_bits r) (sb_root r) (sb_rtmax r) (sb_rtpref r) (sb_rtmult r) (sb_wtmax r) (sb_wtpref r) (sb_wtmult r) (sb_dtpref r) (sb_maxfilesize r) (sb_time_delta r) (sb_properties r) (sb_tbytes r) (sb_fbytes r) v (sb_tfiles r) (sb_ffiles r) (sb_afiles r).
Definition set_sb_tfiles (v : Z) (r : hsfs_super) : hsfs_super :=
  mk_super (sb_fh_table r) (sb_id_table r) (sb_curr_id r) (sb_clntp r) (sb_acl_clntp r) (sb_flags r) (sb_rsize r) (sb_wsize r) (sb_timeo r) (sb_retrans r) (sb_acregmin r) (sb_acregmax r) (sb_acdirmin r) (sb_acdirmax r) (sb_addr r) (sb_namlen r) (sb_dtsize r) (sb_bsize r) (sb_bsize_bits r) (sb_root r) (sb_rtmax r) (sb_rtpref r) (sb_rtmult r) (sb_wtmax r) (sb_wtpref r) (sb_wtmult r) (sb_dtpref r) (sb_maxfilesize r) (sb_time_delta r) (sb_properties r) (sb_tbytes r) (sb_fbytes r) (sb_abytes r) v (sb_ffiles r) (sb_afiles r).
Definition set_sb_ffiles (v : Z) (r : hsfs_super) : hsfs_super :=
  mk_super (sb_fh_table r) (sb_id_table r) (sb_curr_id r) (sb_clntp r) (sb_acl_clntp r) (sb_flags r) (sb_rsize r) (sb_wsize r) (sb_timeo r) (sb_retrans r) (sb_acregmin r) (sb_acregmax r) (sb_acdirmin r) (sb_acdirmax r) (sb_addr r) (sb_namlen r) (sb_dtsize r) (sb_bsize r) (sb_bsize_bits r) (sb_root r) (sb_rtmax r) (sb_rtpref r) (sb_rtmult r) (sb_wtmax r) (sb_wtpref r) (sb_wtmult r) (sb_dtpref r) (sb_maxfilesize r) (sb_time_delta r) (sb_properties r) (sb_tbytes r) (sb_fbytes r) (sb_abytes r) (sb_tfiles r) v (sb_afiles r).
Definition set_sb_afiles (v : Z) (r : hsfs_super) : hsfs_super :=
  mk_super (sb_fh_table r) (sb_id_table r) (sb_curr_id r) (sb_clntp r) (sb_acl_clntp r) (sb_flags r) (sb_rsize r) (sb_wsize r) (sb_timeo r) (sb_retrans r) (sb_acregmin r) (sb_acregmax r) (sb_acdirmin r) (sb_acdirmax r) (sb_addr r) (sb_namlen r) (sb_dtsize r) (sb_bsize r) (sb_bsize_bits r) (sb_root r) (sb_rtmax r) (sb_rtpref r) (sb_rtmult r) (sb_wtmax r) (sb_wtpref r) (sb_wtmult r) (sb_dtpref r) (sb_maxfilesize r) (sb_time_delta r) (sb_properties r) (sb_tbytes r) (sb_fbytes r) (sb_abytes r) (sb_tfiles r) (sb_ffiles r) v.

(** [bzero(&super, sizeof(struct hsfs_super))]. *)
Definition super_zero : hsfs_super :=
  mk_super [] [] 0 0 0 0 0 0 0 0 0 0 0 0 sockaddr_zero 0 0 0 0 0 0 0 0 0 0 0 0 0
    {| seconds := 0; nseconds := 0 |} 0 0 0 0 0 0 0.

(** ** Replies to the kernel *)

Record stat := {
  st_ino : Z; st_mode : Z; st_nlink : Z; st_uid : Z; st_gid : Z; st_rdev : Z;
  st_size : Z; st_blksize : Z; st_blocks : Z;
  st_atim : timespec; st_mtim : timespec; st_ctim : timespec }.

Definition stat_zero : stat :=
  {| st_ino := 0; st_mode := 0; st_nlink := 0; st_uid := 0; st_gid := 0; st_rdev := 0;
     st_size := 0; st_blksize := 0; st_blocks := 0;
     st_atim := timespec_zero; st_mtim := timespec_zero; st_ctim := timespec_zero |}.

Record statvfs := {
  f_bsize : Z; f_frsize : Z; f_blocks : Z; f_bfree : Z; f_bavail : Z;
  f_files : Z; f_ffree : Z; f_favail : Z; f_fsid : Z; f_flag : Z; f_namemax : Z }.

Record fuse_entry_param := {
  e_ino : Z; e_generation : Z; e_attr : stat; e_attr_timeout : Z; e_entry_timeout : Z }.

(** An entry of a directory listing: name, inode number, offset of the next
    one, and, for readdirplus, the entry parameters. *)
Record dirent := { d_name : string; d_ino : Z; d_off : Z; d_param : option fuse_entry_param }.

Inductive reply :=
  | reply_err (err : Z)
  | reply_none
  | reply_entry (e : fuse_entry_param)
  | reply_create (e : fuse_entry_param)
  | reply_attr (st : stat) (timeout : Z)
  | reply_open
  | reply_buf (data : list Z)
  | reply_dir (entries : list dirent)
  | reply_write (count : Z)
  | reply_readlink (link : option string)
  | reply_statfs (st : statvfs)
  | reply_xattr (size : Z).

(** ** The environment

    The code that is not in the repository: the RPC library and the server
    behind it, and the allocator.  [clnt_call] answers a call made on a live
    client handle, with the timeout of the call; a failed call has the errno
    [clnt_geterr] gives. *)
Inductive clnt_result (R : Type) : Type :=
  | RPC_SUCCESS (r : R)
  | RPC_FAILED (re_errno : Z).
Arguments RPC_SUCCESS {R} _.
Arguments RPC_FAILED {R} _.

Class Env := {
  env : Type;
  clnt_call : forall {R}, Z -> nfsproc R -> Z * Z -> env -> clnt_result R * env;
  (** [clnttcp_create] or [clntudp_bufcreate], by protocol: with the handles in
      use, a new one, or [None]. *)
  clnt_create : gset Z -> clnt_addr_t -> Z -> Z -> env -> option Z * env;
  (** [authunix_create_default]: whether it succeeded. *)
  authunix_create : env -> bool * env;
  (** [malloc] of an inode: its address, or [None]. *)
  malloc_inode : gmap Z nfs_inode -> env -> option Z * env;
  (** [malloc] or [calloc] of a buffer of the given size: whether it
      succeeded. *)
  malloc : Z -> env -> bool * env;
  (** The space [fuse_add_direntry] and [fuse_add_direntry_plus] need for an
      entry of the given name. *)
  direntry_size : string -> Z;
  direntry_plus_size : string -> Z;
  (** [sysconf(_SC_PAGE_SIZE)]. *)
  page_size : Z;
  (** The address of the static [bad_hsfs_inode]. *)
  bad_hsfs_inode : Z;
}.

(** ** Error pointers ([include/hsfs/err.h])

    [sizeof(struct hsfs_inode)] on a 64-bit machine. *)
Definition MAX_ERRNO : Z := 184.

Section ErrPtr.
Context `{E : Env}.

Definition IS_ERR_VALUE (x : Z) : bool := u64 (- MAX_ERRNO) <=? x.

(** [None] when the assertion fails; both branches of the source subtract. *)
Definition ERR_PTR (error : Z) : option Z :=
let tmp := u64 bad_hsfs_inode in
let tmp := if error <? 0 then u64 (tmp - error) else u64 (tmp - error) in
if tmp <? u64 (bad_hsfs_inode + MAX_ERRNO) then Some tmp else None.

Definition PTR_ERR (ptr : Z) : Z := s64 (ptr - bad_hsfs_inode).

Definition IS_ERR (ptr : Z) : bool := IS_ERR_VALUE ptr.

Definition IS_ERR_OR_NULL (ptr : Z) : bool := (ptr =? 0) || IS_ERR_VALUE ptr.

End ErrPtr.

(** ** The world *)

Record backup := {
  nfs_server_bak : clnt_addr_t; acl_server_bak : clnt_addr_t;
  ssize_bak : Z; rsize_bak : Z }.

Definition backup_zero : backup :=
{| nfs_server_bak := clnt_addr_zero; acl_server_bak := clnt_addr_zero;
   ssize_bak := 0; rsize_bak := 0 |}.

Record world `{E : Env} := mk_world {
  w_heap : gmap Z nfs_inode;
  w_sb : hsfs_super;
  w_clnts : gset Z;
  w_bak : backup;
  w_env : env;
  w_out : list reply }.
Arguments world {E}.
Arguments mk_world {E} _ _ _ _ _ _.

Section Steps.
Context `{E : Env}.

Definition set_heap (h : gmap Z nfs_inode) (w : world) : world :=
  mk_world h (w_sb w) (w_clnts w) (w_bak w) (w_env w) (w_out w).
Definition set_sb (s : hsfs_super) (w : world) : world :=
  mk_world (w_heap w) s (w_clnts w) (w_bak w) (w_env w) (w_out w).
Definition set_clnts (c : gset Z) (w : world) : world :=
  mk_world (w_heap w) (w_sb w) c (w_bak w) (w_env w) (w_out w).
Definition set_bak (b : backup) (w : world) : world :=
  mk_world (w_heap w) (w_sb w) (w_clnts w) b (w_env w) (w_out w).
Definition set_env (e : env) (w : world) : world :=
  mk_world (w_heap w) (w_sb w) (w_clnts w) (w_bak w) e (w_out w).
Definition set_out (o : list reply) (w : world) : world :=
  mk_world (w_heap w) (w_sb w) (w_clnts w) (w_bak w) (w_env w) o.

(** Reading and writing through an inode pointer. *)
Definition deref (p : Z) : M world nfs_inode :=
  fun w => match w_heap w !! p with Some n => Ret n w | None => Undef end.

Definition store (p : Z) (n : nfs_inode) : M world unit :=
  fun w => match w_heap w !! p with
           | Some _ => Ret tt (set_heap (<[p := n]> (w_heap w)) w)
           | None => Undef
           end.

Definition update (p : Z) (f : nfs_inode -> nfs_inode) : M world unit :=
  let! n := deref p in store p (f n).

Definition get_sb : M world hsfs_super := fun w => Ret (w_sb w) w.
Definition update_sb (f : hsfs_super -> hsfs_super) : M world unit :=
  modify (fun w => set_sb (f (w_sb w)) w).

Definition send (r : reply) : M world unit :=
  modify (fun w => set_out (w_out w ++ [r]) w).

(** A step of the environment. *)
Definition from_env {A} (f : env -> A * env) : M world A :=
  fun w => let '(a, e) := f (w_env w) in Ret a (set_env e w).

(** [ERR_PTR(error)], its assertion included. *)
Definition err_ptr (error : Z) : M world Z :=
  match ERR_PTR error with Some p => ret p | None => fun _ => Abort end.

(** [malloc(size)] of a buffer or structure whose address is not needed. *)
Definition c_malloc (size : Z) : M world bool := from_env (malloc size).
End Steps.

(** The operations of a superblock.  [alloc_inode] and [destroy_inode] are set
    in [hsi_nfs_sop], the only instance, so the fallbacks to [malloc] and [free]
    are not taken; [drop_inode] is NULL there. *)
Record hsfs_super_ops `{E : Env} := {
  sop_alloc_inode : M world Z;
  sop_destroy_inode : Z -> M world unit;
  sop_drop_inode : option (Z -> M world unit);
  (** The error, and the attributes the server returned. *)
  sop_setattr : Z -> nfs_fattr -> hsfs_iattr -> M world (Z * nfs_fattr) }.
Arguments hsfs_super_ops {E}.

(** ** Properties of the error pointers *)

Section ErrPtrFacts.
Context `{E : Env}.

(** The static object lies in the lower half of the address space, as every
    object of a process does. *)
Definition bad_inode_placed : Prop :=
  MAX_ERRNO <= bad_hsfs_inode /\ bad_hsfs_inode + 2 * MAX_ERRNO < 2 ^ 63.

Lemma ERR_PTR_val e p :
  bad_inode_placed -> - MAX_ERRNO < e < MAX_ERRNO -> ERR_PTR e = Some p ->
  p = bad_hsfs_inode - e.
Proof.
  unfold bad_inode_placed, ERR_PTR, MAX_ERRNO. intros [Hlo Hhi] He Hp.
  rewrite (u64_small bad_hsfs_inode) in Hp by lia.
  rewrite (u64_small (bad_hsfs_inode - e)) in Hp by lia.
  rewrite (u64_small (bad_hsfs_inode + _)) in Hp by lia.
  repeat case_if_in Hp; congruence.
Qed.

Lemma ERR_PTR_neg e :
  bad_inode_placed -> 0 <= e < MAX_ERRNO -> ERR_PTR (- e) = Some (bad_hsfs_inode + e).
Proof.
  unfold bad_inode_placed, ERR_PTR, MAX_ERRNO. intros [Hlo Hhi] He.
  rewrite (u64_small bad_hsfs_inode) by lia.
  replace (bad_hsfs_inode - - e) with (bad_hsfs_inode + e) by lia.
  rewrite !u64_small by lia.
  destruct (- e <? 0); (rewrite (proj2 (Z.ltb_lt _ _)); [done|lia]).
Qed.

Lemma PTR_ERR_ERR_PTR e p :
  bad_inode_placed -> - MAX_ERRNO < e <= 0 -> ERR_PTR e = Some p -> PTR_ERR p = - e.
Proof.
  intros Hb He Hp. apply ERR_PTR_val in Hp as ->; [|done|lia]. unfold PTR_ERR.
  replace (_ - _) with (- e) by lia. unfold MAX_ERRNO in *. apply s64_small. lia.
Qed.

Lemma IS_ERR_false p : 0 <= p < 2 ^ 64 - MAX_ERRNO -> IS_ERR p = false.
Proof.
  unfold IS_ERR, IS_ERR_VALUE, MAX_ERRNO. intros Hp. apply Z.leb_gt.
  unfold u64. change (- (184) mod 2 ^ 64) with (2 ^ 64 - 184). lia.
Qed.

Lemma IS_ERR_ERR_PTR e p :
  bad_inode_placed -> - MAX_ERRNO < e < MAX_ERRNO -> ERR_PTR e = Some p ->
  IS_ERR p = false.
Proof.
  intros Hb He Hp. apply ERR_PTR_val in Hp as ->; [|done|done].
  apply IS_ERR_false. unfold bad_inode_placed, MAX_ERRNO in *. lia.
Qed.
End ErrPtrFacts.
