(* ===== verification/Icache.v ===== *)
(** * The inode cache ([lib/hsfs_inode.c])

    The cache links every inode in two hash tables: by the inode number the
    kernel uses ([id_table]) and by the file id of the server ([fh_table]).
    [hsfs_ilookup] searches the first, [hsfs_iget5_locked] the second, and
    creates the inode when it is not there.  The invariant [icache_inv] says
    that both tables link exactly the published inodes, each in the bucket of
    its key, under distinct non-zero numbers. *)

From S2P Require Import Prelude Bitops Hash Proto World.

Definition NULL : Z := 0.
Definition HSFS_HASH_SIZE : nat := 1024%nat.

Section Icache.
Context `{E : Env} (sop : hsfs_super_ops).

Definition hsfs_unlock_new_inode (p : Z) : M world unit :=
  update p (fun n =>
    let i := ni_hsfs_inode n in
    set_ni_hsfs_inode (set_in_i_state (clear_bits (in_i_state i) I_NEW) i) n).

Definition hsfs_generic_fillattr (i : hsfs_inode) : stat :=
  {| st_ino := in_real_ino i;
     st_mode := ia_mode (in_iattr i);
     st_nlink := in_i_nlink i;
     st_uid := ia_uid (in_iattr i);
     st_gid := ia_gid (in_iattr i);
     st_rdev := in_i_rdev i;
     st_atim := ia_atime (in_iattr i);
     st_mtim := ia_mtime (in_iattr i);
     st_ctim := ia_ctime (in_iattr i);
     st_size := ia_size (in_iattr i);
     st_blocks := in_i_blocks i;
     st_blksize := s32 (Z.shiftl 1 (in_i_blkbits i)) |}.

Definition hsfs_init_icache : M world Z :=
  do! update_sb (set_sb_id_table (__hash_init HSFS_HASH_SIZE)) in
  do! update_sb (set_sb_fh_table (__hash_init HSFS_HASH_SIZE)) in
  ret 0.

(** The walk over a bucket: the first inode that passes the test, or NULL. *)
Fixpoint ifind_walk (l : list Z) (test : nfs_inode -> bool) : M world Z :=
  match l with
  | [] => ret NULL
  | p :: l =>
      let! n := deref p in
      if test n then ret p else ifind_walk l test
  end.

Definition __id_ifind (key : Z) : M world Z :=
  let! sb := get_sb in
  ifind_walk (hash_for_each_possible (sb_id_table sb) key)
    (fun n => in_ino (ni_hsfs_inode n) =? key).

Definition __iget (p : Z) : M world unit := ret tt.
Definition wait_on_inode (p : Z) : M world unit := ret tt.

Definition __fh_ifind (key : Z) (test : nfs_inode -> bool) (wait : bool) : M world Z :=
  let! sb := get_sb in
  let! p := ifind_walk (hash_for_each_possible (sb_fh_table sb) key) test in
  if p =? NULL then ret NULL
  else
    do! __iget p in
    do! (if wait then wait_on_inode p else ret tt) in
    ret p.

Definition hsfs_ilookup (ino : Z) : M world Z :=
  let! p := __id_ifind ino in
  if p =? NULL then ret p else do! __iget p in ret p.

Definition destroy_inode (p : Z) : M world unit := sop_destroy_inode sop p.

Definition inode_init_always (p : Z) : M world Z :=
  let! sb := get_sb in
  do! update p (fun n =>
    let i := ni_hsfs_inode n in
    let i := set_in_generation 0 i in
    let i := set_in_private 0 i in
    let i := set_in_ino 0 i in
    let i := set_in_i_blocks 0 i in
    let i := set_in_i_nlink 1 i in
    let i := set_in_i_blkbits (sb_bsize_bits sb) i in
    set_ni_hsfs_inode i n) in
  ret 0.

Definition alloc_inode : M world Z :=
  let! p := sop_alloc_inode sop in
  if p =? NULL then ret NULL
  else
    let! err := inode_init_always p in
    if err =? 0 then ret p
    else do! sop_destroy_inode sop p in ret NULL.

Definition next_id (curr_id : Z) : Z :=
  let c := u64 (curr_id + 1) in if c =? 0 then 2 else c.

(** The loop that picks a free number.  It tries a new number each time, so
    one more round than there are inodes is enough. *)
Fixpoint pick_id (fuel : nat) : M world unit :=
  match fuel with
  | O => fun _ => NoFuel
  | S fuel =>
      do! update_sb (fun s => set_sb_curr_id (next_id (sb_curr_id s)) s) in
      let! sb := get_sb in
      let! p := __id_ifind (sb_curr_id sb) in
      if p =? NULL then ret tt else pick_id fuel
  end.

Definition pick_fuel (sb : hsfs_super) : nat := S (length (hash_nodes (sb_id_table sb))).

Definition __inode_add_to_lists (key p : Z) : M world unit :=
  let! sb := get_sb in
  do! pick_id (pick_fuel sb) in
  let! sb := get_sb in
  do! update p (fun n =>
    set_ni_hsfs_inode (set_in_ino (sb_curr_id sb) (ni_hsfs_inode n)) n) in
  let! n := deref p in
  do! update_sb (fun s =>
    set_sb_id_table (hash_add (sb_id_table s) p (in_ino (ni_hsfs_inode n))) s) in
  update_sb (fun s => set_sb_fh_table (hash_add (sb_fh_table s) p key) s).

Definition get_new_inode (key : Z) (set : Z -> M world Z) : M world Z :=
  let! p := alloc_inode in
  if p =? NULL then ret NULL
  else
    let! failed := set p in
    if negb (failed =? 0) then do! destroy_inode p in ret NULL
    else
      do! __inode_add_to_lists key p in
      do! update p (fun n =>
        set_ni_hsfs_inode (set_in_i_state I_NEW (ni_hsfs_inode n)) n) in
      ret p.

Definition hsfs_iget5_locked (hashval : Z) (test : nfs_inode -> bool)
    (set : Z -> M world Z) : M world Z :=
  let! p := __fh_ifind hashval test true in
  if negb (p =? NULL) then ret p else get_new_inode hashval set.

Definition generic_delete_inode (p : Z) : M world unit := ret tt.
Definition generic_forget_inode (p : Z) : M world unit := destroy_inode p.

Definition generic_drop_inode (p : Z) : M world unit :=
  let! n := deref p in
  if in_i_nlink (ni_hsfs_inode n) =? 0 then generic_delete_inode p
  else generic_forget_inode p.

Definition iput_final (p : Z) : M world unit :=
  match sop_drop_inode sop with
  | Some drop => drop p
  | None => generic_drop_inode p
  end.

(** [inode->i_count--] on an [int]: overflow is undefined. *)
Definition hsfs_iput (p : Z) : M world unit :=
  if p =? NULL then ret tt
  else
    let! n := deref p in
    let c := in_i_count (ni_hsfs_inode n) in
    if c =? - 2 ^ 31 then undef
    else
      do! update p (fun n =>
        set_ni_hsfs_inode (set_in_i_count (c - 1) (ni_hsfs_inode n)) n) in
      if c - 1 =? 0 then iput_final p else ret tt.

End Icache.
