(* ===== verification/IcacheFacts.v ===== *)
(** * The invariant of the inode cache, and what its operations promise

    Lookups by number agree with a search of all inodes; picking a number
    terminates and gives one that is not in use; creating an inode keeps the
    invariant; dropping a reference never breaks it. *)

From S2P Require Import Prelude Bitops Hash Proto World Icache.

Section Facts.
Context `{E : Env}.

(** What an allocator returns: an object that overlaps neither the top of the
    address space nor the static [bad_hsfs_inode]. *)
Definition valid_ptr (p : Z) : Prop :=
  0 < p < 2 ^ 64 - MAX_ERRNO /\
  (p < bad_hsfs_inode - MAX_ERRNO \/ bad_hsfs_inode + MAX_ERRNO <= p).

(** [h] are the published inodes: a fresh one is in the heap before it is
    linked. *)
Record icache_inv (h : gmap Z nfs_inode) (s : hsfs_super) : Prop := {
  inv_id_len : length (sb_id_table s) = 1024%nat;
  inv_fh_len : length (sb_fh_table s) = 1024%nat;
  inv_id_live : forall p, p ∈ hash_nodes (sb_id_table s) <-> is_Some (h !! p);
  inv_fh_live : forall p, p ∈ hash_nodes (sb_fh_table s) <-> is_Some (h !! p);
  inv_id_nodup : NoDup (hash_nodes (sb_id_table s));
  inv_fh_nodup : NoDup (hash_nodes (sb_fh_table s));
  inv_id_place : forall p n, h !! p = Some n ->
    p ∈ hash_for_each_possible (sb_id_table s) (in_ino (ni_hsfs_inode n));
  inv_fh_place : forall p n, h !! p = Some n ->
    p ∈ hash_for_each_possible (sb_fh_table s) (ni_fileid n);
  inv_id_range : forall p n, h !! p = Some n -> 0 < in_ino (ni_hsfs_inode n) < 2 ^ 64;
  inv_id_inj : forall p q n m, h !! p = Some n -> h !! q = Some m ->
    in_ino (ni_hsfs_inode n) = in_ino (ni_hsfs_inode m) -> p = q;
  inv_ptr : forall p n, h !! p = Some n -> valid_ptr p;
  inv_count : forall p n, h !! p = Some n -> in_i_count (ni_hsfs_inode n) <= 0;
  inv_curr : 0 <= sb_curr_id s < 2 ^ 64 }.

Definition icache_ok (w : world) : Prop := icache_inv (w_heap w) (w_sb w).

(** There are fewer addresses than numbers, so a number is always free. *)
Lemma size_bounded (X : gset Z) n :
  (forall p, p ∈ X -> 0 < p < n) -> Z.of_nat (size X) < Z.max 1 n.
Proof.
  intros HX. assert (Hle : (size X <= length (seqZ 1 (n - 1)))%nat).
  { unfold size, set_size. simpl. apply submseteq_length, NoDup_submseteq; [apply NoDup_elements|].
    intros x Hx. apply elem_of_elements in Hx. apply elem_of_seqZ. specialize (HX x Hx). lia. }
  rewrite length_seqZ in Hle. lia.
Qed.

Lemma icache_inv_size h s : icache_inv h s -> Z.of_nat (size h) < 2 ^ 64 - 4.
Proof.
  intros Hinv. rewrite <- (size_dom (D := gset Z)).
  assert (Hlt : Z.of_nat (size (dom h)) < Z.max 1 (2 ^ 64 - MAX_ERRNO)).
  { apply size_bounded. intros p [n Hn]%elem_of_dom. apply (inv_ptr _ _ Hinv _ _ Hn). }
  unfold MAX_ERRNO in Hlt. lia.
Qed.

Lemma valid_ptr_nonnull p : valid_ptr p -> (p =? NULL) = false.
Proof. unfold valid_ptr, NULL. intros [? _]. apply Z.eqb_neq. lia. Qed.

Lemma valid_ptr_not_err p : valid_ptr p -> IS_ERR p = false.
Proof. intros [? _]. apply IS_ERR_false. lia. Qed.

(** An error pointer is never the address of an inode. *)
Lemma err_ptr_not_valid e p :
  bad_inode_placed -> - MAX_ERRNO < e < MAX_ERRNO -> ERR_PTR e = Some p -> ~ valid_ptr p.
Proof.
  intros Hb He Hp [_ Hv]. apply ERR_PTR_val in Hp; [|done|done]. lia.
Qed.

(** ** Steps on the heap *)

Lemma deref_ret p w n : w_heap w !! p = Some n -> deref p w = Ret n w.
Proof. unfold deref. by intros ->. Qed.

Lemma update_ret p f w n :
  w_heap w !! p = Some n ->
  update p f w = Ret tt (set_heap (<[p := f n]> (w_heap w)) w).
Proof. intros Hp. unfold update, bind. rewrite (deref_ret _ _ _ Hp). unfold store. by rewrite Hp. Qed.

(** ** Lookup *)

Lemma ifind_walk_spec l test w :
  (forall p, p ∈ l -> is_Some (w_heap w !! p)) ->
  (forall p, p ∈ l -> p <> NULL) ->
  exists p, ifind_walk l test w = Ret p w /\
    ((p = NULL /\ forall q n, q ∈ l -> w_heap w !! q = Some n -> test n = false) \/
     (p ∈ l /\ exists n, w_heap w !! p = Some n /\ test n = true)).
Proof.
  induction l as [|q l IH]; intros Hlive Hnn; simpl.
  - exists NULL. split; [done|]. left. split; [done|]. intros ?? H. by apply not_elem_of_nil in H.
  - destruct (Hlive q ltac:(set_solver)) as [n Hn].
    rewrite (bind_ret _ _ _ n w) by (by apply deref_ret).
    destruct (test n) eqn:Ht.
    + exists q. split; [done|]. right. split; [set_solver|eauto].
    + destruct IH as (p & Hw & Hp); [set_solver..|]. exists p. split; [done|].
      destruct Hp as [[-> Hno]|(Hin & m & Hm & Htm)].
      * left. split; [done|]. intros q' n' [->|Hq']%elem_of_cons Hn'; [congruence|eauto].
      * right. split; [set_solver|eauto].
Qed.

Section Lookup.
Context (h : gmap Z nfs_inode) (w : world).
Hypothesis Hinv : icache_inv h (w_sb w).
Hypothesis Hsub : h ⊆ w_heap w.

Lemma node_live ht key p :
  (forall p, p ∈ hash_nodes ht <-> is_Some (h !! p)) ->
  p ∈ hash_for_each_possible ht key -> exists n, h !! p = Some n /\ w_heap w !! p = Some n /\ p <> NULL.
Proof.
  intros Hlive Hp%elem_of_possible. apply Hlive in Hp as [n Hn]. exists n.
  split_and!; [done|by eapply lookup_weaken|].
  pose proof (inv_ptr _ _ Hinv _ _ Hn) as [? _]. unfold NULL. lia.
Qed.

Lemma id_ifind_spec key :
  exists p, __id_ifind key w = Ret p w /\
    ((p = NULL /\ forall q n, h !! q = Some n -> in_ino (ni_hsfs_inode n) <> key) \/
     exists n, h !! p = Some n /\ in_ino (ni_hsfs_inode n) = key).
Proof.
  destruct (ifind_walk_spec (hash_for_each_possible (sb_id_table (w_sb w)) key)
              (fun n => in_ino (ni_hsfs_inode n) =? key) w) as (p & Hw & Hp).
  { intros p Hp. destruct (node_live _ _ _ (inv_id_live _ _ Hinv) Hp) as (n & ? & ? & ?). eauto. }
  { intros p Hp. destruct (node_live _ _ _ (inv_id_live _ _ Hinv) Hp) as (n & ? & ? & ?). done. }
  exists p. split; [done|]. destruct Hp as [[-> Hno]|(Hin & n & Hn & Ht)].
  - left. split; [done|]. intros q n Hq <-.
    pose proof (Hno q n (inv_id_place _ _ Hinv _ _ Hq) (lookup_weaken _ _ _ _ Hq Hsub)).
    to_prop. done.
  - right. destruct (node_live _ _ _ (inv_id_live _ _ Hinv) Hin) as (n' & ? & ? & ?).
    to_prop. exists n'. split; congruence.
Qed.

Lemma fh_ifind_spec key test wait :
  (forall n, test n = true -> ni_fileid n = key) ->
  exists p, __fh_ifind key test wait w = Ret p w /\
    ((p = NULL /\ forall q n, h !! q = Some n -> test n = false) \/
     exists n, h !! p = Some n /\ test n = true).
Proof.
  intros Htest.
  destruct (ifind_walk_spec (hash_for_each_possible (sb_fh_table (w_sb w)) key) test w)
    as (p & Hw & Hp).
  { intros p Hp. destruct (node_live _ _ _ (inv_fh_live _ _ Hinv) Hp) as (n & ? & ? & ?). eauto. }
  { intros p Hp. destruct (node_live _ _ _ (inv_fh_live _ _ Hinv) Hp) as (n & ? & ? & ?). done. }
  exists p. unfold __fh_ifind. rewrite (bind_ret _ _ _ (w_sb w) w) by done.
  rewrite (bind_ret _ _ _ p w) by done.
  destruct Hp as [[-> Hno]|(Hin & n & Hn & Ht)].
  - split; [done|]. left. split; [done|]. intros q n Hq.
    destruct (test n) eqn:Ht; [|done]. rewrite <- Ht. apply (Hno q).
    + rewrite <- (Htest n Ht). by apply (inv_fh_place _ _ Hinv).
    + by eapply lookup_weaken.
  - destruct (node_live _ _ _ (inv_fh_live _ _ Hinv) Hin) as (n' & ? & ? & ?).
    rewrite (proj2 (Z.eqb_neq _ _)) by done.
    split; [by destruct wait|]. right. exists n'. split; congruence.
Qed.
End Lookup.

Lemma ilookup_spec w key :
  icache_ok w ->
  exists p, hsfs_ilookup key w = Ret p w /\
    ((p = NULL /\ forall q n, w_heap w !! q = Some n -> in_ino (ni_hsfs_inode n) <> key) \/
     exists n, w_heap w !! p = Some n /\ in_ino (ni_hsfs_inode n) = key).
Proof.
  intros Hok. destruct (id_ifind_spec (w_heap w) w Hok (reflexivity _) key) as (p & Hw & Hp).
  exists p. split; [|done]. unfold hsfs_ilookup. rewrite (bind_ret _ _ _ p w) by done.
  by destruct (p =? NULL).
Qed.

(** The reference definition: search every inode for its number. *)
Definition find_ino (h : gmap Z nfs_inode) (key : Z) : Z :=
  match filter (fun pn => in_ino (ni_hsfs_inode pn.2) = key) (map_to_list h) with
  | (p, _) :: _ => p
  | [] => NULL
  end.

Lemma find_ino_spec h key :
  (find_ino h key = NULL /\ forall q n, h !! q = Some n -> in_ino (ni_hsfs_inode n) <> key) \/
  exists n, h !! find_ino h key = Some n /\ in_ino (ni_hsfs_inode n) = key.
Proof.
  unfold find_ino.
  destruct (filter _ (map_to_list h)) as [|[p n] l] eqn:Hf.
  - left. split; [done|]. intros q n Hq Hk. apply elem_of_map_to_list in Hq.
    assert (Hin : (q, n) ∈ filter (fun pn : Z * nfs_inode => in_ino (ni_hsfs_inode pn.2) = key)
                            (map_to_list h)) by (by apply list_elem_of_filter).
    rewrite Hf in Hin. by apply not_elem_of_nil in Hin.
  - right. exists n. assert (Hin : (p, n) ∈ (p, n) :: l) by set_solver.
    rewrite <- Hf in Hin. apply list_elem_of_filter in Hin as [Hk Hin].
    by apply elem_of_map_to_list in Hin.
Qed.

(** ** Picking a number *)

Lemma next_id_range c : 0 <= c < 2 ^ 64 -> 0 < next_id c < 2 ^ 64.
Proof.
  intros Hc. unfold next_id. pose proof (u64_range (c + 1)). case_if; lia.
Qed.

Lemma next_id_eq c : 0 <= c < 2 ^ 64 -> next_id c = if c =? 2 ^ 64 - 1 then 2 else c + 1.
Proof.
  intros Hc. unfold next_id. destruct (Z.eqb_spec c (2 ^ 64 - 1)) as [->|]; [done|].
  rewrite u64_small by lia. rewrite (proj2 (Z.eqb_neq _ _)) by lia. done.
Qed.

(** The numbers tried are distinct until the counter has gone round. *)
Lemma next_id_iter c k :
  0 <= c < 2 ^ 64 -> Z.of_nat k < 2 ^ 64 - 2 ->
  Nat.iter k next_id c =
    if c + Z.of_nat k <? 2 ^ 64 then c + Z.of_nat k else c + Z.of_nat k - (2 ^ 64 - 2).
Proof.
  intros Hc. induction k as [|k IH]; intros Hk.
  - simpl. case_if; lia.
  - rewrite Nat.iter_succ, IH by lia. clear IH.
    destruct (Z.ltb_spec (c + Z.of_nat k) (2 ^ 64)); rewrite next_id_eq by lia;
      repeat case_if; lia.
Qed.

Lemma next_id_iter_inj c j k :
  0 <= c < 2 ^ 64 -> Z.of_nat j < 2 ^ 64 - 2 -> Z.of_nat k < 2 ^ 64 - 2 ->
  (1 <= j)%nat -> (1 <= k)%nat ->
  Nat.iter j next_id c = Nat.iter k next_id c -> j = k.
Proof.
  intros Hc Hj Hk Hj1 Hk1. rewrite !next_id_iter by done.
  destruct (Z.ltb_spec (c + Z.of_nat j) (2 ^ 64)), (Z.ltb_spec (c + Z.of_nat k) (2 ^ 64)); lia.
Qed.

Definition id_free (h : gmap Z nfs_inode) (c : Z) : Prop :=
  forall q n, h !! q = Some n -> in_ino (ni_hsfs_inode n) <> c.

Lemma some_id_free h c :
  0 <= c < 2 ^ 64 -> Z.of_nat (size h) < 2 ^ 64 - 4 ->
  exists j, (1 <= j <= S (size h))%nat /\ id_free h (Nat.iter j next_id c).
Proof.
  intros Hc Hsz. set (n := size h).
  set (used := (fun pn : Z * nfs_inode => in_ino (ni_hsfs_inode pn.2)) <$> map_to_list h).
  set (tried := (fun j => Nat.iter j next_id c) <$> seq 1 (S n)).
  assert (Hnd : NoDup tried).
  { apply NoDup_fmap_2_strong; [|apply NoDup_seq]. intros j k Hj Hk.
    apply elem_of_seq in Hj, Hk. apply next_id_iter_inj; lia. }
  destruct (decide (Forall (.∈ used) tried)) as [Hall|Hnot].
  - exfalso. assert (Hle : (length tried <= length used)%nat).
    { apply submseteq_length, NoDup_submseteq; [done|]. intros x Hx.
      by eapply Forall_forall in Hall. }
    unfold tried, used in Hle. rewrite !length_fmap, length_seq, length_map_to_list in Hle. lia.
  - apply not_Forall_Exists, Exists_exists in Hnot as (x & Hx & Hnu); [|apply _].
    apply list_elem_of_fmap in Hx as (j & -> & Hj). apply elem_of_seq in Hj.
    exists j. split; [lia|]. intros q m Hq Hk. apply Hnu. unfold used.
    rewrite <- Hk. apply list_elem_of_fmap. exists (q, m).
    split; [done|]. by apply elem_of_map_to_list.
Qed.

Lemma icache_inv_curr h s c :
  0 <= c < 2 ^ 64 -> icache_inv h s -> icache_inv h (set_sb_curr_id c s).
Proof. intros Hc []. by constructor. Qed.

(** The number that is given after [cur]: the next one when it is free. *)
Definition picked (h : gmap Z nfs_inode) (cur c : Z) : Prop :=
  id_free h c /\ (id_free h (next_id cur) -> c = next_id cur).

Lemma pick_id_spec fuel h w :
  icache_inv h (w_sb w) -> h ⊆ w_heap w ->
  (exists j, (1 <= j <= fuel)%nat /\ id_free h (Nat.iter j next_id (sb_curr_id (w_sb w)))) ->
  exists c, pick_id fuel w = Ret tt (set_sb (set_sb_curr_id c (w_sb w)) w) /\
    0 < c < 2 ^ 64 /\ picked h (sb_curr_id (w_sb w)) c.
Proof.
  revert w. induction fuel as [|fuel IH]; intros w Hinv Hsub (j & Hj & Hfree); [lia|].
  set (c1 := next_id (sb_curr_id (w_sb w))).
  set (w1 := set_sb (set_sb_curr_id c1 (w_sb w)) w).
  assert (Hc1 : 0 < c1 < 2 ^ 64) by (apply next_id_range, (inv_curr _ _ Hinv)).
  assert (Hinv1 : icache_inv h (w_sb w1)) by (apply icache_inv_curr; [lia|done]).
  destruct (id_ifind_spec h w1 Hinv1 Hsub c1) as (p & Hf & Hp).
  assert (Hstep : pick_id (S fuel) w = (if p =? NULL then ret tt else pick_id fuel) w1).
  { simpl. rewrite (bind_ret _ _ _ tt w1), (bind_ret _ _ _ (w_sb w1) w1) by done.
    by rewrite (bind_ret _ _ _ p w1). }
  rewrite Hstep. destruct Hp as [[-> Hno]|(n & Hn & Hk)].
  - exists c1. split; [done|]. split; [lia|]. by split.
  - rewrite (valid_ptr_nonnull p) by (by eapply inv_ptr).
    destruct j as [|[|j]]; [lia|by destruct (Hfree p n Hn)|].
    rewrite Nat.iter_succ_r in Hfree.
    destruct (IH w1 Hinv1 Hsub) as (c & Hc & Hr & Hfc & _).
    { exists (S j). split; [lia|]. exact Hfree. }
    exists c. split; [exact Hc|]. split; [done|]. split; [done|]. intros Hn1. by destruct (Hn1 p n Hn).
Qed.
(** ** Publishing an inode *)

Lemma id_nodes_size h s :
  icache_inv h s -> length (hash_nodes (sb_id_table s)) = size h.
Proof.
  intros Hinv. rewrite <- size_dom, <- (size_list_to_set (C:=gset Z)) by apply Hinv.
  f_equal. apply set_eq. intros p. rewrite elem_of_list_to_set, elem_of_dom.
  apply (inv_id_live _ _ Hinv).
Qed.

Lemma icache_inv_sb h s s' :
  sb_id_table s' = sb_id_table s -> sb_fh_table s' = sb_fh_table s ->
  sb_curr_id s' = sb_curr_id s -> icache_inv h s -> icache_inv h s'.
Proof. intros Hid Hfh Hc []. constructor; rewrite ?Hid, ?Hfh, ?Hc; done. Qed.

Lemma hash_add_live ht p k (h : gmap Z nfs_inode) n :
  length ht = 1024%nat ->
  (forall q, q ∈ hash_nodes ht <-> is_Some (h !! q)) ->
  forall q, q ∈ hash_nodes (hash_add ht p k) <-> is_Some (<[p := n]> h !! q).
Proof.
  intros Hl Hlive q. rewrite hash_add_nodes by done. rewrite elem_of_cons, Hlive.
  destruct (decide (q = p)) as [->|Hne].
  - rewrite lookup_insert_eq. split; [eauto|by left].
  - rewrite lookup_insert_ne by done. split; [intros [|]; done|by right].
Qed.

Lemma hash_add_place ht p k q key :
  length ht = 1024%nat -> q ∈ hash_for_each_possible ht key ->
  q ∈ hash_for_each_possible (hash_add ht p k) key.
Proof. intros Hl Hq. rewrite hash_add_possible by done. case_decide; set_solver. Qed.

Lemma hash_add_place_new ht p k :
  length ht = 1024%nat -> p ∈ hash_for_each_possible (hash_add ht p k) k.
Proof. intros Hl. rewrite hash_add_possible by done. rewrite decide_True by done. set_solver. Qed.

Lemma hash_add_nodup ht p k (h : gmap Z nfs_inode) :
  length ht = 1024%nat -> (forall q, q ∈ hash_nodes ht <-> is_Some (h !! q)) ->
  h !! p = None -> NoDup (hash_nodes ht) -> NoDup (hash_nodes (hash_add ht p k)).
Proof.
  intros Hl Hlive Hp Hnd. rewrite hash_add_nodes by done. apply NoDup_cons_2; [|done].
  rewrite Hlive, Hp. by intros [].
Qed.

Lemma icache_inv_add h s p n :
  icache_inv h s -> h !! p = None -> valid_ptr p ->
  id_free h (in_ino (ni_hsfs_inode n)) -> 0 < in_ino (ni_hsfs_inode n) < 2 ^ 64 ->
  in_i_count (ni_hsfs_inode n) <= 0 ->
  icache_inv (<[p := n]> h)
    (set_sb_fh_table (hash_add (sb_fh_table s) p (ni_fileid n))
      (set_sb_id_table (hash_add (sb_id_table s) p (in_ino (ni_hsfs_inode n))) s)).
Proof.
  intros Hinv Hp Hv Hfree Hr Hc. pose proof Hinv as [].
  constructor; simpl; rewrite ?length_hash_add; try done.
  - by apply hash_add_live.
  - by apply hash_add_live.
  - by eapply hash_add_nodup.
  - by eapply hash_add_nodup.
  - intros q m [[<- <-]|[Hne Hq]]%lookup_insert_Some; [by apply hash_add_place_new|].
    apply hash_add_place; eauto.
  - intros q m [[<- <-]|[Hne Hq]]%lookup_insert_Some; [by apply hash_add_place_new|].
    apply hash_add_place; eauto.
  - intros q m [[<- <-]|[Hne Hq]]%lookup_insert_Some; eauto.
  - intros q1 q2 n1 n2 [[<- <-]|[? H1]]%lookup_insert_Some [[<- <-]|[? H2]]%lookup_insert_Some Hk;
      [done|by destruct (Hfree _ _ H2)|by destruct (Hfree _ _ H1)|eauto].
  - intros q m [[<- <-]|[Hne Hq]]%lookup_insert_Some; eauto.
  - intros q m [[<- <-]|[Hne Hq]]%lookup_insert_Some; eauto.
Qed.

(** Changing what is neither a key nor the count keeps the invariant. *)
Lemma icache_inv_update h s p n n' :
  icache_inv h s -> h !! p = Some n ->
  in_ino (ni_hsfs_inode n') = in_ino (ni_hsfs_inode n) -> ni_fileid n' = ni_fileid n ->
  in_i_count (ni_hsfs_inode n') <= 0 -> icache_inv (<[p := n']> h) s.
Proof.
  intros Hinv Hp Hino Hfid Hc. pose proof Hinv as [].
  assert (Hlive : forall q, is_Some (<[p := n']> h !! q) <-> is_Some (h !! q)).
  { intros q. rewrite lookup_insert. case_decide; [subst; rewrite Hp; split; eauto|done]. }
  constructor; try done.
  - intros q. by rewrite Hlive.
  - intros q. by rewrite Hlive.
  - intros q m [[<- <-]|[Hne Hq]]%lookup_insert_Some; [rewrite Hino|]; eauto.
  - intros q m [[<- <-]|[Hne Hq]]%lookup_insert_Some; [rewrite Hfid|]; eauto.
  - intros q m [[<- <-]|[Hne Hq]]%lookup_insert_Some; [rewrite Hino|]; eauto.
  - intros q1 q2 n1 n2 [[<- <-]|[? H1]]%lookup_insert_Some [[<- <-]|[? H2]]%lookup_insert_Some Hk;
      rewrite ?Hino in Hk; eauto.
  - intros q m [[<- <-]|[Hne Hq]]%lookup_insert_Some; eauto.
  - intros q m [[<- <-]|[Hne Hq]]%lookup_insert_Some; eauto.
Qed.
End Facts.

(** ** What the cache expects of the superblock operations *)
Class SopLaws `{E : Env} (sop : hsfs_super_ops) : Prop := {
  sop_alloc_law : forall w, exists e',
    sop_alloc_inode sop w = Ret NULL (set_env e' w) \/
    exists p,
      sop_alloc_inode sop w =
        Ret p (set_heap (<[p := nfs_inode_zero]> (w_heap w)) (set_env e' w)) /\
      w_heap w !! p = None /\ valid_ptr p;
  sop_destroy_law : forall w p n, w_heap w !! p = Some n ->
    sop_destroy_inode sop p w = Ret tt (set_heap (delete p (w_heap w)) w) }.

(** What it expects of the [set] callback of [hsfs_iget5_locked]: to fill in
    the new inode with [f], and to succeed. *)
Definition sets `{E : Env} (set : Z -> M world Z) (f : nfs_inode -> nfs_inode) : Prop :=
  forall p w n, w_heap w !! p = Some n ->
    set p w = Ret 0 (set_heap (<[p := f n]> (w_heap w)) w).

(** What the cache changes of a world: inodes, the tables and the counter, and
    the state of the allocator. *)
Definition cache_frame `{E : Env} (w w' : world) : Prop :=
  w_out w' = w_out w /\ w_clnts w' = w_clnts w /\ w_bak w' = w_bak w /\
  exists t1 t2 c, w_sb w' =
    set_sb_fh_table t1 (set_sb_id_table t2 (set_sb_curr_id c (w_sb w))).

Section Create.
Context `{E : Env} (sop : hsfs_super_ops) `{!SopLaws sop}.

(** The inode as [alloc_inode] leaves it. *)
Definition fresh_inode (s : hsfs_super) : nfs_inode :=
  let i := ni_hsfs_inode nfs_inode_zero in
  set_ni_hsfs_inode (set_in_i_blkbits (sb_bsize_bits s) (set_in_i_nlink 1 i)) nfs_inode_zero.

Lemma alloc_inode_spec w :
  exists e', (alloc_inode sop w = Ret NULL (set_env e' w) /\
              sop_alloc_inode sop w = Ret NULL (set_env e' w)) \/
    exists p, alloc_inode sop w =
        Ret p (set_heap (<[p := fresh_inode (w_sb w)]> (w_heap w)) (set_env e' w)) /\
      w_heap w !! p = None /\ valid_ptr p.
Proof.
  destruct (sop_alloc_law w) as (e' & [Hw|(p & Hw & Hp & Hv)]); exists e'.
  - left. split; [|done]. unfold alloc_inode. by rewrite (bind_ret _ _ _ _ _ Hw).
  - right. exists p. split; [|done]. unfold alloc_inode. rewrite (bind_ret _ _ _ _ _ Hw).
    rewrite valid_ptr_nonnull by done. unfold inode_init_always.
    unfold bind at 2. unfold get_sb. unfold bind at 1.
    rewrite (bind_ret _ _ _ tt
      (set_heap (<[p := fresh_inode (w_sb w)]> (w_heap w)) (set_env e' w))); [done|].
    rewrite (update_ret _ _ _ nfs_inode_zero) by apply lookup_insert_eq.
    simpl. unfold set_heap. simpl. by rewrite insert_insert_eq.
Qed.

Lemma add_to_lists_spec key p w h n :
  icache_inv h (w_sb w) -> h ⊆ w_heap w -> h !! p = None -> w_heap w !! p = Some n ->
  exists c s',
    let n' := set_ni_hsfs_inode (set_in_ino c (ni_hsfs_inode n)) n in
    s' = set_sb_fh_table (hash_add (sb_fh_table (w_sb w)) p key)
           (set_sb_id_table (hash_add (sb_id_table (w_sb w)) p c)
             (set_sb_curr_id c (w_sb w))) /\
    __inode_add_to_lists key p w =
      Ret tt (set_sb s' (set_heap (<[p := n']> (w_heap w)) w)) /\
    0 < c < 2 ^ 64 /\ picked h (sb_curr_id (w_sb w)) c.
Proof.
  intros Hinv Hsub Hph Hp.
  destruct (pick_id_spec (pick_fuel (w_sb w)) h w Hinv Hsub) as (c & Hpick & Hc & Hfree).
  { unfold pick_fuel. rewrite (id_nodes_size h) by done.
    apply some_id_free; [apply Hinv|by eapply icache_inv_size]. }
  exists c. eexists. split; [reflexivity|]. split; [|done].
  unfold __inode_add_to_lists. rewrite (bind_ret _ _ _ (w_sb w) w) by done.
  rewrite (bind_ret _ _ _ _ _ Hpick). unfold bind at 1, get_sb.
  erewrite bind_ret by (by apply update_ret).
  erewrite bind_ret by (apply deref_ret, lookup_insert_eq). done.
Qed.

(** Allocation and publication: either nothing changed and the result is NULL,
    or the result is a new inode, linked under a number that was free. *)
Lemma get_new_inode_spec key set f w :
  icache_ok w -> sets set f ->
  (forall n, ni_fileid (f n) = key /\
     in_i_count (ni_hsfs_inode (f n)) = in_i_count (ni_hsfs_inode n)) ->
  exists e' p w', get_new_inode sop key set w = Ret p w' /\
    ((p = NULL /\ w' = set_env e' w /\ sop_alloc_inode sop w = Ret NULL (set_env e' w)) \/
     exists n c,
       w_heap w !! p = None /\ valid_ptr p /\ picked (w_heap w) (sb_curr_id (w_sb w)) c /\
       n = (let m := f (fresh_inode (w_sb w)) in
            set_ni_hsfs_inode (set_in_i_state I_NEW (set_in_ino c (ni_hsfs_inode m))) m) /\
       w_heap w' = <[p := n]> (w_heap w) /\ icache_ok w' /\ cache_frame w w').
Proof.
  intros Hok Hset Hf.
  destruct (alloc_inode_spec w) as (e' & [[Ha Hs]|(p & Ha & Hp & Hv)]); exists e'.
  { exists NULL. eexists. unfold get_new_inode. rewrite (bind_ret _ _ _ _ _ Ha). eauto. }
  set (w1 := set_heap (<[p := fresh_inode (w_sb w)]> (w_heap w)) (set_env e' w)) in *.
  set (n1 := f (fresh_inode (w_sb w))).
  set (w2 := set_heap (<[p := n1]> (w_heap w)) w1).
  assert (H2 : set p w1 = Ret 0 w2).
  { rewrite (Hset p w1 (fresh_inode (w_sb w))) by apply lookup_insert_eq.
    unfold w2. simpl. by rewrite insert_insert_eq. }
  destruct (add_to_lists_spec key p w2 (w_heap w) n1) as (c & s' & Hs' & Hadd & Hc & Hfree);
    [done|by apply insert_subseteq|done|apply lookup_insert_eq|].
  set (n2 := set_ni_hsfs_inode (set_in_ino c (ni_hsfs_inode n1)) n1) in *.
  set (n3 := set_ni_hsfs_inode (set_in_i_state I_NEW (ni_hsfs_inode n2)) n2).
  exists p. eexists (set_heap (<[p := n3]> (w_heap w)) (set_sb s' w2)). split.
  { unfold get_new_inode. rewrite (bind_ret _ _ _ _ _ Ha), valid_ptr_nonnull by done.
    rewrite (bind_ret _ _ _ _ _ H2). change (negb (0 =? 0)) with false. cbv iota.
    rewrite (bind_ret _ _ _ _ _ Hadd).
    erewrite bind_ret by (apply update_ret, lookup_insert_eq).
    simpl. by rewrite !insert_insert_eq. }
  pose proof (proj1 Hfree) as Hid. right. exists n3, c. split_and!; try done; [|by rewrite Hs'; unfold cache_frame; eauto 10].
  unfold icache_ok. simpl. rewrite Hs'. destruct (Hf (fresh_inode (w_sb w))) as [Hfid Hcnt].
  rewrite <- Hfid. apply (icache_inv_add _ (set_sb_curr_id c (w_sb w)) p n3); try done.
  - apply icache_inv_curr; [lia|done].
  - unfold n3, n2. simpl. unfold n1. rewrite Hcnt. done.
Qed.
End Create.
