(* ===== verification/Attr.v ===== *)
(** * Attribute conversions

    From the attributes on the wire to [struct nfs_fattr] and [struct stat]
    ([nfs3/hsi_nfs3_lookup.c], [nfs3/hsi_nfs3_fattr2stat.c],
    [include/hsfs/hsi_nfs.h]), and from the attributes the kernel wants set to
    the arguments of SETATTR ([fuse/hsx_fuse_stat2iattr.c],
    [nfs3/hsi_nfs3_setattr.c]). *)

From S2P Require Import Prelude Proto World.

(** ** Device numbers, as glibc packs them in a 64-bit [dev_t] *)
Definition makedev (maj min : Z) : Z :=
  Z.lor (Z.lor (Z.shiftl (Z.land maj 0xfff) 8) (Z.shiftl (Z.land maj 0xfffff000) 32))
        (Z.lor (Z.land min 0xff) (Z.shiftl (Z.land min 0xffffff00) 12)).
Definition dev_major (dev : Z) : Z :=
  Z.lor (Z.land (Z.shiftr dev 8) 0xfff) (Z.land (Z.shiftr dev 32) 0xfffff000).
Definition dev_minor (dev : Z) : Z :=
  Z.lor (Z.land dev 0xff) (Z.land (Z.shiftr dev 12) 0xffffff00).

(** ** From the wire *)

Definition hsi_nfs3_time2spec (t : nfstime3) : timespec :=
  {| tv_sec := seconds t; tv_nsec := nseconds t |}.

(** The table [nfs_type2fmt], whose entry 0 is 0. *)
Definition nfs_type2fmt (type : Z) : Z :=
  match type with
  | 1 => S_IFREG | 2 => S_IFDIR | 3 => S_IFBLK | 4 => S_IFCHR
  | 5 => S_IFLNK | 6 => S_IFSOCK | 7 => S_IFIFO | _ => 0
  end.

Definition hsi_nfs3_fattr2fattr (f : fattr3) (t : nfs_fattr) : nfs_fattr :=
  let type := if ftype3_val NF3FIFO <? f3_type f then 0 else f3_type f in
  let fmode := nfs_type2fmt type in
  let maj := major3 (f3_rdev f) in
  let min := minor3 (f3_rdev f) in
  let rdev := makedev maj min in
  mk_fattr (Z.lor (fa_valid t) NFS_ATTR_FATTR_V3)
    (Z.lor (Z.ldiff (f3_mode f) S_IFMT) fmode)
    (f3_nlink f) (f3_uid f) (f3_gid f)
    (if negb (dev_major rdev =? maj) || negb (dev_minor rdev =? min) then 0 else rdev)
    (f3_size f) (f3_used f) (f3_fsid f) 0 (f3_fileid f)
    (hsi_nfs3_time2spec (f3_atime f)) (hsi_nfs3_time2spec (f3_mtime f))
    (hsi_nfs3_time2spec (f3_ctime f)).

(** Returns whether the attributes were present. *)
Definition hsi_nfs3_post2fattr (p : post_op_attr) (t : nfs_fattr) : bool * nfs_fattr :=
  match p with
  | Some f => (true, hsi_nfs3_fattr2fattr f t)
  | None => (false, t)
  end.

Definition hsi_nfs3_wcc2fattr (wcc : wcc_data) (fattr : nfs_fattr) : bool * nfs_fattr :=
  hsi_nfs3_post2fattr (after wcc) fattr.

(** The error, and the structure as the function leaves it. *)
Definition hsi_nfs3_fattr2stat (attr : fattr3) (st : stat) : Z * stat :=
  let mode := Z.land (f3_mode attr) 0xfff in
  let base fmt :=
    {| st_ino := f3_fileid attr; st_mode := Z.lor mode fmt;
       st_nlink := st_nlink st; st_uid := st_uid st; st_gid := st_gid st;
       st_rdev := st_rdev st; st_size := st_size st; st_blksize := st_blksize st;
       st_blocks := st_blocks st; st_atim := st_atim st; st_mtim := st_mtim st;
       st_ctim := st_ctim st |} in
  let fill fmt :=
    {| st_ino := f3_fileid attr; st_mode := Z.lor mode fmt;
       st_nlink := f3_nlink attr; st_uid := f3_uid attr; st_gid := f3_gid attr;
       st_rdev := makedev (major3 (f3_rdev attr)) (minor3 (f3_rdev attr));
       st_size := s64 (f3_size attr);
       st_blksize := 0;
       st_blocks := s64 (f3_used attr / 512);
       st_atim := {| tv_sec := seconds (f3_atime attr);
                     tv_nsec := nseconds (f3_atime attr) |};
       st_mtim := {| tv_sec := seconds (f3_mtime attr);
                     tv_nsec := nseconds (f3_atime attr) |};
       st_ctim := {| tv_sec := seconds (f3_ctime attr);
                     tv_nsec := tv_nsec (st_ctim st) |} |} in
  match f3_type attr with
  | 1 => (0, fill S_IFREG)
  | 2 => (0, fill S_IFDIR)
  | 3 => (0, fill S_IFBLK)
  | 4 => (0, fill S_IFCHR)
  | 5 => (0, fill S_IFLNK)
  | 6 => (0, fill S_IFSOCK)
  | 7 => (0, fill S_IFIFO)
  | _ => (EINVAL, base 0)
  end.

Definition LLONG_MAX : Z := 2 ^ 63 - 1.

Definition nfs_size_to_off_t (size : Z) : Z :=
  if LLONG_MAX - 1 <? size then LLONG_MAX - 1 else size.

Definition nfs_calc_block_size (tsize : Z) : Z :=
  let used := s64 (Z.shiftr (u64 (tsize + 511)) 9) in
  if LLONG_MAX <? used then LLONG_MAX else used.

(** ** To the wire *)

Definition FUSE_SET_ATTR_MODE : Z := 1.
Definition FUSE_SET_ATTR_UID : Z := 2.
Definition FUSE_SET_ATTR_GID : Z := 4.
Definition FUSE_SET_ATTR_SIZE : Z := 8.
Definition FUSE_SET_ATTR_ATIME : Z := 16.
Definition FUSE_SET_ATTR_MTIME : Z := 32.
Definition FUSE_SET_ATTR_ATIME_NOW : Z := 128.
Definition FUSE_SET_ATTR_MTIME_NOW : Z := 256.

Definition add_valid (m : Z) (a : hsfs_iattr) : hsfs_iattr :=
  set_ia_valid (Z.lor (ia_valid a) m) a.

Definition hsx_fuse_stat2iattr (st : stat) (to_set : Z) (attr : hsfs_iattr) : hsfs_iattr :=
  let attr := set_ia_valid 0 attr in
  let attr := if flag to_set FUSE_SET_ATTR_MODE
    then set_ia_mode (Z.ldiff (st_mode st) S_IFMT) (add_valid HSFS_ATTR_MODE attr) else attr in
  let attr := if flag to_set FUSE_SET_ATTR_UID
    then set_ia_uid (st_uid st) (add_valid HSFS_ATTR_UID attr) else attr in
  let attr := if flag to_set FUSE_SET_ATTR_GID
    then set_ia_gid (st_gid st) (add_valid HSFS_ATTR_GID attr) else attr in
  let attr := if flag to_set FUSE_SET_ATTR_SIZE
    then set_ia_size (st_size st) (add_valid HSFS_ATTR_SIZE attr) else attr in
  let attr := if flag to_set FUSE_SET_ATTR_ATIME
    then
      let attr := add_valid HSFS_ATTR_ATIME (set_ia_atime (st_atim st) attr) in
      if negb (flag to_set FUSE_SET_ATTR_ATIME_NOW)
      then add_valid HSFS_ATTR_ATIME_SET attr else attr
    else attr in
  if flag to_set FUSE_SET_ATTR_MTIME
  then
    let attr := add_valid HSFS_ATTR_MTIME (set_ia_mtime (st_mtim st) attr) in
    if negb (flag to_set FUSE_SET_ATTR_MTIME_NOW)
    then add_valid HSFS_ATTR_MTIME_SET attr else attr
  else attr.

(** The [new_attributes] that [hsi_nfs3_setattr] builds; the tests
    [S_ISSETATIMENOW] and [S_ISSETMTIMENOW] look at [HSFS_ATTR_ATIME] and
    [HSFS_ATTR_MTIME]. *)
Definition sattr3_of_iattr (attr : hsfs_iattr) : sattr3 :=
  let v := ia_valid attr in
  let atime := if flag v HSFS_ATTR_ATIME_SET
    then SET_TO_CLIENT_TIME {| seconds := u32 (tv_sec (ia_atime attr));
                               nseconds := u32 (tv_nsec (ia_atime attr)) |}
    else DONT_CHANGE in
  let mtime := if flag v HSFS_ATTR_MTIME_SET
    then SET_TO_CLIENT_TIME {| seconds := u32 (tv_sec (ia_mtime attr));
                               nseconds := u32 (tv_nsec (ia_mtime attr)) |}
    else DONT_CHANGE in
  {| sa_mode := if flag v HSFS_ATTR_MODE then Some (ia_mode attr) else None;
     sa_uid := if flag v HSFS_ATTR_UID then Some (ia_uid attr) else None;
     sa_gid := if flag v HSFS_ATTR_GID then Some (ia_gid attr) else None;
     sa_size := if flag v HSFS_ATTR_SIZE then Some (u64 (ia_size attr)) else None;
     sa_atime := if flag v HSFS_ATTR_ATIME then SET_TO_SERVER_TIME else atime;
     sa_mtime := if flag v HSFS_ATTR_MTIME then SET_TO_SERVER_TIME else mtime |}.

(** ** Properties *)

(** A number below 2^n has no bit from [n] on. *)
Lemma testbit_high x n i : 0 <= x < 2 ^ n -> n <= i -> Z.testbit x i = false.
Proof.
  intros Hx Hi. destruct (Z.ltb_spec n 0).
  - rewrite Z.pow_neg_r in Hx by lia. lia.
  - rewrite <- (Z.mod_small x (2 ^ n)) by done. apply Z.mod_pow2_bits_high. lia.
Qed.

(** The masks of the packing, bit by bit: [n] ones from bit [k] on. *)
Lemma mask_bits m n k i :
  m = Z.shiftl (Z.ones n) k -> 0 <= n -> 0 <= k ->
  Z.testbit m i = (k <=? i) && (i <? k + n).
Proof.
  intros -> Hn Hk. destruct (Z.leb_spec k i); simpl.
  - rewrite Z.shiftl_spec by lia.
    destruct (Z.ltb_spec i (k + n)); [apply Z.ones_spec_low|apply Z.ones_spec_high]; lia.
  - destruct (Z.ltb_spec i 0); [by apply Z.testbit_neg_r|].
    rewrite Z.shiftl_spec by lia. apply Z.testbit_neg_r. lia.
Qed.

(** [bit_cases] settles an equation of single bits of packed words. *)
Ltac bit_cases :=
  repeat first
    [ rewrite Z.lor_spec | rewrite Z.land_spec | rewrite Z.shiftl_spec by lia
    | rewrite Z.shiftr_spec by lia ];
  repeat first
    [ rewrite (mask_bits 0xfff 12 0) by done | rewrite (mask_bits 0xff 8 0) by done
    | rewrite (mask_bits 0xfffff000 20 12) by done | rewrite (mask_bits 0xffffff00 24 8) by done ];
  repeat match goal with
  | |- context [?a <? ?b] => destruct (Z.ltb_spec a b); try lia
  | |- context [?a <=? ?b] => destruct (Z.leb_spec a b); try lia
  end;
  simpl; rewrite ?andb_true_r, ?andb_false_r, ?orb_false_r; simpl.

Ltac packed_bits maj min :=
  let i := fresh "i" in
  apply Z.bits_inj'; intros i ?;
  destruct (Z.ltb_spec i 8); [|destruct (Z.ltb_spec i 12); [|destruct (Z.ltb_spec i 32)]];
  bit_cases; try (f_equal; lia);
  rewrite ?(testbit_high maj 32), ?(testbit_high min 32) by lia; done.

Lemma makedev_major maj min :
  0 <= maj < 2 ^ 32 -> 0 <= min < 2 ^ 32 -> dev_major (makedev maj min) = maj.
Proof. intros Hmaj Hmin. unfold dev_major, makedev. packed_bits maj min. Qed.

Lemma makedev_minor maj min :
  0 <= maj < 2 ^ 32 -> 0 <= min < 2 ^ 32 -> dev_minor (makedev maj min) = min.
Proof. intros Hmaj Hmin. unfold dev_minor, makedev. packed_bits maj min. Qed.

(** The number a block count rounds up to, while [tsize + 511] does not wrap. *)
Lemma calc_block_size_ceil tsize :
  0 <= tsize <= 2 ^ 64 - 512 ->
  nfs_calc_block_size tsize = (tsize + 511) / 512 /\ 0 <= nfs_calc_block_size tsize <= LLONG_MAX.
Proof.
  intros Ht. unfold nfs_calc_block_size, LLONG_MAX. rewrite u64_small by lia.
  rewrite Z.shiftr_div_pow2 by lia. change (2 ^ 9) with 512.
  assert (0 <= (tsize + 511) / 512 < 2 ^ 55)
    by (split; [apply Z.div_pos|apply Z.div_lt_upper_bound]; lia).
  rewrite s64_small by lia. case_if; lia.
Qed.

Lemma size_to_off_t_range size :
  0 <= size -> 0 <= nfs_size_to_off_t size < 2 ^ 63.
Proof. unfold nfs_size_to_off_t, LLONG_MAX. intros. case_if; lia. Qed.

Lemma flag_lor x y m : flag (Z.lor x y) m = flag x m || flag y m.
Proof.
  unfold flag. rewrite Z.land_lor_distr_l.
  destruct (Z.eqb_spec (Z.land x m) 0) as [->|Hx]; simpl; [done|].
  apply negb_true_iff, Z.eqb_neq. intros H. apply Z.lor_eq_0_iff in H as [? _]. done.
Qed.

Lemma valid_set v a : ia_valid (set_ia_valid v a) = v.
Proof. done. Qed.

(** [valid] after [hsx_fuse_stat2iattr] has a bit of times exactly when the
    kernel asked for it; the [_SET] bit only when the time was given. *)
Lemma stat2iattr_time_flags st to_set attr :
  flag (ia_valid (hsx_fuse_stat2iattr st to_set attr)) HSFS_ATTR_ATIME =
    flag to_set FUSE_SET_ATTR_ATIME /\
  flag (ia_valid (hsx_fuse_stat2iattr st to_set attr)) HSFS_ATTR_MTIME =
    flag to_set FUSE_SET_ATTR_MTIME /\
  flag (ia_valid (hsx_fuse_stat2iattr st to_set attr)) HSFS_ATTR_SIZE =
    flag to_set FUSE_SET_ATTR_SIZE /\
  flag (ia_valid (hsx_fuse_stat2iattr st to_set attr)) HSFS_ATTR_MODE =
    flag to_set FUSE_SET_ATTR_MODE.
Proof.
  unfold hsx_fuse_stat2iattr.
  destruct (flag to_set FUSE_SET_ATTR_MODE), (flag to_set FUSE_SET_ATTR_UID),
    (flag to_set FUSE_SET_ATTR_GID), (flag to_set FUSE_SET_ATTR_SIZE),
    (flag to_set FUSE_SET_ATTR_ATIME), (flag to_set FUSE_SET_ATTR_MTIME),
    (flag to_set FUSE_SET_ATTR_ATIME_NOW), (flag to_set FUSE_SET_ATTR_MTIME_NOW);
    split_and!; reflexivity.
Qed.
