(* ===== verification/Rpc.v ===== *)
(** * Calling the server ([nfs3/hsi_nfs3_mount.c], the client part)

    Opening and closing RPC clients, and [hsi_nfs3_clnt_call], which every
    operation uses: it retries a call at most five times and reconnects when
    the connection is gone.  A call or a release on a client that has been
    destroyed is undefined. *)

From S2P Require Import Prelude Bitops Hash Proto World Icache IcacheFacts.

Definition IPPROTO_TCP : Z := 6.
Definition IPPROTO_UDP : Z := 17.
Definition NFS_PROGRAM : Z := 100003.
Definition NFS_V3 : Z := 3.
Definition NFS_ACL_PROGRAM : Z := 100227.
Definition NFS_ACL_V3 : Z := 3.
Definition MOUNTPROG : Z := 100005.
Definition MOUNTVERS_NFSV3 : Z := 3.

Definition htons (x : Z) : Z :=
  Z.lor (Z.shiftl (Z.land x 0xff) 8) (Z.land (Z.shiftr x 8) 0xff).

Section Rpc.
Context `{E : Env}.

(** [clnt_call] and [clnt_freeres] of the library, on a client handle. *)
Definition rpc {R} (clnt : Z) (p : nfsproc R) (tout : Z * Z) : M world (clnt_result R) :=
  fun w => if decide (clnt ∈ w_clnts w) then from_env (clnt_call clnt p tout) w else Undef.

Definition clnt_freeres (clnt : Z) : M world unit :=
  fun w => if decide (clnt ∈ w_clnts w) then Ret tt w else Undef.

Definition clnt_destroy (clnt : Z) : M world unit :=
  fun w => if decide (clnt ∈ w_clnts w) then Ret tt (set_clnts (w_clnts w ∖ {[clnt]}) w)
           else Undef.

Definition hsi_mnt_closeclnt (clnt : Z) : M world unit := clnt_destroy clnt.

(** The client, or NULL, and the address with its port set. *)
Definition new_clnt (addr : clnt_addr_t) (sb_size rb_size : Z) : M world (option Z) :=
  fun w => from_env (clnt_create (w_clnts w) addr sb_size rb_size) w.

Definition hsi_mnt_openclnt (mnt_server : clnt_addr_t) (sb_size rb_size : Z) :
    M world (Z * clnt_addr_t) :=
  let mp := ca_pmap mnt_server in
  let addr := {| ca_hostname := ca_hostname mnt_server;
                 ca_saddr := {| sin_addr := sin_addr (ca_saddr mnt_server);
                                sin_port := htons (u16 (pm_port mp)) |};
                 ca_pmap := mp |} in
  if (pm_prot mp =? IPPROTO_UDP) || (pm_prot mp =? IPPROTO_TCP) then
    let! o := new_clnt addr sb_size rb_size in
    match o with
    | None => ret (NULL, addr)
    | Some clnt =>
        do! modify (fun w => set_clnts ({[clnt]} ∪ w_clnts w) w) in
        let! auth := from_env authunix_create in
        if (auth : bool) then ret (clnt, addr)
        else do! clnt_destroy clnt in ret (NULL, addr)
    end
  else ret (NULL, addr).

(** [TIMEOUT] of [conn.h]. *)
Definition TIMEOUT : Z * Z := (20, 0).

Definition hsi_nfs3_clnt_create (nfs_server : clnt_addr_t) (ssize rsize : Z) :
    M world (Z * clnt_addr_t) :=
  let! ca := hsi_mnt_openclnt nfs_server ssize rsize in
  let clnt := ca.1 in
  let addr := ca.2 in
  if clnt =? NULL then ret (NULL, addr)
  else
    let! r := rpc clnt NULLPROC TIMEOUT in
    match r with
    | RPC_FAILED _ => do! hsi_mnt_closeclnt clnt in ret (NULL, addr)
    | RPC_SUCCESS _ =>
        do! modify (fun w =>
          let b := w_bak w in
          let prog := pm_prog (ca_pmap addr) in
          set_bak {| nfs_server_bak := if prog =? NFS_PROGRAM then addr else nfs_server_bak b;
                     acl_server_bak := if prog =? NFS_PROGRAM then acl_server_bak b
                                       else if prog =? NFS_ACL_PROGRAM then addr
                                       else acl_server_bak b;
                     ssize_bak := ssize; rsize_bak := rsize |} w) in
        ret (clnt, addr)
    end.

(** The branch for a client that is neither of the two goes on to use the
    null address.  The address saved is the one [hsi_mnt_openclnt] updates. *)
Definition hsi_nfs3_clnt_reconnect (clnt : Z) : M world Z :=
  let! sb := get_sb in
  let is_nfs := clnt =? sb_clntp sb in
  let is_acl := negb (sb_acl_clntp sb =? NULL) && (clnt =? sb_acl_clntp sb) in
  do! hsi_mnt_closeclnt clnt in
  if is_nfs then
    let! w := get in
    let b := w_bak w in
    let! ca := hsi_nfs3_clnt_create (nfs_server_bak b) (ssize_bak b) (ssize_bak b) in
    do! modify (fun w => set_bak
      {| nfs_server_bak := ca.2; acl_server_bak := acl_server_bak (w_bak w);
         ssize_bak := ssize_bak (w_bak w); rsize_bak := rsize_bak (w_bak w) |} w) in
    do! (if ca.1 =? NULL then ret tt else update_sb (set_sb_clntp ca.1)) in
    ret ca.1
  else if is_acl then
    let! w := get in
    let b := w_bak w in
    let! ca := hsi_nfs3_clnt_create (acl_server_bak b) (ssize_bak b) (ssize_bak b) in
    do! modify (fun w => set_bak
      {| nfs_server_bak := nfs_server_bak (w_bak w); acl_server_bak := ca.2;
         ssize_bak := ssize_bak (w_bak w); rsize_bak := rsize_bak (w_bak w) |} w) in
    do! (if ca.1 =? NULL then ret tt else update_sb (set_sb_acl_clntp ca.1)) in
    ret ca.1
  else undef.

(** [hsi_rpc_stat_to_errno] of a failed call. *)
Definition hsi_rpc_stat_to_errno (re_errno : Z) : Z :=
  if re_errno =? 0 then EIO else re_errno.

(** The loop of [hsi_nfs3_clnt_call]; [tries] is [5 - rtry].  The result is
    there when the return value is 0. *)
Fixpoint clnt_call_retry {R} (tries : nat) (clnt : Z) (p : nfsproc R) (tout : Z * Z) :
    M world (Z * option R) :=
  let! st := rpc clnt p tout in
  match st with
  | RPC_SUCCESS r => ret (0, Some r)
  | RPC_FAILED e =>
      let err := hsi_rpc_stat_to_errno e in
      match tries with
      | O => ret (err, None)
      | S tries =>
          if err =? EAGAIN then clnt_call_retry tries clnt p tout
          else if (err =? ENOTCONN) || (err =? ECONNRESET) then
            let! clnt' := hsi_nfs3_clnt_reconnect clnt in
            if negb (clnt' =? NULL) then clnt_call_retry tries clnt' p tout
            else ret (err, None)
          else ret (err, None)
      end
  end.

(** The timeout of a call: [timeo] counts tenths of a second. *)
Definition call_timeout (timeo : Z) : Z * Z :=
  (Z.quot timeo 10, Z.rem timeo 10 * 100000).

Definition hsi_nfs3_clnt_call {R} (clnt : Z) (p : nfsproc R) : M world (Z * option R) :=
  let! sb := get_sb in
  clnt_call_retry 5 clnt p (call_timeout (sb_timeo sb)).

(** ** What a call leaves unchanged *)

(** Calls touch the environment, the clients and their saved addresses. *)
Definition rpc_frame (w w' : world) : Prop :=
  w_heap w' = w_heap w /\ w_out w' = w_out w /\
  exists c a, w_sb w' = set_sb_clntp c (set_sb_acl_clntp a (w_sb w)).

Lemma super_eta_clnt s : set_sb_clntp (sb_clntp s) (set_sb_acl_clntp (sb_acl_clntp s) s) = s.
Proof. by destruct s. Qed.

Lemma rpc_frame_refl w : rpc_frame w w.
Proof.
  split_and!; [done..|]. exists (sb_clntp (w_sb w)), (sb_acl_clntp (w_sb w)).
  by rewrite super_eta_clnt.
Qed.

Lemma rpc_frame_trans w1 w2 w3 : rpc_frame w1 w2 -> rpc_frame w2 w3 -> rpc_frame w1 w3.
Proof.
  intros (Hh1 & Ho1 & c1 & a1 & Hs1) (Hh2 & Ho2 & c2 & a2 & Hs2).
  split_and!; [congruence..|]. exists c2, a2. by rewrite Hs2, Hs1.
Qed.

Lemma rpc_frame_eq w w' :
  w_heap w' = w_heap w -> w_out w' = w_out w -> w_sb w' = w_sb w -> rpc_frame w w'.
Proof.
  intros Hh Ho Hs. split_and!; [done..|].
  exists (sb_clntp (w_sb w)), (sb_acl_clntp (w_sb w)). by rewrite Hs, super_eta_clnt.
Qed.

Lemma rpc_frame_icache w w' : rpc_frame w w' -> icache_ok w -> icache_ok w'.
Proof.
  intros (Hh & _ & c & a & Hs). unfold icache_ok. rewrite Hh, Hs. by apply icache_inv_sb.
Qed.

Lemma from_env_frame {A} (f : env -> A * env) w a w' :
  from_env f w = Ret a w' -> rpc_frame w w' /\ w_clnts w' = w_clnts w /\ w_sb w' = w_sb w.
Proof.
  unfold from_env. destruct (f (w_env w)). intros [= <- <-].
  split_and!; [|done..]. by apply rpc_frame_eq.
Qed.

Lemma rpc_ret {R} c (p : nfsproc R) t w a w' :
  rpc c p t w = Ret a w' ->
  rpc_frame w w' /\ w_clnts w' = w_clnts w /\ w_sb w' = w_sb w /\ c ∈ w_clnts w.
Proof.
  unfold rpc. case_decide; [|done]. intros Hr. apply from_env_frame in Hr. naive_solver.
Qed.

Lemma clnt_freeres_live c w : c ∈ w_clnts w -> clnt_freeres c w = Ret tt w.
Proof. intros. unfold clnt_freeres. by rewrite decide_True. Qed.

Lemma clnt_freeres_ret c w u w' : clnt_freeres c w = Ret u w' -> w' = w.
Proof. unfold clnt_freeres. case_decide; [|done]. by intros [= <- <-]. Qed.

Lemma clnt_destroy_ret c w u w' :
  clnt_destroy c w = Ret u w' -> rpc_frame w w' /\ w_sb w' = w_sb w.
Proof.
  unfold clnt_destroy. case_decide; [|done]. intros [= <- <-].
  split; [|done]. by apply rpc_frame_eq.
Qed.

End Rpc.

(** What the library promises of a new client handle. *)
Class ClntLaws `{E : Env} : Prop := {
  clnt_create_new : forall l addr s r e c e',
    clnt_create l addr s r e = (Some c, e') -> c <> NULL /\ c ∉ l }.

Section RpcFacts.
Context `{E : Env} `{!ClntLaws}.

Lemma openclnt_ret addr s r w c a w' :
  hsi_mnt_openclnt addr s r w = Ret (c, a) w' ->
  rpc_frame w w' /\ w_sb w' = w_sb w /\ (c <> NULL -> c ∈ w_clnts w').
Proof.
  unfold hsi_mnt_openclnt. case_if.
  2:{ intros [= <- <- <-]. split_and!; [apply rpc_frame_refl|done..]. }
  intros Ho. apply bind_ret_inv in Ho as (x & w0 & Hm & Hk).
  destruct (from_env_frame _ _ _ _ Hm) as (Hf & Hc0 & Hsb). destruct x as [clnt|].
  2:{ injection Hk as <- <- <-. split_and!; [done..|]. intros []. done. }
  apply bind_ret_inv in Hk as ([] & w1 & Hm1 & Hk). injection Hm1 as <-.
  apply bind_ret_inv in Hk as (auth & w2 & Hm2 & Hk).
  destruct (from_env_frame _ _ _ _ Hm2) as (Hf1 & Hc1 & Hsb1).
  assert (Hf2 : rpc_frame w w2)
    by (eapply rpc_frame_trans; [exact Hf|]; eapply rpc_frame_trans; [|exact Hf1];
        by apply rpc_frame_eq).
  simpl in Hsb1, Hc1. destruct auth.
  - injection Hk as <- <- <-. split_and!; [done|congruence|].
    intros _. rewrite Hc1. set_solver.
  - apply bind_ret_inv in Hk as ([] & w3 & Hm3 & Hk). injection Hk as <- <- <-.
    apply clnt_destroy_ret in Hm3 as [Hd Hds]. split_and!; [by eapply rpc_frame_trans|congruence|]. intros []. done.
Qed.
Lemma set_bak_frame b w : rpc_frame w (set_bak b w).
Proof. by apply rpc_frame_eq. Qed.

Lemma nfs3_clnt_create_ret addr s r w c a w' :
  hsi_nfs3_clnt_create addr s r w = Ret (c, a) w' ->
  rpc_frame w w' /\ w_sb w' = w_sb w /\ (c <> NULL -> c ∈ w_clnts w').
Proof.
  unfold hsi_nfs3_clnt_create. intros Ho. apply bind_ret_inv in Ho as ([c0 a0] & w1 & Hm & Hk).
  apply openclnt_ret in Hm as (Hf & Hs & Hl). simpl in Hk.
  destruct (Z.eqb_spec c0 NULL) as [->|Hn].
  { injection Hk as <- <- <-. split_and!; [done..|]. intros []. done. }
  apply bind_ret_inv in Hk as (r0 & w2 & Hp & Hk).
  apply rpc_ret in Hp as (Hf2 & Hc2 & Hs2 & _). destruct r0.
  - apply bind_ret_inv in Hk as ([] & w3 & Hm3 & Hk). injection Hm3 as <-. injection Hk as <- <- <-.
    split_and!; [|simpl; congruence|simpl; rewrite Hc2; done].
    eapply rpc_frame_trans; [exact Hf|]. eapply rpc_frame_trans; [exact Hf2|apply set_bak_frame].
  - apply bind_ret_inv in Hk as ([] & w3 & Hm3 & Hk). injection Hk as <- <- <-.
    apply clnt_destroy_ret in Hm3 as [Hd Hds].
    split_and!; [|congruence|by intros []].
    eapply rpc_frame_trans; [exact Hf|]. by eapply rpc_frame_trans.
Qed.

Lemma rpc_frame_clntp b c w :
  rpc_frame w (set_sb (set_sb_clntp c (w_sb w)) (set_bak b w)).
Proof. split_and!; [done..|]. exists c, (sb_acl_clntp (w_sb w)). by destruct (w_sb w). Qed.

Lemma rpc_frame_acl_clntp b c w :
  rpc_frame w (set_sb (set_sb_acl_clntp c (w_sb w)) (set_bak b w)).
Proof. split_and!; [done..|]. exists (sb_clntp (w_sb w)), c. by destruct (w_sb w). Qed.

(** After a reconnection that succeeded, the superblock holds a live client in
    the place of the one that was lost. *)
Lemma reconnect_ret clnt w c w' :
  hsi_nfs3_clnt_reconnect clnt w = Ret c w' ->
  rpc_frame w w' /\
  (c <> NULL -> c ∈ w_clnts w' /\
    (clnt = sb_clntp (w_sb w) -> sb_clntp (w_sb w') = c) /\
    (clnt <> sb_clntp (w_sb w) -> sb_acl_clntp (w_sb w') = c)).
Proof.
  unfold hsi_nfs3_clnt_reconnect. intros Ho.
  apply bind_ret_inv in Ho as (sb & w0 & Hm & Hk). injection Hm as <- <-.
  apply bind_ret_inv in Hk as ([] & w1 & Hd & Hk). apply clnt_destroy_ret in Hd as [Hf1 Hs1].
  destruct (Z.eqb_spec clnt (sb_clntp (w_sb w))) as [Hcl|Hcl];
    [|destruct (negb _ && _); [|done]];
    apply bind_ret_inv in Hk as (w1' & w2 & Hg & Hk); injection Hg as <- <-;
    apply bind_ret_inv in Hk as ([c0 a0] & w3 & Hcr & Hk);
    apply nfs3_clnt_create_ret in Hcr as (Hf3 & Hs3 & Hl3);
    apply bind_ret_inv in Hk as ([] & w4 & Hm4 & Hk); injection Hm4 as <-;
    apply bind_ret_inv in Hk as ([] & w5 & Hm5 & Hk); injection Hk as <- <-; simpl in *;
    (assert (Hf4 : rpc_frame w w3) by (by eapply rpc_frame_trans));
    destruct (Z.eqb_spec c0 NULL) as [Hc0|Hc0]; injection Hm5 as <-;
    (split; [|intros Hn; try congruence; split_and!; simpl; naive_solver]);
    (eapply rpc_frame_trans; [exact Hf4|]);
    first [apply set_bak_frame|apply rpc_frame_clntp|apply rpc_frame_acl_clntp].
Qed.

Lemma clnt_call_retry_ret {R} tries clnt (p : nfsproc R) t w err o w' :
  clnt_call_retry tries clnt p t w = Ret (err, o) w' ->
  rpc_frame w w' /\ (err = 0 <-> is_Some o) /\
  (err = 0 -> clnt = sb_clntp (w_sb w) -> sb_clntp (w_sb w') ∈ w_clnts w').
Proof.
  revert clnt w. induction tries as [|tries IH]; intros clnt w Ho; simpl in Ho;
    apply bind_ret_inv in Ho as (st & w1 & Hm & Hk);
    apply rpc_ret in Hm as (Hf & Hc & Hs & Hl);
    (destruct st as [r|e]; [injection Hk as <- <- <-; split_and!; [done|naive_solver|
      intros _ Hcl; rewrite Hs, Hc, <- Hcl; done]|]).
  - injection Hk as <- <- <-. assert (hsi_rpc_stat_to_errno e <> 0)
      by (unfold hsi_rpc_stat_to_errno; case_if; done).
    split_and!; [done|split; [done|by intros []]|done].
  - assert (Hne : hsi_rpc_stat_to_errno e <> 0)
      by (unfold hsi_rpc_stat_to_errno; case_if; done).
    case_if_in Hk; [|case_if_in Hk].
    + destruct (IH _ _ Hk) as (? & ? & Hx). split_and!; [by eapply rpc_frame_trans|done|].
      rewrite <- Hs. done.
    + apply bind_ret_inv in Hk as (c' & w2 & Hr & Hk).
      apply reconnect_ret in Hr as (Hf2 & Hc2). destruct (Z.eqb_spec c' NULL) as [->|Hn]; simpl in Hk.
      * injection Hk as <- <- <-.
        split_and!; [by eapply rpc_frame_trans|split; [done|by intros []]|done].
      * destruct (IH _ _ Hk) as (? & ? & Hx).
        split_and!; [|done|].
        { eapply rpc_frame_trans; [exact Hf|]. by eapply rpc_frame_trans. }
        destruct Hc2 as (? & Hc2 & _); [done|]. intros He Hcl. apply Hx; [done|].
        symmetry. apply Hc2. congruence.
    + injection Hk as <- <- <-. split_and!; [done|split; [done|by intros []]|done].
Qed.

(** The contract of a call: 0 exactly when there is a result; nothing but
    the clients changes; after a success on the main client, the main client
    of the superblock is live. *)
Lemma nfs3_clnt_call_ret {R} clnt (p : nfsproc R) w err o w' :
  hsi_nfs3_clnt_call clnt p w = Ret (err, o) w' ->
  rpc_frame w w' /\ (err = 0 <-> is_Some o) /\
  (err = 0 -> clnt = sb_clntp (w_sb w) -> sb_clntp (w_sb w') ∈ w_clnts w').
Proof.
  unfold hsi_nfs3_clnt_call. intros Ho. apply bind_ret_inv in Ho as (sb & w0 & Hm & Hk).
  injection Hm as <- <-. by apply clnt_call_retry_ret in Hk.
Qed.

(** ** Calls on the main client return

    Starting on a live client, no step of a call touches a dead one. *)

Lemma from_env_ret {A} (f : env -> A * env) w :
  exists a e, from_env f w = Ret a (set_env e w).
Proof. unfold from_env. destruct (f (w_env w)) as [a e]. eauto. Qed.

Lemma rpc_total {R} c (p : nfsproc R) t w :
  c ∈ w_clnts w -> exists r e, rpc c p t w = Ret r (set_env e w).
Proof. intros Hc. unfold rpc. rewrite decide_True by done. apply from_env_ret. Qed.

Lemma clnt_destroy_total c w :
  c ∈ w_clnts w -> clnt_destroy c w = Ret tt (set_clnts (w_clnts w ∖ {[c]}) w).
Proof. intros Hc. unfold clnt_destroy. by rewrite decide_True. Qed.

Lemma openclnt_total addr s r w : exists ca w', hsi_mnt_openclnt addr s r w = Ret ca w'.
Proof.
  unfold hsi_mnt_openclnt. case_if; [|unfold ret; eauto].
  destruct (from_env_ret (clnt_create (w_clnts w) {| ca_hostname := ca_hostname addr;
    ca_saddr := {| sin_addr := sin_addr (ca_saddr addr);
                   sin_port := htons (u16 (pm_port (ca_pmap addr))) |};
    ca_pmap := ca_pmap addr |} s r) w) as (o & e & Ho).
  rewrite (bind_ret (new_clnt _ _ _) _ _ _ _ Ho). destruct o as [c|]; [|unfold ret; eauto].
  unfold modify at 1, bind at 1.
  match goal with |- context [from_env ?f] =>
    match goal with |- context [bind _ _ ?w] => destruct (from_env_ret f w) as (b & e' & Hb) end end.
  rewrite (bind_ret _ _ _ _ _ Hb). destruct b; [unfold ret; eauto|].
  erewrite bind_ret by (apply clnt_destroy_total; simpl; set_solver). unfold ret. eauto.
Qed.

Lemma nfs3_clnt_create_total addr s r w :
  exists ca w', hsi_nfs3_clnt_create addr s r w = Ret ca w'.
Proof.
  unfold hsi_nfs3_clnt_create. destruct (openclnt_total addr s r w) as ([c a] & w1 & Ho).
  rewrite (bind_ret _ _ _ _ _ Ho). simpl. destruct (Z.eqb_spec c NULL) as [|Hn]; [unfold ret; eauto|].
  apply openclnt_ret in Ho as (_ & _ & Hl).
  destruct (rpc_total c NULLPROC TIMEOUT w1) as (x & e & Hx); [by apply Hl|].
  rewrite (bind_ret _ _ _ _ _ Hx). destruct x; [unfold ret, bind, modify; eauto|].
  erewrite bind_ret by (apply clnt_destroy_total; by apply Hl). unfold ret. eauto.
Qed.

Lemma reconnect_total w :
  sb_clntp (w_sb w) ∈ w_clnts w ->
  exists c w', hsi_nfs3_clnt_reconnect (sb_clntp (w_sb w)) w = Ret c w'.
Proof.
  intros Hl. unfold hsi_nfs3_clnt_reconnect. unfold get_sb, bind at 1.
  erewrite bind_ret by (by apply clnt_destroy_total). rewrite Z.eqb_refl.
  unfold get, bind at 1.
  match goal with |- context [bind (hsi_nfs3_clnt_create ?a ?s ?r) _ ?w] =>
    destruct (nfs3_clnt_create_total a s r w) as (ca & w2 & Hc) end.
  rewrite (bind_ret _ _ _ _ _ Hc). unfold modify, bind at 1.
  destruct (ca.1 =? NULL); unfold update_sb, ret, bind, modify; eauto.
Qed.

Lemma clnt_call_retry_total {R} tries (p : nfsproc R) t w :
  sb_clntp (w_sb w) ∈ w_clnts w ->
  exists eo w', clnt_call_retry tries (sb_clntp (w_sb w)) p t w = Ret eo w'.
Proof.
  revert w. induction tries as [|tries IH]; intros w Hl; simpl;
    destruct (rpc_total _ p t w Hl) as (x & e & Hx); rewrite (bind_ret _ _ _ _ _ Hx);
    (destruct x as [r|re]; [unfold ret; eauto|]); [unfold ret; eauto|].
  case_if; [by apply (IH (set_env e w))|]. case_if; [|unfold ret; eauto].
  destruct (reconnect_total (set_env e w) Hl) as (c & w2 & Hr). simpl in Hr.
  rewrite (bind_ret _ _ _ _ _ Hr).
  destruct (reconnect_ret _ _ _ _ Hr) as [_ Hc]. destruct (Z.eqb_spec c NULL) as [|Hn]; simpl.
  - unfold ret. eauto.
  - destruct (Hc Hn) as (Hlive & Hmain & _). rewrite <- (Hmain eq_refl) in Hlive |- *. by apply IH.
Qed.

Lemma nfs3_clnt_call_total {R} (p : nfsproc R) w :
  sb_clntp (w_sb w) ∈ w_clnts w ->
  exists err o w', hsi_nfs3_clnt_call (sb_clntp (w_sb w)) p w = Ret (err, o) w'.
Proof.
  intros Hl. unfold hsi_nfs3_clnt_call, get_sb, bind at 1.
  destruct (clnt_call_retry_total 5 p (call_timeout (sb_timeo (w_sb w))) w Hl) as ([err o] & w1 & Hcall).
  eauto.
Qed.

End RpcFacts.
