(* ===== verification/NfsInode.v ===== *)
(** * NFS inodes ([nfs_common/hsi_nfs_inode.c])

    [hsi_nfs_fhget] finds or creates the inode of a file handle, filling it in
    or refreshing it with the attributes the server gave; [nfs_refresh_inode]
    refreshes an inode after a call; [hsi_nfs_setattr] changes attributes.
    The cache holds at most one inode for a file id and handle
    ([handles_inj]), and the handle of an inode is the one it was created
    with. *)

From S2P Require Import Prelude Bitops Hash Proto World Icache IcacheFacts Attr Rpc.

Section NfsInode.
Context `{E : Env}.

Definition nfs_find_actor (fh : nfs_fh) (fattr : nfs_fattr) (n : nfs_inode) : bool :=
  if negb (ni_fileid n =? fa_fileid fattr) then false
  else if nfs_compare_fh (ni_fh n) fh then false
  else if is_bad_inode (ni_hsfs_inode n) || NFS_STALE n then false
  else true.

Definition nfs_init_locked (fh : nfs_fh) (fattr : nfs_fattr) (p : Z) : M world Z :=
  do! update p (set_nfs_fileid (fa_fileid fattr)) in
  do! update p (fun n => set_ni_fh (nfs_copy_fh (ni_fh n) fh) n) in
  ret 0.

Definition nfs_alloc_inode : M world Z :=
  fun w =>
    let '(o, e) := malloc_inode (w_heap w) (w_env w) in
    match o with
    | None => Ret NULL (set_env e w)
    | Some p => Ret p (set_heap (<[p := nfs_inode_zero]> (w_heap w)) (set_env e w))
    end.

(** [free] of an address that was not allocated is undefined. *)
Definition nfs_destroy_inode (p : Z) : M world unit :=
  fun w => match w_heap w !! p with
           | Some _ => Ret tt (set_heap (delete p (w_heap w)) w)
           | None => Undef
           end.

(** [du.nfs2.blocks] is the upper half of [du.nfs3.used]. *)
Definition fattr_blocks (fattr : nfs_fattr) : Z :=
  if flag (fa_valid fattr) (Z.lor NFS_ATTR_FATTR_V3 NFS_ATTR_FATTR_V4)
  then nfs_calc_block_size (fa_used fattr)
  else Z.shiftr (fa_used fattr) 32.

Definition update_iattr (f : hsfs_iattr -> hsfs_iattr) (n : nfs_inode) : nfs_inode :=
  let i := ni_hsfs_inode n in set_ni_hsfs_inode (set_in_iattr (f (in_iattr i)) i) n.

(** The attributes as the last part of [nfs_update_inode] and the new-inode
    branch of [hsi_nfs_fhget] store them. *)
Definition nfs_store_fattr (fattr : nfs_fattr) (n : nfs_inode) : nfs_inode :=
  let n := update_iattr (fun a =>
    let a := set_ia_size (nfs_size_to_off_t (fa_size fattr)) a in
    let a := set_ia_mtime (fa_mtime fattr) a in
    let a := set_ia_ctime (fa_ctime fattr) a in
    let a := set_ia_atime (fa_atime fattr) a in
    let a := set_ia_mode (fa_mode fattr) a in
    let a := set_ia_uid (fa_uid fattr) a in
    set_ia_gid (fa_gid fattr) a) n in
  let i := ni_hsfs_inode n in
  let i := set_in_i_nlink (fa_nlink fattr) i in
  let i := set_in_i_blocks (fattr_blocks fattr) i in
  set_ni_hsfs_inode i n.

Definition nfs_update_inode (p : Z) (fattr : nfs_fattr) : M world Z :=
  let! n := deref p in
  if negb (ni_fileid n =? fa_fileid fattr) then ret (- ESTALE)
  else if negb (Z.land (ia_mode (in_iattr (ni_hsfs_inode n))) S_IFMT =?
                Z.land (fa_mode fattr) S_IFMT) then ret (- ESTALE)
  else do! update p (nfs_store_fattr fattr) in ret 0.

Definition nfs_refresh_inode (p : Z) (fattr : nfs_fattr) : M world Z :=
  if Z.land (fa_valid fattr) NFS_ATTR_FATTR =? 0 then ret 0
  else nfs_update_inode p fattr.

Context (sop : hsfs_super_ops).

Definition hsi_nfs_fhget (fh : nfs_fh) (fattr : nfs_fattr) : M world Z :=
  let! out_no_inode := err_ptr (- ENOENT) in
  if Z.land (fa_valid fattr) NFS_ATTR_FATTR =? 0 then ret out_no_inode
  else if fa_nlink fattr =? 0 then ret out_no_inode
  else
    let! inode := hsfs_iget5_locked sop (fa_fileid fattr)
      (nfs_find_actor fh fattr) (nfs_init_locked fh fattr) in
    if inode =? NULL then err_ptr (- ENOMEM)
    else
      let! n := deref inode in
      do! (if flag (in_i_state (ni_hsfs_inode n)) I_NEW then
             do! update inode (set_nfs_fileid (fa_fileid fattr)) in
             do! update inode (nfs_store_fattr fattr) in
             hsfs_unlock_new_inode inode
           else
             do! nfs_refresh_inode inode fattr in ret tt) in
      ret inode.

Definition NFS_VALID_ATTRS : Z :=
  Z.lor HSFS_ATTR_MODE (Z.lor HSFS_ATTR_UID (Z.lor HSFS_ATTR_GID (Z.lor HSFS_ATTR_SIZE
    (Z.lor HSFS_ATTR_ATIME (Z.lor HSFS_ATTR_ATIME_SET
      (Z.lor HSFS_ATTR_MTIME HSFS_ATTR_MTIME_SET)))))).

(** The attributes left to send: no size for what is not a regular file or
    has that size already, and only the attributes NFS has. *)
Definition setattr_filter (i : hsfs_inode) (attr : hsfs_iattr) : hsfs_iattr :=
  let attr :=
    if flag (ia_valid attr) HSFS_ATTR_SIZE &&
       (negb (S_ISREG (ia_mode (in_iattr i))) || (ia_size attr =? ia_size (in_iattr i)))
    then set_ia_valid (clear_bits (ia_valid attr) HSFS_ATTR_SIZE) attr else attr in
  set_ia_valid (Z.land (ia_valid attr) NFS_VALID_ATTRS) attr.

Definition hsi_nfs_setattr (p : Z) (attr : hsfs_iattr) : M world Z :=
  let! n := deref p in
  let attr := setattr_filter (ni_hsfs_inode n) attr in
  if ia_valid attr =? 0 then ret 0
  else
    let! ef := sop_setattr sop p fattr_local attr in
    do! (if ef.1 =? 0 then do! nfs_refresh_inode p ef.2 in ret tt else ret tt) in
    ret ef.1.

Definition hsfs_ll_setattr (p : Z) (sattr : hsfs_iattr) : M world Z :=
  hsi_nfs_setattr p sattr.

Definition nfs_setattr_update_inode (p : Z) (attr : hsfs_iattr) : M world unit :=
  let v := ia_valid attr in
  do! (if flag v (Z.lor HSFS_ATTR_MODE (Z.lor HSFS_ATTR_UID HSFS_ATTR_GID)) then
         do! (if flag v HSFS_ATTR_MODE then
                update p (update_iattr (fun a =>
                  set_ia_mode (Z.lor (Z.land (ia_mode attr) S_IALLUGO)
                                     (Z.ldiff (ia_mode a) S_IALLUGO)) a))
              else ret tt) in
         do! (if flag v HSFS_ATTR_UID then update p (update_iattr (set_ia_uid (ia_uid attr)))
              else ret tt) in
         if flag v HSFS_ATTR_GID then update p (update_iattr (set_ia_gid (ia_gid attr)))
         else ret tt
       else ret tt) in
  if flag v HSFS_ATTR_SIZE then update p (update_iattr (set_ia_size (ia_size attr)))
  else ret tt.

End NfsInode.

(** ** The operations of the superblock ([nfs3/hsi_nfs3_setattr.c],
    [hsi_nfs_sop] of [nfs3/hsi_nfs3_mount.c]) *)
Section Sop.
Context `{E : Env}.

(** The error, and [*fattr] as the function leaves it.  The result is released
    on the client read before the call. *)
Definition hsi_nfs3_setattr (inode : Z) (fattr : nfs_fattr) (attr : hsfs_iattr) :
    M world (Z * nfs_fattr) :=
  let! n := deref inode in
  let! sb := get_sb in
  let clntp := sb_clntp sb in
  let args := {| se_object := hsi_nfs3_getfh3 n;
                 se_new_attributes := sattr3_of_iattr attr;
                 se_guard := None |} in
  let! er := hsi_nfs3_clnt_call clntp (NFSPROC3_SETATTR args) in
  match er.2 with
  | None => ret (er.1, fattr)
  | Some (RES_FAIL st _) =>
      do! clnt_freeres clntp in ret (hsi_nfs3_stat_to_errno st, fattr)
  | Some (RES_OK wcc) =>
      let pf := hsi_nfs3_wcc2fattr wcc (nfs_init_fattr fattr) in
      do! clnt_freeres clntp in
      ret (if pf.1 then 0 else EAGAIN, pf.2)
  end.

Definition hsi_nfs_sop : hsfs_super_ops :=
  {| sop_alloc_inode := nfs_alloc_inode;
     sop_destroy_inode := nfs_destroy_inode;
     sop_drop_inode := None;
     sop_setattr := hsi_nfs3_setattr |}.
End Sop.

(** ** What the allocator promises, and that the cache can rely on it

    [malloc] gives an address that is not in use and not an error value. *)
Class MallocLaws `{E : Env} : Prop := {
  malloc_inode_law : forall h e p e', malloc_inode h e = (Some p, e') ->
    h !! p = None /\ valid_ptr p }.

Lemma alloc_inode_law `{E : Env} `{!MallocLaws} w :
  exists e',
    nfs_alloc_inode w = Ret NULL (set_env e' w) \/
    exists p,
      nfs_alloc_inode w =
        Ret p (set_heap (<[p := nfs_inode_zero]> (w_heap w)) (set_env e' w)) /\
      w_heap w !! p = None /\ valid_ptr p.
Proof.
  unfold nfs_alloc_inode. destruct (malloc_inode (w_heap w) (w_env w)) as [[p|] e] eqn:Hm.
  - exists e. right. exists p. split; [done|]. by eapply malloc_inode_law.
  - exists e. by left.
Qed.

Lemma destroy_inode_law `{E : Env} w p n :
  w_heap w !! p = Some n ->
  nfs_destroy_inode p w = Ret tt (set_heap (delete p (w_heap w)) w).
Proof. unfold nfs_destroy_inode. by intros ->. Qed.

#[export] Instance hsi_nfs_sop_laws `{E : Env} `{!MallocLaws} : SopLaws hsi_nfs_sop.
Proof. constructor; [apply alloc_inode_law|apply destroy_inode_law]. Qed.

(** ** Handles *)

Definition fh_wf (f : nfs_fh) : Prop :=
  0 <= fh_size f <= NFS_MAXFHSIZE /\ length (fh_data f) = Z.to_nat NFS_MAXFHSIZE.

Definition fh_bytes (f : nfs_fh) : list Z := take (Z.to_nat (fh_size f)) (fh_data f).

Lemma length_fh_bytes f : fh_wf f -> Z.of_nat (length (fh_bytes f)) = fh_size f.
Proof. intros [Hs Hl]. unfold fh_bytes. rewrite length_take, Hl. lia. Qed.

(** The comparison says whether the two handles are the same bytes. *)
Lemma compare_fh_spec a b :
  fh_wf a -> fh_wf b -> nfs_compare_fh a b = false <-> fh_bytes a = fh_bytes b.
Proof.
  intros Ha Hb. unfold nfs_compare_fh, fh_bytes. rewrite orb_false_iff, !negb_false_iff, Z.eqb_eq,
    bool_decide_eq_true. split.
  - intros [Hs Hd]. by rewrite Hd, Hs.
  - intros H. assert (Hs : fh_size a = fh_size b).
    { rewrite <- (length_fh_bytes a), <- (length_fh_bytes b) by done. unfold fh_bytes. by rewrite H. }
    split; [done|]. by rewrite Hs at 2.
Qed.

Lemma copy_fh_wf t s : fh_wf t -> fh_wf s -> fh_wf (nfs_copy_fh t s) /\
  fh_bytes (nfs_copy_fh t s) = fh_bytes s.
Proof.
  intros [Ht Hlt] [Hs Hls]. unfold fh_wf, fh_bytes, nfs_copy_fh, copy_bytes. simpl. split.
  - split; [done|]. rewrite length_app, length_take, length_drop. lia.
  - apply take_app_exact. rewrite length_take, Hls. lia.
Qed.

(** A handle from the wire is stored byte for byte. *)
Lemma copy_fh3_wf t h f :
  fh_wf t -> nfs_copy_fh3 t h = Some f -> fh_wf f /\ fh_bytes f = h.
Proof.
  intros [Ht Hlt]. unfold nfs_copy_fh3. case_if; [|done]. intros [= <-].
  unfold fh_wf, fh_bytes, copy_bytes. simpl. split.
  - split; [lia|]. rewrite length_app, length_take, length_drop. lia.
  - rewrite Nat2Z.id. rewrite take_app_exact; [by apply firstn_all|]. rewrite length_take. lia.
Qed.

Lemma fh_zero_wf : fh_wf nfs_fh_zero.
Proof. done. Qed.

(** ** The invariant of the NFS part

    Every published inode has been filled in, is not stale, and no two have
    the same file id and handle. *)
Record nfs_inv (h : gmap Z nfs_inode) : Prop := {
  ninv_fh : forall p n, h !! p = Some n -> fh_wf (ni_fh n);
  ninv_stale : forall p n, h !! p = Some n -> NFS_STALE n = false;
  ninv_new : forall p n, h !! p = Some n -> flag (in_i_state (ni_hsfs_inode n)) I_NEW = false;
  ninv_inj : forall p q n m, h !! p = Some n -> h !! q = Some m ->
    ni_fileid n = ni_fileid m -> fh_bytes (ni_fh n) = fh_bytes (ni_fh m) -> p = q }.

Definition cache_ok `{E : Env} (w : world) : Prop := icache_ok w /\ nfs_inv (w_heap w).

(** What a change of attributes leaves alone. *)
Definition same_identity (n n' : nfs_inode) : Prop :=
  ni_fileid n' = ni_fileid n /\ ni_fh n' = ni_fh n /\ ni_flags n' = ni_flags n /\
  in_ino (ni_hsfs_inode n') = in_ino (ni_hsfs_inode n) /\
  in_i_state (ni_hsfs_inode n') = in_i_state (ni_hsfs_inode n) /\
  in_i_count (ni_hsfs_inode n') = in_i_count (ni_hsfs_inode n).

Lemma nfs_inv_update h p n n' :
  nfs_inv h -> h !! p = Some n -> ni_fileid n' = ni_fileid n -> ni_fh n' = ni_fh n ->
  ni_flags n' = ni_flags n -> flag (in_i_state (ni_hsfs_inode n')) I_NEW = false ->
  nfs_inv (<[p := n']> h).
Proof.
  intros [] Hp Hfid Hfh Hfl Hst. unfold NFS_STALE in *. constructor.
  - intros q m [[<- <-]|[? Hq]]%lookup_insert_Some; [rewrite Hfh|]; eauto.
  - intros q m [[<- <-]|[? Hq]]%lookup_insert_Some; unfold NFS_STALE; [rewrite Hfl|]; eauto.
  - intros q m [[<- <-]|[? Hq]]%lookup_insert_Some; eauto.
  - intros q1 q2 n1 n2 [[<- <-]|[? H1]]%lookup_insert_Some [[<- <-]|[? H2]]%lookup_insert_Some;
      rewrite ?Hfid, ?Hfh; eauto.
Qed.

Lemma nfs_inv_add h p n :
  nfs_inv h -> h !! p = None -> fh_wf (ni_fh n) -> NFS_STALE n = false ->
  flag (in_i_state (ni_hsfs_inode n)) I_NEW = false ->
  (forall q m, h !! q = Some m -> ni_fileid m = ni_fileid n ->
     fh_bytes (ni_fh m) <> fh_bytes (ni_fh n)) ->
  nfs_inv (<[p := n]> h).
Proof.
  intros [] Hp Hwf Hstale Hnew Hno. constructor.
  - intros q m [[<- <-]|[? Hq]]%lookup_insert_Some; eauto.
  - intros q m [[<- <-]|[? Hq]]%lookup_insert_Some; eauto.
  - intros q m [[<- <-]|[? Hq]]%lookup_insert_Some; eauto.
  - intros q1 q2 n1 n2 [[<- <-]|[? H1]]%lookup_insert_Some [[<- <-]|[? H2]]%lookup_insert_Some
      Hfid Hfh; [done| | |eauto].
    + by destruct (Hno _ _ H2).
    + by destruct (Hno _ _ H1).
Qed.

Lemma cache_ok_update `{E : Env} w p n n' :
  cache_ok w -> w_heap w !! p = Some n -> same_identity n n' ->
  cache_ok (set_heap (<[p := n']> (w_heap w)) w).
Proof.
  intros [Hok Hn] Hp (Hfid & Hfh & Hfl & Hino & Hst & Hc). split.
  - apply icache_inv_update with n; [done|done|done|done|].
    rewrite Hc. by eapply inv_count.
  - apply nfs_inv_update with n; [done..|]. rewrite Hst. by eapply ninv_new.
Qed.

(** The count never rises above 0, so a put never gives the inode up. *)
Definition put (n : nfs_inode) : nfs_inode :=
  set_ni_hsfs_inode (set_in_i_count (in_i_count (ni_hsfs_inode n) - 1) (ni_hsfs_inode n)) n.

Lemma iput_ret `{E : Env} (sop : hsfs_super_ops) w p n :
  cache_ok w -> w_heap w !! p = Some n -> - 2 ^ 31 < in_i_count (ni_hsfs_inode n) ->
  hsfs_iput sop p w = Ret tt (set_heap (<[p := put n]> (w_heap w)) w) /\
  cache_ok (set_heap (<[p := put n]> (w_heap w)) w).
Proof.
  intros [Hok Hn] Hp Hc. pose proof (inv_count _ _ Hok _ _ Hp) as Hle. split.
  - unfold hsfs_iput. rewrite valid_ptr_nonnull by (by eapply inv_ptr).
    rewrite (bind_ret _ _ _ n w) by (by apply deref_ret).
    rewrite (proj2 (Z.eqb_neq (in_i_count (ni_hsfs_inode n)) (- 2 ^ 31))) by lia.
    erewrite bind_ret by (by apply update_ret).
    by rewrite (proj2 (Z.eqb_neq (in_i_count (ni_hsfs_inode n) - 1) 0)) by lia.
  - split.
    + apply icache_inv_update with n; [done..|]. simpl. lia.
    + apply nfs_inv_update with n; [done..|]. simpl. by eapply ninv_new.
Qed.

Lemma store_fattr_identity fattr n : same_identity n (nfs_store_fattr fattr n).
Proof. done. Qed.

(** The result of [nfs_refresh_inode] on the inode itself. *)
Definition refreshed (fattr : nfs_fattr) (n : nfs_inode) : Z * nfs_inode :=
  if Z.land (fa_valid fattr) NFS_ATTR_FATTR =? 0 then (0, n)
  else if negb (ni_fileid n =? fa_fileid fattr) then (- ESTALE, n)
  else if negb (Z.land (ia_mode (in_iattr (ni_hsfs_inode n))) S_IFMT =?
                Z.land (fa_mode fattr) S_IFMT) then (- ESTALE, n)
  else (0, nfs_store_fattr fattr n).

Lemma refreshed_identity fattr n : same_identity n (refreshed fattr n).2.
Proof. unfold refreshed. repeat case_if; done. Qed.

Section NfsFacts.
Context `{E : Env}.

Lemma set_heap_same w p n : w_heap w !! p = Some n -> set_heap (<[p := n]> (w_heap w)) w = w.
Proof. intros Hp. rewrite insert_id by done. by destruct w. Qed.

Lemma refresh_ret p fattr w n :
  w_heap w !! p = Some n ->
  nfs_refresh_inode p fattr w =
    Ret (refreshed fattr n).1 (set_heap (<[p := (refreshed fattr n).2]> (w_heap w)) w).
Proof.
  intros Hp. unfold nfs_refresh_inode, refreshed. case_if; [by simpl; rewrite set_heap_same|].
  unfold nfs_update_inode. rewrite (bind_ret _ _ _ n w) by (by apply deref_ret).
  repeat (case_if; [by simpl; rewrite set_heap_same|]).
  by erewrite bind_ret by (by apply update_ret).
Qed.

Lemma refresh_cache_ok p fattr w n :
  cache_ok w -> w_heap w !! p = Some n ->
  cache_ok (set_heap (<[p := (refreshed fattr n).2]> (w_heap w)) w).
Proof. intros Hok Hp. eapply cache_ok_update; [done|done|apply refreshed_identity]. Qed.

(** The callbacks that [hsi_nfs_fhget] passes to the cache. *)
Lemma find_actor_spec fh fattr n :
  fh_wf (ni_fh n) -> fh_wf fh -> 0 < in_ino (ni_hsfs_inode n) -> NFS_STALE n = false ->
  nfs_find_actor fh fattr n = true <->
    ni_fileid n = fa_fileid fattr /\ fh_bytes (ni_fh n) = fh_bytes fh.
Proof.
  intros Hn Hfh Hino Hst. unfold nfs_find_actor, is_bad_inode. rewrite Hst.
  rewrite <- (compare_fh_spec (ni_fh n) fh) by done.
  destruct (Z.eqb_spec (ni_fileid n) (fa_fileid fattr)), (nfs_compare_fh (ni_fh n) fh),
    (Z.eqb_spec (in_ino (ni_hsfs_inode n)) 0); simpl; try lia; split; try done; intros []; done.
Qed.

Definition init_locked (fh : nfs_fh) (fattr : nfs_fattr) (n : nfs_inode) : nfs_inode :=
  set_ni_fh (nfs_copy_fh (ni_fh n) fh) (set_nfs_fileid (fa_fileid fattr) n).

Lemma init_locked_sets fh fattr : sets (nfs_init_locked fh fattr) (init_locked fh fattr).
Proof.
  intros p w n Hp. unfold nfs_init_locked.
  erewrite bind_ret by (by apply update_ret).
  erewrite bind_ret by (apply update_ret, lookup_insert_eq).
  unfold ret. simpl. by rewrite insert_insert_eq.
Qed.

Lemma find_actor_fileid fh fattr n :
  nfs_find_actor fh fattr n = true -> ni_fileid n = fa_fileid fattr.
Proof. unfold nfs_find_actor. case_if; [done|]. by intros _. Qed.

End NfsFacts.

(** ** [hsi_nfs_fhget] *)

(** The inode as it is published: numbered [c], filled in and unlocked. *)
Definition new_inode (fh : nfs_fh) (fattr : nfs_fattr) (s : hsfs_super) (c : Z) : nfs_inode :=
  let m := init_locked fh fattr (fresh_inode s) in
  nfs_store_fattr fattr
    (set_ni_hsfs_inode (set_in_i_state 0 (set_in_ino c (ni_hsfs_inode m))) m).

Definition is_handle (fh : nfs_fh) (fattr : nfs_fattr) (n : nfs_inode) : Prop :=
  ni_fileid n = fa_fileid fattr /\ fh_bytes (ni_fh n) = fh_bytes fh.

(** The four outcomes. *)
Inductive fhget_result `{E : Env} (sop : hsfs_super_ops) (fh : nfs_fh) (fattr : nfs_fattr) (w : world) :
    Z -> world -> Prop :=
  | fhget_noent :
      Z.land (fa_valid fattr) NFS_ATTR_FATTR = 0 \/ fa_nlink fattr = 0 ->
      fhget_result sop fh fattr w (bad_hsfs_inode + ENOENT) w
  | fhget_nomem e' :
      sop_alloc_inode sop w = Ret NULL (set_env e' w) ->
      (forall q m, w_heap w !! q = Some m -> ~ is_handle fh fattr m) ->
      fhget_result sop fh fattr w (bad_hsfs_inode + ENOMEM) (set_env e' w)
  | fhget_found p n :
      w_heap w !! p = Some n -> is_handle fh fattr n ->
      fhget_result sop fh fattr w p (set_heap (<[p := (refreshed fattr n).2]> (w_heap w)) w)
  | fhget_new p c w' :
      (forall q m, w_heap w !! q = Some m -> ~ is_handle fh fattr m) ->
      w_heap w !! p = None -> valid_ptr p ->
      picked (w_heap w) (sb_curr_id (w_sb w)) c ->
      w_heap w' = <[p := new_inode fh fattr (w_sb w) c]> (w_heap w) ->
      icache_ok w' -> cache_frame w w' ->
      fhget_result sop fh fattr w p w'.

Lemma new_inode_handle fh fattr s c :
  fh_wf fh -> is_handle fh fattr (new_inode fh fattr s c) /\ fh_wf (ni_fh (new_inode fh fattr s c)).
Proof.
  intros Hfh. destruct (copy_fh_wf nfs_fh_zero fh fh_zero_wf Hfh) as [Hwf Hb].
  unfold is_handle. split; [|done]. by split.
Qed.

Section Fhget.
Context `{E : Env} (sop : hsfs_super_ops) `{!SopLaws sop}.
Hypothesis Hbad : bad_inode_placed.

Lemma err_ptr_ret e w :
  0 <= e < MAX_ERRNO -> err_ptr (- e) w = Ret (bad_hsfs_inode + e) w.
Proof. intros He. unfold err_ptr. by rewrite ERR_PTR_neg. Qed.

(** Finding an inode, or creating one that the branch for new inodes fills. *)
Lemma fhget_iget5 fh fattr w :
  cache_ok w -> fh_wf fh ->
  exists p w1,
    hsfs_iget5_locked sop (fa_fileid fattr) (nfs_find_actor fh fattr) (nfs_init_locked fh fattr) w
      = Ret p w1 /\
    ((exists n, w1 = w /\ w_heap w !! p = Some n /\ is_handle fh fattr n) \/
     (forall q m, w_heap w !! q = Some m -> ~ is_handle fh fattr m) /\
     ((p = NULL /\ exists e', w1 = set_env e' w /\ sop_alloc_inode sop w = Ret NULL (set_env e' w)) \/
      exists c n, w_heap w !! p = None /\ valid_ptr p /\ picked (w_heap w) (sb_curr_id (w_sb w)) c /\
        n = (let m := init_locked fh fattr (fresh_inode (w_sb w)) in
             set_ni_hsfs_inode (set_in_i_state I_NEW (set_in_ino c (ni_hsfs_inode m))) m) /\
        w_heap w1 = <[p := n]> (w_heap w) /\ icache_ok w1 /\ cache_frame w w1)).
Proof.
  intros [Hok Hn] Hfh.
  assert (Hfind : forall q m, w_heap w !! q = Some m ->
            nfs_find_actor fh fattr m = true <-> is_handle fh fattr m).
  { intros q m Hq. apply find_actor_spec; [by eapply ninv_fh|done| |by eapply ninv_stale].
    pose proof (inv_id_range _ _ Hok _ _ Hq). lia. }
  destruct (fh_ifind_spec (w_heap w) w Hok (reflexivity _) (fa_fileid fattr)
              (nfs_find_actor fh fattr) true (find_actor_fileid fh fattr)) as (p & Hp & Hcase).
  unfold hsfs_iget5_locked. rewrite (bind_ret _ _ _ _ _ Hp).
  destruct Hcase as [[-> Hno]|(n & Hpn & Ht)].
  - destruct (get_new_inode_spec sop (fa_fileid fattr) (nfs_init_locked fh fattr)
      (init_locked fh fattr) w Hok (init_locked_sets fh fattr))
      as (e' & p & w1 & Hg & Hc); [done|].
    exists p, w1. split; [done|]. right. split.
    { intros q m Hq Hh. apply (Hfind q m Hq) in Hh. rewrite (Hno q m Hq) in Hh. done. }
    destruct Hc as [(-> & -> & Ha)|(n & c & ? & ? & ? & -> & ? & ? & ?)]; [left; eauto|right].
    exists c. eauto 10.
  - exists p, w. rewrite valid_ptr_nonnull by (by eapply inv_ptr). split; [done|].
    left. exists n. split_and!; [done..|]. by apply (Hfind p n).
Qed.

Lemma set_heap_twice h h' w : set_heap h (set_heap h' w) = set_heap h w.
Proof. done. Qed.

Lemma icache_ok_set_heap w p n n' :
  icache_ok w -> w_heap w !! p = Some n ->
  in_ino (ni_hsfs_inode n') = in_ino (ni_hsfs_inode n) -> ni_fileid n' = ni_fileid n ->
  in_i_count (ni_hsfs_inode n') = in_i_count (ni_hsfs_inode n) ->
  icache_ok (set_heap (<[p := n']> (w_heap w)) w).
Proof.
  intros Hok Hp Hi Hf Hc. apply icache_inv_update with n; [done..|].
  rewrite Hc. by eapply inv_count.
Qed.

Lemma fhget_spec fh fattr w :
  cache_ok w -> fh_wf fh ->
  exists p w', hsi_nfs_fhget sop fh fattr w = Ret p w' /\ fhget_result sop fh fattr w p w'.
Proof.
  intros Hc Hfh. unfold hsi_nfs_fhget.
  rewrite (bind_ret _ _ _ _ _ (err_ptr_ret ENOENT w ltac:(done))).
  case_if; [do 2 eexists; split; [done|]; constructor; auto|].
  case_if; [do 2 eexists; split; [done|]; constructor; auto|].
  destruct (fhget_iget5 fh fattr w Hc Hfh) as (p & w1 & Hg & Hcase).
  rewrite (bind_ret _ _ _ _ _ Hg). destruct Hcase as [(n & -> & Hp & Hh)|[Hno [(-> & e' & -> & Ha)|
    (c & n & Hp & Hv & Hpk & Hn & Hw1 & Hok1 & Hf1)]]].
  - rewrite valid_ptr_nonnull by (by eapply inv_ptr; [apply Hc|]).
    rewrite (bind_ret _ _ _ n w) by (by apply deref_ret).
    rewrite (ninv_new _ (proj2 Hc) _ _ Hp). do 2 eexists. split.
    { erewrite bind_ret by (by erewrite bind_ret by (by apply refresh_ret)). done. }
    by apply fhget_found.
  - do 2 eexists. split; [by apply err_ptr_ret|]. by apply fhget_nomem.
  - rewrite valid_ptr_nonnull by done.
    assert (Hp1 : w_heap w1 !! p = Some n) by (rewrite Hw1; apply lookup_insert_eq).
    rewrite (bind_ret _ _ _ n w1) by (by apply deref_ret).
    assert (flag (in_i_state (ni_hsfs_inode n)) I_NEW = true) as -> by (by subst n).
    do 2 eexists. split.
    { erewrite bind_ret.
      2:{ erewrite bind_ret by (by apply update_ret).
          erewrite bind_ret by (apply update_ret, lookup_insert_eq).
          unfold hsfs_unlock_new_inode. apply update_ret, lookup_insert_eq. }
      done. }
    simpl. rewrite !insert_insert_eq, !set_heap_twice.
    apply (fhget_new _ _ _ _ p c); [done..| | |].
    + subst n. simpl. by rewrite Hw1, insert_insert_eq.
    + apply icache_ok_set_heap with n; [done..| |done]. by subst n.
    + done.
Qed.

Lemma fhget_result_ok fh fattr w p w' :
  fh_wf fh -> cache_ok w -> fhget_result sop fh fattr w p w' -> cache_ok w'.
Proof.
  intros Hfh Hc [Hno|e' Ha Hno|q n Hq Hh|q c w1 Hno Hq Hv Hpk Hw1 Hok Hf]; [done|by split; apply Hc| |].
  - by apply refresh_cache_ok.
  - split; [done|]. rewrite Hw1. destruct (new_inode_handle fh fattr (w_sb w) c Hfh) as [[Hi Hb] Hwf].
    apply nfs_inv_add; [apply Hc|done|done|done|done|].
    intros q' m Hm Hfid Hbytes. destruct (Hno q' m Hm). split; congruence.
Qed.
End Fhget.
