(* ===== verification/Sample.v ===== *)
(** * A concrete environment

    An instance of [Env] on which the theorems about handlers are evaluated: a
    server that exports a directory (handle 1, file id 100) with one regular
    file "f" (handle 2, file id 200), and an allocator.  A call fails with the
    next of the scripted errors, if there is one; a read or a write moves at
    most [se_max] bytes. *)

From S2P Require Import Prelude Bitops Hash Proto World Icache IcacheFacts Attr Rpc NfsInode.

Record sample_state := {
  se_file : list Z;       (* the contents of the file *)
  se_max : Z;             (* the most bytes a call moves *)
  se_fail : list Z;       (* errors of the calls to come *)
  se_attrs : bool;        (* whether replies carry attributes *)
  se_clnt : Z;            (* the next client handle *)
  se_mem : bool }.        (* whether memory is left *)

Definition sample_time : nfstime3 := {| seconds := 1000; nseconds := 5 |}.

Definition sample_fattr (fh : nfs_fh3) (s : sample_state) : fattr3 :=
  let dir := bool_decide (fh = [1]) in
  {| f3_type := if dir then 2 else 1; f3_mode := if dir then 0x1ed else 0x1a4;
     f3_nlink := if dir then 2 else 1; f3_uid := 7; f3_gid := 8;
     f3_size := if dir then 4096 else Z.of_nat (length (se_file s));
     f3_used := if dir then 4096 else Z.of_nat (length (se_file s));
     f3_rdev := {| major3 := 0; minor3 := 0 |}; f3_fsid := 9;
     f3_fileid := if dir then 100 else 200;
     f3_atime := sample_time; f3_mtime := sample_time; f3_ctime := sample_time |}.

Definition sample_post (fh : nfs_fh3) (s : sample_state) : post_op_attr :=
  if se_attrs s then Some (sample_fattr fh s) else None.

Definition sample_wcc (fh : nfs_fh3) (s : sample_state) : wcc_data :=
  {| before := None; after := sample_post fh s |}.

Definition set_file (f : list Z) (s : sample_state) : sample_state :=
  {| se_file := f; se_max := se_max s; se_fail := se_fail s; se_attrs := se_attrs s;
     se_clnt := se_clnt s; se_mem := se_mem s |}.

Definition set_fail (f : list Z) (s : sample_state) : sample_state :=
  {| se_file := se_file s; se_max := se_max s; se_fail := f; se_attrs := se_attrs s;
     se_clnt := se_clnt s; se_mem := se_mem s |}.

Definition next_clnt (s : sample_state) : sample_state :=
  {| se_file := se_file s; se_max := se_max s; se_fail := se_fail s; se_attrs := se_attrs s;
     se_clnt := se_clnt s + 1; se_mem := se_mem s |}.

Definition sample_create (s : sample_state) : nfsres diropres3ok wcc_data :=
  RES_OK {| do_obj := Some [2]; do_obj_attributes := sample_post [2] s;
            do_dir_wcc := sample_wcc [1] s |}.

Definition sample_read (a : read3args) (s : sample_state) : read3resok :=
  let d := take (Z.to_nat (Z.min (rd_count a) (se_max s)))
             (drop (Z.to_nat (rd_offset a)) (se_file s)) in
  {| rdr_file_attributes := sample_post (rd_file a) s;
     rdr_count := Z.of_nat (length d);
     rdr_eof := Z.of_nat (length (se_file s)) <=? rd_offset a + Z.of_nat (length d);
     rdr_data := d |}.

Definition sample_write (a : write3args) (s : sample_state) : write3resok * sample_state :=
  let d := take (Z.to_nat (Z.min (wr_count a) (se_max s))) (wr_data a) in
  let off := Z.to_nat (wr_offset a) in
  ({| wrr_file_wcc := sample_wcc (wr_file a) s; wrr_count := Z.of_nat (length d);
      wrr_committed := 2; wrr_verf := 0 |},
   set_file (splice off d (se_file s)) s).

Definition sample_answer {R} (p : nfsproc R) : sample_state -> R * sample_state :=
  match p in nfsproc R return sample_state -> R * sample_state with
  | NULLPROC => fun s => (tt, s)
  | NFSPROC3_GETATTR fh => fun s => (RES_OK (sample_fattr fh s), s)
  | NFSPROC3_SETATTR a => fun s => (RES_OK (sample_wcc (se_object a) s), s)
  | NFSPROC3_LOOKUP a => fun s =>
      (if bool_decide (da_name a = "f")
       then RES_OK {| lk_object := [2]; lk_obj_attributes := sample_post [2] s;
                      lk_dir_attributes := sample_post [1] s |}
       else RES_FAIL NFS3ERR_NOENT (sample_post [1] s), s)
  | NFSPROC3_ACCESS a => fun s =>
      (RES_OK {| acr_obj_attributes := sample_post (ac_object a) s; acr_access := ac_access a |}, s)
  | NFSPROC3_READLINK fh => fun s =>
      (RES_OK {| rl_symlink_attributes := sample_post fh s; rl_data := "f" |}, s)
  | NFSPROC3_READ a => fun s => (RES_OK (sample_read a s), s)
  | NFSPROC3_WRITE a => fun s => let '(r, s) := sample_write a s in (RES_OK r, s)
  | NFSPROC3_CREATE _ => fun s => (sample_create s, s)
  | NFSPROC3_MKDIR _ => fun s => (sample_create s, s)
  | NFSPROC3_SYMLINK _ => fun s => (sample_create s, s)
  | NFSPROC3_MKNOD _ => fun s => (sample_create s, s)
  | NFSPROC3_REMOVE a => fun s => (RES_OK (sample_wcc (da_dir a) s), s)
  | NFSPROC3_RMDIR a => fun s => (RES_FAIL NFS3ERR_NOTEMPTY (sample_wcc (da_dir a) s), s)
  | NFSPROC3_RENAME a => fun s =>
      (RES_OK {| rn_fromdir_wcc := sample_wcc (da_dir (rn_from a)) s;
                 rn_todir_wcc := sample_wcc (da_dir (rn_to a)) s |}, s)
  | NFSPROC3_LINK a => fun s =>
      (RES_OK {| ln_file_attributes := sample_post (ln_file a) s;
                 ln_linkdir_wcc := sample_wcc [1] s |}, s)
  | NFSPROC3_READDIR a => fun s =>
      (RES_OK {| rr_dir_attributes := sample_post (ra_dir a) s; rr_cookieverf := 3;
                 rr_entries := [{| e3_fileid := 200; e3_name := "f"; e3_cookie := 1 |}];
                 rr_eof := true |}, s)
  | NFSPROC3_READDIRPLUS a => fun s =>
      (RES_OK {| rpr_dir_attributes := sample_post (rp_dir a) s; rpr_cookieverf := 3;
                 rpr_entries := [{| ep_fileid := 200; ep_name := "f"; ep_cookie := 1;
                                    ep_name_attributes := sample_post [2] s;
                                    ep_name_handle := Some [2] |}];
                 rpr_eof := true |}, s)
  | NFSPROC3_FSSTAT fh => fun s =>
      (RES_OK {| fs_obj_attributes := sample_post fh s; fs_tbytes := 2 ^ 40; fs_fbytes := 2 ^ 39;
                 fs_abytes := 2 ^ 38; fs_tfiles := 1000; fs_ffiles := 500; fs_afiles := 400;
                 fs_invarsec := 0 |}, s)
  | NFSPROC3_FSINFO fh => fun s =>
      (RES_OK {| fi_obj_attributes := sample_post fh s; fi_rtmax := 65536; fi_rtpref := 65536;
                 fi_rtmult := 4096; fi_wtmax := 65536; fi_wtpref := 65536; fi_wtmult := 4096;
                 fi_dtpref := 4096; fi_maxfilesize := 2 ^ 50;
                 fi_time_delta := {| seconds := 0; nseconds := 1 |}; fi_properties := 0x1b |}, s)
  | NFSPROC3_PATHCONF fh => fun s =>
      (RES_OK {| pc_obj_attributes := sample_post fh s; pc_link_max := 32; pc_name_max := 255;
                 pc_no_trunc := true; pc_chown_restricted := true; pc_case_insensitive := false;
                 pc_case_preserving := true |}, s)
  | ACLPROC3_GETACL a => fun s =>
      (RES_OK {| gar_attr := sample_post (ga_fh a) s;
                 gar_acl := {| sec_mask := ga_mask a; sec_aclcnt := 1;
                               sec_aclent := [{| ae_type := 1; ae_id := 7; ae_perm := 6 |}];
                               sec_dfaclcnt := 0; sec_dfaclent := [] |} |}, s)
  | ACLPROC3_SETACL a => fun s => (RES_OK (sample_post (sx_fh a) s), s)
  end.

Definition sample_call {R} (clnt : Z) (p : nfsproc R) (tout : Z * Z) (s : sample_state) :
    clnt_result R * sample_state :=
  match se_fail s with
  | e :: l => (RPC_FAILED e, set_fail l s)
  | [] => let '(r, s) := sample_answer p s in (RPC_SUCCESS r, s)
  end.

Definition sample_malloc_inode (h : gmap Z nfs_inode) (s : sample_state) : option Z * sample_state :=
  let p := 0x10000 + 0x200 * Z.of_nat (size h) in
  if se_mem s && bool_decide (h !! p = None) && (p <? 2 ^ 63) then (Some p, s) else (None, s).

(** A handle above all that are in use. *)
Definition sample_clnt (l : gset Z) (s : sample_state) : Z := Z.max (se_clnt s) (1 + foldr Z.max 0 (elements l)).

Lemma sample_clnt_new l s : sample_clnt l s <> NULL /\ sample_clnt l s ∉ l.
Proof.
  assert (Hpos : forall xs, 0 <= foldr Z.max 0 xs) by (induction xs; simpl; lia).
  assert (Hmax : forall x xs, x ∈ xs -> x <= foldr Z.max 0 xs).
  { intros x xs. induction 1; simpl; lia. }
  unfold sample_clnt. split; [unfold NULL; specialize (Hpos (elements l)); lia|].
  intros Hin. apply elem_of_elements, Hmax in Hin. lia.
Qed.

#[export] Instance SampleEnv : Env := {
  env := sample_state;
  clnt_call := @sample_call;
  clnt_create := fun l _ _ _ s => (Some (sample_clnt l s), next_clnt s);
  authunix_create := fun s => (true, s);
  malloc_inode := sample_malloc_inode;
  malloc := fun _ s => (se_mem s, s);
  direntry_size := fun s => (24 + Z.of_nat (String.length s) + 7) / 8 * 8;
  direntry_plus_size := fun s => (152 + Z.of_nat (String.length s) + 7) / 8 * 8;
  page_size := 4096;
  bad_hsfs_inode := 0x8000 }.

Lemma sample_bad_placed : bad_inode_placed.
Proof. by split. Qed.

#[export] Instance sample_malloc_laws : MallocLaws.
Proof.
  constructor. intros h e p e'. simpl. unfold sample_malloc_inode.
  destruct (_ && _) eqn:Hc; [|done]. intros [= <- _]. apply andb_true_iff in Hc as [Hc Hlt].
  apply andb_true_iff in Hc as [_ Hc]. apply bool_decide_eq_true in Hc. to_prop. split; [done|].
  unfold valid_ptr, MAX_ERRNO. simpl. lia.
Qed.

#[export] Instance sample_clnt_laws : ClntLaws.
Proof. constructor. intros l addr s r e c e' [= <- _]. apply sample_clnt_new. Qed.

Definition sample0 : sample_state :=
  {| se_file := [10; 11; 12; 13; 14; 15; 16; 17; 18; 19]; se_max := 4; se_fail := [];
     se_attrs := true; se_clnt := 2; se_mem := true |}.

(** An empty cache on a live client. *)
Definition sample_sb : hsfs_super :=
  set_sb_fh_table (__hash_init HSFS_HASH_SIZE) (set_sb_id_table (__hash_init HSFS_HASH_SIZE)
    (set_sb_clntp 1 (set_sb_timeo 600 (set_sb_rsize 4 (set_sb_wsize 4
      (set_sb_bsize_bits 12 super_zero)))))).

Definition sample_world : world :=
  mk_world ∅ sample_sb {[1]} backup_zero sample0 [].

Lemma sample_world_ok : cache_ok sample_world.
Proof.
  split.
  - constructor; simpl; rewrite ?hash_init_nodes; try done; try apply NoDup_nil_2.
    + intros p. split; [by intros ?%not_elem_of_nil|by intros []].
    + intros p. split; [by intros ?%not_elem_of_nil|by intros []].
  - by constructor.
Qed.

(** The world after a step that returns. *)
Definition after_run {W A} (m : M W A) (w : W) : W :=
  match m w with Ret _ w' => w' | _ => w end.

Definition result_of {W A} (m : M W A) (w : W) : option A :=
  match m w with Ret a _ => Some a | _ => None end.

Lemma after_run_ret {W A} (m : M W A) w a :
  result_of m w = Some a -> m w = Ret a (after_run m w).
Proof. unfold result_of, after_run. destruct (m w); congruence. Qed.

Definition sample_fh (h : nfs_fh3) : nfs_fh :=
  match nfs_copy_fh3 nfs_fh_zero h with Some f => f | None => nfs_fh_zero end.

Definition sample_fa (h : nfs_fh3) : nfs_fattr :=
  hsi_nfs3_fattr2fattr (sample_fattr h sample0) fattr_local.

(** The directory is inode 1, at 0x10000; then the file is inode 2, at 0x10200. *)
Definition sample_world1 : world :=
  after_run (hsi_nfs_fhget hsi_nfs_sop (sample_fh [1]) (sample_fa [1])) sample_world.
Definition sample_world2 : world :=
  after_run (hsi_nfs_fhget hsi_nfs_sop (sample_fh [2]) (sample_fa [2])) sample_world1.

Lemma sample_fh_wf h : (Z.of_nat (length h) <=? 128) = true -> fh_wf (sample_fh h).
Proof.
  intros Hl. unfold sample_fh, nfs_copy_fh3. change NFS_MAXFHSIZE with 128. rewrite Hl.
  eapply copy_fh3_wf; [apply fh_zero_wf|]. unfold nfs_copy_fh3. change NFS_MAXFHSIZE with 128.
  by rewrite Hl.
Qed.

Lemma sample_fhget_ok h w :
  (Z.of_nat (length h) <=? 128) = true -> cache_ok w ->
  cache_ok (after_run (hsi_nfs_fhget hsi_nfs_sop (sample_fh h) (sample_fa h)) w).
Proof.
  intros Hl Hok.
  destruct (fhget_spec hsi_nfs_sop sample_bad_placed (sample_fh h) (sample_fa h) w Hok
    (sample_fh_wf h Hl)) as (p & w' & Hf & Hres).
  unfold after_run. rewrite Hf. by eapply fhget_result_ok; [apply sample_fh_wf| |].
Qed.

Lemma sample_world1_ok : cache_ok sample_world1.
Proof. apply sample_fhget_ok; [done|apply sample_world_ok]. Qed.

Lemma sample_world2_ok : cache_ok sample_world2.
Proof.
  apply sample_fhget_ok; [done|apply sample_world1_ok].
Qed.

Lemma sample_world2_run :
  hsi_nfs_fhget hsi_nfs_sop (sample_fh [2]) (sample_fa [2]) sample_world1 =
    Ret 0x10200 sample_world2.
Proof. unfold sample_world2. apply after_run_ret. by vm_compute. Qed.

(** Conversion is not to evaluate these worlds; [vm_compute] does where asked. *)
#[global] Opaque sample_world1 sample_world2.
