(* ===== verification/CacheSpec.v ===== *)
(** * What the inode cache, the NFS inodes and the RPC layer guarantee

    The theorems of the lower half of the client, each with an instance on the
    sample environment. *)

From S2P Require Import Prelude Bitops Hash Proto World Icache IcacheFacts Attr Rpc NfsInode Sample.

Section CacheSpec.
Context `{E : Env}.

(** C15: On a consistent cache, [hsfs_ilookup] (a walk of one of the 1024 hash
    buckets) returns exactly what a search of all inodes by number returns, and
    changes nothing. *)
Theorem ilookup_is_search (w : world) (ino : Z) :
  icache_ok w -> hsfs_ilookup ino w = Ret (find_ino (w_heap w) ino) w.
Proof.
  intros Hok. destruct (ilookup_spec w ino Hok) as (p & Hl & Hp). rewrite Hl. f_equal.
  destruct Hp as [[-> Hno]|(n & Hn & Hk)], (find_ino_spec (w_heap w) ino) as [[-> Hno']|(m & Hm & Hk')].
  - done.
  - by destruct (Hno _ _ Hm).
  - by destruct (Hno' _ _ Hn).
  - eapply inv_id_inj; [apply Hok|done|done|]. congruence.
Qed.

(** C14: [hsi_nfs_fhget] on a consistent cache always returns and keeps the
    cache consistent (both tables link exactly the published inodes, numbers
    are distinct and not 0, no two inodes have the same file id and handle),
    with one of four results: ENOENT without usable attributes, ENOMEM, the
    inode of this handle refreshed, or a new inode of this handle filled in. *)
Theorem fhget_correct (sop : hsfs_super_ops) `{!SopLaws sop} fh fattr (w : world) :
  bad_inode_placed -> cache_ok w -> fh_wf fh ->
  exists p w', hsi_nfs_fhget sop fh fattr w = Ret p w' /\
    cache_ok w' /\ fhget_result sop fh fattr w p w'.
Proof.
  intros Hb Hok Hfh. destruct (fhget_spec sop Hb fh fattr w Hok Hfh) as (p & w' & Hf & Hres).
  exists p, w'. split_and!; [done| |done]. by eapply fhget_result_ok.
Qed.

(** Looking a handle up again gives the same inode: after [hsi_nfs_fhget]
    returned an inode, a second call with the same handle and file id (and any
    usable attributes) returns the same pointer and allocates nothing. *)
Theorem fhget_same_handle (sop : hsfs_super_ops) `{!SopLaws sop} fh fattr fattr' (w w' : world) p :
  bad_inode_placed -> cache_ok w -> fh_wf fh ->
  hsi_nfs_fhget sop fh fattr w = Ret p w' -> is_Some (w_heap w' !! p) ->
  fa_fileid fattr' = fa_fileid fattr ->
  Z.land (fa_valid fattr') NFS_ATTR_FATTR <> 0 -> fa_nlink fattr' <> 0 ->
  exists w'', hsi_nfs_fhget sop fh fattr' w' = Ret p w'' /\
    dom (w_heap w'') = dom (w_heap w') /\ w_env w'' = w_env w'.
Proof.
  intros Hb Hok Hfh Hf [n0 Hn0] Hfid Hval Hnl.
  destruct (fhget_spec sop Hb fh fattr w Hok Hfh) as (p1 & w1 & Hf1 & Hres).
  rewrite Hf in Hf1. injection Hf1 as <- <-.
  pose proof (fhget_result_ok _ _ _ _ _ _ Hfh Hok Hres) as Hok'.
  assert (Hhd : is_handle fh fattr' n0).
  { unfold is_handle. rewrite Hfid.
    inversion Hres as [? Hp Hw|? ? ? Hp Hw|? n Hn Hh Hp Hw|? c ? Hno Hnone Hv Hpk Hw]; subst.
    - pose proof (inv_ptr _ _ (proj1 Hok') _ _ Hn0) as [_ Hv]. unfold MAX_ERRNO, ENOENT in Hv. lia.
    - pose proof (inv_ptr _ _ (proj1 Hok') _ _ Hn0) as [_ Hv]. unfold MAX_ERRNO, ENOMEM in Hv. lia.
    - simpl in Hn0. rewrite lookup_insert_eq in Hn0. injection Hn0 as <-.
      destruct (refreshed_identity fattr n) as (-> & -> & _). done.
    - rewrite Hw, lookup_insert_eq in Hn0. injection Hn0 as <-. by apply new_inode_handle. }
  destruct (fhget_spec sop Hb fh fattr' w' Hok' Hfh) as (p2 & w2 & Hf2 & Hres2).
  exists w2. rewrite Hf2. inversion Hres2 as [? Hp Hw|? ? Hno Hp Hw|? n Hn Hh Hp Hw|? c ? Hno Hnone Hv Hpk Hw]; subst.
  - naive_solver.
  - by destruct (Hno _ _ Hn0).
  - assert (p2 = p) as ->.
    { destruct Hh, Hhd. eapply ninv_inj; [apply Hok'|done|done|congruence|congruence]. }
    split_and!; [done| |done]. simpl. rewrite dom_insert_L.
    assert (p ∈ dom (w_heap w')) by (by apply elem_of_dom_2 in Hn). set_solver.
  - by destruct (Hno _ _ Hn0).
Qed.

(** C26: Numbering a new inode terminates, within one round more than there are
    inodes, although the loop of [__inode_add_to_lists] has no bound; the number
    is not 0 and no inode has it. *)
Theorem new_number_free key p (w : world) n h :
  icache_inv h (w_sb w) -> h ⊆ w_heap w -> h !! p = None -> w_heap w !! p = Some n ->
  exists w' n', __inode_add_to_lists key p w = Ret tt w' /\ w_heap w' !! p = Some n' /\
    0 < in_ino (ni_hsfs_inode n') < 2 ^ 64 /\ id_free h (in_ino (ni_hsfs_inode n')).
Proof.
  intros Hinv Hsub Hph Hp.
  destruct (add_to_lists_spec key p w h n Hinv Hsub Hph Hp) as (c & s' & Hs & Hadd & Hc & [Hfree _]).
  eexists _, _. split; [exact Hadd|]. split; [apply lookup_insert_eq|]. done.
Qed.

(** [hsfs_iput] of a published inode never frees it (nothing raises
    [i_count] above 0) and keeps the cache consistent, so no table links freed
    memory; the count only has to stay above the least [int]. *)
Theorem iput_keeps_inode (sop : hsfs_super_ops) p (w : world) n :
  cache_ok w -> w_heap w !! p = Some n -> - 2 ^ 31 < in_i_count (ni_hsfs_inode n) ->
  exists w' n', hsfs_iput sop p w = Ret tt w' /\ cache_ok w' /\ w_heap w' !! p = Some n' /\
    in_i_count (ni_hsfs_inode n') = in_i_count (ni_hsfs_inode n) - 1.
Proof.
  intros Hok Hp Hc. destruct (iput_ret sop w p n Hok Hp Hc) as [Hput Hok'].
  do 2 eexists. split; [exact Hput|]. split; [done|]. split; [apply lookup_insert_eq|done].
Qed.

(** [nfs_refresh_inode] either rejects the attributes (another file id or
    another file type: -ESTALE, the inode unchanged) or stores all of them and
    keeps number, handle and file id; the times, owner, size and link count a
    later stat reports are then those of the server. *)
Theorem refresh_stores p fattr (w : world) n :
  cache_ok w -> w_heap w !! p = Some n -> Z.land (fa_valid fattr) NFS_ATTR_FATTR <> 0 ->
  exists st w' n', nfs_refresh_inode p fattr w = Ret st w' /\ cache_ok w' /\
    w_heap w' !! p = Some n' /\ same_identity n n' /\
    ((st = - ESTALE /\ n' = n /\
      (ni_fileid n <> fa_fileid fattr \/
       Z.land (ia_mode (in_iattr (ni_hsfs_inode n))) S_IFMT <> Z.land (fa_mode fattr) S_IFMT)) \/
     (st = 0 /\
      let s := hsfs_generic_fillattr (ni_hsfs_inode n') in
      st_mode s = fa_mode fattr /\ st_nlink s = fa_nlink fattr /\ st_uid s = fa_uid fattr /\
      st_gid s = fa_gid fattr /\ st_size s = nfs_size_to_off_t (fa_size fattr) /\
      st_atim s = fa_atime fattr /\ st_mtim s = fa_mtime fattr /\ st_ctim s = fa_ctime fattr)).
Proof.
  intros Hok Hp Hv. do 3 eexists. split; [by apply refresh_ret|].
  split; [by apply refresh_cache_ok|]. split; [apply lookup_insert_eq|].
  split; [apply refreshed_identity|]. unfold refreshed.
  rewrite (proj2 (Z.eqb_neq _ _)) by done.
  case_if; [left; auto|]. case_if; [left; auto|]. by right.
Qed.

(** An error pointer is never recognised: whatever negative errno
    [ERR_PTR] encodes, [IS_ERR] of the result is false, although [PTR_ERR] gives
    the errno's absolute value back. *)
Theorem is_err_never e p :
  bad_inode_placed -> 0 < e < MAX_ERRNO -> ERR_PTR (- e) = Some p ->
  IS_ERR p = false /\ IS_ERR_OR_NULL p = false /\ PTR_ERR p = e.
Proof.
  intros Hb He Hp. rewrite ERR_PTR_neg in Hp by (done || lia). injection Hp as <-.
  unfold bad_inode_placed, MAX_ERRNO in *. split_and!.
  - apply IS_ERR_false. unfold MAX_ERRNO. lia.
  - unfold IS_ERR_OR_NULL. rewrite (proj2 (Z.eqb_neq _ _)) by lia.
    apply (IS_ERR_false (bad_hsfs_inode + e)). unfold MAX_ERRNO. lia.
  - unfold PTR_ERR. replace (bad_hsfs_inode + e - bad_hsfs_inode) with e by lia.
    apply s64_small. lia.
Qed.
End CacheSpec.

(** C16: A call on the main client, live, always returns (at most five retries,
    reconnecting when the connection is lost); it returns 0 exactly when there
    is a result; it changes nothing but the environment and the client handles;
    and after a success the client of the superblock is live. *)
Theorem clnt_call_contract `{E : Env} `{!ClntLaws} {R} (p : nfsproc R) (w : world) :
  sb_clntp (w_sb w) ∈ w_clnts w ->
  exists err o w', hsi_nfs3_clnt_call (sb_clntp (w_sb w)) p w = Ret (err, o) w' /\
    (err = 0 <-> is_Some o) /\ rpc_frame w w' /\
    (err = 0 -> sb_clntp (w_sb w') ∈ w_clnts w').
Proof.
  intros Hl. destruct (nfs3_clnt_call_total p w Hl) as (err & o & w' & Hc).
  exists err, o, w'. split; [done|].
  apply nfs3_clnt_call_ret in Hc as (Hf & He & Hlive). split_and!; [done..|]. auto.
Qed.

(** ** Instances *)

Lemma ilookup_is_search_witness : hsfs_ilookup 2 sample_world2 = Ret 0x10200 sample_world2.
Proof.
  rewrite (ilookup_is_search sample_world2 2); [|apply sample_world2_ok].
  assert (find_ino (w_heap sample_world2) 2 = 0x10200) as -> by (by vm_compute). done.
Defined.

Lemma fhget_correct_witness :
  exists p w', hsi_nfs_fhget hsi_nfs_sop (sample_fh [3]) (sample_fa [2]) sample_world2 = Ret p w' /\
    cache_ok w' /\ fhget_result hsi_nfs_sop (sample_fh [3]) (sample_fa [2]) sample_world2 p w'.
Proof.
  apply (fhget_correct hsi_nfs_sop (sample_fh [3]) (sample_fa [2]) sample_world2).
  - apply sample_bad_placed.
  - apply sample_world2_ok.
  - by apply sample_fh_wf.
Defined.

Lemma fhget_same_handle_witness :
  exists w'', hsi_nfs_fhget hsi_nfs_sop (sample_fh [2]) (sample_fa [2]) sample_world2
      = Ret 0x10200 w'' /\
    dom (w_heap w'') = dom (w_heap sample_world2) /\ w_env w'' = w_env sample_world2.
Proof.
  apply (fhget_same_handle hsi_nfs_sop (sample_fh [2]) (sample_fa [2]) (sample_fa [2])
           sample_world1 sample_world2 0x10200).
  - apply sample_bad_placed.
  - apply sample_world1_ok.
  - by apply sample_fh_wf.
  - apply sample_world2_run.
  - apply (bool_decide_unpack _). by vm_compute.
  - done.
  - by vm_compute.
  - by vm_compute.
Defined.

Lemma iput_keeps_inode_witness :
  exists w' n', hsfs_iput hsi_nfs_sop 0x10200 sample_world2 = Ret tt w' /\ cache_ok w' /\
    w_heap w' !! 0x10200 = Some n' /\ in_i_count (ni_hsfs_inode n') = 0 - 1.
Proof.
  destruct (w_heap sample_world2 !! 0x10200) as [n|] eqn:Hn; [|by vm_compute in Hn].
  assert (Hc : in_i_count (ni_hsfs_inode n) = 0).
  { revert Hn. vm_compute. by intros [= <-]. }
  rewrite <- Hc. apply (iput_keeps_inode hsi_nfs_sop 0x10200 sample_world2 n).
  - apply sample_world2_ok.
  - done.
  - rewrite Hc. lia.
Defined.

Lemma sample_inode2 : exists n, w_heap sample_world2 !! 0x10200 = Some n /\
  ni_fileid n = 200 /\ in_ino (ni_hsfs_inode n) = 2.
Proof.
  destruct (w_heap sample_world2 !! 0x10200) as [n|] eqn:Hn; [|by vm_compute in Hn].
  exists n. split; [done|]. revert Hn. vm_compute. by intros [= <-].
Qed.

(** A world with one inode that is not linked yet. *)
Definition unlinked_world : world := set_heap {[0x20000 := nfs_inode_zero]} sample_world.

Lemma new_number_free_witness :
  exists w' n', __inode_add_to_lists 7 0x20000 unlinked_world = Ret tt w' /\
    w_heap w' !! 0x20000 = Some n' /\
    0 < in_ino (ni_hsfs_inode n') < 2 ^ 64 /\ id_free ∅ (in_ino (ni_hsfs_inode n')).
Proof.
  apply (new_number_free 7 0x20000 unlinked_world nfs_inode_zero ∅).
  - apply sample_world_ok.
  - apply map_empty_subseteq.
  - apply lookup_empty.
  - apply lookup_singleton_eq.
Defined.

Lemma refresh_stores_witness :
  exists st w' n' n, nfs_refresh_inode 0x10200 (sample_fa [2]) sample_world2 = Ret st w' /\
    cache_ok w' /\ w_heap w' !! 0x10200 = Some n' /\ same_identity n n'.
Proof.
  destruct sample_inode2 as (n & Hn & _).
  destruct (refresh_stores 0x10200 (sample_fa [2]) sample_world2 n)
    as (st & w' & n' & Hr & Hok & Hn' & Hid & _).
  - apply sample_world2_ok.
  - done.
  - by vm_compute.
  - exists st, w', n', n. exact (conj Hr (conj Hok (conj Hn' Hid))).
Defined.

Lemma is_err_never_witness :
  IS_ERR (bad_hsfs_inode + ENOENT) = false /\ IS_ERR_OR_NULL (bad_hsfs_inode + ENOENT) = false /\
    PTR_ERR (bad_hsfs_inode + ENOENT) = ENOENT.
Proof.
  apply (is_err_never ENOENT).
  - apply sample_bad_placed.
  - done.
  - by vm_compute.
Defined.

(** The call is answered after a lost connection and two busy replies. *)
Definition flaky_world : world := set_env (set_fail [ENOTCONN; EAGAIN; EAGAIN] sample0) sample_world.

Lemma clnt_call_contract_witness :
  exists err o w', hsi_nfs3_clnt_call 1 (NFSPROC3_GETATTR [2]) flaky_world = Ret (err, o) w' /\
    (err = 0 <-> is_Some o) /\ rpc_frame flaky_world w' /\
    (err = 0 -> sb_clntp (w_sb w') ∈ w_clnts w').
Proof.
  apply (clnt_call_contract (NFSPROC3_GETATTR [2]) flaky_world). set_solver.
Defined.
