(* ===== verification/Wp.v ===== *)
(** * Reasoning about handlers

    [wp m Q w]: from [w] the step returns, with a result and a world that
    satisfy [Q] (so it neither fails an assertion nor is undefined nor runs out
    of fuel).  [good] is the invariant between requests; [steps w w'] says what
    an NFS operation may change: inodes keep their identity and references, new
    ones may appear, nothing is sent, and the clients stay. *)

From S2P Require Import Prelude Bitops Hash Proto World Icache IcacheFacts Attr Rpc NfsInode.

(** ** The invariant and the frame *)

(** What every NFS operation leaves alone of an inode. *)
Definition kept (n n' : nfs_inode) : Prop :=
  same_identity n n' /\ in_private (ni_hsfs_inode n') = in_private (ni_hsfs_inode n).

Section Logic.
Context `{E : Env}.

Record good (w : world) : Prop := {
  good_cache : cache_ok w;
  good_clnt : sb_clntp (w_sb w) ∈ w_clnts w;
  good_acl : sb_acl_clntp (w_sb w) = NULL \/ sb_acl_clntp (w_sb w) ∈ w_clnts w;
  good_rsize : 0 < sb_rsize (w_sb w);
  good_wsize : 0 < sb_wsize (w_sb w) }.

Record steps (w w' : world) : Prop := {
  steps_out : w_out w' = w_out w;
  steps_clnts : w_clnts w' = w_clnts w;
  steps_clntp : sb_clntp (w_sb w') = sb_clntp (w_sb w);
  steps_acl : sb_acl_clntp (w_sb w') = sb_acl_clntp (w_sb w);
  steps_root : sb_root (w_sb w') = sb_root (w_sb w);
  steps_inodes : forall p n, w_heap w !! p = Some n ->
    exists n', w_heap w' !! p = Some n' /\ kept n n';
  steps_new : forall p n', w_heap w !! p = None -> w_heap w' !! p = Some n' ->
    in_private (ni_hsfs_inode n') = 0 }.

Lemma kept_refl n : kept n n.
Proof. done. Qed.

Lemma kept_trans n1 n2 n3 : kept n1 n2 -> kept n2 n3 -> kept n1 n3.
Proof.
  intros [(?&?&?&?&?&?) ?] [(?&?&?&?&?&?) ?]. split; [|congruence].
  split_and!; congruence.
Qed.

#[export] Instance steps_preorder : PreOrder steps.
Proof.
  split.
  - intros w. constructor; try done; [|congruence]. intros p n Hp. exists n. by split.
  - intros w1 w2 w3 [] [Ho Hc Hp Ha Hr Hi Hnew]. constructor; try congruence.
    + intros p n Hpn. destruct (steps_inodes0 p n Hpn) as (n2 & Hn2 & Hk2).
      destruct (Hi p n2 Hn2) as (n3 & Hn3 & Hk3). exists n3. split; [done|]. by eapply kept_trans.
    + intros p n3 Hno Hn3. destruct (w_heap w2 !! p) as [n2|] eqn:Hn2; [|by eapply Hnew].
      destruct (Hi p n2 Hn2) as (m & Hm & [_ Hpr]). rewrite Hn3 in Hm. injection Hm as <-.
      rewrite Hpr. by eapply steps_new0.
Qed.

Lemma steps_live w w' p : steps w w' -> is_Some (w_heap w !! p) -> is_Some (w_heap w' !! p).
Proof. intros Hs [n Hn]. destruct (steps_inodes _ _ Hs p n Hn) as (n' & Hn' & _). eauto. Qed.

(** A step that changes the environment alone. *)
Lemma good_env e w : good w -> good (set_env e w).
Proof. intros []. by constructor. Qed.

Lemma steps_env e w : steps w (set_env e w).
Proof. constructor; try done; [|simpl; congruence]. intros p n Hp. exists n. by split. Qed.

(** A step that changes one inode, keeping its identity. *)
Lemma good_update w p n n' :
  good w -> w_heap w !! p = Some n -> same_identity n n' ->
  good (set_heap (<[p := n']> (w_heap w)) w).
Proof. intros [] Hp Hid. constructor; [|done..]. by eapply cache_ok_update. Qed.

Lemma steps_update w p n n' :
  w_heap w !! p = Some n -> kept n n' -> steps w (set_heap (<[p := n']> (w_heap w)) w).
Proof.
  intros Hp Hk. constructor; try done; simpl; intros q m Hq.
  - destruct (decide (p = q)) as [<-|Hne].
    + exists n'. rewrite lookup_insert_eq. naive_solver.
    + exists m. rewrite lookup_insert_ne by done. by split.
  - rewrite lookup_insert_ne by congruence. congruence.
Qed.

Lemma store_fattr_kept fattr n : kept n (nfs_store_fattr fattr n).
Proof. done. Qed.

Lemma refreshed_kept fattr n : kept n (refreshed fattr n).2.
Proof. unfold refreshed. repeat case_if; done. Qed.

(** A step on the superblock that leaves the cache and the clients alone. *)
Lemma good_sb w s :
  good w -> sb_id_table s = sb_id_table (w_sb w) -> sb_fh_table s = sb_fh_table (w_sb w) ->
  sb_curr_id s = sb_curr_id (w_sb w) -> sb_clntp s = sb_clntp (w_sb w) ->
  sb_acl_clntp s = sb_acl_clntp (w_sb w) -> 0 < sb_rsize s -> 0 < sb_wsize s ->
  good (set_sb s w).
Proof.
  intros [[Hc Hn] Hl Ha Hr Hw] Hid Hfh Hcur Hcl Hacl Hr' Hw'.
  constructor; simpl; rewrite ?Hcl, ?Hacl; try done. split; [|done]. by eapply icache_inv_sb.
Qed.

(** ** Rules for the steps of the model *)

Lemma wp_deref p Q w n : w_heap w !! p = Some n -> Q n w -> wp (deref p) Q w.
Proof. intros Hp HQ. exists n, w. split; [by apply deref_ret|done]. Qed.

Lemma wp_update p f (Q : unit -> world -> Prop) w n :
  w_heap w !! p = Some n -> Q tt (set_heap (<[p := f n]> (w_heap w)) w) -> wp (update p f) Q w.
Proof. intros Hp HQ. eexists tt, _. split; [by apply update_ret|done]. Qed.

Lemma wp_get_sb (Q : hsfs_super -> world -> Prop) w : Q (w_sb w) w -> wp get_sb Q w.
Proof. intros HQ. by exists (w_sb w), w. Qed.

Lemma wp_update_sb f (Q : unit -> world -> Prop) w :
  Q tt (set_sb (f (w_sb w)) w) -> wp (update_sb f) Q w.
Proof. intros HQ. by exists tt, (set_sb (f (w_sb w)) w). Qed.

Lemma wp_send r (Q : unit -> world -> Prop) w :
  Q tt (set_out (w_out w ++ [r]) w) -> wp (send r) Q w.
Proof. intros HQ. by eexists tt, _. Qed.

Lemma wp_from_env {A} (f : env -> A * env) (Q : A -> world -> Prop) w :
  (forall a e, Q a (set_env e w)) -> wp (from_env f) Q w.
Proof. intros HQ. destruct (from_env_ret f w) as (a & e & H). exists a, (set_env e w). auto. Qed.

Lemma wp_asks {A} (f : env -> A * env) (Q : A -> world -> Prop) w :
  Q (f (w_env w)).1 (set_env (f (w_env w)).2 w) -> wp (from_env f) Q w.
Proof. intros HQ. eexists _, _. split; [|exact HQ]. unfold from_env. by destruct (f (w_env w)). Qed.

Lemma wp_freeres c (Q : unit -> world -> Prop) w :
  c ∈ w_clnts w -> Q tt w -> wp (clnt_freeres c) Q w.
Proof. intros Hc HQ. exists tt, w. split; [by apply clnt_freeres_live|done]. Qed.

Lemma wp_ilookup ino (Q : Z -> world -> Prop) w :
  cache_ok w ->
  (id_free (w_heap w) ino -> Q NULL w) ->
  (forall p n, w_heap w !! p = Some n -> in_ino (ni_hsfs_inode n) = ino -> p <> NULL -> Q p w) ->
  wp (hsfs_ilookup ino) Q w.
Proof.
  intros [Hok _] Hno Hyes. destruct (ilookup_spec w ino Hok) as (p & Hl & Hc).
  exists p, w. split; [done|]. destruct Hc as [[-> Hf]|(n & Hn & Hi)]; [by apply Hno|].
  apply (Hyes p n); [done..|]. pose proof (inv_ptr _ _ Hok _ _ Hn) as [? _]. unfold NULL. lia.
Qed.

Lemma wp_refresh p fattr (Q : Z -> world -> Prop) w n :
  w_heap w !! p = Some n ->
  Q (refreshed fattr n).1 (set_heap (<[p := (refreshed fattr n).2]> (w_heap w)) w) ->
  wp (nfs_refresh_inode p fattr) Q w.
Proof. intros Hp HQ. eexists _, _. split; [by apply refresh_ret|done]. Qed.
End Logic.

(** ** The connection

    While the connection is not lost, a call changes the environment alone. *)
Class Connected `{E : Env} : Prop := {
  call_not_lost : forall R c (p : nfsproc R) t e x e',
    clnt_call c p t e = (RPC_FAILED x, e') -> x <> ENOTCONN /\ x <> ECONNRESET }.

Section Calls.
Context {E : Env} {HC : Connected}.

(** The answers the server can give. *)
Definition answers {R} (p : nfsproc R) (r : R) : Prop :=
  exists c t e e', clnt_call c p t e = (RPC_SUCCESS r, e').

Lemma wp_rpc {R} c (p : nfsproc R) t (Q : clnt_result R -> world -> Prop) w :
  c ∈ w_clnts w ->
  (forall r e, clnt_call c p t (w_env w) = (r, e) -> Q r (set_env e w)) ->
  wp (rpc c p t) Q w.
Proof.
  intros Hc HQ. unfold wp, rpc, from_env. rewrite decide_True by done.
  destruct (clnt_call c p t (w_env w)) as [r e] eqn:Hcall. eauto.
Qed.

(** [I] is what a failed call keeps of the environment. *)
Lemma retry_conn {R} (I : env -> Prop) tries c (p : nfsproc R) t w :
  c ∈ w_clnts w -> I (w_env w) ->
  (forall c t e x e', I e -> clnt_call c p t e = (RPC_FAILED x, e') -> I e') ->
  wp (clnt_call_retry tries c p t) (fun eo w' => exists e', w' = set_env e' w /\
    match eo.2 with
    | None => eo.1 <> 0 /\ I e'
    | Some r => eo.1 = 0 /\ exists t e, I e /\ clnt_call c p t e = (RPC_SUCCESS r, e')
    end) w.
Proof.
  intros Hc HI Hfail. revert w Hc HI. induction tries as [|tries IH]; intros w Hc HI; simpl;
    apply wp_bind, wp_rpc; try done; intros [r|x] e Hcall;
    [apply wp_ret; exists e; simpl; by eauto 10| |apply wp_ret; exists e; simpl; by eauto 10|].
  - apply wp_ret. exists e. split; [done|]. split; [|by eapply Hfail].
    unfold hsi_rpc_stat_to_errno. simpl. case_if; done.
  - apply call_not_lost in Hcall as Hx. assert (HI' : I e) by (by eapply Hfail).
    assert (Hne : hsi_rpc_stat_to_errno x <> 0) by (unfold hsi_rpc_stat_to_errno; case_if; done).
    case_if; [|case_if].
    + eapply wp_mono; [by apply IH|]. intros eo w' (e' & -> & Hp). exists e'. done.
    + exfalso. unfold hsi_rpc_stat_to_errno in *.
      apply orb_true_iff in E1. destruct (Z.eqb_spec x 0), E1; to_prop; unfold EIO, ENOTCONN, ECONNRESET in *; lia.
    + apply wp_ret. exists e. done.
Qed.

Lemma call_conn {R} (I : env -> Prop) c (p : nfsproc R) w :
  c ∈ w_clnts w -> I (w_env w) ->
  (forall c t e x e', I e -> clnt_call c p t e = (RPC_FAILED x, e') -> I e') ->
  wp (hsi_nfs3_clnt_call c p) (fun eo w' => exists e', w' = set_env e' w /\
    match eo.2 with
    | None => eo.1 <> 0 /\ I e'
    | Some r => eo.1 = 0 /\ exists t e, I e /\ clnt_call c p t e = (RPC_SUCCESS r, e')
    end) w.
Proof.
  intros Hc HI Hf. unfold hsi_nfs3_clnt_call. apply wp_bind, wp_get_sb. by apply retry_conn.
Qed.

Lemma wp_call {R} c (p : nfsproc R) (Q : Z * option R -> world -> Prop) w :
  c ∈ w_clnts w ->
  (forall e err, err <> 0 -> Q (err, None) (set_env e w)) ->
  (forall e r, answers p r -> Q (0, Some r) (set_env e w)) ->
  wp (hsi_nfs3_clnt_call c p) Q w.
Proof.
  intros Hc Hno Hyes. eapply wp_mono; [by apply (call_conn (fun _ => True) c p w)|].
  intros [err [r|]] w' (e' & -> & Ho); simpl in Ho.
  - destruct Ho as (-> & t & e & _ & Hcall). apply Hyes. by exists c, t, e, e'.
  - apply Hno. by destruct Ho.
Qed.
End Calls.

(** A call that is answered at the first attempt. *)
Section AtOnce.
Context {E : Env}.

Lemma call_at_once {R} c (p : nfsproc R) (w : world) r e :
  c ∈ w_clnts w ->
  clnt_call c p (call_timeout (sb_timeo (w_sb w))) (w_env w) = (RPC_SUCCESS r, e) ->
  hsi_nfs3_clnt_call c p w = Ret (0, Some r) (set_env e w).
Proof.
  intros Hl Hc. unfold hsi_nfs3_clnt_call, bind at 1, get_sb. simpl.
  unfold bind, rpc, from_env. rewrite decide_True by done. by rewrite Hc.
Qed.
End AtOnce.
