(* ===== verification/Blocks.v ===== *)
(** * Transfer sizes and file system statistics

    The block size computations of [nfs3/hsi_nfs3_mount.c], the sizes a mount
    takes from FSINFO ([nfs3/hsi_nfs3_fsinfo.c]), and the conversion of FSSTAT
    to [struct statvfs] ([fuse/hsx_fuse_statfs.c]). *)

From S2P Require Import Prelude Bitops Hash Proto World.

Definition HSFS_MAX_FILE_IO_SIZE : Z := 1048576.
Definition HSFS_DEF_FILE_IO_SIZE : Z := 4096.
Definition HSFS_MIN_FILE_IO_SIZE : Z := 1024.
Definition HSFS_MAX_READDIR_PAGES : Z := 8.

(** [1 << nrbits] is an [int]; it is widened with its sign. *)
Definition int_bit (nrbits : nat) : Z := u64 (s32 (Z.shiftl 1 (Z.of_nat nrbits))).

(** The loop from bit 31 down to 0. *)
Fixpoint top_bit (nrbits : nat) (bsize : Z) : nat :=
  match nrbits with
  | O => O
  | S n => if flag bsize (int_bit nrbits) then nrbits else top_bit n bsize
  end.

(** The size, and what is stored through [nrbitsp] when it is not NULL. *)
Definition hsfs_block_bits (bsize : Z) (nrbitsp : bool) : Z * option Z :=
  if flag bsize (u64 (bsize - 1)) || nrbitsp then
    let nrbits := top_bit 31 bsize in
    (int_bit nrbits, if nrbitsp then Some (Z.of_nat nrbits) else None)
  else (bsize, None).

Definition hsfs_block_size (bsize : Z) (nrbitsp : bool) : Z * option Z :=
  let bsize :=
    if bsize <? HSFS_MIN_FILE_IO_SIZE then HSFS_DEF_FILE_IO_SIZE
    else if HSFS_MAX_FILE_IO_SIZE <=? bsize then HSFS_MAX_FILE_IO_SIZE
    else bsize in
  hsfs_block_bits bsize nrbitsp.

(** One transfer size: [size] so far, with the preferred and the largest size
    the server gives. *)
Definition io_size (size pref max : Z) : Z :=
  let size := if size =? 0 then u32 (hsfs_block_size pref false).1 else size in
  let size := if (512 <=? max) && (max <? size) then u32 (hsfs_block_size max false).1 else size in
  if HSFS_MAX_FILE_IO_SIZE <? size then HSFS_MAX_FILE_IO_SIZE else size.

Section Fsinfo.
Context `{E : Env}.

Definition HSFS_PAGE_SIZE : Z := u32 page_size.

Definition hsi_fsinfo_to_super (super : hsfs_super) (fsinfo : fsinfo3resok) : hsfs_super :=
  let rsize := io_size (sb_rsize super) (fi_rtpref fsinfo) (fi_rtmax fsinfo) in
  let wsize := io_size (sb_wsize super) (fi_wtpref fsinfo) (fi_wtmax fsinfo) in
  let dtsize := u32 (hsfs_block_size (fi_dtpref fsinfo) false).1 in
  let pages := u32 (HSFS_PAGE_SIZE * HSFS_MAX_READDIR_PAGES) in
  let dtsize := if pages <? dtsize then pages else dtsize in
  let dtsize := if rsize <? dtsize then rsize else dtsize in
  let s := set_sb_rsize rsize (set_sb_wsize wsize (set_sb_dtsize dtsize super)) in
  let s := set_sb_rtmax (fi_rtmax fsinfo) (set_sb_rtpref (fi_rtpref fsinfo)
             (set_sb_rtmult (fi_rtmult fsinfo) s)) in
  let s := set_sb_wtmax (fi_wtmax fsinfo) (set_sb_wtpref (fi_wtpref fsinfo)
             (set_sb_wtmult (u32 (hsfs_block_bits (fi_wtmult fsinfo) false).1) s)) in
  set_sb_dtpref (fi_dtpref fsinfo) (set_sb_maxfilesize (fi_maxfilesize fsinfo)
    (set_sb_time_delta (fi_time_delta fsinfo) (set_sb_properties (fi_properties fsinfo) s))).
End Fsinfo.

(** [None] when it returns 1. *)
Definition hsi_super2statvfs (sp : hsfs_super) : option statvfs :=
  if sb_bsize_bits sp =? 0 then None
  else
    let block_bits := sb_bsize_bits sp in
    let block_res := u64 (s32 (Z.shiftl 1 block_bits) - 1) in
    let blocks b := Z.shiftr (u64 (b + block_res)) block_bits in
    if sb_bsize sp =? 0 then None
    else if sb_namlen sp =? 0 then None
    else Some
      {| f_bsize := sb_bsize sp; f_frsize := sb_bsize sp;
         f_blocks := blocks (sb_tbytes sp); f_bfree := blocks (sb_fbytes sp);
         f_bavail := blocks (sb_abytes sp);
         f_files := sb_tfiles sp; f_ffree := sb_ffiles sp; f_favail := sb_afiles sp;
         f_fsid := 0; f_flag := u64 (sb_flags sp); f_namemax := u64 (sb_namlen sp) |}.

(** ** Block sizes *)

Lemma int_bit_small n : (n < 31)%nat -> int_bit n = 2 ^ Z.of_nat n.
Proof.
  intros Hn. unfold int_bit. rewrite Z.shiftl_1_l.
  assert (0 < 2 ^ Z.of_nat n < 2 ^ 31)
    by (split; [apply Z.pow_pos_nonneg|apply Z.pow_lt_mono_r]; lia).
  rewrite s32_small, u64_small by lia. done.
Qed.

Lemma flag_bit b n : 0 <= n -> flag b (2 ^ n) = Z.testbit b n.
Proof.
  intros Hn. unfold flag. destruct (Z.testbit b n) eqn:Hb.
  - apply negb_true_iff, Z.eqb_neq. intros H0.
    assert (Hbit : Z.testbit (Z.land b (2 ^ n)) n = true)
      by (rewrite Z.land_spec, Hb, Z.pow2_bits_true by done; done).
    rewrite H0, Z.bits_0 in Hbit. done.
  - apply negb_false_iff, Z.eqb_eq, Z.bits_inj'. intros i Hi. rewrite Z.land_spec, Z.bits_0.
    destruct (decide (i = n)) as [->|Hne]; [by rewrite Hb|].
    rewrite Z.pow2_bits_false by done. apply andb_false_r.
Qed.

(** Below 2^31 the loop finds the highest bit. *)
Lemma top_bit_log2 n b :
  (n < 31)%nat -> 0 < b < 2 ^ (Z.of_nat n + 1) -> Z.of_nat (top_bit n b) = Z.log2 b.
Proof.
  revert b. induction n as [|n IH]; intros b Hn Hb; simpl.
  - assert (b = 1) as -> by lia. done.
  - rewrite int_bit_small, flag_bit by lia.
    destruct (Z.testbit b (Z.of_nat (S n))) eqn:Ht.
    + symmetry. apply Z.log2_unique; [lia|]. split; [|lia].
      apply Z.nlt_ge. intros Hlt. rewrite Z.bits_above_log2 in Ht; [done|lia|].
      apply Z.log2_lt_pow2; lia.
    + apply IH; [lia|]. split; [lia|]. apply Z.nle_gt. intros Hle.
      assert (Hl : Z.log2 b = Z.of_nat (S n))
        by (apply Z.log2_unique; [lia|]; replace (Z.of_nat (S n)) with (Z.of_nat n + 1) by lia; lia).
      rewrite <- Hl, Z.bit_log2 in Ht by lia. done.
Qed.

Lemma top_bit_31 b : 0 < b < 2 ^ 31 -> Z.of_nat (top_bit 31 b) = Z.log2 b.
Proof.
  intros Hb. change (Z.of_nat (top_bit 31 b)) with
    (Z.of_nat (if flag b (int_bit 31) then 31%nat else top_bit 30 b)).
  assert (Hf : flag b (int_bit 31) = false).
  { unfold flag. apply negb_false_iff, Z.eqb_eq, Z.bits_inj'. intros i Hi.
    rewrite Z.land_spec, Z.bits_0. destruct (Z.ltb_spec i 31).
    - change (int_bit 31) with (Z.shiftl (2 ^ 33 - 1) 31). rewrite Z.shiftl_spec by lia.
      rewrite (Z.testbit_neg_r _ (i - 31)) by lia. apply andb_false_r.
    - rewrite Z.bits_above_log2; [done|lia|].
      enough (Z.log2 b < 31) by lia. apply Z.log2_lt_pow2; lia. }
  rewrite Hf. apply top_bit_log2; [lia|]. lia.
Qed.

(** For a size below 2^31 the result is the largest power of two that does not
    exceed it, and the bits are its logarithm. *)
Lemma block_bits_spec b nr :
  0 < b < 2 ^ 31 ->
  (hsfs_block_bits b nr).1 = 2 ^ Z.log2 b /\
  (hsfs_block_bits b nr).2 = if nr then Some (Z.log2 b) else None.
Proof.
  intros Hb. unfold hsfs_block_bits.
  destruct (flag b (u64 (b - 1)) || nr) eqn:Hf.
  - pose proof (top_bit_31 b Hb) as Ht. cbn [fst snd]. rewrite Ht. split; [|done].
    assert (0 <= Z.log2 b < 31) by (split; [apply Z.log2_nonneg|apply Z.log2_lt_pow2; lia]).
    rewrite int_bit_small by lia. by rewrite Ht.
  - apply orb_false_iff in Hf as [Hf ->]. split; [|done]. simpl.
    rewrite u64_small in Hf by lia. unfold flag in Hf. to_prop.
    by apply land_pred_log2 in Hf; [|lia].
Qed.

(** A transfer size is a power of two between 1 KiB and 1 MiB, and does not
    exceed what was asked for when that is at least 1 KiB. *)
Lemma block_size_spec b nr :
  0 <= b ->
  exists k, (hsfs_block_size b nr).1 = 2 ^ k /\ 10 <= k <= 20 /\
    (hsfs_block_size b nr).2 = (if nr then Some k else None) /\
    (1024 <= b -> 2 ^ k <= b) /\ (1024 <= b <= 1048576 -> b < 2 ^ (k + 1)).
Proof.
  intros Hb. unfold hsfs_block_size, HSFS_MIN_FILE_IO_SIZE, HSFS_MAX_FILE_IO_SIZE,
    HSFS_DEF_FILE_IO_SIZE.
  set (b' := if b <? 1024 then 4096 else if 1048576 <=? b then 1048576 else b).
  assert (Hr : 1024 <= b' <= 1048576) by (unfold b'; repeat case_if; lia).
  destruct (block_bits_spec b' nr) as [H1 H2]; [lia|]. exists (Z.log2 b').
  pose proof (Z.log2_spec b' ltac:(lia)) as [Hlo Hhi].
  assert (10 <= Z.log2 b' <= 20).
  { split; [apply Z.log2_le_pow2; lia|].
    change 20 with (Z.log2 1048576). apply Z.log2_le_mono. lia. }
  split_and!; [done|lia|lia|done| |].
  - intros Hge. enough (b' <= b) by lia. unfold b'. repeat case_if; lia.
  - intros Hge. enough (b' = b) by (rewrite <- Z.add_1_r in Hhi; lia). unfold b'. repeat case_if; lia.
Qed.

Lemma block_size_u32 b nr : 0 <= b -> u32 (hsfs_block_size b nr).1 = (hsfs_block_size b nr).1.
Proof.
  intros Hb. destruct (block_size_spec b nr Hb) as (k & -> & Hk & _). apply u32_small.
  split; [apply Z.pow_nonneg; lia|apply Z.pow_lt_mono_r; lia].
Qed.

Lemma pow2_bounds k : 10 <= k <= 20 -> 1024 <= 2 ^ k <= 1048576.
Proof.
  intros Hk. change 1024 with (2 ^ 10). change 1048576 with (2 ^ 20).
  split; apply Z.pow_le_mono_r; lia.
Qed.

Lemma io_size_spec size pref max :
  0 <= size -> 0 <= pref -> 0 <= max ->
  0 < io_size size pref max <= HSFS_MAX_FILE_IO_SIZE /\
    (1024 <= max -> io_size size pref max <= max).
Proof.
  intros Hs Hp Hm. unfold io_size. rewrite !block_size_u32 by done.
  destruct (block_size_spec pref false Hp) as (kp & -> & Hkp & _).
  destruct (block_size_spec max false Hm) as (km & -> & Hkm & _ & Hle & _).
  pose proof (pow2_bounds kp Hkp). pose proof (pow2_bounds km Hkm).
  unfold HSFS_MAX_FILE_IO_SIZE. cbv zeta.
  set (s1 := if size =? 0 then 2 ^ kp else size).
  assert (0 < s1) by (unfold s1; case_if; lia).
  set (s2 := if (512 <=? max) && (max <? s1) then 2 ^ km else s1).
  assert (0 < s2) by (unfold s2; case_if; lia).
  assert (1024 <= max -> s2 <= max).
  { intros Hmax. unfold s2. rewrite (proj2 (Z.leb_le 512 max)) by lia. simpl. case_if; lia. }
  case_if; lia.
Qed.

(** The number of blocks of [2^bits] bytes that [b] bytes need. *)
Lemma statvfs_blocks_ceil b bits :
  0 < bits < 31 -> 0 <= b -> b + 2 ^ bits <= 2 ^ 64 ->
  Z.shiftr (u64 (b + u64 (s32 (Z.shiftl 1 bits) - 1))) bits = (b + 2 ^ bits - 1) / 2 ^ bits.
Proof.
  intros Hbits Hb Hw. rewrite Z.shiftl_1_l.
  assert (0 < 2 ^ bits < 2 ^ 31) by (split; [apply Z.pow_pos_nonneg|apply Z.pow_lt_mono_r]; lia).
  rewrite s32_small by lia. rewrite (u64_small (2 ^ bits - 1)) by lia.
  rewrite u64_small by lia. rewrite Z.shiftr_div_pow2 by lia. f_equal. lia.
Qed.
