(* ===== verification/Nfs3Ops.v ===== *)
(** * The NFSv3 operations ([nfs3/hsi_nfs3_*.c])

    One definition per operation: the arguments it builds from its inode, the
    call, and what it does with the answer.  An operation that keeps the client
    in a local variable releases the result on that handle, which a reconnection
    during the call has destroyed; the others read [sb->clntp] again.  An out
    parameter is part of the result, [None] when the function leaves it alone. *)

From S2P Require Import Prelude Bitops Hash Proto World Icache IcacheFacts Attr Rpc NfsInode Blocks.

Definition NAME_MAX : Z := 255.

(** [strlen]. *)
Definition strlen (s : string) : Z := Z.of_nat (String.length s).

(** A local [struct nfs_fh]: the bytes past the copied ones are never read. *)
Definition fh_local : nfs_fh := nfs_fh_zero.

(** ** Read and write requests *)

(** [data_val] is the buffer from the address the field holds on; its length is
    the room there. *)
Record hsfs_rw_info := mk_rw {
  rw_inode : Z; rw_size : Z; rw_off : Z; rw_ret_count : Z; rw_eof : bool; rw_stable : Z;
  rw_data_len : Z; rw_data_val : list Z }.

Definition HSFS_FILE_SYNC : Z := 2.
Definition HSFS_UNSTABLE : Z := 0.

(** ** Directory listings *)

(** The list of [struct hsfs_readdir_ctx], head first. *)
Record hsfs_readdir_ctx := mk_ctx {
  ctx_off : Z; ctx_name : string; ctx_stbuf : stat; ctx_inode : Z }.

Section Nfs3Ops.
Context `{E : Env}.
Abbreviation sop := hsi_nfs_sop.

Definition copy_fh3 (h : nfs_fh3) : M world nfs_fh :=
  match nfs_copy_fh3 fh_local h with Some f => ret f | None => undef end.

(** [clnt_freeres(sb->clntp, ...)]. *)
Definition free_sb_res : M world unit :=
  let! sb := get_sb in clnt_freeres (sb_clntp sb).

(** The client of the superblock, and the handle of an inode. *)
Definition sb_client : M world Z := let! sb := get_sb in ret (sb_clntp sb).
Definition handle_of (inode : Z) : M world nfs_fh3 :=
  let! n := deref inode in ret (hsi_nfs3_getfh3 n).

Definition hsi_nfs3_do_getattr (fh : nfs_fh3) (fattr : option nfs_fattr) (st : option stat) :
    M world (Z * option nfs_fattr * option stat) :=
  let! clntp := sb_client in
  let! er := hsi_nfs3_clnt_call clntp (NFSPROC3_GETATTR fh) in
  match er.2 with
  | None => ret (er.1, fattr, st)
  | Some (RES_FAIL s _) =>
      do! free_sb_res in ret (hsi_nfs3_stat_to_errno s, fattr, st)
  | Some (RES_OK attr) =>
      let fattr := hsi_nfs3_fattr2fattr attr <$> fattr in
      let st := (fun s => (hsi_nfs3_fattr2stat attr s).2) <$> st in
      do! free_sb_res in ret (0, fattr, st)
  end.

(** The [stat] is filled when the pointer is not NULL. *)
Definition hsi_nfs3_getattr (inode : Z) (st : option stat) : M world (Z * option stat) :=
  let! fh := handle_of inode in
  let! r := hsi_nfs3_do_getattr fh (Some (nfs_init_fattr fattr_local)) st in
  let '(err, fattr, st) := r in
  if negb (err =? 0) then ret (err, st)
  else
    let! err := match fattr with Some f => nfs_refresh_inode inode f | None => ret 0 end in
    ret (err, st).

Definition hsi_nfs3_lookup (parent : Z) (name : string) : M world (Z * option Z) :=
  let! fh := handle_of parent in
  let args := {| da_dir := fh; da_name := name |} in
  let! clntp := sb_client in
  let! er := hsi_nfs3_clnt_call clntp (NFSPROC3_LOOKUP args) in
  match er.2 with
  | None => ret (er.1, None)
  | Some (RES_FAIL st _) => do! free_sb_res in ret (hsi_nfs3_stat_to_errno st, None)
  | Some (RES_OK resok) =>
      let fattr := (hsi_nfs3_post2fattr (lk_obj_attributes resok)
                      (nfs_init_fattr fattr_local)).2 in
      let! name_fh := copy_fh3 (lk_object resok) in
      let! new := hsi_nfs_fhget sop name_fh fattr in
      do! free_sb_res in
      ret (0, Some new)
  end.

Definition ACCESS3_READ : Z := 0x1.
Definition ACCESS3_LOOKUP : Z := 0x2.
Definition ACCESS3_MODIFY : Z := 0x4.
Definition ACCESS3_EXTEND : Z := 0x8.
Definition ACCESS3_DELETE : Z := 0x10.
Definition ACCESS3_EXECUTE : Z := 0x20.
Definition FULL_ACCESS : Z := 0x3f.

(** The result is released on every path. *)
Definition hsi_nfs3_access (hi mask : Z) : M world Z :=
  let! fh := handle_of hi in
  let args := {| ac_object := fh; ac_access := Z.land mask FULL_ACCESS |} in
  let! clntp := sb_client in
  let! er := hsi_nfs3_clnt_call clntp (NFSPROC3_ACCESS args) in
  let st := match er.2 with None => er.1 | Some res => hsi_nfs3_stat_to_errno (status res) end in
  do! clnt_freeres clntp in
  ret st.

(** The second component is [*link], [None] while it is NULL. *)
Definition hsi_nfs3_readlink (inode : Z) : M world (Z * option string) :=
  let! fh := handle_of inode in
  let! clntp := sb_client in
  let! er := hsi_nfs3_clnt_call clntp (NFSPROC3_READLINK fh) in
  match er.2 with
  | None => ret (er.1, None)
  | Some (RES_FAIL st _) => do! clnt_freeres clntp in ret (hsi_nfs3_stat_to_errno st, None)
  | Some (RES_OK resok) =>
      let! ok := c_malloc (strlen (rl_data resok) + 1) in
      let link := if (ok : bool) then Some (rl_data resok) else None in
      do! clnt_freeres clntp in
      ret (0, link)
  end.

(** The data is copied without a look at the room in the buffer. *)
Definition hsi_nfs3_read (rinfo : hsfs_rw_info) : M world (Z * hsfs_rw_info) :=
  let! clnt := sb_client in
  let! fh := handle_of (rw_inode rinfo) in
  let args := {| rd_file := fh; rd_offset := u64 (rw_off rinfo); rd_count := u32 (rw_size rinfo) |} in
  let! er := hsi_nfs3_clnt_call clnt (NFSPROC3_READ args) in
  match er.2 with
  | None => ret (er.1, rinfo)
  | Some (RES_FAIL st _) =>
      do! clnt_freeres clnt in ret (hsi_nfs3_stat_to_errno st, rinfo)
  | Some (RES_OK resok) =>
      let d := rdr_data resok in
      if (length d <=? length (rw_data_val rinfo))%nat then
        let rinfo := mk_rw (rw_inode rinfo) (rw_size rinfo) (rw_off rinfo) (rdr_count resok)
          (rdr_eof resok) (rw_stable rinfo) (Z.of_nat (length d))
          (copy_bytes (rw_data_val rinfo) d (length d)) in
        do! clnt_freeres clnt in ret (0, rinfo)
      else undef
  end.

Definition hsi_nfs3_write (winfo : hsfs_rw_info) : M world (Z * hsfs_rw_info) :=
  let! clnt := sb_client in
  let! fh := handle_of (rw_inode winfo) in
  let args := {| wr_file := fh; wr_offset := u64 (rw_off winfo); wr_count := u32 (rw_size winfo);
                 wr_stable := rw_stable winfo;
                 wr_data := take (Z.to_nat (rw_data_len winfo)) (rw_data_val winfo) |} in
  let! er := hsi_nfs3_clnt_call clnt (NFSPROC3_WRITE args) in
  match er.2 with
  | None => ret (er.1, winfo)
  | Some (RES_FAIL st _) =>
      do! clnt_freeres clnt in ret (hsi_nfs3_stat_to_errno st, winfo)
  | Some (RES_OK resok) =>
      let winfo := mk_rw (rw_inode winfo) (rw_size winfo) (rw_off winfo) (wrr_count resok)
        (rw_eof winfo) (rw_stable winfo) (rw_data_len winfo) (rw_data_val winfo) in
      do! clnt_freeres clnt in ret (0, winfo)
  end.

(** ** Creation *)

Definition hsi_nfs3_handle_create (dir : diropres3ok) : M world Z :=
  let fattr := (hsi_nfs3_post2fattr (do_obj_attributes dir) (nfs_init_fattr fattr_local)).2 in
  match do_obj dir with
  | None => err_ptr ENOENT
  | Some nfh => let! fh := copy_fh3 nfh in hsi_nfs_fhget sop fh fattr
  end.

Definition FULL_MODE : Z := Z.lor S_IRWXU (Z.lor S_IRWXG S_IRWXO).

(** [UNCHECKED] is 0, [GUARDED] 1 and [EXCLUSIVE] 2. *)
Definition create_how (i : hsfs_inode) (mode : Z) : createhow3 :=
  let how := Z.shiftr (Z.land mode 0xF0000) 16 in
  let sattr := {| sa_mode := Some (Z.land mode FULL_MODE);
                  sa_uid := Some (ia_uid (in_iattr i)); sa_gid := Some (ia_gid (in_iattr i));
                  sa_size := None; sa_atime := SET_TO_SERVER_TIME;
                  sa_mtime := SET_TO_SERVER_TIME |} in
  if how =? 2 then EXCLUSIVE (in_ino i)
  else if how =? 0 then UNCHECKED sattr
  else if how =? 1 then GUARDED sattr
  else BADMODE how.

Definition hsi_nfs3_create (hi : Z) (name : string) (mode : Z) : M world (Z * option Z) :=
  let fmode := Z.land mode FULL_MODE in
  let! n := deref hi in
  let args := {| cr_where := {| da_dir := hsi_nfs3_getfh3 n; da_name := name |};
                 cr_how := create_how (ni_hsfs_inode n) mode |} in
  let! clntp := sb_client in
  let! er := hsi_nfs3_clnt_call clntp (NFSPROC3_CREATE args) in
  match er.2 with
  | None => ret (er.1, None)
  | Some (RES_FAIL st _) => do! clnt_freeres clntp in ret (hsi_nfs3_stat_to_errno st, None)
  | Some (RES_OK resok) =>
      let! new := hsi_nfs3_handle_create resok in
      if IS_ERR new then
        do! clnt_freeres clntp in ret (s32 (PTR_ERR new), Some NULL)
      else
        let! st :=
          match cr_how args with
          | EXCLUSIVE _ =>
              let! m := deref new in
              let sattr := in_iattr (ni_hsfs_inode m) in
              hsi_nfs_setattr sop new (add_valid HSFS_ATTR_MODE (set_ia_mode fmode sattr))
          | _ => ret 0
          end in
        do! clnt_freeres clntp in
        ret (st, Some new)
  end.

(** In the error branch the source clears [*new] before it reads it. *)
Definition created (new : Z) : Z * option Z :=
  if IS_ERR new then (s32 (PTR_ERR NULL), Some NULL) else (0, Some new).

Definition mode_sattr (mode : Z) : sattr3 :=
  {| sa_mode := Some (Z.land mode 0xfff); sa_uid := None; sa_gid := None; sa_size := None;
     sa_atime := DONT_CHANGE; sa_mtime := DONT_CHANGE |}.

Definition hsi_nfs3_mkdir (parent : Z) (name : string) (mode : Z) : M world (Z * option Z) :=
  let! fh := handle_of parent in
  let argp := {| mk_where := {| da_dir := fh; da_name := name |};
                 mk_attributes := mode_sattr mode |} in
  let! clntp := sb_client in
  let! er := hsi_nfs3_clnt_call clntp (NFSPROC3_MKDIR argp) in
  match er.2 with
  | None => ret (er.1, Some NULL)
  | Some (RES_FAIL st _) => do! free_sb_res in ret (hsi_nfs3_stat_to_errno st, Some NULL)
  | Some (RES_OK resok) =>
      let! new := hsi_nfs3_handle_create resok in
      do! free_sb_res in ret (created new)
  end.

(** For a type that is neither device, socket nor pipe, [what.type] stays 0. *)
Definition mknod_what (mode rdev : Z) : mknoddata3 :=
  let fmt := Z.land mode S_IFMT in
  let spec := {| major3 := dev_major rdev; minor3 := dev_minor rdev |} in
  if fmt =? S_IFCHR then MK_DEVICE NF3CHR (mode_sattr mode) spec
  else if fmt =? S_IFBLK then MK_DEVICE NF3BLK (mode_sattr mode) spec
  else if fmt =? S_IFSOCK then MK_PIPE NF3SOCK (mode_sattr mode)
  else if fmt =? S_IFIFO then MK_PIPE NF3FIFO (mode_sattr mode)
  else MK_VOID.

(** [malloc(NAME_MAX)], then [strcpy] of the name and its terminator. *)
Definition copy_name (name : string) (k : M world (Z * option Z)) : M world (Z * option Z) :=
  let! ok := c_malloc NAME_MAX in
  if negb ok then ret (ENOMEM, None)
  else if NAME_MAX <? strlen name + 1 then undef
  else k.

Definition hsi_nfs3_mknod (parent : Z) (name : string) (mode rdev : Z) : M world (Z * option Z) :=
  if NAME_MAX <? strlen name then ret (ENAMETOOLONG, None)
  else
    let! fh := handle_of parent in
    copy_name name (
      let args := {| mn_where := {| da_dir := fh; da_name := name |};
                     mn_what := mknod_what mode rdev |} in
      let! nfs_client := sb_client in
      let! er := hsi_nfs3_clnt_call nfs_client (NFSPROC3_MKNOD args) in
      match er.2 with
      | None => ret (er.1, None)
      | Some (RES_FAIL st _) =>
          do! clnt_freeres nfs_client in ret (hsi_nfs3_stat_to_errno st, None)
      | Some (RES_OK resok) =>
          let! new := hsi_nfs3_handle_create resok in
          do! clnt_freeres nfs_client in ret (created new)
      end).

Definition hsi_nfs3_symlink (parent : Z) (link name : string) : M world (Z * option Z) :=
  let! fh := handle_of parent in
  let args := {| sy_where := {| da_dir := fh; da_name := name |};
                 sy_symlink_attributes := sattr3_zero; sy_symlink_data := link |} in
  let! clntp := sb_client in
  let! er := hsi_nfs3_clnt_call clntp (NFSPROC3_SYMLINK args) in
  match er.2 with
  | None => ret (er.1, None)
  | Some (RES_FAIL st _) => do! free_sb_res in ret (hsi_nfs3_stat_to_errno st, None)
  | Some (RES_OK resok) =>
      let! new := hsi_nfs3_handle_create resok in
      do! free_sb_res in ret (created new)
  end.

(** ** Removal, renaming, links *)

Definition hsi_nfs3_unlink (parent : Z) (name : string) : M world Z :=
  let! clntp := sb_client in
  let! fh := handle_of parent in
  let args := {| da_dir := fh; da_name := name |} in
  let! er := hsi_nfs3_clnt_call clntp (NFSPROC3_REMOVE args) in
  match er.2 with
  | None => ret er.1
  | Some (RES_FAIL st _) => do! clnt_freeres clntp in ret (hsi_nfs3_stat_to_errno st)
  | Some (RES_OK _) => do! clnt_freeres clntp in ret 0
  end.

Definition hsi_nfs3_rmdir (parent : Z) (name : string) : M world Z :=
  let! fh := handle_of parent in
  let argp := {| da_dir := fh; da_name := name |} in
  let! clntp := sb_client in
  let! er := hsi_nfs3_clnt_call clntp (NFSPROC3_RMDIR argp) in
  match er.2 with
  | None => ret er.1
  | Some res => do! free_sb_res in ret (hsi_nfs3_stat_to_errno (status res))
  end.

Definition hsi_nfs3_rename (parent : Z) (name : string) (newparent : Z) (newname : string) :
    M world Z :=
  let! clntp := sb_client in
  let! from := handle_of parent in
  let! to := handle_of newparent in
  let args := {| rn_from := {| da_dir := from; da_name := name |};
                 rn_to := {| da_dir := to; da_name := newname |} |} in
  let! er := hsi_nfs3_clnt_call clntp (NFSPROC3_RENAME args) in
  match er.2 with
  | None => ret er.1
  | Some (RES_FAIL st _) => do! clnt_freeres clntp in ret (hsi_nfs3_stat_to_errno st)
  | Some (RES_OK _) => do! clnt_freeres clntp in ret 0
  end.

Definition hsi_nfs3_link (inode newparent : Z) (name : string) : M world Z :=
  if NAME_MAX <? strlen name then ret ENAMETOOLONG
  else
    let! file := handle_of inode in
    let! dir := handle_of newparent in
    let! r := copy_name name (
      let args := {| ln_file := file; ln_link := {| da_dir := dir; da_name := name |} |} in
      let! clntp := sb_client in
      let! er := hsi_nfs3_clnt_call clntp (NFSPROC3_LINK args) in
      match er.2 with
      | None => ret (er.1, None)
      | Some (RES_FAIL st _) =>
          do! clnt_freeres clntp in ret (hsi_nfs3_stat_to_errno st, None)
      | Some (RES_OK res) =>
          let fattr := (hsi_nfs3_post2fattr (ln_file_attributes res)
                          (nfs_init_fattr fattr_local)).2 in
          let! err := (if negb (flag (fa_valid fattr) NFS_ATTR_FATTR)
                       then let! r := hsi_nfs3_getattr inode None in ret r.1
                       else nfs_refresh_inode inode fattr) in
          do! clnt_freeres clntp in ret (err, None)
      end) in
    ret r.1.

(** ** Directories *)

(** [sizeof(struct hsfs_readdir_ctx)]. *)
Definition sizeof_ctx : Z := 184.

(** The new node of the list, or [ENOMEM]; names are cut at 255 bytes. *)
Definition __alloc_copy_name (name : string) (off ino : Z) : M world (Z + hsfs_readdir_ctx) :=
  let! ok := c_malloc sizeof_ctx in
  if negb ok then ret (inl ENOMEM)
  else
    let name := String.substring 0 255 name in
    let! ok := c_malloc (strlen name + 1) in
    if negb ok then ret (inl ENOMEM)
    else ret (inr (mk_ctx off name
      {| st_ino := ino; st_mode := 0; st_nlink := 0; st_uid := 0; st_gid := 0; st_rdev := 0;
         st_size := 0; st_blksize := 0; st_blocks := 0;
         st_atim := timespec_zero; st_mtim := timespec_zero; st_ctim := timespec_zero |} NULL)).

(** [__free_ctx] of [hsi_nfs3_readdir.c]: the inodes are put. *)
Fixpoint free_ctx_put (l : list hsfs_readdir_ctx) : M world unit :=
  match l with
  | [] => ret tt
  | c :: l =>
      do! (if ctx_inode c =? NULL then ret tt else hsfs_iput sop (ctx_inode c)) in
      free_ctx_put l
  end.

(** The loop over the entries; [acc] is the list so far, which an error frees. *)
Fixpoint readdir_fill (entries : list entry3) (acc : list hsfs_readdir_ctx) :
    M world (Z * list hsfs_readdir_ctx) :=
  match entries with
  | [] => ret (0, acc)
  | entry :: entries =>
      let! r := __alloc_copy_name (e3_name entry) (s64 (e3_cookie entry)) (e3_fileid entry) in
      match r with
      | inl err => do! free_ctx_put acc in ret (err, [])
      | inr c => readdir_fill entries (acc ++ [c])
      end
  end.

Definition hsi_nfs3_readdir (parent count cookie : Z) : M world (Z * list hsfs_readdir_ctx) :=
  let! clntp := sb_client in
  let! n := deref parent in
  let args := {| ra_dir := hsi_nfs3_getfh3 n; ra_cookie := cookie;
                 ra_cookieverf := ni_cookieverf n; ra_count := count |} in
  let! er := hsi_nfs3_clnt_call clntp (NFSPROC3_READDIR args) in
  match er.2 with
  | None => ret (er.1, [])
  | Some (RES_FAIL st _) => do! clnt_freeres clntp in ret (hsi_nfs3_stat_to_errno st, [])
  | Some (RES_OK resok) =>
      let fattr := (hsi_nfs3_post2fattr (rr_dir_attributes resok)
                      (nfs_init_fattr fattr_local)).2 in
      let! err := nfs_refresh_inode parent fattr in
      if negb (err =? 0) then do! clnt_freeres clntp in ret (err, [])
      else
        do! update parent (set_ni_cookieverf (rr_cookieverf resok)) in
        let! r := readdir_fill (rr_entries resok) [] in
        do! clnt_freeres clntp in ret r
  end.

Definition set_ctx_inode (i : Z) (c : hsfs_readdir_ctx) : hsfs_readdir_ctx :=
  mk_ctx (ctx_off c) (ctx_name c) (ctx_stbuf c) i.

Fixpoint readdir_plus_fill (entries : list entryplus3) (acc : list hsfs_readdir_ctx) :
    M world (Z * list hsfs_readdir_ctx) :=
  match entries with
  | [] => ret (0, acc)
  | entry :: entries =>
      let! r := __alloc_copy_name (ep_name entry) (s64 (ep_cookie entry)) (ep_fileid entry) in
      match r with
      | inl err => do! free_ctx_put acc in ret (err, [])
      | inr c =>
          let fattr := (hsi_nfs3_post2fattr (ep_name_attributes entry)
                          (nfs_init_fattr fattr_local)).2 in
          match ep_name_handle entry with
          | None => do! free_ctx_put (acc ++ [c]) in ret (ENOENT, [])
          | Some h =>
              let! name_fh := copy_fh3 h in
              let! new := hsi_nfs_fhget sop name_fh fattr in
              if IS_ERR new then
                do! free_ctx_put (acc ++ [c]) in ret (s32 (PTR_ERR new), [])
              else readdir_plus_fill entries (acc ++ [set_ctx_inode new c])
          end
      end
  end.

Definition hsi_nfs3_readdir_plus (parent count cookie maxcount : Z) :
    M world (Z * list hsfs_readdir_ctx) :=
  let! clntp := sb_client in
  let! n := deref parent in
  let args := {| rp_dir := hsi_nfs3_getfh3 n; rp_cookie := cookie;
                 rp_cookieverf := ni_cookieverf n; rp_dircount := count;
                 rp_maxcount := maxcount |} in
  let! er := hsi_nfs3_clnt_call clntp (NFSPROC3_READDIRPLUS args) in
  match er.2 with
  | None => ret (er.1, [])
  | Some (RES_FAIL st _) => do! clnt_freeres clntp in ret (hsi_nfs3_stat_to_errno st, [])
  | Some (RES_OK resok) =>
      let fattr := (hsi_nfs3_post2fattr (rpr_dir_attributes resok)
                      (nfs_init_fattr fattr_local)).2 in
      let! err := nfs_refresh_inode parent fattr in
      if negb (err =? 0) then do! clnt_freeres clntp in ret (err, [])
      else
        do! update parent (set_ni_cookieverf (rpr_cookieverf resok)) in
        let! r := readdir_plus_fill (rpr_entries resok) [] in
        do! clnt_freeres clntp in ret r
  end.

(** ** The file system *)

Definition hsi_nfs3_statfs (inode : Z) : M world Z :=
  let! fh := handle_of inode in
  let! clntp := sb_client in
  let! er := hsi_nfs3_clnt_call clntp (NFSPROC3_FSSTAT fh) in
  match er.2 with
  | None => ret er.1
  | Some (RES_FAIL st _) => do! free_sb_res in ret (hsi_nfs3_stat_to_errno st)
  | Some (RES_OK resok) =>
      do! update_sb (fun s =>
        set_sb_tbytes (fs_tbytes resok) (set_sb_fbytes (fs_fbytes resok)
          (set_sb_abytes (fs_abytes resok) (set_sb_tfiles (fs_tfiles resok)
            (set_sb_ffiles (fs_ffiles resok) (set_sb_afiles (fs_afiles resok) s)))))) in
      do! free_sb_res in ret 0
  end.

(** [sb->namlen] is an [int]. *)
Definition hsi_nfs3_pathconf (inode : Z) : M world Z :=
  let! clnt := sb_client in
  let! fh := handle_of inode in
  let! er := hsi_nfs3_clnt_call clnt (NFSPROC3_PATHCONF fh) in
  match er.2 with
  | None => ret er.1
  | Some (RES_FAIL st _) => do! clnt_freeres clnt in ret (hsi_nfs3_stat_to_errno st)
  | Some (RES_OK resok) =>
      do! update_sb (set_sb_namlen (s32 (pc_name_max resok))) in
      do! clnt_freeres clnt in ret 0
  end.

(** The error, and [*fattr] as the function leaves it. *)
Definition hsi_nfs3_fsinfo (fh : nfs_fh3) (fattr : nfs_fattr) : M world (Z * nfs_fattr) :=
  let! clnt := sb_client in
  let! er := hsi_nfs3_clnt_call clnt (NFSPROC3_FSINFO fh) in
  match er.2 with
  | None => ret (er.1, fattr)
  | Some (RES_FAIL st _) => do! clnt_freeres clnt in ret (hsi_nfs3_stat_to_errno st, fattr)
  | Some (RES_OK resok) =>
      do! update_sb (fun s => hsi_fsinfo_to_super s resok) in
      let fattr := (hsi_nfs3_post2fattr (fi_obj_attributes resok) fattr).2 in
      let! r := (if negb (flag (fa_valid fattr) NFS_ATTR_FATTR)
                 then let! r := hsi_nfs3_do_getattr fh (Some fattr) None in
                      ret (r.1.1, default fattr r.1.2)
                 else ret (0, fattr)) in
      do! clnt_freeres clnt in ret r
  end.

End Nfs3Ops.
