(* ===== verification/Nfs3Spec.v ===== *)
(** * What the NFSv3 operations guarantee

    Under the assumptions of this file (the connection is not lost, replies
    have the shape the protocol gives them, memory for inodes is left), every
    operation on a cached inode returns, keeps the invariant and is a [steps];
    a name that was looked up or made is a cached inode afterwards. *)

From S2P Require Import Prelude Bitops Hash Proto World Icache IcacheFacts Attr Rpc NfsInode Wp Blocks Nfs3Ops.

(** ** Assumptions on the server and the allocator *)

Definition handle_ok (h : nfs_fh3) : Prop := Z.of_nat (length h) <= NFS3_FHSIZE.

(** The attributes are there, of an object that exists. *)
Definition attrs_ok (a : post_op_attr) : Prop := exists f, a = Some f /\ f3_nlink f <> 0.

Definition created_ok (r : diropres3ok) : Prop :=
  attrs_ok (do_obj_attributes r) /\ exists h, do_obj r = Some h /\ handle_ok h.

Class ServerLaws `{E : Env} : Prop := {
  (** the discriminant of a failed result is not NFS3_OK *)
  law_status : forall R (p : nfsproc R) r st,
    answers p r -> failed_status p r = Some st -> st <> NFS3_OK;
  law_lookup : forall a r, answers (NFSPROC3_LOOKUP a) (RES_OK r) ->
    handle_ok (lk_object r) /\ attrs_ok (lk_obj_attributes r);
  law_create : forall a r, answers (NFSPROC3_CREATE a) (RES_OK r) -> created_ok r;
  law_mkdir : forall a r, answers (NFSPROC3_MKDIR a) (RES_OK r) -> created_ok r;
  law_symlink : forall a r, answers (NFSPROC3_SYMLINK a) (RES_OK r) -> created_ok r;
  law_mknod : forall a r, answers (NFSPROC3_MKNOD a) (RES_OK r) -> created_ok r;
  law_fsinfo : forall fh r, answers (NFSPROC3_FSINFO fh) (RES_OK r) ->
    0 <= fi_rtpref r /\ 0 <= fi_rtmax r /\ 0 <= fi_wtpref r /\ 0 <= fi_wtmax r;
  law_readdirplus : forall a r, answers (NFSPROC3_READDIRPLUS a) (RES_OK r) ->
    Z.of_nat (length (rpr_entries r)) < 2 ^ 31 /\
    Forall (fun e => attrs_ok (ep_name_attributes e) /\
      exists h, ep_name_handle e = Some h /\ handle_ok h) (rpr_entries r) }.

(** Up to 2^32 inodes fit in memory. *)
Class MemLaws `{E : Env} : Prop := {
  inode_memory : forall h e, Z.of_nat (size h) < 2 ^ 32 ->
    exists p e', malloc_inode h e = (Some p, e');
  (** and small buffers always do *)
  small_memory : forall n e, n < 4096 -> exists e', malloc n e = (true, e') }.

Section Rules.
Context `{E : Env}.

Lemma wp_handle p n (Q : nfs_fh3 -> world -> Prop) w :
  w_heap w !! p = Some n -> Q (hsi_nfs3_getfh3 n) w -> wp (handle_of p) Q w.
Proof. intros Hp HQ. apply wp_bind. eapply wp_deref; [done|]. by apply wp_ret. Qed.

Lemma wp_sb_client (Q : Z -> world -> Prop) w : Q (sb_clntp (w_sb w)) w -> wp sb_client Q w.
Proof. intros HQ. apply wp_bind, wp_get_sb, wp_ret. done. Qed.

Lemma wp_free_sb (Q : unit -> world -> Prop) w :
  sb_clntp (w_sb w) ∈ w_clnts w -> Q tt w -> wp free_sb_res Q w.
Proof. intros Hl HQ. apply wp_bind, wp_get_sb. by apply wp_freeres. Qed.

Lemma wp_malloc n (Q : bool -> world -> Prop) w :
  (forall b e, Q b (set_env e w)) -> wp (c_malloc n) Q w.
Proof. apply wp_from_env. Qed.

Lemma wp_copy_fh3 h (Q : nfs_fh -> world -> Prop) w :
  handle_ok h -> (forall f, fh_wf f -> fh_bytes f = h -> Q f w) -> wp (copy_fh3 h) Q w.
Proof.
  intros Hh HQ. unfold copy_fh3. destruct (nfs_copy_fh3 fh_local h) as [f|] eqn:Hf.
  - apply wp_ret. destruct (copy_fh3_wf fh_local h f fh_zero_wf Hf). by apply HQ.
  - unfold nfs_copy_fh3, handle_ok, NFS3_FHSIZE, NFS_MAXFHSIZE in *. case_if_in Hf; [done|lia].
Qed.
End Rules.

(** The specification of an operation run from [w]. *)
Definition spec `{E : Env} {A} (w : world) (m : M world A) (Post : A -> world -> Prop) : Prop :=
  wp m (fun r w' => good w' /\ steps w w' /\ Post r w') w.

(** [wp_go] runs the rules that need no choice. *)
Ltac wp_go :=
  repeat (cbv beta iota zeta delta [fst snd];
    lazymatch goal with
    | |- wp (bind _ _) _ _ => apply wp_bind
    | |- wp sb_client _ _ => apply wp_sb_client
    | |- wp get_sb _ _ => apply wp_get_sb
    | |- wp (handle_of _) _ _ => eapply wp_handle; [eassumption|]
    | |- wp (deref _) _ _ => eapply wp_deref; [eassumption|]
    | |- wp free_sb_res _ _ => apply wp_free_sb; [done|]
    | |- wp (clnt_freeres _) _ _ => apply wp_freeres; [done|]
    | |- wp (ret _) _ _ => apply wp_ret
    end); cbv beta iota zeta delta [fst snd].

(** The end of an operation that changed the environment alone. *)
Ltac env_done := split; [by apply good_env|split; [apply steps_env|simpl]].

(** A call on the client of the superblock: one goal for a failed call, one for
    an answer. *)
Ltac wp_nfs := apply wp_call; [done|let e := fresh "e" in let err := fresh "err" in
  let Herr := fresh "Herr" in intros e err Herr
  |let e := fresh "e" in let res := fresh "res" in let Hans := fresh "Hans" in intros e res Hans].

Section Specs.
Context {E : Env} {HC : Connected} {HS : ServerLaws}.

Lemma errno_nonzero {R} (p : nfsproc R) r st :
  answers p r -> failed_status p r = Some st -> hsi_nfs3_stat_to_errno st <> 0.
Proof. intros Ha Hst H0. destruct (law_status _ p r st Ha Hst). by apply stat_to_errno_zero. Qed.

(** What GETATTR answered is what is filled in. *)
Definition got_attr (fh : nfs_fh3) (st st' : option stat) : Prop :=
  exists attr, answers (NFSPROC3_GETATTR fh) (RES_OK attr) /\
    st' = (fun s => (hsi_nfs3_fattr2stat attr s).2) <$> st.

Lemma do_getattr_spec fh fa st w :
  good w ->
  spec w (hsi_nfs3_do_getattr fh fa st) (fun r w' =>
    (exists e, w' = set_env e w) /\
    (r.1.1 = 0 -> got_attr fh st r.2 /\ (is_Some fa -> is_Some r.1.2)) /\
    (r.2 = None <-> st = None)).
Proof.
  intros Hg. pose proof (good_clnt _ Hg) as Hl. unfold spec, hsi_nfs3_do_getattr. wp_go.
  wp_nfs; [|destruct res as [attr|s []]].
  - wp_go. env_done. split_and!; [eauto|done|done].
  - wp_go. env_done. split_and!; [eauto| |]; simpl.
    + intros _. split; [by exists attr|]. intros [f ->]. eauto.
    + destruct st; done.
  - wp_go. env_done. split_and!; [eauto| |done]. simpl. intros H0.
    by destruct (errno_nonzero _ _ _ Hans eq_refl).
Qed.

(** Refreshing is a [steps]. *)
Lemma refresh_spec p f w :
  good w -> is_Some (w_heap w !! p) -> spec w (nfs_refresh_inode p f) (fun _ _ => True).
Proof.
  intros Hg [n Hn]. eapply wp_refresh; [done|]. split_and!; [|by eapply steps_update, refreshed_kept|done].
  eapply good_update; [done..|]. apply refreshed_identity.
Qed.

Lemma spec_trans {A B} w (m : M world A) (k : A -> M world B) P Q :
  spec w m P ->
  (forall a w', good w' -> steps w w' -> P a w' -> spec w' (k a) Q) ->
  spec w (bind m k) Q.
Proof.
  intros Hm Hk. apply wp_bind. eapply wp_mono; [exact Hm|].
  intros a w' (Hg & Hs & HP). eapply wp_mono; [by apply Hk|].
  intros b w'' (Hg' & Hs' & HQ). split_and!; [done| |done]. by etrans.
Qed.

Lemma spec_ret {A} w (a : A) (Q : A -> world -> Prop) : good w -> Q a w -> spec w (ret a) Q.
Proof. intros Hg HQ. apply wp_ret. split_and!; done. Qed.

Lemma spec_mono {A} w (m : M world A) (P Q : A -> world -> Prop) :
  spec w m P -> (forall a w', good w' -> steps w w' -> P a w' -> Q a w') -> spec w m Q.
Proof. intros Hm HPQ. eapply wp_mono; [exact Hm|]. naive_solver. Qed.

Lemma getattr_spec p n st w :
  good w -> w_heap w !! p = Some n ->
  spec w (hsi_nfs3_getattr p st) (fun r _ => (r.2 = None <-> st = None) /\
    (r.1 = 0 -> got_attr (hsi_nfs3_getfh3 n) st r.2)).
Proof.
  intros Hg Hn. unfold hsi_nfs3_getattr. apply wp_bind. eapply wp_handle; [done|].
  eapply spec_trans; [by apply do_getattr_spec|].
  intros [[err fa] st'] w1 Hg1 Hs1 (_ & Hf & Hst). simpl in *.
  case_if; [by apply spec_ret|].
  destruct (Hf ltac:(done)) as [Hgot Hfa]. destruct (Hfa ltac:(eauto)) as [f ->].
  eapply spec_trans; [apply refresh_spec; [done|]; eapply steps_live; eauto|].
  intros err' w2 Hg2 Hs2 _. by apply spec_ret.
Qed.
End Specs.

(** ** Inodes from replies *)

Definition fattr_of (a : post_op_attr) : nfs_fattr :=
  (hsi_nfs3_post2fattr a (nfs_init_fattr fattr_local)).2.

Lemma fattr_of_usable a :
  attrs_ok a -> Z.land (fa_valid (fattr_of a)) NFS_ATTR_FATTR <> 0 /\ fa_nlink (fattr_of a) <> 0.
Proof. intros (f & -> & Hn). split; [by vm_compute|exact Hn]. Qed.

(** [n'] in the new world is the inode of handle [h]: one that was cached
    before, or a new one the kernel has no reference to. *)
Definition inode_of `{E : Env} (w : world) (h : nfs_fh3) (a : post_op_attr) (p : Z) (n' : nfs_inode) :
    Prop :=
  fh_bytes (ni_fh n') = h /\ ni_fileid n' = fa_fileid (fattr_of a) /\
  ((w_heap w !! p = None /\ in_private (ni_hsfs_inode n') = 0) \/
   exists n, w_heap w !! p = Some n /\ kept n n').

Section Inodes.
Context {E : Env} {HC : Connected} {HS : ServerLaws} {HML : MallocLaws} {HMem : MemLaws}.
Hypothesis Hbad : bad_inode_placed.
Abbreviation sop := hsi_nfs_sop.

Lemma alloc_succeeds w e' :
  Z.of_nat (size (w_heap w)) < 2 ^ 32 -> nfs_alloc_inode w <> Ret NULL (set_env e' w).
Proof.
  intros Hsz. unfold nfs_alloc_inode.
  destruct (inode_memory (w_heap w) (w_env w) Hsz) as (p & e & Hm). rewrite Hm. intros [= Hp _].
  apply malloc_inode_law in Hm as [_ [Hv _]]. unfold NULL in Hp. lia.
Qed.

Lemma cache_frame_steps w w' p n :
  w_heap w !! p = None -> w_heap w' = <[p := n]> (w_heap w) ->
  in_private (ni_hsfs_inode n) = 0 -> cache_frame w w' -> steps w w'.
Proof.
  intros Hp Hh Hpr (Ho & Hc & _ & t1 & t2 & c & Hs). constructor; rewrite ?Hs; try done.
  - intros q m Hq. exists m. split; [|done]. rewrite Hh, lookup_insert_ne by congruence. done.
  - intros q m Hq. rewrite Hh. intros [[<- <-]|[_ ?]]%lookup_insert_Some; congruence.
Qed.

Lemma cache_frame_good w w' : good w -> cache_ok w' -> cache_frame w w' -> good w'.
Proof.
  intros [_ Hc Ha Hr Hw] Hok (_ & Hcl & _ & t1 & t2 & c & Hs).
  constructor; rewrite ?Hs, ?Hcl; done.
Qed.

(** [hsi_nfs_fhget] on a reply that carries attributes gives the inode. *)
Lemma fhget_usable fh a w :
  good w -> fh_wf fh -> attrs_ok a -> Z.of_nat (size (w_heap w)) < 2 ^ 32 ->
  spec w (hsi_nfs_fhget sop fh (fattr_of a)) (fun p w' =>
    (exists n', w_heap w' !! p = Some n' /\ inode_of w (fh_bytes fh) a p n') /\
    (p =? NULL) = false /\ IS_ERR p = false /\
    Z.of_nat (size (w_heap w')) <= Z.of_nat (size (w_heap w)) + 1).
Proof.
  intros Hg Hfh Ha Hsz. destruct (fattr_of_usable a Ha) as [Hval Hnl].
  destruct (fhget_spec sop Hbad fh (fattr_of a) w (good_cache _ Hg) Hfh) as (p & w' & Hf & Hres).
  exists p, w'. split; [done|].
  pose proof (fhget_result_ok _ _ _ _ _ _ Hfh (good_cache _ Hg) Hres) as Hok'.
  assert (Hptr : forall n, w_heap w' !! p = Some n -> (p =? NULL) = false /\ IS_ERR p = false).
  { intros n Hn. pose proof (inv_ptr _ _ (proj1 Hok') _ _ Hn) as Hv.
    split; [by apply valid_ptr_nonnull|by apply valid_ptr_not_err]. }
  inversion Hres as [[H0|H0]|e' Hal|q n Hq [Hfid Hb]|q c w1 Hno Hq Hv Hpk Hw1 Hok1 Hfr]; subst.
  - done.
  - done.
  - by apply alloc_succeeds in Hal.
  - destruct (refreshed_identity (fattr_of a) n) as (Hfid' & Hb' & _).
    assert (Hl : w_heap (set_heap (<[p:=(refreshed (fattr_of a) n).2]> (w_heap w)) w) !! p =
                 Some (refreshed (fattr_of a) n).2) by apply lookup_insert_eq.
    split_and!; [|by eapply steps_update, refreshed_kept| |by eapply Hptr|by eapply Hptr|].
    + eapply good_update; [done..|apply refreshed_identity].
    + exists (refreshed (fattr_of a) n).2. split; [done|]. unfold inode_of. split_and!; [congruence|congruence|].
      right. exists n. split; [done|apply refreshed_kept].
    + simpl. rewrite map_size_insert_Some by eauto. lia.
  - assert (Hl : w_heap w' !! p = Some (new_inode fh (fattr_of a) (w_sb w) c))
      by (rewrite Hw1; apply lookup_insert_eq).
    assert (Hst : steps w w') by (by eapply cache_frame_steps).
    destruct (new_inode_handle fh (fattr_of a) (w_sb w) c Hfh) as [[Hi Hb] _].
    split_and!; [|done| |by eapply Hptr|by eapply Hptr|].
    + by eapply cache_frame_good.
    + eexists. split; [done|]. unfold inode_of. split_and!; [done|done|]. by left.
    + rewrite Hw1, map_size_insert_None by done. lia.
Qed.

Lemma inode_of_kept w h a p n n' : inode_of w h a p n -> kept n n' -> inode_of w h a p n'.
Proof.
  intros (Hb & Hf & Hc) Hk. pose proof Hk as [(Hfid & Hfh & _) Hpr]. unfold inode_of.
  split_and!; [congruence|congruence|]. destruct Hc as [[? ?]|(m & ? & ?)].
  - left. split; [done|congruence].
  - right. exists m. split; [done|]. by eapply kept_trans.
Qed.

Definition lookup_post (w : world) (args : diropargs3) (r : Z * option Z) (w' : world) : Prop :=
  (r.1 <> 0 /\ r.2 = None) \/
  r.1 = 0 /\ exists child n' resok,
    r.2 = Some child /\ (child =? NULL) = false /\ w_heap w' !! child = Some n' /\
    answers (NFSPROC3_LOOKUP args) (RES_OK resok) /\
    inode_of w (lk_object resok) (lk_obj_attributes resok) child n'.

Lemma lookup_spec p n name w :
  good w -> w_heap w !! p = Some n -> Z.of_nat (size (w_heap w)) < 2 ^ 32 ->
  spec w (hsi_nfs3_lookup p name)
    (lookup_post w {| da_dir := hsi_nfs3_getfh3 n; da_name := name |}).
Proof.
  intros Hg Hn Hsz. pose proof (good_clnt _ Hg) as Hl. unfold spec, hsi_nfs3_lookup. wp_go.
  wp_nfs; [|destruct res as [resok|st x]].
  - wp_go. env_done. by left.
  - pose proof (law_lookup _ _ Hans) as [Hh Ha]. wp_go. apply wp_copy_fh3; [done|].
    intros f Hf Hb. wp_go.
    eapply wp_mono; [apply (fhget_usable f (lk_obj_attributes resok) (set_env e w));
      [by apply good_env|done..]|].
    intros child w1 (Hg1 & Hs1 & (n' & Hn' & Hi) & Hnn & _ & _).
    apply wp_bind. apply wp_free_sb; [apply Hg1|]. wp_go.
    split; [done|]. split; [etrans; [apply steps_env|done]|]. right. split; [done|].
    exists child, n', resok. rewrite Hb in Hi. done.
  - wp_go. env_done. left. split; [|done]. exact (errno_nonzero _ _ _ Hans eq_refl).
Qed.

(** An inode made by a call [p]. *)
Definition created_post (w : world) (p : nfsproc (nfsres diropres3ok wcc_data))
    (r : Z * option Z) (w' : world) : Prop :=
  r.1 <> 0 \/
  r.1 = 0 /\ exists new n' res h,
    r.2 = Some new /\ (new =? NULL) = false /\ w_heap w' !! new = Some n' /\
    answers p (RES_OK res) /\ do_obj res = Some h /\
    inode_of w h (do_obj_attributes res) new n'.

Lemma handle_create_spec res w :
  good w -> created_ok res -> Z.of_nat (size (w_heap w)) < 2 ^ 32 ->
  spec w (hsi_nfs3_handle_create res) (fun new w' =>
    (new =? NULL) = false /\ IS_ERR new = false /\
    exists n' h, w_heap w' !! new = Some n' /\ do_obj res = Some h /\
      inode_of w h (do_obj_attributes res) new n').
Proof.
  intros Hg (Ha & h & Hh & Hok) Hsz. unfold hsi_nfs3_handle_create. rewrite Hh. cbv zeta.
  apply wp_bind, wp_copy_fh3; [done|]. intros f Hf Hb.
  eapply wp_mono; [by apply (fhget_usable f (do_obj_attributes res) w)|].
  intros new w1 (Hg1 & Hs1 & (n' & Hn' & Hi) & Hnn & Herr & _). split_and!; try done.
  exists n', h. rewrite Hb in Hi. done.
Qed.

(** The common tail of MKDIR, SYMLINK and MKNOD. *)
Lemma created_tail w e (p : nfsproc (nfsres diropres3ok wcc_data)) res :
  good w -> Z.of_nat (size (w_heap w)) < 2 ^ 32 -> answers p (RES_OK res) -> created_ok res ->
  forall free : M world unit,
  (forall Q w', good w' -> steps w w' -> Q tt w' -> wp free Q w') ->
  wp (bind (hsi_nfs3_handle_create res) (fun new => bind free (fun _ => ret (created new))))
    (fun r w' => good w' /\ steps w w' /\ created_post w p r w') (set_env e w).
Proof.
  intros Hg Hsz Hans Hok free Hfree. apply wp_bind.
  eapply wp_mono; [apply handle_create_spec; [by apply good_env|done..]|].
  intros new w1 (Hg1 & Hs1 & Hnn & Herr & n' & h & Hn' & Hh & Hi).
  assert (Hs : steps w w1) by (etrans; [apply steps_env|done]).
  apply wp_bind, Hfree; [done..|]. apply wp_ret. split_and!; [done..|].
  right. unfold created. rewrite Herr. split; [done|]. by exists new, n', res, h.
Qed.

Lemma mkdir_spec p n name mode w :
  good w -> w_heap w !! p = Some n -> Z.of_nat (size (w_heap w)) < 2 ^ 32 ->
  spec w (hsi_nfs3_mkdir p name mode) (created_post w (NFSPROC3_MKDIR
    {| mk_where := {| da_dir := hsi_nfs3_getfh3 n; da_name := name |};
       mk_attributes := mode_sattr mode |})).
Proof.
  intros Hg Hn Hsz. pose proof (good_clnt _ Hg) as Hl. unfold spec, hsi_nfs3_mkdir. wp_go.
  wp_nfs; [|destruct res as [resok|st x]].
  - wp_go. env_done. by left.
  - cbv beta iota zeta delta [fst snd]. apply created_tail; [done..|by eapply law_mkdir|].
    intros Q w' Hg' _ HQ. apply wp_free_sb; [apply Hg'|done].
  - wp_go. env_done. left. exact (errno_nonzero _ _ _ Hans eq_refl).
Qed.

Lemma symlink_spec p n link name w :
  good w -> w_heap w !! p = Some n -> Z.of_nat (size (w_heap w)) < 2 ^ 32 ->
  spec w (hsi_nfs3_symlink p link name) (created_post w (NFSPROC3_SYMLINK
    {| sy_where := {| da_dir := hsi_nfs3_getfh3 n; da_name := name |};
       sy_symlink_attributes := sattr3_zero; sy_symlink_data := link |})).
Proof.
  intros Hg Hn Hsz. pose proof (good_clnt _ Hg) as Hl. unfold spec, hsi_nfs3_symlink. wp_go.
  wp_nfs; [|destruct res as [resok|st x]].
  - wp_go. env_done. by left.
  - cbv beta iota zeta delta [fst snd]. apply created_tail; [done..|by eapply law_symlink|].
    intros Q w' Hg' _ HQ. apply wp_free_sb; [apply Hg'|done].
  - wp_go. env_done. left. exact (errno_nonzero _ _ _ Hans eq_refl).
Qed.

Lemma wp_copy_name name (k : M world (Z * option Z)) (Q : Z * option Z -> world -> Prop) w :
  strlen name < NAME_MAX ->
  (forall e, Q (ENOMEM, None) (set_env e w)) -> (forall e, wp k Q (set_env e w)) ->
  wp (copy_name name k) Q w.
Proof.
  intros Hlen Hno Hk. apply wp_bind, wp_malloc. intros [] e; simpl; [|by apply wp_ret].
  rewrite (proj2 (Z.ltb_ge _ _)) by lia. apply Hk.
Qed.

Lemma mknod_spec p n name mode rdev w :
  good w -> w_heap w !! p = Some n -> Z.of_nat (size (w_heap w)) < 2 ^ 32 ->
  strlen name < NAME_MAX ->
  spec w (hsi_nfs3_mknod p name mode rdev) (created_post w (NFSPROC3_MKNOD
    {| mn_where := {| da_dir := hsi_nfs3_getfh3 n; da_name := name |};
       mn_what := mknod_what mode rdev |})).
Proof.
  intros Hg Hn Hsz Hlen. pose proof (good_clnt _ Hg) as Hl. unfold spec, hsi_nfs3_mknod.
  rewrite (proj2 (Z.ltb_ge _ _)) by lia. wp_go. apply wp_copy_name; [done| |]; intros e.
  { env_done. by left. }
  wp_go. wp_nfs; [|destruct res as [resok|st x]].
  - wp_go. split; [by apply good_env, good_env|]. split; [|by left].
    etrans; apply steps_env.
  - cbv beta iota zeta delta [fst snd]. apply (created_tail w e0); [done..|by eapply law_mknod|].
    intros Q w' Hg' Hs' HQ. apply wp_freeres; [|done].
    simpl. rewrite (steps_clnts _ _ Hs'). done.
  - wp_go. split; [by apply good_env, good_env|]. split; [etrans; apply steps_env|].
    left. exact (errno_nonzero _ _ _ Hans eq_refl).
Qed.
End Inodes.

(** ** The other operations *)
Section MoreSpecs.
Context {E : Env} {HC : Connected} {HS : ServerLaws}.
Abbreviation sop := hsi_nfs_sop.

(** Success is reported only when the server answered OK to this very call. *)
Lemma access_spec p n mask w :
  good w -> w_heap w !! p = Some n ->
  spec w (hsi_nfs3_access p mask) (fun err _ => err = 0 -> exists r,
    answers (NFSPROC3_ACCESS {| ac_object := hsi_nfs3_getfh3 n;
                                ac_access := Z.land mask FULL_ACCESS |}) (RES_OK r)).
Proof.
  intros Hg Hn. pose proof (good_clnt _ Hg) as Hl. unfold spec, hsi_nfs3_access. wp_go.
  wp_nfs; [|destruct res as [resok|st x]]; wp_go; env_done; [done|eauto|].
  intros H0. by destruct (errno_nonzero _ _ _ Hans eq_refl).
Qed.

Lemma readlink_spec p n w :
  good w -> w_heap w !! p = Some n -> spec w (hsi_nfs3_readlink p) (fun r _ =>
    forall l, r = (0, Some l) -> exists a,
      answers (NFSPROC3_READLINK (hsi_nfs3_getfh3 n))
        (RES_OK {| rl_symlink_attributes := a; rl_data := l |})).
Proof.
  intros Hg Hn. pose proof (good_clnt _ Hg) as Hl. unfold spec, hsi_nfs3_readlink. wp_go.
  wp_nfs; [|destruct res as [resok|st x]].
  - wp_go. env_done. intros l [= ? ?].
  - wp_go. apply wp_malloc. intros b e'. wp_go. split; [by apply good_env, good_env|].
    split; [etrans; apply steps_env|]. intros l [= Hb]. destruct b; [|done].
    injection Hb as <-. exists (rl_symlink_attributes resok). by destruct resok.
  - wp_go. env_done. intros l [= ? ?].
Qed.

Lemma unlink_spec p n name w :
  good w -> w_heap w !! p = Some n -> spec w (hsi_nfs3_unlink p name) (fun err _ =>
    err = 0 -> exists r,
      answers (NFSPROC3_REMOVE {| da_dir := hsi_nfs3_getfh3 n; da_name := name |}) (RES_OK r)).
Proof.
  intros Hg Hn. pose proof (good_clnt _ Hg) as Hl. unfold spec, hsi_nfs3_unlink. wp_go.
  wp_nfs; [|destruct res as [resok|st x]]; wp_go; env_done; [done|eauto|].
  intros H0. by destruct (errno_nonzero _ _ _ Hans eq_refl).
Qed.

Lemma rmdir_spec p n name w :
  good w -> w_heap w !! p = Some n -> spec w (hsi_nfs3_rmdir p name) (fun err _ =>
    err = 0 -> exists r,
      answers (NFSPROC3_RMDIR {| da_dir := hsi_nfs3_getfh3 n; da_name := name |}) (RES_OK r)).
Proof.
  intros Hg Hn. pose proof (good_clnt _ Hg) as Hl. unfold spec, hsi_nfs3_rmdir. wp_go.
  wp_nfs; [|destruct res as [resok|st x]]; wp_go; env_done; [done|eauto|].
  intros H0. by destruct (errno_nonzero _ _ _ Hans eq_refl).
Qed.

Lemma rename_spec p n name q m newname w :
  good w -> w_heap w !! p = Some n -> w_heap w !! q = Some m ->
  spec w (hsi_nfs3_rename p name q newname) (fun err _ => err = 0 -> exists r,
    answers (NFSPROC3_RENAME
      {| rn_from := {| da_dir := hsi_nfs3_getfh3 n; da_name := name |};
         rn_to := {| da_dir := hsi_nfs3_getfh3 m; da_name := newname |} |}) (RES_OK r)).
Proof.
  intros Hg Hn Hm. pose proof (good_clnt _ Hg) as Hl. unfold spec, hsi_nfs3_rename.
  apply wp_bind, wp_sb_client, wp_bind. eapply wp_handle; [exact Hn|].
  apply wp_bind. eapply wp_handle; [exact Hm|]. wp_go.
  wp_nfs; [|destruct res as [resok|st x]]; wp_go; env_done; [done|eauto|].
  intros H0. by destruct (errno_nonzero _ _ _ Hans eq_refl).
Qed.

Lemma link_spec p n q m name w :
  good w -> w_heap w !! p = Some n -> w_heap w !! q = Some m -> strlen name < NAME_MAX ->
  spec w (hsi_nfs3_link p q name) (fun err _ => err = 0 -> exists r,
    answers (NFSPROC3_LINK
      {| ln_file := hsi_nfs3_getfh3 n;
         ln_link := {| da_dir := hsi_nfs3_getfh3 m; da_name := name |} |}) (RES_OK r)).
Proof.
  intros Hg Hn Hm Hlen. pose proof (good_clnt _ Hg) as Hl. unfold spec, hsi_nfs3_link.
  rewrite (proj2 (Z.ltb_ge _ _)) by lia.
  apply wp_bind. eapply wp_handle; [exact Hn|].
  apply wp_bind. eapply wp_handle; [exact Hm|]. apply wp_bind.
  apply wp_copy_name; [done| |]; intros e; [wp_go; by env_done|].
  wp_go. wp_nfs; [|destruct res as [res|st x]].
  - wp_go. split; [by apply good_env, good_env|]. split; [etrans; apply steps_env|done].
  - wp_go. set (w2 := set_env e0 (set_env e w)).
    assert (Hg2 : good w2) by (by apply good_env, good_env).
    assert (Hs2 : steps w w2) by (etrans; apply steps_env).
    set (m2 := if negb _ then _ else _).
    assert (Hsp : spec w2 m2 (fun _ _ => True)).
    { unfold m2. case_if.
      - eapply spec_trans; [by apply (getattr_spec p n)|].
        intros r w3 Hg3 _ _. by apply spec_ret.
      - apply refresh_spec; [done|by exists n]. }
    eapply wp_mono; [exact Hsp|]. intros err w3 (Hg3 & Hs3 & _).
    apply wp_bind, wp_freeres.
    { rewrite (steps_clnts _ _ Hs3). done. }
    wp_go. split; [done|]. split; [by etrans|]. eauto.
  - wp_go. split; [by apply good_env, good_env|]. split; [etrans; apply steps_env|].
    intros H0. by destruct (errno_nonzero _ _ _ Hans eq_refl).
Qed.

Lemma nfs3_setattr_spec p n fattr attr w :
  good w -> w_heap w !! p = Some n -> spec w (hsi_nfs3_setattr p fattr attr) (fun r _ =>
    r.1 = 0 -> exists wcc, answers (NFSPROC3_SETATTR
      {| se_object := hsi_nfs3_getfh3 n; se_new_attributes := sattr3_of_iattr attr;
         se_guard := None |}) (RES_OK wcc) /\ after wcc <> None).
Proof.
  intros Hg Hn. pose proof (good_clnt _ Hg) as Hl. unfold spec, hsi_nfs3_setattr. wp_go.
  wp_nfs; [|destruct res as [wcc|st x]]; wp_go; env_done; [done| |].
  - intros H0. exists wcc. split; [done|].
    destruct (after wcc) eqn:Ha; [done|]. unfold hsi_nfs3_wcc2fattr in H0. by rewrite Ha in H0.
  - intros H0. by destruct (errno_nonzero _ _ _ Hans eq_refl).
Qed.

(** A change of attributes: no call when nothing is left to change. *)
Lemma nfs_setattr_spec p n attr w :
  good w -> w_heap w !! p = Some n -> spec w (hsi_nfs_setattr sop p attr) (fun err w' =>
    let a := setattr_filter (ni_hsfs_inode n) attr in
    if ia_valid a =? 0 then err = 0 /\ w' = w
    else err = 0 -> exists wcc, answers (NFSPROC3_SETATTR
      {| se_object := hsi_nfs3_getfh3 n; se_new_attributes := sattr3_of_iattr a;
         se_guard := None |}) (RES_OK wcc)).
Proof.
  intros Hg Hn. unfold hsi_nfs_setattr. apply wp_bind. eapply wp_deref; [done|]. cbv zeta.
  case_if; [by apply spec_ret|].
  eapply spec_trans; [by eapply nfs3_setattr_spec|].
  intros [err f] w1 Hg1 Hs1 Hp. simpl in *.
  assert (Hsp : spec w1 (if err =? 0 then do! nfs_refresh_inode p f in ret tt else ret tt)
                  (fun _ _ => True)).
  { case_if; [|by apply spec_ret]. eapply spec_trans; [apply refresh_spec|].
    - done.
    - eapply steps_live; [done|]. by exists n.
    - intros st w2 Hg2 _ _. by apply spec_ret. }
  eapply spec_trans; [exact Hsp|]. intros [] w2 Hg2 _ _. apply spec_ret; [done|].
  intros H0. destruct (Hp H0) as (wcc & Ha & _). eauto.
Qed.
End MoreSpecs.

(** ** CREATE, directories and the file system *)
Section LastSpecs.
Context {E : Env} {HC : Connected} {HS : ServerLaws}.
Abbreviation sop := hsi_nfs_sop.

Section Create.
Context {HML : MallocLaws} {HMem : MemLaws}.
Hypothesis Hbad : bad_inode_placed.

Lemma create_spec p n name mode w :
  good w -> w_heap w !! p = Some n -> Z.of_nat (size (w_heap w)) < 2 ^ 32 ->
  spec w (hsi_nfs3_create p name mode) (created_post w (NFSPROC3_CREATE
    {| cr_where := {| da_dir := hsi_nfs3_getfh3 n; da_name := name |};
       cr_how := create_how (ni_hsfs_inode n) mode |})).
Proof.
  intros Hg Hn Hsz. pose proof (good_clnt _ Hg) as Hl. unfold spec, hsi_nfs3_create. wp_go.
  wp_nfs; [|destruct res as [resok|st x]].
  - wp_go. env_done. by left.
  - wp_go. eapply wp_mono; [apply (handle_create_spec Hbad);
      [by apply good_env|by eapply law_create|done]|].
    intros new w1 (Hg1 & Hs1 & Hnn & Herr & n' & h & Hn' & Hh & Hi). rewrite Herr.
    set (m := match cr_how _ with EXCLUSIVE _ => _ | _ => _ end).
    assert (Hsp : spec w1 m (fun _ _ => True)).
    { unfold m. simpl. destruct (create_how _ _); try (by apply spec_ret).
      apply wp_bind. eapply wp_deref; [done|]. cbv zeta.
      eapply spec_mono; [by eapply nfs_setattr_spec|]. done. }
    apply wp_bind. eapply wp_mono; [exact Hsp|]. intros st w2 (Hg2 & Hs2 & _).
    apply wp_bind, wp_freeres.
    { rewrite (steps_clnts _ _ Hs2), (steps_clnts _ _ Hs1). done. }
    wp_go. split; [done|]. split; [etrans; [apply (steps_env e)|by etrans]|].
    destruct (decide (st = 0)) as [->|]; [right|by left]. split; [done|].
    destruct (steps_inodes _ _ Hs2 _ _ Hn') as (n2 & Hn2 & Hk).
    exists new, n2, resok, h. split_and!; try done. by eapply inode_of_kept.
  - wp_go. env_done. left. exact (errno_nonzero _ _ _ Hans eq_refl).
Qed.
End Create.

Lemma set_cookieverf_kept v n : kept n (set_ni_cookieverf v n).
Proof. done. Qed.

(** The listing an answer is turned into. *)
Definition ctx_of_entry (name : string) (cookie fileid inode : Z) : hsfs_readdir_ctx :=
  mk_ctx (s64 cookie) (String.substring 0 255 name)
    {| st_ino := fileid; st_mode := 0; st_nlink := 0; st_uid := 0; st_gid := 0; st_rdev := 0;
       st_size := 0; st_blksize := 0; st_blocks := 0;
       st_atim := timespec_zero; st_mtim := timespec_zero; st_ctim := timespec_zero |} inode.

Lemma alloc_copy_name_wp name off ino (Q : Z + hsfs_readdir_ctx -> world -> Prop) w :
  (forall e, Q (inl ENOMEM) (set_env e w)) ->
  (forall e, Q (inr (mk_ctx off (String.substring 0 255 name)
     {| st_ino := ino; st_mode := 0; st_nlink := 0; st_uid := 0; st_gid := 0; st_rdev := 0;
        st_size := 0; st_blksize := 0; st_blocks := 0;
        st_atim := timespec_zero; st_mtim := timespec_zero; st_ctim := timespec_zero |} NULL))
     (set_env e w)) ->
  wp (__alloc_copy_name name off ino) Q w.
Proof.
  intros Hno Hyes. unfold __alloc_copy_name. apply wp_bind, wp_malloc. intros [] e; simpl; wp_go; [|done].
  apply wp_malloc. intros [] e'; simpl; wp_go; [apply Hyes|apply Hno].
Qed.

Lemma free_ctx_null acc (Q : unit -> world -> Prop) w :
  Forall (fun c => ctx_inode c = NULL) acc -> Q tt w -> wp (free_ctx_put acc) Q w.
Proof.
  intros Hacc HQ. induction Hacc as [|c acc Hc _ IH]; simpl; [by apply wp_ret|].
  rewrite Hc. apply wp_bind. simpl. by apply wp_ret.
Qed.

Lemma readdir_fill_spec l acc w :
  good w -> Forall (fun c => ctx_inode c = NULL) acc ->
  spec w (readdir_fill l acc) (fun r _ => r.1 = 0 ->
    r.2 = acc ++ map (fun e => ctx_of_entry (e3_name e) (e3_cookie e) (e3_fileid e) NULL) l).
Proof.
  revert acc w. induction l as [|x l IH]; intros acc w Hg Hacc; simpl.
  - apply spec_ret; [done|]. by rewrite app_nil_r.
  - apply wp_bind, alloc_copy_name_wp; intros e.
    + apply wp_bind, free_ctx_null; [done|]. wp_go. by env_done.
    + eapply wp_mono; [apply (IH _ (set_env e w)); [by apply good_env|]|].
      { apply Forall_app. split; [done|]. by repeat constructor. }
      intros r w' (Hg' & Hs' & Hr). split_and!; [done|etrans; [apply steps_env|done]|].
      intros H0. rewrite (Hr H0). by rewrite <- app_assoc.
Qed.

Lemma readdir_spec p n count cookie w :
  good w -> w_heap w !! p = Some n ->
  spec w (hsi_nfs3_readdir p count cookie) (fun r _ => r.1 = 0 -> exists res,
    answers (NFSPROC3_READDIR {| ra_dir := hsi_nfs3_getfh3 n; ra_cookie := cookie;
      ra_cookieverf := ni_cookieverf n; ra_count := count |}) (RES_OK res) /\
    r.2 = map (fun e => ctx_of_entry (e3_name e) (e3_cookie e) (e3_fileid e) NULL)
            (rr_entries res)).
Proof.
  intros Hg Hn. pose proof (good_clnt _ Hg) as Hl. unfold spec, hsi_nfs3_readdir. wp_go.
  wp_nfs; [|destruct res as [resok|st x]]; [wp_go; by env_done| |].
  2:{ wp_go. env_done. intros H0. by destruct (errno_nonzero _ _ _ Hans eq_refl). }
  wp_go. eapply wp_mono; [apply (refresh_spec p _ (set_env e w)); [by apply good_env|by exists n]|].
  intros err w1 (Hg1 & Hs1 & _). case_if.
  - apply wp_bind, wp_freeres; [rewrite (steps_clnts _ _ Hs1); done|]. wp_go.
    split; [done|]. split; [etrans; [apply steps_env|done]|done].
  - destruct (steps_inodes _ _ Hs1 _ _ Hn) as (n1 & Hn1 & _).
    apply wp_bind. eapply wp_update; [done|]. apply wp_bind.
    set (w2 := set_heap _ w1).
    assert (Hg2 : good w2) by (eapply good_update; [done..|apply set_cookieverf_kept]).
    assert (Hs2 : steps w1 w2) by (by eapply steps_update, set_cookieverf_kept).
    eapply wp_mono; [by apply readdir_fill_spec|]. intros r w3 (Hg3 & Hs3 & Hr).
    apply wp_bind, wp_freeres.
    { rewrite (steps_clnts _ _ Hs3). simpl. rewrite (steps_clnts _ _ Hs1). done. }
    wp_go. split; [done|]. split; [etrans; [apply (steps_env e)|]; etrans; [done|]; by etrans|].
    intros H0. exists resok. split; [done|]. exact (Hr H0).
Qed.

(** A change of the superblock that leaves the cache and the clients alone. *)
Lemma steps_sb s w :
  sb_clntp s = sb_clntp (w_sb w) -> sb_acl_clntp s = sb_acl_clntp (w_sb w) ->
  sb_root s = sb_root (w_sb w) -> steps w (set_sb s w).
Proof. intros. constructor; try done; [|simpl; congruence]. intros q m Hq. exists m. by split. Qed.

Lemma statfs_spec p n w :
  good w -> w_heap w !! p = Some n -> spec w (hsi_nfs3_statfs p) (fun _ _ => True).
Proof.
  intros Hg Hn. pose proof (good_clnt _ Hg) as Hl. unfold spec, hsi_nfs3_statfs. wp_go.
  wp_nfs; [|destruct res as [resok|st x]]; [wp_go; by env_done| |wp_go; by env_done].
  wp_go. apply wp_update_sb. apply wp_bind, wp_free_sb; [done|]. wp_go. split; [|split; [|done]].
  - apply (good_sb (set_env e w)); [by apply good_env|done..|apply Hg|apply Hg].
  - etrans; [apply (steps_env e)|by apply steps_sb].
Qed.

Lemma pathconf_spec p n w :
  good w -> w_heap w !! p = Some n -> spec w (hsi_nfs3_pathconf p) (fun _ _ => True).
Proof.
  intros Hg Hn. pose proof (good_clnt _ Hg) as Hl. unfold spec, hsi_nfs3_pathconf. wp_go.
  wp_nfs; [|destruct res as [resok|st x]]; [wp_go; by env_done| |wp_go; by env_done].
  wp_go. apply wp_update_sb. apply wp_bind, wp_freeres; [done|]. wp_go. split; [|split; [|done]].
  - apply (good_sb (set_env e w)); [by apply good_env|done..|apply Hg|apply Hg].
  - etrans; [apply (steps_env e)|by apply steps_sb].
Qed.

Lemma fsinfo_spec fh fattr w :
  good w -> spec w (hsi_nfs3_fsinfo fh fattr) (fun r w' => r.1 = 0 -> exists res,
    answers (NFSPROC3_FSINFO fh) (RES_OK res) /\ w_sb w' = hsi_fsinfo_to_super (w_sb w) res).
Proof.
  intros Hg. pose proof (good_clnt _ Hg) as Hl. unfold spec, hsi_nfs3_fsinfo. wp_go.
  wp_nfs; [|destruct res as [resok|st x]]; [wp_go; by env_done| |].
  2:{ wp_go. env_done. intros H0. by destruct (errno_nonzero _ _ _ Hans eq_refl). }
  wp_go. apply wp_update_sb. apply wp_bind.
  set (w1 := set_sb _ (set_env e w)).
  destruct (law_fsinfo _ _ Hans) as (Hr1 & Hr2 & Hw1 & Hw2).
  pose proof (good_rsize _ Hg) as Hrs. pose proof (good_wsize _ Hg) as Hws.
  assert (Hg1 : good w1).
  { apply good_sb; [by apply good_env|done..| |];
      apply io_size_spec; simpl; lia. }
  assert (Hs1 : steps w w1) by (etrans; [apply (steps_env e)|by apply steps_sb]).
  assert (Hend : forall err fa, wp (do! clnt_freeres (sb_clntp (w_sb w)) in ret (err : Z, fa : nfs_fattr))
      (fun r w' => good w' /\ steps w w' /\ (r.1 = 0 -> exists res,
         answers (NFSPROC3_FSINFO fh) (RES_OK res) /\
         w_sb w' = hsi_fsinfo_to_super (w_sb w) res)) w1).
  { intros err fa. wp_go. split; [done|]. split; [done|]. intros _. by exists resok. }
  case_if; [|apply wp_ret, Hend].
  apply wp_bind. eapply wp_mono; [by apply do_getattr_spec|].
  intros r w2 (Hg2 & Hs2 & (e2 & ->) & _). apply wp_ret, wp_bind, wp_freeres; [done|]. apply wp_ret.
  split; [done|]. split; [by etrans|]. intros _. by exists resok.
Qed.
End LastSpecs.

(** ** READDIRPLUS *)
Section ReaddirPlus.
Context {E : Env} {HC : Connected} {HS : ServerLaws} {HML : MallocLaws} {HMem : MemLaws}.
Hypothesis Hbad : bad_inode_placed.

Lemma strlen_substring m s : strlen (String.substring 0 m s) <= Z.of_nat m.
Proof.
  unfold strlen. enough (String.length (String.substring 0 m s) <= m)%nat by lia.
  revert m. induction s as [|c s IH]; intros [|m]; simpl; try lia. specialize (IH m). lia.
Qed.

Lemma alloc_copy_name_succeeds name off ino (Q : Z + hsfs_readdir_ctx -> world -> Prop) w :
  (forall e, Q (inr (mk_ctx off (String.substring 0 255 name)
     {| st_ino := ino; st_mode := 0; st_nlink := 0; st_uid := 0; st_gid := 0; st_rdev := 0;
        st_size := 0; st_blksize := 0; st_blocks := 0;
        st_atim := timespec_zero; st_mtim := timespec_zero; st_ctim := timespec_zero |} NULL))
     (set_env e w)) ->
  wp (__alloc_copy_name name off ino) Q w.
Proof.
  assert (Hm : forall n (Q : bool -> world -> Prop) w, n < 4096 ->
    (forall e, Q true (set_env e w)) -> wp (c_malloc n) Q w).
  { intros n Q' w' Hn HQ. destruct (small_memory n (w_env w') Hn) as [e' He].
    exists true, (set_env e' w'). split; [|done]. unfold c_malloc, from_env. by rewrite He. }
  intros HQ. unfold __alloc_copy_name. apply wp_bind, Hm; [done|]. intros e. simpl.
  apply wp_bind, Hm.
  { pose proof (strlen_substring 255 name) as Hle. change (Z.of_nat 255) with 255 in Hle. lia. }
  intros e'. apply wp_ret, HQ.
Qed.

Definition entry_ok (e : entryplus3) : Prop :=
  attrs_ok (ep_name_attributes e) /\ exists h, ep_name_handle e = Some h /\ handle_ok h.

(** The node of an entry carries the cached inode of its handle. *)
Definition listed (w : world) (e : entryplus3) (c : hsfs_readdir_ctx) : Prop :=
  exists p n, c = ctx_of_entry (ep_name e) (ep_cookie e) (ep_fileid e) p /\
    w_heap w !! p = Some n /\ ep_name_handle e = Some (fh_bytes (ni_fh n)).

Lemma listed_steps w w' e c : steps w w' -> listed w e c -> listed w' e c.
Proof.
  intros Hs (p & n & -> & Hn & Hh). destruct (steps_inodes _ _ Hs _ _ Hn) as (n' & Hn' & [Hid _]).
  exists p, n'. destruct Hid as (_ & -> & _). done.
Qed.

Lemma readdir_plus_fill_spec l done_l acc w :
  good w -> Forall2 (listed w) done_l acc -> Forall entry_ok l ->
  Z.of_nat (size (w_heap w)) + Z.of_nat (length l) <= 2 ^ 32 ->
  spec w (readdir_plus_fill l acc) (fun r w' => r.1 = 0 /\ Forall2 (listed w') (done_l ++ l) r.2).
Proof.
  revert done_l acc w. induction l as [|x l IH]; intros done_l acc w Hg Hacc Hl Hsz; simpl.
  - apply spec_ret; [done|]. by rewrite app_nil_r.
  - apply Forall_cons in Hl as [(Ha & h & Hh & Hok) Hl]. cbn [length] in Hsz.
    apply wp_bind, alloc_copy_name_succeeds. intros e. rewrite Hh.
    apply wp_bind, wp_copy_fh3; [done|]. intros f Hf Hb. apply wp_bind.
    eapply wp_mono; [apply (fhget_usable Hbad f (ep_name_attributes x) (set_env e w));
      [by apply good_env|done..|simpl; lia]|].
    intros new w1 (Hg1 & Hs1 & (n & Hn & Hi & _) & _ & Herr & Hsz1). rewrite Herr.
    assert (Hs : steps w w1) by (etrans; [apply steps_env|done]).
    eapply wp_mono; [apply (IH (done_l ++ [x]) _ w1); [done| |done|simpl in Hsz1; lia]|].
    + apply Forall2_app.
      * eapply Forall2_impl; [done|]. intros. by eapply listed_steps.
      * constructor; [|done]. exists new, n. split; [done|]. split; [done|]. by rewrite Hi, Hb.
    + intros r w2 (Hg2 & Hs2 & H0 & Hr). rewrite <- app_assoc in Hr.
      split; [done|]. split; [by etrans|]. done.
Qed.

Lemma readdir_plus_spec p n count cookie maxcount w :
  good w -> w_heap w !! p = Some n -> Z.of_nat (size (w_heap w)) <= 2 ^ 31 ->
  spec w (hsi_nfs3_readdir_plus p count cookie maxcount) (fun r w' => r.1 = 0 -> exists res,
    answers (NFSPROC3_READDIRPLUS {| rp_dir := hsi_nfs3_getfh3 n; rp_cookie := cookie;
      rp_cookieverf := ni_cookieverf n; rp_dircount := count; rp_maxcount := maxcount |})
      (RES_OK res) /\
    Forall2 (listed w') (rpr_entries res) r.2).
Proof.
  intros Hg Hn Hsz. pose proof (good_clnt _ Hg) as Hl. unfold spec, hsi_nfs3_readdir_plus. wp_go.
  wp_nfs; [|destruct res as [resok|st x]]; [wp_go; by env_done| |].
  2:{ wp_go. env_done. intros H0. by destruct (errno_nonzero _ _ _ Hans eq_refl). }
  wp_go. eapply wp_refresh; [done|]. case_if.
  - wp_go. split; [|split; [|done]].
    + eapply (good_update (set_env e w)); [by apply good_env|done|apply refreshed_identity].
    + etrans; [apply (steps_env e)|]. by eapply steps_update, refreshed_kept.
  - apply wp_bind. eapply wp_update; [apply lookup_insert_eq|]. apply wp_bind.
    set (f := hsi_nfs3_post2fattr _ _). set (w2 := set_heap _ _).
    assert (Hs2 : steps w w2).
    { etrans; [apply (steps_env e)|]. etrans; [by eapply steps_update, refreshed_kept|].
      eapply steps_update; [apply lookup_insert_eq|apply set_cookieverf_kept]. }
    assert (Hg2 : good w2).
    { eapply good_update; [|apply lookup_insert_eq|apply set_cookieverf_kept].
      eapply (good_update (set_env e w)); [by apply good_env|done|apply refreshed_identity]. }
    destruct (law_readdirplus _ _ Hans) as [Hlen Hents].
    eapply wp_mono; [apply (readdir_plus_fill_spec _ [] [] w2); [done|done|done|]|].
    { simpl. rewrite map_size_insert_Some by (rewrite lookup_insert_eq; eauto).
      rewrite map_size_insert_Some by eauto. lia. }
    intros r w3 (Hg3 & Hs3 & H0 & Hr). apply wp_bind, wp_freeres.
    { rewrite (steps_clnts _ _ Hs3), (steps_clnts _ _ Hs2). done. }
    wp_go. split; [done|]. split; [by etrans|]. intros _. by exists resok.
Qed.
End ReaddirPlus.
