(* ===== verification/Acl.v ===== *)
(** * Access control lists ([nfs3/hsi_acl3.c], [include/acl.h],
    [nfs3/hsi_nfs3_getxattr.c], [nfs3/hsi_nfs3_setxattr.c])

    The value of the extended attribute is a little-endian structure: a version
    and 8 bytes for each entry.  [NULL] is [None]. *)

From S2P Require Import Prelude Bitops Hash Proto World Icache IcacheFacts Attr Rpc NfsInode Blocks Nfs3Ops.

Definition POSIX_ACL_XATTR_ACCESS : string := "system.posix_acl_access".
Definition POSIX_ACL_XATTR_DEFAULT : string := "system.posix_acl_default".
Definition POSIX_ACL_XATTR_VERSION : Z := 2.
Definition ACL_UNDEFINED_ID : Z := 0xffffffff.
Definition ACL_TYPE_ACCESS : Z := 0x8000.
Definition ACL_TYPE_DEFAULT : Z := 0x4000.
Definition ACL_USER_OBJ : Z := 0x01.
Definition ACL_USER : Z := 0x02.
Definition ACL_GROUP_OBJ : Z := 0x04.
Definition ACL_GROUP : Z := 0x08.
Definition ACL_MASK : Z := 0x10.
Definition ACL_OTHER : Z := 0x20.
Definition NFS_ACL : Z := 1.
Definition NFS_DFACL : Z := 4.
Definition NA_ACL : Z := 1.
Definition NA_ACLCNT : Z := 2.
Definition NA_DFACL : Z := 4.
Definition NA_DFACLCNT : Z := 8.
Definition NA_ACL_DEFAULT : Z := 0x1000.

Record posix_acl_entry := mk_entry { e_tag : Z; e_perm : Z; e_id : Z }.

(** [a_count] is the number of entries. *)
Record posix_acl := mk_acl { a_entries : list posix_acl_entry }.
Definition a_count (acl : posix_acl) : Z := Z.of_nat (length (a_entries acl)).

Definition s16 (x : Z) : Z := if u16 x <? 2 ^ 15 then u16 x else u16 x - 2 ^ 16.

(** ** The extended attribute *)

Definition le16 (x : Z) : list Z := [x mod 256; x / 256 mod 256].
Definition le32 (x : Z) : list Z := [x mod 256; x / 256 mod 256; x / 65536 mod 256; x / 16777216 mod 256].

Definition xattr_entry (e : posix_acl_entry) : list Z :=
  le16 (u16 (e_tag e)) ++ le16 (e_perm e) ++ le32 (e_id e).

Definition posix_acl_xattr_size (count : Z) : Z := 4 + count * 8.

(** The value returned, and what is written to the buffer of [size] bytes, if
    there is one. *)
Definition posix_acl_to_xattr (acl : posix_acl) (buffer : bool) (size : Z) : Z * option (list Z) :=
  let real_size := u32 (posix_acl_xattr_size (a_count acl)) in
  if negb buffer then (real_size, None)
  else if size <? real_size then (ERANGE, None)
  else (real_size, Some (le32 POSIX_ACL_XATTR_VERSION ++ concat (map xattr_entry (a_entries acl)))).

(** One entry of the value: the id counts only for named users and groups. *)
Definition decode_entry (tag perm id : Z) : option posix_acl_entry :=
  if (tag =? ACL_USER_OBJ) || (tag =? ACL_GROUP_OBJ) || (tag =? ACL_MASK) || (tag =? ACL_OTHER)
  then Some (mk_entry tag perm ACL_UNDEFINED_ID)
  else if (tag =? ACL_USER) || (tag =? ACL_GROUP) then Some (mk_entry tag perm id)
  else None.

(** The loop over the entries; the bytes are a multiple of 8. *)
Fixpoint decode_entries (l : list Z) : option (list posix_acl_entry) :=
  match l with
  | [] => Some []
  | t0 :: t1 :: p0 :: p1 :: i0 :: i1 :: i2 :: i3 :: l =>
      e ← decode_entry (s16 (t0 + 256 * t1)) (p0 + 256 * p1)
            (i0 + 256 * i1 + 65536 * i2 + 16777216 * i3);
      es ← decode_entries l;
      Some (e :: es)
  | _ => None
  end.

Section Acl.
Context `{E : Env}.
Abbreviation sop := hsi_nfs_sop.

(** [calloc(1, sizeof(struct posix_acl) + count * sizeof(struct posix_acl_entry))]. *)
Definition posix_acl_alloc (count : Z) : M world bool := c_malloc (u64 (8 + count * 8)).

Definition posix_acl_from_xattr (value : option (list Z)) (size : Z) : M world (option posix_acl) :=
  match value with
  | None => ret None
  | Some bytes =>
      if size <? 4 then ret None
      else match bytes with
      | v0 :: v1 :: v2 :: v3 :: body =>
          if negb (v0 + 256 * v1 + 65536 * v2 + 16777216 * v3 =? POSIX_ACL_XATTR_VERSION)
          then ret None
          else
            let getcount := size - 4 in
            if negb (getcount mod 8 =? 0) then ret None
            else
              let count := s32 (getcount / 8) in
              if count <? 0 then ret None
              else if count =? 0 then ret None
              else
                let! ok := posix_acl_alloc count in
                if negb ok then ret None
                else if Z.of_nat (length body) <? count * 8 then undef
                else match decode_entries (take (Z.to_nat (count * 8)) body) with
                     | Some es => ret (Some (mk_acl es))
                     | None => ret None
                     end
      | _ => undef
      end
  end.

Definition acl_of_mode (mode : Z) : posix_acl :=
  mk_acl [mk_entry ACL_USER_OBJ (Z.shiftr (Z.land mode S_IRWXU) 6) ACL_UNDEFINED_ID;
          mk_entry ACL_GROUP_OBJ (Z.shiftr (Z.land mode S_IRWXG) 3) ACL_UNDEFINED_ID;
          mk_entry ACL_OTHER (Z.land mode S_IRWXO) ACL_UNDEFINED_ID].

Definition posix_acl_from_mode (mode : Z) : M world (option posix_acl) :=
  let! ok := posix_acl_alloc 3 in
  ret (if (ok : bool) then Some (acl_of_mode mode) else None).

(** ** GETACL and SETACL *)

Definition entry_of_aclent (mask : Z) (a : aclent) : posix_acl_entry :=
  mk_entry (s16 (Z.ldiff (ae_type a) mask)) (u16 (ae_perm a)) (u32 (ae_id a)).

(** The error, and [*pval]. *)
Definition hsi_nfs3_getxattr (inode mask type : Z) : M world (Z * option posix_acl) :=
  let! fh := handle_of inode in
  let args := {| ga_fh := fh; ga_mask := mask |} in
  let! sb := get_sb in
  let acl_clntp := sb_acl_clntp sb in
  if acl_clntp =? NULL then ret (ENOTSUP, None)
  else
    let! er := hsi_nfs3_clnt_call acl_clntp (ACLPROC3_GETACL args) in
    match er.2 with
    | None => ret (er.1, None)
    | Some (RES_FAIL st _) =>
        do! clnt_freeres acl_clntp in ret (hsi_nfs3_stat_to_errno st, None)
    | Some (RES_OK resok) =>
        let acl := gar_acl resok in
        let entries :=
          if type =? ACL_TYPE_ACCESS then map (entry_of_aclent 0) (sec_aclent acl)
          else if type =? ACL_TYPE_DEFAULT then map (entry_of_aclent NA_ACL_DEFAULT) (sec_dfaclent acl)
          else [] in
        let! ok := posix_acl_alloc (s32 (Z.of_nat (length entries))) in
        if negb ok then
          let! sb := get_sb in
          do! clnt_freeres (sb_clntp sb) in ret (ENOMEM, None)
        else
          do! clnt_freeres acl_clntp in ret (0, Some (mk_acl entries))
    end.

Definition aclent_of_entry (e : posix_acl_entry) : aclent :=
  {| ae_type := e_tag e; ae_id := s32 (e_id e); ae_perm := e_perm e |}.

(** [calloc(count, sizeof(struct aclent))] and the copy, which does not test
    for NULL. *)
Definition copy_aclents (acl : posix_acl) : M world (list aclent) :=
  let! ok := c_malloc (a_count acl * 12) in
  if negb ok && negb (a_count acl =? 0) then undef
  else ret (map aclent_of_entry (a_entries acl)).

(** The lists to send, or [None] where the source goes to [fail] with [error]
    still 0. *)
Definition setxattr_acls (inode type mode mask : Z) (acl : option posix_acl) :
    M world (option (posix_acl * option posix_acl)) :=
  let! lists :=
    (if S_ISDIR mode then
       if type =? ACL_TYPE_ACCESS then
         let! r := hsi_nfs3_getxattr inode mask type in
         ret (if r.1 =? 0 then Some (acl, r.2) else None)
       else if type =? ACL_TYPE_DEFAULT then
         let! r := hsi_nfs3_getxattr inode mask type in
         ret (if r.1 =? 0 then Some (r.2, acl) else None)
       else ret None
     else if negb (type =? ACL_TYPE_ACCESS) then ret None
     else ret (Some (acl, None))) in
  match lists with
  | None => ret None
  | Some (Some acl, dfacl) => ret (Some (acl, dfacl))
  | Some (None, dfacl) =>
      let! alloc := posix_acl_from_mode mode in
      ret (match alloc with Some acl => Some (acl, dfacl) | None => None end)
  end.

Definition hsi_nfs3_setxattr (inode : Z) (value : option (list Z)) (type size : Z) : M world Z :=
  let! sb := get_sb in
  let acl_clntp := sb_acl_clntp sb in
  if acl_clntp =? NULL then ret ENOTSUP
  else
    let! n := deref inode in
    let mode := ia_mode (in_iattr (ni_hsfs_inode n)) in
    let mask := Z.lor (if type =? ACL_TYPE_ACCESS then Z.lor NA_ACLCNT NA_ACL else 0)
                      (if S_ISDIR mode then Z.lor NA_DFACLCNT NA_DFACL else 0) in
    let! acl := posix_acl_from_xattr value size in
    let! lists := setxattr_acls inode type mode mask acl in
    match lists with
    | None => ret 0
    | Some (acl, dfacl) =>
        let! aclents := copy_aclents acl in
        let! dfaclents := match dfacl with Some d => copy_aclents d | None => ret [] end in
        let args := {| sx_fh := hsi_nfs3_getfh3 n;
                       sx_acl := {| sec_mask := if S_ISDIR mode then Z.lor NFS_ACL NFS_DFACL else NFS_ACL;
                                    sec_aclcnt := a_count acl; sec_aclent := aclents;
                                    sec_dfaclcnt := match dfacl with Some d => a_count d | None => 0 end;
                                    sec_dfaclent := dfaclents |} |} in
        let! er := hsi_nfs3_clnt_call acl_clntp (ACLPROC3_SETACL args) in
        match er.2 with
        | None => ret er.1
        | Some res => do! clnt_freeres acl_clntp in ret (hsi_nfs3_stat_to_errno (status res))
        end
    end.
End Acl.
