(* ===== verification/FuseOps.v ===== *)
(** * The FUSE handlers ([fuse/hsx_fuse_*.c])

    What the kernel asks for, one handler per request.  A handler looks its
    inodes up by number, calls the NFSv3 operation and sends the reply.  The
    number of references the kernel holds on an inode is [private]. *)

From S2P Require Import Prelude Bitops Hash Proto World Icache IcacheFacts Attr Rpc NfsInode Blocks Nfs3Ops Acl.

Section FuseOps.
Context `{E : Env}.
Abbreviation sop := hsi_nfs_sop.

(** ** References ([include/hsx_fuse.h]) *)

Definition set_private (v : Z) (n : nfs_inode) : nfs_inode :=
  set_ni_hsfs_inode (set_in_private v (ni_hsfs_inode n)) n.

Definition hsx_fuse_ref_xchg (inode val : Z) : M world Z :=
  let! n := deref inode in
  do! update inode (set_private val) in
  ret (in_private (ni_hsfs_inode n)).

Definition hsx_fuse_ref_inc (inode val : Z) : M world Z :=
  let! n := deref inode in
  let v := u64 (in_private (ni_hsfs_inode n) + val) in
  do! update inode (set_private v) in ret v.

Definition hsx_fuse_ref_dec (inode val : Z) : M world Z :=
  let! n := deref inode in
  do! c_assert (val <=? in_private (ni_hsfs_inode n)) in
  let v := u64 (in_private (ni_hsfs_inode n) - val) in
  do! update inode (set_private v) in ret v.

Definition hsx_fuse_fill_reply (inode : Z) : M world fuse_entry_param :=
  let! n := deref inode in
  let! sb := get_sb in
  let i := ni_hsfs_inode n in
  ret {| e_ino := in_ino i; e_generation := 0; e_attr := hsfs_generic_fillattr i;
         e_attr_timeout := sb_acdirmin sb; e_entry_timeout := sb_acregmin sb |}.

(** ** Capabilities and start *)

Record fuse_conn_info := { conn_capable : Z; conn_want : Z }.
Definition FUSE_CAP_BIG_WRITES : Z := 0x20.
Definition FUSE_CAP_AUTO_INVAL_DATA : Z := 0x1000.
Definition FUSE_CAP_READDIR_PLUS : Z := 0x2000.

Definition CHECK_CAP (cap : Z) (conn : fuse_conn_info) : fuse_conn_info :=
  if flag (conn_capable conn) cap
  then {| conn_capable := conn_capable conn; conn_want := Z.lor (conn_want conn) cap |}
  else conn.

Definition hsx_fuse_init_cap (conn : fuse_conn_info) : fuse_conn_info :=
  CHECK_CAP FUSE_CAP_READDIR_PLUS
    (CHECK_CAP FUSE_CAP_AUTO_INVAL_DATA (CHECK_CAP FUSE_CAP_BIG_WRITES conn)).

Definition hsx_fuse_init (conn : fuse_conn_info) : M world fuse_conn_info :=
  let! sb := get_sb in
  let! ref := hsx_fuse_ref_xchg (sb_root sb) 1 in
  do! c_assert (ref =? 0) in
  ret (hsx_fuse_init_cap conn).

(** ** Names *)

Definition hsx_fuse_lookup (ino : Z) (name : string) : M world unit :=
  let! parent := hsfs_ilookup ino in
  if parent =? NULL then send (reply_err ENOENT)
  else
    let! r := hsi_nfs3_lookup parent name in
    if negb (r.1 =? 0) then send (reply_err r.1)
    else match r.2 with
    | None => undef
    | Some child =>
        if child =? NULL then send (reply_err ENOMEM)
        else
          do! hsx_fuse_ref_inc child 1 in
          let! e := hsx_fuse_fill_reply child in
          send (reply_entry e)
    end.

Definition hsx_fuse_forget (ino nlookup : Z) : M world unit :=
  let! hsfs_node := hsfs_ilookup ino in
  do! c_assert (negb (hsfs_node =? NULL)) in
  let! ilookup := hsx_fuse_ref_dec hsfs_node nlookup in
  do! (if ilookup =? 0 then hsfs_iput sop hsfs_node else ret tt) in
  send reply_none.

(** The reply to a request that makes an inode: it must be a new one. *)
Definition reply_new (new : Z) (r : fuse_entry_param -> reply) : M world unit :=
  let! ref := hsx_fuse_ref_xchg new 1 in
  do! c_assert (ref =? 0) in
  let! e := hsx_fuse_fill_reply new in
  send (r e).

Definition O_EXCL : Z := 0x80.
Definition O_TRUNC : Z := 0x200.

(** The owner of the parent's cached attributes becomes the caller. *)
Definition hsx_fuse_create (parent : Z) (name : string) (mode flags uid gid : Z) : M world unit :=
  let! hi := hsfs_ilookup parent in
  if hi =? NULL then ret tt
  else
    do! update hi (update_iattr (fun a => set_ia_gid gid (set_ia_uid uid a))) in
    let mymode := Z.lor (Z.land mode S_IRWXO) (Z.lor (Z.land mode S_IRWXG) (Z.land mode S_IRWXU)) in
    let mymode := if flag flags O_EXCL then Z.lor mymode 0x20000
                  else if flag flags O_TRUNC then Z.lor mymode 0x10000 else mymode in
    let! r := hsi_nfs3_create hi name mymode in
    let newhi := default NULL r.2 in
    if negb (r.1 =? 0) then send (reply_err r.1)
    else if newhi =? NULL then send (reply_err ENOMEM)
    else reply_new newhi reply_create.

Definition hsx_fuse_mkdir (parent : Z) (name : string) (mode : Z) : M world unit :=
  let! hi_parent := hsfs_ilookup parent in
  if hi_parent =? NULL then ret tt
  else
    let! r := hsi_nfs3_mkdir hi_parent name mode in
    let new := default NULL r.2 in
    if negb (r.1 =? 0) then send (reply_err r.1)
    else if new =? NULL then send (reply_err ENOMEM)
    else reply_new new reply_entry.

Definition hsx_fuse_mknod (parent : Z) (name : string) (mode rdev : Z) : M world unit :=
  let! parentp := hsfs_ilookup parent in
  if parentp =? NULL then send (reply_err ENOENT)
  else
    let! r := hsi_nfs3_mknod parentp name mode rdev in
    let new := default NULL r.2 in
    if negb (r.1 =? 0) then send (reply_err r.1)
    else if new =? NULL then send (reply_err ENOMEM)
    else reply_new new reply_entry.

Definition hsx_fuse_symlink (link : string) (parent : Z) (name : string) : M world unit :=
  let! nfs_parent := hsfs_ilookup parent in
  if nfs_parent =? NULL then send (reply_err ENOENT)
  else
    let! r := hsi_nfs3_symlink nfs_parent link name in
    let new := default NULL r.2 in
    if negb (r.1 =? 0) then send (reply_err r.1)
    else if new =? NULL then send (reply_err ENOMEM)
    else reply_new new reply_entry.

(** A name is NULL or a string. *)
Definition hsx_fuse_unlink (parent : Z) (name : option string) : M world unit :=
  match name with
  | None => send (reply_err EINVAL)
  | Some name =>
      if bool_decide (name = "") then send (reply_err EINVAL)
      else if NAME_MAX <? strlen name then send (reply_err ENAMETOOLONG)
      else
        let! hi := hsfs_ilookup parent in
        if hi =? NULL then send (reply_err ENOENT)
        else let! err := hsi_nfs3_unlink hi name in send (reply_err err)
  end.

Definition hsx_fuse_rmdir (parent : Z) (name : string) : M world unit :=
  let! hi_parent := hsfs_ilookup parent in
  if hi_parent =? NULL then ret tt
  else let! err := hsi_nfs3_rmdir hi_parent name in send (reply_err err).

Definition hsx_fuse_rename (parent : Z) (name : option string) (newparent : Z)
    (newname : option string) : M world unit :=
  match name, newname with
  | None, _ | _, None => send (reply_err EINVAL)
  | Some name, Some newname =>
      if bool_decide (name = "") then send (reply_err EINVAL)
      else if bool_decide (newname = "") then send (reply_err EINVAL)
      else if NAME_MAX <? strlen name then send (reply_err ENAMETOOLONG)
      else if NAME_MAX <? strlen newname then send (reply_err ENAMETOOLONG)
      else
        let! hi := hsfs_ilookup parent in
        if hi =? NULL then send (reply_err ENOENT)
        else
          let! newhi := hsfs_ilookup newparent in
          if newhi =? NULL then send (reply_err ENOENT)
          else let! err := hsi_nfs3_rename hi name newhi newname in send (reply_err err)
  end.

(** [sizeof(struct fuse_entry_param)]. *)
Definition sizeof_entry_param : Z := 176.

Definition hsx_fuse_link (ino newparent : Z) (newname : string) : M world unit :=
  let! parent := hsfs_ilookup newparent in
  if parent =? NULL then ret tt
  else
    let! inop := hsfs_ilookup ino in
    if inop =? NULL then ret tt
    else
      let! err := hsi_nfs3_link inop parent newname in
      if err =? 0 then
        let! ok := c_malloc sizeof_entry_param in
        if negb ok then send (reply_err ENOMEM)
        else let! e := hsx_fuse_fill_reply inop in send (reply_entry e)
      else send (reply_err err).

(** The error is sent only when the operation failed. *)
Definition hsx_fuse_readlink (ino : Z) : M world unit :=
  let! hi := hsfs_ilookup ino in
  if hi =? NULL then ret tt
  else
    let! r := hsi_nfs3_readlink hi in
    if negb (r.1 =? 0) then send (reply_err r.1)
    else send (reply_readlink r.2).

(** ** Attributes *)

(** The timeout of attributes, by the type of the inode. *)
Definition attr_timeout (inode : Z) : M world Z :=
  let! n := deref inode in
  let! sb := get_sb in
  ret (if S_ISDIR (ia_mode (in_iattr (ni_hsfs_inode n))) then sb_acdirmin sb else sb_acregmin sb).

Definition hsx_fuse_getattr (ino : Z) : M world unit :=
  let! inode := hsfs_ilookup ino in
  if inode =? NULL then send (reply_err ENOENT)
  else
    let! r := hsi_nfs3_getattr inode (Some stat_zero) in
    if negb (r.1 =? 0) then send (reply_err r.1)
    else
      let! to := attr_timeout inode in
      send (reply_attr (default stat_zero r.2) to).

Definition hsx_fuse_setattr (ino : Z) (attr : stat) (to_set : Z) : M world unit :=
  let! inode := hsfs_ilookup ino in
  if inode =? NULL then send (reply_err ENOENT)
  else
    let sattr := hsx_fuse_stat2iattr attr to_set iattr_zero in
    let! err := hsfs_ll_setattr sop inode sattr in
    if negb (err =? 0) then send (reply_err err)
    else
      let! n := deref inode in
      let! to := attr_timeout inode in
      send (reply_attr (hsfs_generic_fillattr (ni_hsfs_inode n)) to).

Definition R_OK : Z := 4.
Definition W_OK : Z := 2.
Definition X_OK : Z := 1.

Definition access_mode (imode mask : Z) : Z :=
  let mode := if flag mask R_OK then ACCESS3_READ else 0 in
  if S_ISDIR imode then
    let mode := if flag mask W_OK
      then Z.lor mode (Z.lor ACCESS3_MODIFY (Z.lor ACCESS3_EXTEND ACCESS3_DELETE)) else mode in
    if flag mask X_OK then Z.lor mode ACCESS3_LOOKUP else mode
  else
    let mode := if flag mask W_OK then Z.lor mode (Z.lor ACCESS3_MODIFY ACCESS3_EXTEND) else mode in
    if flag mask X_OK then Z.lor mode ACCESS3_EXECUTE else mode.

Definition hsx_fuse_access (ino mask : Z) : M world unit :=
  let! hi := hsfs_ilookup ino in
  if hi =? NULL then ret tt
  else
    let! n := deref hi in
    let! err := hsi_nfs3_access hi (access_mode (ia_mode (in_iattr (ni_hsfs_inode n))) mask) in
    send (reply_err err).

Definition hsx_fuse_statfs : M world unit :=
  let! sb := get_sb in
  do! deref (sb_root sb) in
  let! err := hsi_nfs3_statfs (sb_root sb) in
  if negb (err =? 0) then send (reply_err err)
  else
    let! sp := get_sb in
    match hsi_super2statvfs sp with
    | None => send (reply_err EINVAL)
    | Some stbuf => send (reply_statfs stbuf)
    end.
End FuseOps.
