(* ===== verification/FuseIo.v ===== *)
(** * The FUSE handlers for data, directories and extended attributes

    [fuse/hsx_fuse_open.c], [hsx_fuse_opendir.c], [hsx_fuse_release.c],
    [hsx_fuse_read.c], [hsx_fuse_write.c], [hsx_fuse_readdir.c],
    [hsx_fuse_getxattr.c] and [hsx_fuse_setxattr.c].  A read or a write is a
    loop of calls of at most [rsize] or [wsize] bytes.  The loops have no bound
    of their own: a server that answers with 0 bytes and no end of file keeps
    them going, so they take fuel here. *)

From S2P Require Import Prelude Bitops Hash Proto World Icache IcacheFacts Attr Rpc NfsInode Blocks Nfs3Ops Acl FuseOps.

Section FuseIo.
Context `{E : Env}.
Abbreviation sop := hsi_nfs_sop.

Definition FI_FH_LEN : Z := 10.

(** The handle in [fi->fh] is an allocation or 0. *)
Definition hsx_fuse_open : M world unit :=
  let! ok := c_malloc FI_FH_LEN in
  if negb ok then send (reply_err ENOMEM) else send reply_open.

Definition hsx_fuse_opendir (ino : Z) : M world unit :=
  let! parent := hsfs_ilookup ino in
  if parent =? NULL then send (reply_err ENOENT) else send reply_open.

Definition hsx_fuse_release : M world unit := send (reply_err 0).

(** ** Read *)

(** The loop; [buf] is the whole buffer, [cnt] the bytes read.  The result is
    the error, the buffer and the count. *)
Fixpoint read_loop (fuel : nat) (inode size off : Z) (buf : list Z) (cnt : Z) :
    M world (Z * list Z * Z) :=
  match fuel with
  | O => fun _ => NoFuel
  | S fuel =>
      if cnt <? size then
        let! sb := get_sb in
        let tmp_size := Z.min (size - cnt) (sb_rsize sb) in
        let rinfo := mk_rw inode tmp_size (off + cnt) 0 false 0 tmp_size
                       (drop (Z.to_nat cnt) buf) in
        let! r := hsi_nfs3_read rinfo in
        if negb (r.1 =? 0) then ret (r.1, buf, cnt)
        else
          let buf := take (Z.to_nat cnt) buf ++ rw_data_val r.2 in
          let cnt := u64 (cnt + rw_ret_count r.2) in
          if rw_eof r.2 then ret (0, buf, cnt)
          else read_loop fuel inode size off buf cnt
      else ret (0, buf, cnt)
  end.

(** [fuse_reply_buf(req, buf, cnt)] sends the first [cnt] bytes; the buffer has
    [size]. *)
Definition hsx_fuse_read (fuel : nat) (ino size off : Z) : M world unit :=
  let! ok := c_malloc size in
  if negb ok then send (reply_err ENOMEM)
  else
    let! inode := hsfs_ilookup ino in
    if inode =? NULL then send (reply_err ENOENT)
    else
      let! r := read_loop fuel inode size off (replicate (Z.to_nat size) 0) 0 in
      let '(err, buf, cnt) := r in
      if negb (err =? 0) then send (reply_err err)
      else if size <? cnt then undef
      else send (reply_buf (take (Z.to_nat cnt) buf)).

(** ** Write *)

Fixpoint write_loop (fuel : nat) (inode stable : Z) (buf : list Z) (size off cnt : Z) :
    M world (Z * Z) :=
  match fuel with
  | O => fun _ => NoFuel
  | S fuel =>
      if cnt <? size then
        let! sb := get_sb in
        let tmp_size := Z.min (size - cnt) (sb_wsize sb) in
        let buffer := take (Z.to_nat tmp_size) (drop (Z.to_nat cnt) buf) in
        let winfo := mk_rw inode tmp_size (off + cnt) 0 false stable tmp_size buffer in
        let! r := hsi_nfs3_write winfo in
        if negb (r.1 =? 0) then ret (r.1, cnt)
        else write_loop fuel inode stable buf size off (u64 (cnt + rw_ret_count r.2))
      else ret (0, cnt)
  end.

(** [buf] has [size] bytes. *)
Definition hsx_fuse_write (fuel : nat) (ino : Z) (buf : list Z) (size off : Z) (direct_io : bool) :
    M world unit :=
  let! sb := get_sb in
  let! ok := c_malloc (sb_wsize sb) in
  if negb ok then send (reply_err ENOMEM)
  else
    let stable := if direct_io then HSFS_FILE_SYNC else HSFS_UNSTABLE in
    let! inode := hsfs_ilookup ino in
    if inode =? NULL then send (reply_err ENOENT)
    else
      let! r := write_loop fuel inode stable buf size off 0 in
      if negb (r.1 =? 0) then send (reply_err r.1)
      else send (reply_write r.2).

(** ** Directories *)

Definition ctx_dirent (c : hsfs_readdir_ctx) (p : option fuse_entry_param) : dirent :=
  {| d_name := ctx_name c; d_ino := st_ino (ctx_stbuf c); d_off := ctx_off c; d_param := p |}.

(** [room] is [size - len]; the entries that are sent. *)
Fixpoint fill_dir (l : list hsfs_readdir_ctx) (room : Z) : list dirent :=
  match l with
  | [] => []
  | c :: l =>
      let res := direntry_size (ctx_name c) in
      if room <=? res then [] else ctx_dirent c None :: fill_dir l (room - res)
  end.

(** Every entry that is sent counts as a lookup. *)
Fixpoint fill_dir_plus (l : list hsfs_readdir_ctx) (room : Z) : M world (list dirent) :=
  match l with
  | [] => ret []
  | c :: l =>
      let! e := hsx_fuse_fill_reply (ctx_inode c) in
      let res := direntry_plus_size (ctx_name c) in
      if room <? res then ret []
      else if res =? room then ret []
      else
        do! hsx_fuse_ref_inc (ctx_inode c) 1 in
        let! es := fill_dir_plus l (room - res) in
        ret (ctx_dirent c (Some e) :: es)
  end.

(** [__free_ctx] of [hsx_fuse_readdir.c]; [after] is the position of the node
    from which on inodes are put, [None] for NULL. *)
Fixpoint fuse_free_ctx (l : list hsfs_readdir_ctx) (pos : nat) (after : option nat) : M world unit :=
  match l with
  | [] => ret tt
  | c :: l =>
      do! (match after with
           | Some k =>
               if (k <=? pos)%nat && negb (ctx_inode c =? NULL) then
                 let! left := hsx_fuse_ref_dec (ctx_inode c) 1 in
                 if left =? 0 then hsfs_iput sop (ctx_inode c) else ret tt
               else ret tt
           | None => ret tt
           end) in
      fuse_free_ctx l (S pos) after
  end.

Definition hsx_fuse_readdir (ino size off : Z) : M world unit :=
  let! parent := hsfs_ilookup ino in
  do! c_assert (negb (parent =? NULL)) in
  let! r := hsi_nfs3_readdir parent (u32 size) (u64 off) in
  if negb (r.1 =? 0) then send (reply_err r.1)
  else
    let! ok := c_malloc size in
    if negb ok then
      do! fuse_free_ctx r.2 0 None in send (reply_err ENOMEM)
    else
      do! send (reply_dir (fill_dir r.2 size)) in
      fuse_free_ctx r.2 0 None.

Definition hsx_fuse_readdir_plus (ino size off : Z) : M world unit :=
  let! parent := hsfs_ilookup ino in
  do! c_assert (negb (parent =? NULL)) in
  let! r := hsi_nfs3_readdir_plus parent (u32 size) (u64 off) (u32 size) in
  if negb (r.1 =? 0) then send (reply_err r.1)
  else
    let! ok := c_malloc size in
    if negb ok then
      do! fuse_free_ctx r.2 0 None in send (reply_err ENOMEM)
    else
      let! es := fill_dir_plus r.2 size in
      do! send (reply_dir es) in
      fuse_free_ctx r.2 0 None.

(** ** Extended attributes *)

Definition xattr_type (name : string) : option Z :=
  if bool_decide (name = POSIX_ACL_XATTR_ACCESS) then Some ACL_TYPE_ACCESS
  else if bool_decide (name = POSIX_ACL_XATTR_DEFAULT) then Some ACL_TYPE_DEFAULT
  else None.

(** [calloc(1, 0)] may give NULL or not: [malloc 0] decides. *)
Definition hsx_fuse_getxattr (ino : Z) (name : string) (size : Z) : M world unit :=
  match xattr_type name with
  | None => send (reply_err ENOTSUP)
  | Some type =>
      let! hsfs_node := hsfs_ilookup ino in
      if hsfs_node =? NULL then send (reply_err ENOENT)
      else
        let mask := if type =? ACL_TYPE_ACCESS then Z.lor NA_ACLCNT NA_ACL
                    else Z.lor NA_DFACLCNT NA_DFACL in
        let! r := hsi_nfs3_getxattr hsfs_node mask type in
        if negb (r.1 =? 0) then send (reply_err r.1)
        else
          let! buf := c_malloc size in
          if negb buf && negb (size =? 0) then send (reply_err ENOMEM)
          else
            match r.2 with
            | None => undef
            | Some acl =>
                let x := posix_acl_to_xattr acl buf size in
                if size =? 0 then send (reply_xattr x.1)
                else if x.1 =? ERANGE then send (reply_err ERANGE)
                else send (reply_buf (default [] x.2))
            end
  end.

(** The reply at [out] follows the one of the success path. *)
Definition hsx_fuse_setxattr (ino : Z) (name : string) (value : option (list Z)) (size : Z) :
    M world unit :=
  let! hi := hsfs_ilookup ino in
  if hi =? NULL then send (reply_err 0)
  else match xattr_type name with
  | None => send (reply_err 0)
  | Some type =>
      let! err := hsi_nfs3_setxattr hi value type size in
      do! send (reply_err err) in
      send (reply_err err)
  end.
End FuseIo.
