(* ===== verification/FileSpec.v ===== *)
(** * Reading and writing files

    The contents of a file on the server, what READ and WRITE promise about
    them ([FileServer]), and that the loops of [hsx_fuse_read] and
    [hsx_fuse_write], which move at most [rsize] or [wsize] bytes in a call and
    go on after short answers, end and together do one read or one write. *)

From S2P Require Import Prelude Bitops Hash Proto World Icache IcacheFacts Attr Rpc NfsInode Wp Blocks Nfs3Ops Nfs3Spec Acl FuseOps FuseIo.

(** ** What a file server promises *)
Class FileServer `{E : Env} := {
  content : env -> nfs_fh3 -> list Z;
  (** a read does not change the file *)
  fs_read_keeps : forall c a t e x e', clnt_call c (NFSPROC3_READ a) t e = (x, e') ->
    content e' (rd_file a) = content e (rd_file a);
  (** the data is the part of the file it says, not more than was asked for,
      and not empty before the end *)
  fs_read : forall c a t e r e',
    clnt_call c (NFSPROC3_READ a) t e = (RPC_SUCCESS (RES_OK r), e') ->
    0 <= rd_offset a -> 0 <= rd_count a ->
    let C := drop (Z.to_nat (rd_offset a)) (content e (rd_file a)) in
    rdr_data r = take (length (rdr_data r)) C /\
    rdr_count r = Z.of_nat (length (rdr_data r)) /\ rdr_count r <= rd_count a /\
    if rdr_eof r then Z.of_nat (length C) <= rdr_count r else 0 < rd_count a -> 0 < rdr_count r;
  (** a write stores the first bytes of the data, at least one *)
  fs_write : forall c a t e r e',
    clnt_call c (NFSPROC3_WRITE a) t e = (RPC_SUCCESS (RES_OK r), e') ->
    Z.of_nat (length (wr_data a)) = wr_count a ->
    content e' (wr_file a) =
      splice (Z.to_nat (wr_offset a)) (take (Z.to_nat (wrr_count r)) (wr_data a))
        (content e (wr_file a)) /\
    0 <= wrr_count r <= wr_count a /\ (0 < wr_count a -> 0 < wrr_count r);
  (** allocating memory leaves files alone *)
  fs_malloc : forall n e h, content (malloc n e).2 h = content e h;
  (** a call that failed may have been carried out in part *)
  fs_write_fail : forall c a t e x e',
    clnt_call c (NFSPROC3_WRITE a) t e = (RPC_FAILED x, e') -> exists j,
    content e' (wr_file a) =
      splice (Z.to_nat (wr_offset a)) (take j (wr_data a)) (content e (wr_file a)) }.

Section Files.
Context {E : Env} {HC : Connected} {HS : ServerLaws} {HF : FileServer}.

(** A call whose answer is judged in the environment it was given in. *)
Lemma wp_call_env {R} (I : env -> Prop) c (p : nfsproc R) (Q : Z * option R -> world -> Prop) w :
  c ∈ w_clnts w -> I (w_env w) ->
  (forall c t e x e', I e -> clnt_call c p t e = (RPC_FAILED x, e') -> I e') ->
  (forall e err, err <> 0 -> I e -> Q (err, None) (set_env e w)) ->
  (forall c t e r e', I e -> clnt_call c p t e = (RPC_SUCCESS r, e') ->
     Q (0, Some r) (set_env e' w)) ->
  wp (hsi_nfs3_clnt_call c p) Q w.
Proof.
  intros Hc HI Hf Hno Hyes. eapply wp_mono; [by apply (call_conn I)|].
  intros [err [r|]] w' (e' & -> & Ho); simpl in Ho.
  - destruct Ho as (-> & t & e & He & Hcall). by eapply Hyes.
  - apply Hno; apply Ho.
Qed.

(** ** One call *)

Lemma nfs3_read_spec rinfo n w C :
  good w -> w_heap w !! rw_inode rinfo = Some n ->
  content (w_env w) (hsi_nfs3_getfh3 n) = C ->
  0 <= rw_off rinfo < 2 ^ 64 -> 0 <= rw_size rinfo < 2 ^ 32 ->
  rw_size rinfo <= Z.of_nat (length (rw_data_val rinfo)) ->
  wp (hsi_nfs3_read rinfo) (fun r w' =>
    (exists e, w' = set_env e w /\ content e (hsi_nfs3_getfh3 n) = C) /\
    (r.1 = 0 -> exists k, let D := drop (Z.to_nat (rw_off rinfo)) C in
       rw_ret_count r.2 = Z.of_nat k /\ Z.of_nat k <= rw_size rinfo /\ (k <= length D)%nat /\
       rw_data_val r.2 = copy_bytes (rw_data_val rinfo) (take k D) k /\
       if rw_eof r.2 then (length D <= k)%nat else 0 < rw_size rinfo -> (0 < k)%nat)) w.
Proof.
  intros Hg Hn HCt Hoff Hsz Hroom. pose proof (good_clnt _ Hg) as Hl. unfold hsi_nfs3_read. wp_go.
  apply (wp_call_env (fun e => content e (hsi_nfs3_getfh3 n) = C)); [done|done|..].
  - intros c t e x e' He Hcall. by rewrite (fs_read_keeps _ _ _ _ _ _ Hcall).
  - intros e err Herr He. wp_go. split; [by eauto|done].
  - intros c t e res e' He Hcall. pose proof (fs_read_keeps _ _ _ _ _ _ Hcall) as Hk. simpl in Hk.
    rewrite He in Hk. destruct res as [r|st x]; wp_go.
    + apply fs_read in Hcall as (Hd & Hcnt & Hle & Heof); [|apply u64_range|apply u32_range].
      simpl in *. rewrite u32_small in Hle, Heof by lia. rewrite u64_small, He in Hd, Heof by lia.
      set (D := drop _ C) in *. assert (Hkd : (length (rdr_data r) <= length D)%nat).
      { rewrite Hd. rewrite length_take. lia. }
      rewrite (proj2 (Nat.leb_le _ _)) by lia. wp_go. split; [by eauto|]. intros _.
      exists (length (rdr_data r)). simpl. rewrite <- Hd. split_and!; [done|lia|done|done|].
      destruct (rdr_eof r); lia.
    + split; [by eauto|]. intros H0.
      assert (Ha : answers (NFSPROC3_READ {| rd_file := hsi_nfs3_getfh3 n;
        rd_offset := u64 (rw_off rinfo); rd_count := u32 (rw_size rinfo) |}) (RES_FAIL st x))
        by (by exists c, t, e, e').
      by destruct (errno_nonzero _ _ _ Ha eq_refl).
Qed.

(** [J e]: of [buf], at least the first [lo] bytes are in the file at [off], and
    nothing else has changed. *)
Definition written (h : nfs_fh3) (off : nat) (buf C : list Z) (lo : nat) (e : env) : Prop :=
  exists j, (lo <= j <= length buf)%nat /\ content e h = splice off (take j buf) C.

Lemma nfs3_write_spec winfo n w off cnt buf C :
  good w -> w_heap w !! rw_inode winfo = Some n ->
  rw_off winfo = Z.of_nat (off + cnt) -> rw_off winfo < 2 ^ 64 ->
  0 <= rw_size winfo < 2 ^ 32 -> rw_data_len winfo = rw_size winfo ->
  rw_data_val winfo = take (Z.to_nat (rw_size winfo)) (drop cnt buf) ->
  (cnt + Z.to_nat (rw_size winfo) <= length buf)%nat ->
  written (hsi_nfs3_getfh3 n) off buf C cnt (w_env w) ->
  wp (hsi_nfs3_write winfo) (fun r w' => exists e, w' = set_env e w /\
    (r.1 = 0 -> exists k, rw_ret_count r.2 = Z.of_nat k /\ Z.of_nat k <= rw_size winfo /\
       (0 < rw_size winfo -> (0 < k)%nat) /\
       written (hsi_nfs3_getfh3 n) off buf C (cnt + k) e)) w.
Proof.
  intros Hg Hn Hoff Hoff2 Hsz Hlen Hdata Hfit Hw. pose proof (good_clnt _ Hg) as Hl.
  unfold hsi_nfs3_write. wp_go.
  assert (Hsp : forall m j, (cnt <= j <= length buf)%nat ->
    splice (off + cnt) (take m (take (Z.to_nat (rw_size winfo)) (take (Z.to_nat (rw_size winfo))
      (drop cnt buf)))) (splice off (take j buf) C) =
    splice off (take (Nat.max j (cnt + Nat.min m (Z.to_nat (rw_size winfo)))) buf) C).
  { intros m j Hj. rewrite !take_take.
    rewrite <- Nat.min_assoc, Nat.min_id. apply splice_next; lia. }
  apply (wp_call_env (written (hsi_nfs3_getfh3 n) off buf C cnt)); [done|done|..].
  - intros c t e x e' (j & Hj & He) Hcall. apply fs_write_fail in Hcall as (m & Hm). simpl in Hm.
    rewrite Hlen, Hdata, Hoff in Hm. rewrite u64_small in Hm by lia. rewrite Nat2Z.id, He, Hsp in Hm by lia.
    eexists; split; [|exact Hm]; lia.
  - intros e err Herr He. wp_go. exists e. by split.
  - intros c t e res e' (j & Hj & He) Hcall. destruct res as [r|st x]; wp_go.
    + apply fs_write in Hcall as (Hm & Hle & Hpos).
      2:{ simpl. rewrite Hlen, Hdata, !length_take, length_drop, u32_small by lia. lia. }
      simpl in *.
      rewrite u32_small in Hle, Hpos by lia.
      rewrite Hlen, Hdata, Hoff, u64_small, Nat2Z.id, He, Hsp in Hm by lia.
      exists e'. split; [done|]. intros _. exists (Z.to_nat (wrr_count r)).
      split_and!; [lia|lia|lia|]. eexists; split; [|exact Hm]; lia.
    + exists e'. split; [done|]. intros H0.
      assert (Ha : exists a, answers (NFSPROC3_WRITE a) (RES_FAIL st x))
        by (eexists; by exists c, t, e, e').
      destruct Ha as [a Ha]. by destruct (errno_nonzero _ _ _ Ha eq_refl).
Qed.

(** ** The loops *)

Lemma read_loop_spec fuel p n size off buf cnt w C :
  good w -> w_heap w !! p = Some n -> content (w_env w) (hsi_nfs3_getfh3 n) = C ->
  0 <= off -> off + size < 2 ^ 63 -> size < 2 ^ 32 -> length buf = Z.to_nat size ->
  0 <= cnt <= size -> (Z.to_nat cnt <= length (drop (Z.to_nat off) C))%nat ->
  take (Z.to_nat cnt) buf = take (Z.to_nat cnt) (drop (Z.to_nat off) C) ->
  (Z.to_nat (size - cnt) < fuel)%nat ->
  wp (read_loop fuel p size off buf cnt) (fun r w' =>
    (exists e, w' = set_env e w /\ content e (hsi_nfs3_getfh3 n) = C) /\
    (r.1.1 = 0 -> 0 <= r.2 <= size /\
       take (Z.to_nat r.2) r.1.2 = take (Z.to_nat size) (drop (Z.to_nat off) C))) w.
Proof.
  revert buf cnt w. induction fuel as [|fuel IH]; intros buf cnt w Hg Hn HCt Hoff Hend Hsz Hlen
    Hcnt Hin Hpre Hfuel; [lia|]. simpl. case_if.
  2:{ wp_go. assert (cnt = size) as -> by lia. split; [|done]. exists (w_env w). by destruct w. }
  pose proof (good_rsize _ Hg) as Hrs.
  apply wp_bind, wp_get_sb, wp_bind. set (tmp := Z.min (size - cnt) (sb_rsize (w_sb w))).
  eapply wp_mono; [apply (nfs3_read_spec _ n w C); [done|done|done|simpl|simpl|simpl]|].
  - lia.
  - lia.
  - rewrite length_drop. lia.
  - simpl. intros r w' [(e & -> & He) Hr]. destruct (Z.eqb_spec r.1 0) as [H0|H0]; simpl;
      [|apply wp_ret; split; [by eauto|done]].
    destruct (Hr H0) as (k & Hret & Hk & Hkl & Hdv & Heof). clear Hr.
    rewrite Hret, Hdv. rewrite u64_small by lia.
    set (D := drop (Z.to_nat off) C) in *.
    assert (HD : drop (Z.to_nat (off + cnt)) C = drop (Z.to_nat cnt) D).
    { unfold D. rewrite drop_drop. f_equal. lia. }
    rewrite HD in *. rewrite length_drop in Hkl, Heof.
    set (buf' := take (Z.to_nat cnt) buf ++ _).
    assert (Hk' : (k <= length (drop (Z.to_nat cnt) buf))%nat) by (rewrite length_drop; lia).
    assert (Hbuf' : length buf' = Z.to_nat size).
    { unfold buf', copy_bytes. rewrite !length_app, !length_take, !length_drop. lia. }
    assert (Hpre' : take (Z.to_nat (cnt + Z.of_nat k)) buf' = take (Z.to_nat (cnt + Z.of_nat k)) D).
    { unfold buf', copy_bytes. replace (Z.to_nat (cnt + Z.of_nat k)) with (Z.to_nat cnt + k)%nat by lia.
      rewrite app_assoc, take_app_le by (rewrite length_app, !length_take, length_drop; lia).
      rewrite take_ge by (rewrite length_app, !length_take, length_drop; lia).
      rewrite Hpre, take_take, Nat.min_id. by rewrite <- take_take_drop. }
    destruct (rw_eof r.2).
    + apply wp_ret. simpl. split; [by eauto|]. intros _. split; [lia|]. rewrite Hpre'.
      rewrite !take_ge by lia. done.
    + eapply wp_mono; [apply (IH buf' (cnt + Z.of_nat k) (set_env e w))|]; try done.
      * by apply good_env.
      * lia.
      * unfold D in Hkl, Hin |- *. lia.
      * lia.
Qed.

Lemma write_loop_spec fuel p n stable size off buf cnt w C :
  good w -> w_heap w !! p = Some n ->
  0 <= off -> off + size < 2 ^ 63 -> size < 2 ^ 32 -> length buf = Z.to_nat size ->
  0 <= cnt <= size ->
  written (hsi_nfs3_getfh3 n) (Z.to_nat off) buf C (Z.to_nat cnt) (w_env w) ->
  (Z.to_nat (size - cnt) < fuel)%nat ->
  wp (write_loop fuel p stable buf size off cnt) (fun r w' => exists e, w' = set_env e w /\
    (r.1 = 0 -> r.2 = size /\
       content e (hsi_nfs3_getfh3 n) = splice (Z.to_nat off) buf C)) w.
Proof.
  revert cnt w. induction fuel as [|fuel IH]; intros cnt w Hg Hn Hoff Hend Hsz Hlen Hcnt Hw Hfuel;
    [lia|]. simpl. case_if.
  2:{ wp_go. exists (w_env w). split; [by destruct w|]. intros _. assert (cnt = size) as -> by lia.
      split; [done|]. destruct Hw as (j & Hj & ->). by rewrite take_ge by lia. }
  pose proof (good_wsize _ Hg) as Hws.
  apply wp_bind, wp_get_sb, wp_bind. set (tmp := Z.min (size - cnt) (sb_wsize (w_sb w))).
  eapply wp_mono; [apply (nfs3_write_spec _ n w (Z.to_nat off) (Z.to_nat cnt) buf C);
    [done|done|simpl|simpl|simpl|done|done|simpl|done]|].
  - lia.
  - lia.
  - lia.
  - lia.
  - simpl. intros r w' (e & -> & Hr). destruct (Z.eqb_spec r.1 0) as [H0|H0]; simpl;
      [|apply wp_ret; exists e; by split].
    destruct (Hr H0) as (k & Hret & Hk & Hpos & Hw'). rewrite Hret, u64_small by lia.
    eapply wp_mono; [apply (IH (cnt + Z.of_nat k) (set_env e w))|]; try done.
    + by apply good_env.
    + lia.
    + by replace (Z.to_nat (cnt + Z.of_nat k)) with (Z.to_nat cnt + k)%nat by lia.
    + lia.
Qed.
End Files.
