(* ===== verification/FuseSpec.v ===== *)
(** * What the FUSE handlers guarantee

    The kernel counts a reference on an inode for every entry it is given and
    drops them with FORGET; the client counts them in [private].  [progress w c
    w'] says that a handler that runs from [w] keeps every inode and counts [c]
    references, and [answered w fgt w'] that it ends with exactly one reply,
    counting at least the references the reply gives less the forgotten ones. *)

From S2P Require Import Prelude Bitops Hash Proto World Icache IcacheFacts Attr Rpc NfsInode Wp Blocks Nfs3Ops Nfs3Spec Acl FuseOps FuseIo FileSpec.

Definition ino_of (n : nfs_inode) : Z := in_ino (ni_hsfs_inode n).
Definition refs_of (n : nfs_inode) : Z := in_private (ni_hsfs_inode n).

(** ** The references a reply gives

    The rules of the low-level FUSE interface: one for the inode of an entry,
    also of those in a READDIRPLUS reply other than "." and "..". *)

Definition one (i ino : Z) : Z := if i =? ino then 1 else 0.

Definition dirent_counts (d : dirent) (ino : Z) : Z :=
  match d_param d with
  | Some e => if bool_decide (d_name d = ".") || bool_decide (d_name d = "..") then 0
              else one (e_ino e) ino
  | None => 0
  end.

Fixpoint dirents_count (l : list dirent) (ino : Z) : Z :=
  match l with [] => 0 | d :: l => dirent_counts d ino + dirents_count l ino end.

Definition counts (r : reply) (ino : Z) : Z :=
  match r with
  | reply_entry e | reply_create e => one (e_ino e) ino
  | reply_dir l => dirents_count l ino
  | _ => 0
  end.

Section Progress.
Context `{E : Env}.

Record progress (w : world) (c : Z -> Z) (w' : world) : Prop := {
  pr_out : w_out w' = w_out w;
  pr_clnts : w_clnts w' = w_clnts w;
  pr_root : sb_root (w_sb w') = sb_root (w_sb w);
  pr_old : forall p n, w_heap w !! p = Some n -> exists n', w_heap w' !! p = Some n' /\
    ino_of n' = ino_of n /\ refs_of n + c (ino_of n) <= refs_of n';
  pr_new : forall p n', w_heap w !! p = None -> w_heap w' !! p = Some n' ->
    c (ino_of n') <= refs_of n';
  pr_given : forall ino, 0 < c ino -> exists p n', w_heap w' !! p = Some n' /\ ino_of n' = ino }.

Lemma steps_progress w w' : steps w w' -> progress w (fun _ => 0) w'.
Proof.
  intros Hs. constructor; try apply Hs; [|intros p n' Hno Hn'|done].
  - intros p n Hn. destruct (steps_inodes _ _ Hs p n Hn) as (n' & Hn' & (_ & _ & _ & Hi & _) & Hr).
    exists n'. split; [done|]. split; [done|]. unfold refs_of. lia.
  - unfold refs_of. rewrite (steps_new _ _ Hs p n') by done. done.
Qed.

Lemma good_unique w p q n m :
  good w -> w_heap w !! p = Some n -> w_heap w !! q = Some m -> ino_of n = ino_of m -> p = q.
Proof. intros Hg. eapply inv_id_inj, (good_cache _ Hg). Qed.

Lemma progress_trans w1 c1 w2 c2 w3 :
  good w3 -> progress w1 c1 w2 -> progress w2 c2 w3 ->
  progress w1 (fun i => c1 i + c2 i) w3.
Proof.
  intros Hg [Ho1 Hc1 Hr1 Hold1 Hnew1 Hgiv1] [Ho2 Hc2 Hr2 Hold2 Hnew2 Hgiv2].
  constructor; try congruence.
  - intros p n Hn. destruct (Hold1 p n Hn) as (n2 & Hn2 & Hi2 & Hle2).
    destruct (Hold2 p n2 Hn2) as (n3 & Hn3 & Hi3 & Hle3). exists n3.
    split_and!; [done|congruence|]. rewrite Hi2 in Hle3. lia.
  - intros p n3 Hno Hn3. destruct (w_heap w2 !! p) as [n2|] eqn:Hn2.
    + destruct (Hold2 p n2 Hn2) as (n3' & Hn3' & Hi & Hle). rewrite Hn3 in Hn3'.
      injection Hn3' as <-. specialize (Hnew1 p n2 Hno Hn2). rewrite Hi. lia.
    + specialize (Hnew2 p n3 Hn2 Hn3).
      destruct (Z.leb_spec (c1 (ino_of n3)) 0) as [|Hpos]; [lia|].
      destruct (Hgiv1 _ Hpos) as (q & m2 & Hm2 & Hq).
      destruct (Hold2 q m2 Hm2) as (m3 & Hm3 & Hi & _).
      assert (p = q) by (eapply good_unique; [done..|congruence]). congruence.
  - intros ino Hpos. destruct (Z.leb_spec (c2 ino) 0) as [|Hpos2]; [|by apply Hgiv2].
    destruct (Hgiv1 ino) as (p & n2 & Hn2 & Hi); [lia|].
    destruct (Hold2 p n2 Hn2) as (n3 & Hn3 & Hi3 & _). exists p, n3. split; [done|congruence].
Qed.

(** A change of the count of one inode. *)
Lemma set_private_identity v n : same_identity n (set_private v n).
Proof. done. Qed.

Lemma progress_count w p n v d :
  good w -> w_heap w !! p = Some n -> refs_of n + d <= v ->
  progress w (fun i => if ino_of n =? i then d else 0)
    (set_heap (<[p := set_private v n]> (w_heap w)) w).
Proof.
  intros Hg Hn Hv. constructor; try done; simpl.
  - intros q m Hq. destruct (decide (p = q)) as [<-|Hne].
    + exists (set_private v n). rewrite lookup_insert_eq. split; [done|].
      assert (m = n) as -> by congruence. rewrite Z.eqb_refl. done.
    + exists m. rewrite lookup_insert_ne by done. split_and!; [done..|].
      destruct (Z.eqb_spec (ino_of n) (ino_of m)) as [Hi|]; [|lia].
      by destruct Hne; eapply good_unique.
  - intros q m Hq. rewrite lookup_insert_ne by congruence. congruence.
  - intros i Hd. exists p, (set_private v n). rewrite lookup_insert_eq. split; [done|].
    change (ino_of n = i). destruct (Z.eqb_spec (ino_of n) i); [done|lia].
Qed.

(** ** One reply *)

Definition no_forget (_ : Z) : Z := 0.

Definition answered (w : world) (fgt : Z -> Z) (w' : world) : Prop :=
  exists r c w1, w' = set_out (w_out w ++ [r]) w1 /\ good w1 /\ progress w c w1 /\
    forall i, counts r i - fgt i <= c i /\ (0 < counts r i -> 0 < c i).

Lemma wp_answer r c fgt w w1 :
  good w1 -> progress w c w1 ->
  (forall i, counts r i - fgt i <= c i /\ (0 < counts r i -> 0 < c i)) ->
  wp (send r) (fun _ => answered w fgt) w1.
Proof.
  intros Hg Hp Hc. apply wp_send. exists r, c, w1. rewrite (pr_out _ _ _ Hp). done.
Qed.

(** A reply that gives no reference, after an NFS operation. *)
Lemma wp_answer_steps r w w1 :
  good w1 -> steps w w1 -> (forall i, counts r i = 0) ->
  wp (send r) (fun _ => answered w no_forget) w1.
Proof.
  intros Hg Hs Hr. eapply wp_answer; [done|by apply steps_progress|].
  intros i. rewrite Hr. unfold no_forget. lia.
Qed.

(** An inode with this number is there. *)
Definition known (w : world) (ino : Z) : Prop :=
  exists p n, w_heap w !! p = Some n /\ ino_of n = ino.

Lemma wp_known w p n ino (Q : Z -> world -> Prop) :
  good w -> w_heap w !! p = Some n -> ino_of n = ino -> ((p =? NULL) = false -> Q p w) ->
  wp (hsfs_ilookup ino) Q w.
Proof.
  intros Hg Hn Hi HQ. apply wp_ilookup; [apply Hg| |].
  - intros Hf. exfalso. by eapply Hf.
  - intros q m Hm Him Hq. assert (q = p) as -> by (eapply good_unique; [done..|]; unfold ino_of in *; congruence).
    apply HQ. by apply Z.eqb_neq.
Qed.

(** The entry of an inode that one reference is counted for. *)
Lemma wp_answer_entry (r : fuse_entry_param -> reply) w w1 p n v :
  (r = reply_entry \/ r = reply_create) ->
  good w1 -> steps w w1 -> w_heap w1 !! p = Some n -> v = refs_of n + 1 ->
  wp (let! e := hsx_fuse_fill_reply p in send (r e)) (fun _ => answered w no_forget)
    (set_heap (<[p := set_private v n]> (w_heap w1)) w1).
Proof.
  intros Hr Hg Hs Hn Hv. set (w2 := set_heap _ _).
  assert (Hg2 : good w2) by (by eapply good_update).
  assert (Hp : progress w (fun i => 0 + if ino_of n =? i then 1 else 0) w2).
  { eapply progress_trans; [done|by apply steps_progress|]. apply progress_count; [done..|lia]. }
  apply wp_bind, wp_bind. eapply wp_deref; [apply lookup_insert_eq|]. apply wp_bind, wp_get_sb, wp_ret.
  eapply wp_answer; [done|done|]. intros i. unfold no_forget.
  destruct Hr as [->| ->]; simpl; unfold one, ino_of; case_if; lia.
Qed.
End Progress.

(** The handler finds the inode it is asked about. *)
Ltac on_known H :=
  let p := fresh "p" in let n := fresh "n" in let Hn := fresh "Hn" in let Hi := fresh "Hi" in
  destruct H as (p & n & Hn & Hi); apply wp_bind; eapply wp_known; [eassumption|exact Hn|exact Hi|];
  let Hnn := fresh "Hnn" in intros Hnn; rewrite ?Hnn; clear Hnn.

(** ** Handlers that give no reference *)
Section Handlers.
Context {E : Env} {HC : Connected} {HS : ServerLaws}.
Abbreviation sop := hsi_nfs_sop.

Lemma steps_live_n w w' p n :
  steps w w' -> w_heap w !! p = Some n -> exists n', w_heap w' !! p = Some n' /\ kept n n'.
Proof. intros Hs. apply (steps_inodes _ _ Hs). Qed.

Lemma attr_timeout_wp p n (Q : Z -> world -> Prop) w :
  w_heap w !! p = Some n -> (forall t, Q t w) -> wp (attr_timeout p) Q w.
Proof.
  intros Hn HQ. apply wp_bind. eapply wp_deref; [done|]. apply wp_bind, wp_get_sb, wp_ret, HQ.
Qed.

Lemma getattr_answered ino w :
  good w -> known w ino -> wp (hsx_fuse_getattr ino) (fun _ => answered w no_forget) w.
Proof.
  intros Hg Hk. unfold hsx_fuse_getattr. on_known Hk.
  apply wp_bind. eapply wp_mono; [by eapply getattr_spec|].
  intros r w1 (Hg1 & Hs1 & _). case_if; [by apply wp_answer_steps|].
  destruct (steps_live_n _ _ _ _ Hs1 Hn) as (n' & Hn' & _).
  apply wp_bind. eapply attr_timeout_wp; [done|]. intros t. by apply wp_answer_steps.
Qed.

Lemma setattr_answered ino attr to_set w :
  good w -> known w ino -> wp (hsx_fuse_setattr ino attr to_set) (fun _ => answered w no_forget) w.
Proof.
  intros Hg Hk. unfold hsx_fuse_setattr. on_known Hk.
  apply wp_bind. eapply wp_mono; [by eapply nfs_setattr_spec|].
  intros r w1 (Hg1 & Hs1 & _). case_if; [by apply wp_answer_steps|].
  destruct (steps_live_n _ _ _ _ Hs1 Hn) as (n' & Hn' & _).
  apply wp_bind. eapply wp_deref; [done|].
  apply wp_bind. eapply attr_timeout_wp; [done|]. intros t. by apply wp_answer_steps.
Qed.

Lemma access_answered ino mask w :
  good w -> known w ino -> wp (hsx_fuse_access ino mask) (fun _ => answered w no_forget) w.
Proof.
  intros Hg Hk. unfold hsx_fuse_access. on_known Hk. apply wp_bind. eapply wp_deref; [done|].
  apply wp_bind. eapply wp_mono; [by eapply access_spec|].
  intros r w1 (Hg1 & Hs1 & _). by apply wp_answer_steps.
Qed.

Lemma readlink_answered ino w :
  good w -> known w ino -> wp (hsx_fuse_readlink ino) (fun _ => answered w no_forget) w.
Proof.
  intros Hg Hk. unfold hsx_fuse_readlink. on_known Hk.
  apply wp_bind. eapply wp_mono; [by eapply readlink_spec|].
  intros r w1 (Hg1 & Hs1 & _). case_if; by apply wp_answer_steps.
Qed.

Lemma unlink_answered parent name w :
  good w -> known w parent -> wp (hsx_fuse_unlink parent name) (fun _ => answered w no_forget) w.
Proof.
  intros Hg Hk. unfold hsx_fuse_unlink. destruct name as [name|]; [|by apply wp_answer_steps].
  case_if; [by apply wp_answer_steps|]. case_if; [by apply wp_answer_steps|].
  on_known Hk. apply wp_bind. eapply wp_mono; [by eapply unlink_spec|].
  intros r w1 (Hg1 & Hs1 & _). by apply wp_answer_steps.
Qed.

Lemma rmdir_answered parent name w :
  good w -> known w parent -> wp (hsx_fuse_rmdir parent name) (fun _ => answered w no_forget) w.
Proof.
  intros Hg Hk. unfold hsx_fuse_rmdir. on_known Hk.
  apply wp_bind. eapply wp_mono; [by eapply rmdir_spec|].
  intros r w1 (Hg1 & Hs1 & _). by apply wp_answer_steps.
Qed.

Lemma rename_answered parent name newparent newname w :
  good w -> known w parent -> known w newparent ->
  wp (hsx_fuse_rename parent name newparent newname) (fun _ => answered w no_forget) w.
Proof.
  intros Hg Hk Hk'. unfold hsx_fuse_rename.
  destruct name as [name|], newname as [newname|]; try (by apply wp_answer_steps).
  do 4 (case_if; [by apply wp_answer_steps|]).
  on_known Hk. on_known Hk'. apply wp_bind. eapply wp_mono; [by eapply rename_spec|].
  intros r w1 (Hg1 & Hs1 & _). by apply wp_answer_steps.
Qed.

Lemma statfs_answered w :
  good w -> is_Some (w_heap w !! sb_root (w_sb w)) ->
  wp hsx_fuse_statfs (fun _ => answered w no_forget) w.
Proof.
  intros Hg [n Hn]. unfold hsx_fuse_statfs. apply wp_bind, wp_get_sb, wp_bind.
  eapply wp_deref; [done|]. apply wp_bind. eapply wp_mono; [by eapply statfs_spec|].
  intros r w1 (Hg1 & Hs1 & _). case_if; [by apply wp_answer_steps|].
  apply wp_bind, wp_get_sb. destruct (hsi_super2statvfs _); by apply wp_answer_steps.
Qed.

Lemma open_answered w : good w -> wp hsx_fuse_open (fun _ => answered w no_forget) w.
Proof.
  intros Hg. apply wp_bind, wp_malloc. intros b e.
  case_if; apply wp_answer_steps; (by apply good_env) || apply steps_env || done.
Qed.

Lemma opendir_answered ino w :
  good w -> known w ino -> wp (hsx_fuse_opendir ino) (fun _ => answered w no_forget) w.
Proof. intros Hg Hk. unfold hsx_fuse_opendir. on_known Hk. by apply wp_answer_steps. Qed.

Lemma release_answered w : good w -> wp hsx_fuse_release (fun _ => answered w no_forget) w.
Proof. intros Hg. by apply wp_answer_steps. Qed.

(** A listing without entry parameters gives nothing. *)
Lemma fill_dir_counts l room i : dirents_count (fill_dir l room) i = 0.
Proof.
  revert room. induction l as [|c l IH]; intros room; simpl; [done|]. case_if; [done|].
  simpl. unfold dirent_counts. simpl. apply IH.
Qed.

Lemma free_ctx_none l pos (Q : unit -> world -> Prop) w : Q tt w -> wp (fuse_free_ctx l pos None) Q w.
Proof.
  intros HQ. revert pos. induction l as [|c l IH]; intros pos; simpl; [by apply wp_ret|].
  apply wp_bind, wp_ret, IH.
Qed.

Lemma wp_answer_then r w w1 (k : M world unit) :
  wp (send r) (fun _ => answered w no_forget) w1 ->
  (forall Q w', Q tt w' -> wp k Q w') ->
  wp (do! send r in k) (fun _ => answered w no_forget) w1.
Proof. intros Hs Hk. apply wp_bind. eapply wp_mono; [exact Hs|]. intros [] w' Ha. by apply Hk. Qed.

Lemma readdir_answered ino size off w :
  good w -> known w ino -> wp (hsx_fuse_readdir ino size off) (fun _ => answered w no_forget) w.
Proof.
  intros Hg Hk. unfold hsx_fuse_readdir. on_known Hk. apply wp_bind, wp_assert; [done|].
  apply wp_bind. eapply wp_mono; [by eapply readdir_spec|].
  intros r w1 (Hg1 & Hs1 & _). case_if; [by apply wp_answer_steps|].
  apply wp_bind, wp_malloc. intros b e.
  assert (Hg2 : good (set_env e w1)) by (by apply good_env).
  assert (Hs2 : steps w (set_env e w1)) by (etrans; [done|apply steps_env]).
  case_if.
  - apply wp_bind, free_ctx_none. by apply wp_answer_steps.
  - apply wp_answer_then; [|intros; by apply free_ctx_none].
    apply wp_answer_steps; [done..|]. intros i. apply fill_dir_counts.
Qed.

(** ** Extended attributes *)

Lemma getxattr_spec p n mask type w :
  good w -> w_heap w !! p = Some n ->
  spec w (hsi_nfs3_getxattr p mask type) (fun r _ => r.1 = 0 -> is_Some r.2).
Proof.
  intros Hg Hn. pose proof (good_clnt _ Hg) as Hl. unfold spec, hsi_nfs3_getxattr. wp_go.
  case_if; [wp_go; by split|].
  assert (Ha : sb_acl_clntp (w_sb w) ∈ w_clnts w) by (by destruct (good_acl _ Hg)).
  apply wp_bind. apply wp_call; [done|intros e err Herr|intros e res Hans].
  - wp_go. by env_done.
  - destruct res as [resok|st x]; wp_go.
    + apply wp_malloc. intros b e'.
      assert (Hs2 : steps w (set_env e' (set_env e w))) by (etrans; apply steps_env).
      case_if; wp_go; (split; [by apply good_env, good_env|split; [done|]]); simpl; eauto.
      done.
    + env_done. intros H0. by destruct (errno_nonzero _ _ _ Hans eq_refl).
Qed.

Lemma getxattr_answered ino name size w :
  good w -> known w ino -> wp (hsx_fuse_getxattr ino name size) (fun _ => answered w no_forget) w.
Proof.
  intros Hg Hk. unfold hsx_fuse_getxattr. destruct (xattr_type name); [|by apply wp_answer_steps].
  on_known Hk. apply wp_bind. eapply wp_mono; [by eapply getxattr_spec|].
  intros r w1 (Hg1 & Hs1 & Hr). case_if; [by apply wp_answer_steps|].
  destruct (Hr ltac:(done)) as [acl Hacl]. rewrite Hacl.
  apply wp_bind, wp_malloc. intros b e.
  assert (Hg2 : good (set_env e w1)) by (by apply good_env).
  assert (Hs2 : steps w (set_env e w1)) by (etrans; [done|apply steps_env]).
  repeat case_if; by apply wp_answer_steps.
Qed.

(** ** Data *)
Section Data.
Context {HF : FileServer}.

Lemma wp_malloc_files n (Q : bool -> world -> Prop) w :
  (forall b e, (forall h, content e h = content (w_env w) h) -> Q b (set_env e w)) ->
  wp (c_malloc n) Q w.
Proof.
  intros HQ. exists (malloc n (w_env w)).1, (set_env (malloc n (w_env w)).2 w). split.
  - unfold c_malloc, from_env. by destruct (malloc n (w_env w)).
  - apply HQ. intros h. apply fs_malloc.
Qed.

(** The reply [r] was sent and nothing else than the environment changed. *)
Definition replied (w : world) (r : reply) (e : env) (w' : world) : Prop :=
  w' = set_out (w_out w ++ [r]) (set_env e w).

Lemma replied_answered w r e w' :
  good w -> (forall i, counts r i = 0) -> replied w r e w' -> answered w no_forget w'.
Proof.
  intros Hg Hr ->. exists r, (fun _ => 0), (set_env e w).
  split_and!; [done|by apply good_env|by apply steps_progress, steps_env|].
  intros i. rewrite Hr. unfold no_forget. lia.
Qed.

Definition failed_reply (r : reply) : Prop := exists err, r = reply_err err /\ err <> 0.

Lemma read_run fuel ino p n size off w :
  good w -> w_heap w !! p = Some n -> ino_of n = ino ->
  0 <= off -> 0 <= size < 2 ^ 32 -> off + size < 2 ^ 63 -> (Z.to_nat size < fuel)%nat ->
  let h := hsi_nfs3_getfh3 n in let C := content (w_env w) h in
  wp (hsx_fuse_read fuel ino size off) (fun _ w' => exists r e, replied w r e w' /\
    (failed_reply r \/ r = reply_buf (take (Z.to_nat size) (drop (Z.to_nat off) C)) /\
       content e h = C)) w.
Proof.
  intros Hg Hn Hi Hoff Hsz Hend Hfuel h C. unfold hsx_fuse_read. apply wp_bind, wp_malloc_files.
  intros b e He. assert (Hg1 : good (set_env e w)) by (by apply good_env).
  case_if; [apply wp_send; exists (reply_err ENOMEM), e; split; [done|left; by eexists]|].
  apply wp_bind. eapply wp_known; [done..|]. intros ->.
  apply wp_bind. eapply wp_mono.
  { apply (read_loop_spec fuel p n size off _ 0 (set_env e w) C); try done; try lia.
    by rewrite length_replicate. }
  intros [[err buf] cnt] w2 [(e2 & -> & He2) Hr]. simpl in Hr.
  case_if; [apply wp_send; exists (reply_err err), e2; split; [done|left; by eexists]|].
  destruct (Hr ltac:(done)) as [Hcnt Hbuf]. rewrite (proj2 (Z.ltb_ge _ _)) by lia.
  apply wp_send. eexists _, e2. split; [done|]. right. by rewrite Hbuf.
Qed.

Lemma write_run fuel ino p n buf size off direct_io w :
  good w -> w_heap w !! p = Some n -> ino_of n = ino ->
  0 <= off -> 0 <= size < 2 ^ 32 -> off + size < 2 ^ 63 ->
  length buf = Z.to_nat size -> (Z.to_nat size < fuel)%nat ->
  let h := hsi_nfs3_getfh3 n in
  wp (hsx_fuse_write fuel ino buf size off direct_io) (fun _ w' => exists r e, replied w r e w' /\
    (failed_reply r \/
     r = reply_write size /\ content e h = splice (Z.to_nat off) buf (content (w_env w) h))) w.
Proof.
  intros Hg Hn Hi Hoff Hsz Hend Hlen Hfuel h. unfold hsx_fuse_write. apply wp_bind, wp_get_sb.
  apply wp_bind, wp_malloc_files. intros b e He.
  assert (Hg1 : good (set_env e w)) by (by apply good_env).
  case_if; [apply wp_send; exists (reply_err ENOMEM), e; split; [done|left; by eexists]|].
  cbv zeta. apply wp_bind. eapply wp_known; [done..|]. intros ->.
  apply wp_bind. eapply wp_mono.
  { apply (write_loop_spec fuel p n _ size off buf 0 (set_env e w)
      (content (w_env w) (hsi_nfs3_getfh3 n))); try done; try lia.
    exists 0%nat. split; [lia|]. rewrite take_0. apply He. }
  intros r w2 (e2 & -> & Hr).
  case_if; [apply wp_send; eexists _, e2; split; [done|left; by eexists]|].
  destruct (Hr ltac:(done)) as [Hcnt HC']. apply wp_send. eexists _, e2. split; [done|].
  right. by rewrite Hcnt.
Qed.

Lemma read_answered fuel ino size off w :
  good w -> known w ino -> 0 <= off -> 0 <= size < 2 ^ 32 -> off + size < 2 ^ 63 ->
  (Z.to_nat size < fuel)%nat ->
  wp (hsx_fuse_read fuel ino size off) (fun _ => answered w no_forget) w.
Proof.
  intros Hg (p & n & Hn & Hi) Hoff Hsz Hend Hfuel.
  eapply wp_mono; [by eapply read_run|]. intros [] w' (r & e & Hr & Hc).
  eapply replied_answered; [done| |done]. destruct Hc as [(err & -> & _)|[-> _]]; done.
Qed.

Lemma write_answered fuel ino buf size off direct_io w :
  good w -> known w ino -> 0 <= off -> 0 <= size < 2 ^ 32 -> off + size < 2 ^ 63 ->
  length buf = Z.to_nat size -> (Z.to_nat size < fuel)%nat ->
  wp (hsx_fuse_write fuel ino buf size off direct_io) (fun _ => answered w no_forget) w.
Proof.
  intros Hg (p & n & Hn & Hi) Hoff Hsz Hend Hlen Hfuel.
  eapply wp_mono; [by eapply write_run|]. intros [] w' (r & e & Hr & Hc).
  eapply replied_answered; [done| |done]. destruct Hc as [(err & -> & _)|[-> _]]; done.
Qed.
End Data.
End Handlers.
