(* ===== verification/RefSpec.v ===== *)
(** * The FUSE handlers that count references

    LOOKUP, CREATE, MKDIR, MKNOD, SYMLINK and READDIRPLUS give the kernel
    inodes, FORGET takes them back. *)

From S2P Require Import Prelude Bitops Hash Proto World Icache IcacheFacts Attr Rpc NfsInode Wp Blocks Nfs3Ops Nfs3Spec Acl FuseOps FuseIo FileSpec FuseSpec.

Section RefSpec.
Context {E : Env} {HC : Connected} {HS : ServerLaws} {HML : MallocLaws} {HMem : MemLaws}.
Hypothesis Hbad : bad_inode_placed.
Abbreviation sop := hsi_nfs_sop.

(** What is left before counters and memory run out. *)
Record limits (w : world) : Prop := {
  lim_size : Z.of_nat (size (w_heap w)) <= 2 ^ 31;
  lim_refs : forall p n, w_heap w !! p = Some n -> 0 <= refs_of n < 2 ^ 63;
  lim_count : forall p n, w_heap w !! p = Some n -> - 2 ^ 31 < in_i_count (ni_hsfs_inode n) }.

(** The limits of a concrete world, decided. *)
Definition limits_b (w : world) : bool :=
  (Z.of_nat (size (w_heap w)) <=? 2 ^ 31) &&
  forallb (fun pn => (0 <=? refs_of pn.2) && (refs_of pn.2 <? 2 ^ 63) &&
    (- 2 ^ 31 <? in_i_count (ni_hsfs_inode pn.2))) (map_to_list (w_heap w)).

Lemma limits_b_ok w : limits_b w = true -> limits w.
Proof using E.
  clear Hbad.
  unfold limits_b. rewrite andb_true_iff, forallb_forall. intros [Hs Hall].
  assert (Hn : forall p n, w_heap w !! p = Some n -> 0 <= refs_of n < 2 ^ 63 /\
    - 2 ^ 31 < in_i_count (ni_hsfs_inode n)).
  { intros p n Hn. specialize (Hall (p, n)). simpl in Hall.
    assert (Hb : (0 <=? refs_of n) && (refs_of n <? 2 ^ 63) && (- 2 ^ 31 <? in_i_count (ni_hsfs_inode n)) = true).
    { apply Hall. apply list_elem_of_In. by apply elem_of_map_to_list. }
    to_prop. lia. }
  constructor; [lia|intros p n Hp; apply (Hn p n Hp)..].
Qed.

(** The object a call makes is not one the kernel already holds. *)
Definition fresh_object (w : world) (p : nfsproc (nfsres diropres3ok wcc_data)) : Prop :=
  forall res h q n, answers p (RES_OK res) -> do_obj res = Some h ->
    w_heap w !! q = Some n -> fh_bytes (ni_fh n) = h -> refs_of n = 0.

Lemma wp_ref_inc p n v (Q : Z -> world -> Prop) w :
  w_heap w !! p = Some n ->
  Q (u64 (refs_of n + v)) (set_heap (<[p := set_private (u64 (refs_of n + v)) n]> (w_heap w)) w) ->
  wp (hsx_fuse_ref_inc p v) Q w.
Proof.
  intros Hn HQ. apply wp_bind. eapply wp_deref; [done|]. cbv zeta. apply wp_bind.
  eapply wp_update; [done|]. apply wp_ret, HQ.
Qed.

(** ** LOOKUP *)

Lemma lookup_answered ino name w :
  good w -> known w ino -> limits w ->
  wp (hsx_fuse_lookup ino name) (fun _ => answered w no_forget) w.
Proof.
  intros Hg Hk Hlim. pose proof (lim_size _ Hlim) as Hsz. unfold hsx_fuse_lookup. on_known Hk.
  apply wp_bind. eapply wp_mono; [apply (lookup_spec Hbad p n name w); [done|done|lia]|].
  intros r w1 (Hg1 & Hs1 & Hr).
  destruct Hr as [[Herr Hnone]|(H0 & child & n' & resok & Hc & Hnn & Hn' & Hans & Hio)].
  - rewrite (proj2 (Z.eqb_neq _ _) Herr). by apply wp_answer_steps.
  - rewrite H0, Hc. simpl. rewrite Hnn.
    assert (Hrefs : 0 <= refs_of n' < 2 ^ 63).
    { destruct Hio as (_ & _ & [[_ Hz]|(m & Hm & [_ Hpr])]).
      - unfold refs_of. lia.
      - pose proof (lim_refs _ Hlim _ _ Hm). unfold refs_of in *. lia. }
    apply wp_bind. eapply wp_ref_inc; [done|]. rewrite u64_small by lia.
    eapply wp_answer_entry; [by left|done..].
Qed.

(** ** Creation *)

Lemma created_answered w0 w p r w1 (rep : fuse_entry_param -> reply) :
  (rep = reply_entry \/ rep = reply_create) ->
  good w1 -> steps w0 w -> steps w w1 -> created_post w p r w1 -> fresh_object w p ->
  wp (if negb (r.1 =? 0) then send (reply_err r.1)
      else if default NULL r.2 =? NULL then send (reply_err ENOMEM)
      else reply_new (default NULL r.2) rep) (fun _ => answered w0 no_forget) w1.
Proof.
  intros Hrep Hg1 Hs0 Hs1 Hr Hfresh. assert (Hs : steps w0 w1) by (by etrans).
  destruct Hr as [Herr|(H0 & new & n' & res & h & Hnew & Hnn & Hn' & Hans & Hh & Hio)].
  - rewrite (proj2 (Z.eqb_neq _ _) Herr). by apply wp_answer_steps.
  - rewrite H0, Hnew. simpl. rewrite Hnn.
    assert (Hrefs : refs_of n' = 0).
    { destruct Hio as (Hb & _ & [[_ Hz]|(m & Hm & [Hid Hpr])]); [done|].
      unfold refs_of. rewrite Hpr. eapply (Hfresh _ _ _ _ Hans Hh Hm).
      destruct Hid as (_ & <- & _). done. }
    apply wp_bind, wp_bind. eapply wp_deref; [done|]. apply wp_bind. eapply wp_update; [done|].
    apply wp_ret, wp_bind, wp_assert; [by apply Z.eqb_eq|].
    apply wp_answer_entry; [done..|]. lia.
Qed.

Lemma mkdir_answered parent name mode w :
  good w -> known w parent -> limits w ->
  (forall a, da_name (mk_where a) = name -> fresh_object w (NFSPROC3_MKDIR a)) ->
  wp (hsx_fuse_mkdir parent name mode) (fun _ => answered w no_forget) w.
Proof.
  intros Hg Hk Hlim Hf. pose proof (lim_size _ Hlim) as Hsz. unfold hsx_fuse_mkdir. on_known Hk.
  apply wp_bind. eapply wp_mono; [apply (mkdir_spec Hbad p n name mode w); [done|done|lia]|].
  intros r w1 (Hg1 & Hs1 & Hr). eapply created_answered; [by left|done|reflexivity|done|done|by apply Hf].
Qed.

Lemma mknod_answered parent name mode rdev w :
  good w -> known w parent -> limits w -> strlen name < NAME_MAX ->
  (forall a, da_name (mn_where a) = name -> fresh_object w (NFSPROC3_MKNOD a)) ->
  wp (hsx_fuse_mknod parent name mode rdev) (fun _ => answered w no_forget) w.
Proof.
  intros Hg Hk Hlim Hlen Hf. pose proof (lim_size _ Hlim) as Hsz. unfold hsx_fuse_mknod. on_known Hk.
  apply wp_bind. eapply wp_mono; [apply (mknod_spec Hbad p n name mode rdev w); [done|done|lia|done]|].
  intros r w1 (Hg1 & Hs1 & Hr). eapply created_answered; [by left|done|reflexivity|done|done|by apply Hf].
Qed.

Lemma symlink_answered link parent name w :
  good w -> known w parent -> limits w ->
  (forall a, da_name (sy_where a) = name -> fresh_object w (NFSPROC3_SYMLINK a)) ->
  wp (hsx_fuse_symlink link parent name) (fun _ => answered w no_forget) w.
Proof.
  intros Hg Hk Hlim Hf. pose proof (lim_size _ Hlim) as Hsz. unfold hsx_fuse_symlink. on_known Hk.
  apply wp_bind. eapply wp_mono; [apply (symlink_spec Hbad p n link name w); [done|done|lia]|].
  intros r w1 (Hg1 & Hs1 & Hr). eapply created_answered; [by left|done|reflexivity|done|done|by apply Hf].
Qed.

(** CREATE first makes the caller the owner of the parent's cached attributes. *)
Lemma create_answered parent name mode flags uid gid w :
  good w -> known w parent -> limits w ->
  (forall a, da_name (cr_where a) = name -> fresh_object w (NFSPROC3_CREATE a)) ->
  wp (hsx_fuse_create parent name mode flags uid gid) (fun _ => answered w no_forget) w.
Proof.
  intros Hg Hk Hlim Hf. pose proof (lim_size _ Hlim) as Hsz. unfold hsx_fuse_create. on_known Hk.
  apply wp_bind. eapply wp_update; [done|]. set (n0 := update_iattr _ n). set (w0 := set_heap _ w).
  assert (Hk0 : kept n n0) by done.
  assert (Hs0 : steps w w0) by (by eapply steps_update).
  assert (Hg0 : good w0) by (by eapply good_update).
  cbv zeta. apply wp_bind.
  eapply wp_mono; [apply (create_spec Hbad p n0 name); [done|apply lookup_insert_eq|]|].
  { simpl. rewrite map_size_insert_Some by eauto. lia. }
  intros r w1 (Hg1 & Hs1 & Hr). eapply created_answered; [by right|done|done|done|done|].
  intros res h q m Hans Hh Hm Hb.
  assert (Hold : exists m0, w_heap w !! q = Some m0 /\ fh_bytes (ni_fh m0) = h /\ refs_of m = refs_of m0).
  { simpl in Hm. apply lookup_insert_Some in Hm as [[<- <-]|[_ Hm]]; [by exists n|by exists m]. }
  destruct Hold as (m0 & Hm0 & Hb0 & ->). by refine (Hf _ _ res h q m0 Hans Hh Hm0 Hb0).
Qed.

(** ** FORGET *)

Lemma forget_answered ino nlookup w p n :
  good w -> limits w -> w_heap w !! p = Some n -> ino_of n = ino -> 0 <= nlookup <= refs_of n ->
  wp (hsx_fuse_forget ino nlookup) (fun _ => answered w (fun i => if ino =? i then nlookup else 0)) w.
Proof.
  intros Hg Hlim Hn Hi Hle. unfold hsx_fuse_forget. pose proof (lim_refs _ Hlim _ _ Hn) as Hrefs.
  assert (Hk : known w ino) by (by exists p, n).
  apply wp_bind. eapply wp_known; [done..|]. intros Hnn. rewrite Hnn.
  apply wp_bind, wp_assert; [done|]. apply wp_bind, wp_bind. eapply wp_deref; [done|].
  apply wp_bind, wp_assert; [apply Z.leb_le; apply Hle|]. fold (refs_of n).
  rewrite u64_small by lia. cbv zeta. apply wp_bind. eapply wp_update; [done|]. apply wp_ret.
  set (n1 := set_private _ n). set (w1 := set_heap _ w).
  assert (Hg1 : good w1) by (by eapply good_update).
  assert (Hp1 : progress w (fun i => if ino_of n =? i then - nlookup else 0) w1).
  { apply progress_count; [done..|lia]. }
  assert (Hn1 : w_heap w1 !! p = Some n1) by apply lookup_insert_eq.
  assert (Hsend : forall w2, good w2 -> progress w1 (fun _ => 0) w2 ->
    wp (send reply_none) (fun _ => answered w (fun i => if ino =? i then nlookup else 0)) w2).
  { intros w2 Hg2 Hp2. eapply wp_answer; [done|by eapply progress_trans|].
    intros i. simpl. rewrite Hi. case_if; lia. }
  apply wp_bind. case_if; [|apply wp_ret, Hsend; [done|]; by apply steps_progress].
  destruct (iput_ret sop w1 p n1) as [Hput Hok]; [apply Hg1|done| |].
  { apply (lim_count _ Hlim _ _ Hn). }
  eexists tt, _. split; [exact Hput|]. apply Hsend.
  - destruct Hg1. by constructor.
  - constructor; try done; intros q m Hq; simpl.
    + destruct (decide (p = q)) as [<-|Hne].
      * exists (put n1). rewrite lookup_insert_eq. assert (m = n1) as -> by congruence.
        split_and!; [done|done|]. change (refs_of n1 + 0 <= refs_of n1). lia.
      * exists m. rewrite lookup_insert_ne by done. split_and!; [done|done|lia].
    + rewrite lookup_insert_ne by congruence. intros Hm.
      change (w_heap w1 !! q = Some m) in Hm. congruence.
Qed.

(** ** READDIRPLUS *)

Lemma dirent_counts_le d i e : d_param d = Some e -> dirent_counts d i <= one (e_ino e) i.
Proof. unfold dirent_counts, one. intros ->. repeat case_if; lia. Qed.

Lemma fill_dir_plus_spec l room w :
  good w -> Forall (fun c => is_Some (w_heap w !! ctx_inode c)) l ->
  (forall p n, w_heap w !! p = Some n -> 0 <= refs_of n /\ refs_of n + Z.of_nat (length l) < 2 ^ 64) ->
  wp (fill_dir_plus l room) (fun es w' => good w' /\ exists c, progress w c w' /\
    forall i, dirents_count es i <= c i) w.
Proof.
  revert room w. induction l as [|c l IH]; intros room w Hg Hl Hb; simpl.
  { apply wp_ret. split; [done|]. exists (fun _ => 0). split; [by apply steps_progress|done]. }
  apply Forall_cons in Hl as [[n Hn] Hl]. apply wp_bind, wp_bind. eapply wp_deref; [done|].
  apply wp_bind, wp_get_sb, wp_ret. cbv zeta.
  assert (Hstop : forall w, good w -> wp (ret ([] : list dirent)) (fun es w' => good w' /\ exists c,
    progress w c w' /\ forall i, dirents_count es i <= c i) w).
  { intros w' Hg'. apply wp_ret. split; [done|]. exists (fun _ => 0). split; [by apply steps_progress|done]. }
  case_if; [by apply Hstop|]. case_if; [by apply Hstop|].
  apply wp_bind. eapply wp_ref_inc; [done|]. cbn [length] in Hb.
  rewrite u64_small by (specialize (Hb _ _ Hn); lia). set (w1 := set_heap _ w).
  assert (Hg1 : good w1) by (by eapply good_update).
  assert (Hp1 : progress w (fun i => if ino_of n =? i then 1 else 0) w1)
    by (apply progress_count; [done..|lia]).
  apply wp_bind. eapply wp_mono; [apply (IH _ w1); [done| |]|].
  - eapply Forall_impl; [done|]. intros c' [m Hm]. simpl.
    destruct (decide (ctx_inode c = ctx_inode c')) as [<-|]; [rewrite lookup_insert_eq|rewrite lookup_insert_ne by done];
      eauto.
  - intros q m Hq. simpl in Hq. apply lookup_insert_Some in Hq as [[<- <-]|[_ Hq]].
    + specialize (Hb _ _ Hn). unfold refs_of in *. simpl. lia.
    + specialize (Hb _ _ Hq). lia.
  - intros es w2 (Hg2 & c2 & Hp2 & Hc2). apply wp_ret. split; [done|].
    eexists. split; [by eapply progress_trans|]. intros i. simpl. specialize (Hc2 i).
    match goal with |- dirent_counts ?d i + _ <= _ =>
      pose proof (dirent_counts_le d i _ eq_refl) as Hd end. simpl in Hd.
    unfold one in Hd. unfold ino_of in *. lia.
Qed.

Lemma readdir_plus_answered ino size off w :
  good w -> known w ino -> limits w ->
  wp (hsx_fuse_readdir_plus ino size off) (fun _ => answered w no_forget) w.
Proof.
  intros Hg Hk Hlim. unfold hsx_fuse_readdir_plus. on_known Hk. apply wp_bind, wp_assert; [done|].
  apply wp_bind. eapply wp_mono; [apply (readdir_plus_spec Hbad p n); [done|done|apply Hlim]|].
  intros r w1 (Hg1 & Hs1 & Hr). case_if; [by apply wp_answer_steps|].
  destruct (Hr ltac:(done)) as (res & Hans & Hlist). destruct (law_readdirplus _ _ Hans) as [Hlen _].
  apply wp_bind, wp_malloc. intros b e.
  assert (Hg2 : good (set_env e w1)) by (by apply good_env).
  assert (Hs2 : steps w (set_env e w1)) by (etrans; [done|apply steps_env]).
  case_if; [apply wp_bind, free_ctx_none; by apply wp_answer_steps|].
  apply wp_bind. eapply wp_mono; [apply (fill_dir_plus_spec r.2 size (set_env e w1)); [done| |]|].
  - eapply Forall2_Forall_r; [done|]. apply Forall_forall. intros x _ c (q & m & -> & Hm & _).
    simpl. eauto.
  - intros q m Hm. simpl in Hm. rewrite <- (Forall2_length _ _ _ Hlist).
    destruct (w_heap w !! q) as [m0|] eqn:Hm0.
    + destruct (steps_live_n _ _ _ _ Hs1 Hm0) as (m' & Hm' & [_ Hpr]).
      assert (m' = m) as -> by congruence. pose proof (lim_refs _ Hlim _ _ Hm0).
      unfold refs_of in *. lia.
    + unfold refs_of. rewrite (steps_new _ _ Hs1 _ _ Hm0 Hm). lia.
  - intros es w3 (Hg3 & c & Hp3 & Hc). apply wp_answer_then; [|intros; by apply free_ctx_none].
    eapply wp_answer; [done|eapply progress_trans; [done|by apply steps_progress|exact Hp3]|].
    intros i. specialize (Hc i). unfold no_forget. simpl. lia.
Qed.
End RefSpec.
