(* ===== verification/Session.v ===== *)
(** * A session: the kernel's requests against the handlers

    [hsfs_oper] is the table of handlers of [fuse/hsfs_main.c].  The kernel's
    side is a ledger: how many references it holds on each inode number.  It
    asks only about inodes it holds and forgets no more than it holds.  The
    invariant of a session is that every held number is the number of a cached
    inode, with at least as many references counted in [private]; so no request
    fails an assertion, and each has exactly one reply. *)

From S2P Require Import Prelude Bitops Hash Proto World Icache IcacheFacts Attr Rpc NfsInode Wp Blocks Nfs3Ops Nfs3Spec Acl FuseOps FuseIo FileSpec FuseSpec RefSpec.

Inductive request :=
  | FUSE_LOOKUP (parent : Z) (name : string)
  | FUSE_FORGET (ino nlookup : Z)
  | FUSE_GETATTR (ino : Z)
  | FUSE_SETATTR (ino : Z) (attr : stat) (to_set : Z)
  | FUSE_READLINK (ino : Z)
  | FUSE_SYMLINK (link : string) (parent : Z) (name : string)
  | FUSE_MKNOD (parent : Z) (name : string) (mode rdev : Z)
  | FUSE_MKDIR (parent : Z) (name : string) (mode : Z)
  | FUSE_UNLINK (parent : Z) (name : option string)
  | FUSE_RMDIR (parent : Z) (name : string)
  | FUSE_RENAME (parent : Z) (name : option string) (newparent : Z) (newname : option string)
  | FUSE_LINK (ino newparent : Z) (newname : string)
  | FUSE_OPEN
  | FUSE_READ (ino size off : Z)
  | FUSE_WRITE (ino : Z) (buf : list Z) (size off : Z) (direct_io : bool)
  | FUSE_STATFS
  | FUSE_RELEASE
  | FUSE_SETXATTR (ino : Z) (name : string) (value : option (list Z)) (size : Z)
  | FUSE_GETXATTR (ino : Z) (name : string) (size : Z)
  | FUSE_OPENDIR (ino : Z)
  | FUSE_READDIR (ino size off : Z)
  | FUSE_ACCESS (ino mask : Z)
  | FUSE_CREATE (parent : Z) (name : string) (mode flags uid gid : Z)
  | FUSE_READDIRPLUS (ino size off : Z).

Section Session.
Context `{E : Env}.

(** Every round of a read or a write moves a byte or ends, so [size] rounds and
    the last test are fuel enough. *)
Definition hsfs_oper (req : request) : M world unit :=
  match req with
  | FUSE_LOOKUP parent name => hsx_fuse_lookup parent name
  | FUSE_FORGET ino nlookup => hsx_fuse_forget ino nlookup
  | FUSE_GETATTR ino => hsx_fuse_getattr ino
  | FUSE_SETATTR ino attr to_set => hsx_fuse_setattr ino attr to_set
  | FUSE_READLINK ino => hsx_fuse_readlink ino
  | FUSE_SYMLINK link parent name => hsx_fuse_symlink link parent name
  | FUSE_MKNOD parent name mode rdev => hsx_fuse_mknod parent name mode rdev
  | FUSE_MKDIR parent name mode => hsx_fuse_mkdir parent name mode
  | FUSE_UNLINK parent name => hsx_fuse_unlink parent name
  | FUSE_RMDIR parent name => hsx_fuse_rmdir parent name
  | FUSE_RENAME parent name newparent newname => hsx_fuse_rename parent name newparent newname
  | FUSE_LINK ino newparent newname => hsx_fuse_link ino newparent newname
  | FUSE_OPEN => hsx_fuse_open
  | FUSE_READ ino size off => hsx_fuse_read (S (Z.to_nat size)) ino size off
  | FUSE_WRITE ino buf size off direct_io =>
      hsx_fuse_write (S (Z.to_nat size)) ino buf size off direct_io
  | FUSE_STATFS => hsx_fuse_statfs
  | FUSE_RELEASE => hsx_fuse_release
  | FUSE_SETXATTR ino name value size => hsx_fuse_setxattr ino name value size
  | FUSE_GETXATTR ino name size => hsx_fuse_getxattr ino name size
  | FUSE_OPENDIR ino => hsx_fuse_opendir ino
  | FUSE_READDIR ino size off => hsx_fuse_readdir ino size off
  | FUSE_ACCESS ino mask => hsx_fuse_access ino mask
  | FUSE_CREATE parent name mode flags uid gid => hsx_fuse_create parent name mode flags uid gid
  | FUSE_READDIRPLUS ino size off => hsx_fuse_readdir_plus ino size off
  end.

(** Requests one after the other. *)
Fixpoint run_requests (oper : request -> M world unit) (reqs : list request) : M world unit :=
  match reqs with
  | [] => ret tt
  | req :: reqs => do! oper req in run_requests oper reqs
  end.

(** ** The kernel *)

Definition ledger := Z -> Z.

Definition forgotten (req : request) : ledger :=
  match req with
  | FUSE_FORGET ino nlookup => fun i => if ino =? i then nlookup else 0
  | _ => no_forget
  end.

(** The ledger after a request and its reply. *)
Definition settle (k : ledger) (req : request) (r : reply) : ledger :=
  fun i => k i + counts r i - forgotten req i.

(** The requests of the sessions considered.  They are about inodes the kernel
    holds; a transfer has a 32-bit size and ends below 2^63.  Some that the kernel
    may send are left out, since the code does not serve them: LINK, which does not
    count the reference it gives, and SETXATTR, which replies twice; MKNOD with a
    name of [NAME_MAX] characters, where the handler writes past its copy of it; and
    a CREATE (or MKDIR, MKNOD, SYMLINK) whose answer is an object the kernel holds,
    which fails an assertion. *)
Definition allowed (k : ledger) (w : world) (req : request) : Prop :=
  match req with
  | FUSE_LOOKUP ino _ | FUSE_GETATTR ino | FUSE_SETATTR ino _ _ | FUSE_READLINK ino
  | FUSE_UNLINK ino _ | FUSE_RMDIR ino _ | FUSE_GETXATTR ino _ _ | FUSE_OPENDIR ino
  | FUSE_READDIR ino _ _ | FUSE_ACCESS ino _ | FUSE_READDIRPLUS ino _ _ => 0 < k ino
  | FUSE_FORGET ino nlookup => 0 < k ino /\ 0 <= nlookup <= k ino
  | FUSE_RENAME ino _ ino' _ => 0 < k ino /\ 0 < k ino'
  | FUSE_SYMLINK _ ino name => 0 < k ino /\
      forall a, da_name (sy_where a) = name -> fresh_object w (NFSPROC3_SYMLINK a)
  | FUSE_MKNOD ino name _ _ => 0 < k ino /\ strlen name < NAME_MAX /\
      forall a, da_name (mn_where a) = name -> fresh_object w (NFSPROC3_MKNOD a)
  | FUSE_MKDIR ino name _ => 0 < k ino /\
      forall a, da_name (mk_where a) = name -> fresh_object w (NFSPROC3_MKDIR a)
  | FUSE_CREATE ino name _ _ _ _ => 0 < k ino /\
      forall a, da_name (cr_where a) = name -> fresh_object w (NFSPROC3_CREATE a)
  | FUSE_READ ino size off => 0 < k ino /\ 0 <= off /\ 0 <= size < 2 ^ 32 /\ off + size < 2 ^ 63
  | FUSE_WRITE ino buf size off _ => 0 < k ino /\ 0 <= off /\ 0 <= size < 2 ^ 32 /\
      off + size < 2 ^ 63 /\ length buf = Z.to_nat size
  | FUSE_OPEN | FUSE_STATFS | FUSE_RELEASE => True
  | FUSE_LINK _ _ _ | FUSE_SETXATTR _ _ _ _ => False
  end.

(** ** The invariant *)

Record session_inv (k : ledger) (w : world) : Prop := {
  si_good : good w;
  si_root : is_Some (w_heap w !! sb_root (w_sb w));
  si_pos : forall ino, 0 <= k ino;
  si_held : forall ino, 0 < k ino -> exists p n, w_heap w !! p = Some n /\ ino_of n = ino /\
    k ino <= refs_of n }.

Lemma held_known k w ino : session_inv k w -> 0 < k ino -> known w ino.
Proof. intros Hi Hk. destruct (si_held _ _ Hi _ Hk) as (p & n & Hn & Hino & _). by exists p, n. Qed.

Lemma counts_nonneg r i : 0 <= counts r i.
Proof.
  assert (Hone : forall a, 0 <= one a i) by (intros a; unfold one; case_if; lia).
  destruct r as [| |e|e| | | |l| | | |]; simpl; try done.
  induction l as [|d l IH]; simpl; [done|].
  enough (0 <= dirent_counts d i) by lia. unfold dirent_counts.
  destruct (d_param d) as [e|]; [|done]. case_if; [done|apply Hone].
Qed.

(** One reply, and references counted as the kernel counts them, keep it. *)
Lemma answered_inv k w fgt w' :
  session_inv k w -> limits w -> (forall i, 0 <= fgt i <= k i) -> answered w fgt w' ->
  exists r, w_out w' = w_out w ++ [r] /\ session_inv (fun i => k i + counts r i - fgt i) w'.
Proof.
  intros [Hg [rn Hroot] Hpos Hheld] Hlim Hfgt (r & c & w1 & -> & Hg1 & Hp & Hc).
  exists r. split; [done|]. constructor.
  - destruct Hg1. by constructor.
  - simpl. destruct (pr_old _ _ _ Hp _ _ Hroot) as (n' & Hn' & _).
    rewrite (pr_root _ _ _ Hp). eauto.
  - intros i. pose proof (counts_nonneg r i). specialize (Hfgt i). lia.
  - intros i Hi. simpl. destruct (Hc i) as [Hle Hgiv]. pose proof (Hfgt i).
    destruct (Z.leb_spec (k i) 0) as [Hk0|Hk0].
    + assert (Hk : k i = 0) by (specialize (Hpos i); lia).
      destruct (pr_given _ _ _ Hp i) as (p & n' & Hn' & Hino); [apply Hgiv; lia|].
      exists p, n'. split_and!; [done..|].
      destruct (w_heap w !! p) as [n|] eqn:Hn.
      * destruct (pr_old _ _ _ Hp _ _ Hn) as (n2 & Hn2 & Hi2 & Hle2).
        assert (n2 = n') as -> by congruence. pose proof (lim_refs _ Hlim _ _ Hn).
        rewrite <- Hi2, Hino in Hle2. lia.
      * pose proof (pr_new _ _ _ Hp _ _ Hn Hn') as Hnew. rewrite Hino in Hnew. lia.
    + destruct (Hheld i Hk0) as (p & n & Hn & Hino & Hkr).
      destruct (pr_old _ _ _ Hp _ _ Hn) as (n' & Hn' & Hi' & Hle').
      exists p, n'. split_and!; [done|congruence|]. rewrite Hino in Hle'. lia.
Qed.
End Session.

(** ** Requests *)
Section Requests.
Context {E : Env} {HC : Connected} {HS : ServerLaws} {HML : MallocLaws} {HMem : MemLaws}
  {HF : FileServer}.
Hypothesis Hbad : bad_inode_placed.

Lemma oper_answered k w req :
  session_inv k w -> limits w -> allowed k w req ->
  wp (hsfs_oper req) (fun _ => answered w (forgotten req)) w.
Proof.
  intros Hi Hlim Hok. pose proof (si_good _ _ Hi) as Hg.
  assert (Hk : forall ino, 0 < k ino -> known w ino) by (intros; by eapply held_known).
  destruct req; simpl in Hok |- *.
  - apply lookup_answered; auto.
  - destruct Hok as [Hpos Hle]. destruct (si_held _ _ Hi _ Hpos) as (p & n & Hn & Hino & Hkr).
    eapply forget_answered; [done..|lia].
  - apply getattr_answered; auto.
  - apply setattr_answered; auto.
  - apply readlink_answered; auto.
  - destruct Hok. apply symlink_answered; auto.
  - destruct Hok as (? & ? & ?). apply mknod_answered; auto.
  - destruct Hok. apply mkdir_answered; auto.
  - apply unlink_answered; auto.
  - apply rmdir_answered; auto.
  - destruct Hok. apply rename_answered; auto.
  - done.
  - by apply open_answered.
  - destruct Hok as (? & ? & ? & ?). apply read_answered; auto.
  - destruct Hok as (? & ? & ? & ? & ?). apply write_answered; auto.
  - apply statfs_answered; [done|]. apply (si_root _ _ Hi).
  - by apply release_answered.
  - done.
  - apply getxattr_answered; auto.
  - apply opendir_answered; auto.
  - apply readdir_answered; auto.
  - apply access_answered; auto.
  - destruct Hok. apply create_answered; auto.
  - apply readdir_plus_answered; auto.
Qed.

Lemma forgotten_bound k w req i :
  session_inv k w -> allowed k w req -> 0 <= forgotten req i <= k i.
Proof.
  intros Hi Hok. pose proof (si_pos _ _ Hi i) as Hp. destruct req; simpl in *; unfold no_forget; try lia.
  case_if; [subst|]; lia.
Qed.

Lemma request_inv k w req :
  session_inv k w -> limits w -> allowed k w req ->
  exists r w', hsfs_oper req w = Ret tt w' /\ w_out w' = w_out w ++ [r] /\
    session_inv (settle k req r) w'.
Proof.
  intros Hi Hlim Hok. destruct (oper_answered k w req Hi Hlim Hok) as ([] & w' & Hrun & Ha).
  destruct (answered_inv k w (forgotten req) w' Hi Hlim) as (r & Hout & Hi').
  - intros i. by eapply forgotten_bound.
  - done.
  - exists r, w'. done.
Qed.

(** ** Sessions *)

(** The kernel holds the root from INIT on. *)
Inductive reachable : ledger -> world -> Prop :=
  | reach_init conn conn' w w' n :
      good w -> w_heap w !! sb_root (w_sb w) = Some n -> refs_of n = 0 ->
      hsx_fuse_init conn w = Ret conn' w' -> reachable (one (ino_of n)) w'
  | reach_request k w req r w' :
      reachable k w -> limits w -> allowed k w req ->
      hsfs_oper req w = Ret tt w' -> w_out w' = w_out w ++ [r] ->
      reachable (settle k req r) w'.

Lemma init_inv conn conn' w w' n :
  good w -> w_heap w !! sb_root (w_sb w) = Some n -> refs_of n = 0 ->
  hsx_fuse_init conn w = Ret conn' w' -> session_inv (one (ino_of n)) w'.
Proof.
  intros Hg Hn H0 Hrun.
  assert (Hwp : wp (hsx_fuse_init conn) (fun _ w' => session_inv (one (ino_of n)) w') w).
  { apply wp_bind, wp_get_sb, wp_bind, wp_bind. eapply wp_deref; [done|]. apply wp_bind.
    eapply wp_update; [done|]. apply wp_ret, wp_bind, wp_assert; [by apply Z.eqb_eq|].
    apply wp_ret. constructor.
    - by eapply good_update.
    - simpl. rewrite lookup_insert_eq. eauto.
    - intros i. unfold one. case_if; lia.
    - intros i Hi. exists (sb_root (w_sb w)), (set_private 1 n). simpl. rewrite lookup_insert_eq.
      unfold one in *. case_if; [|lia]. split_and!; [done|done|]. unfold refs_of. simpl. lia. }
  destruct Hwp as (c & w'' & Hrun' & Hinv). rewrite Hrun in Hrun'. by injection Hrun' as _ <-.
Qed.

Lemma reachable_inv k w : reachable k w -> session_inv k w.
Proof.
  induction 1 as [conn conn' w w' n Hg Hn H0 Hrun|k w req r w' Hr IH Hlim Hok Hrun Hout].
  - by eapply init_inv.
  - destruct (request_inv k w req IH Hlim Hok) as (r' & w'' & Hrun' & Hout' & Hi').
    rewrite Hrun in Hrun'. injection Hrun' as <-. rewrite Hout in Hout'.
    by apply app_inj_2 in Hout' as [_ [= <-]].
Qed.
End Requests.
