(* ===== verification/Calm.v ===== *)
(** * A server that keeps its promises

    The environment of [Sample] on a connection that is not lost, with replies
    that carry attributes and memory for every inode: an instance of all the
    classes the theorems on handlers assume.  Calls still fail and reads and
    writes still come back short. *)

From S2P Require Import Prelude Bitops Hash Proto World Icache IcacheFacts Attr Rpc NfsInode Sample Wp Blocks Nfs3Ops Nfs3Spec Acl FuseOps FuseIo FileSpec FuseSpec RefSpec Session.

Definition calm (s : sample_state) : sample_state :=
  {| se_file := se_file s; se_max := Z.max 1 (se_max s); se_fail := se_fail s; se_attrs := true;
     se_clnt := se_clnt s; se_mem := true |}.

(** An error of the script, or EIO for a lost connection. *)
Definition calm_err (x : Z) : Z := if (x =? ENOTCONN) || (x =? ECONNRESET) then EIO else x.

Definition calm_call {R} (clnt : Z) (p : nfsproc R) (tout : Z * Z) (s : sample_state) :
    clnt_result R * sample_state :=
  match se_fail s with
  | x :: l => (RPC_FAILED (calm_err x), set_fail l s)
  | [] => let '(r, s) := sample_answer p (calm s) in (RPC_SUCCESS r, s)
  end.

(** The first free address. *)
Definition calm_addr (k : nat) : Z := 0x10000 + 0x200 * Z.of_nat k.

Definition calm_malloc_inode (h : gmap Z nfs_inode) (s : sample_state) : option Z * sample_state :=
  (if Z.of_nat (size h) <? 2 ^ 32 then
     snd <$> list_find (fun p => h !! p = None) (calm_addr <$> seq 0 (S (size h)))
   else None, s).

#[export] Instance CalmEnv : Env := {
  env := sample_state;
  clnt_call := @calm_call;
  clnt_create := fun l _ _ _ s => (Some (sample_clnt l s), next_clnt s);
  authunix_create := fun s => (true, s);
  malloc_inode := calm_malloc_inode;
  malloc := fun n s => (n <? 2 ^ 40, s);
  direntry_size := fun s => (24 + Z.of_nat (String.length s) + 7) / 8 * 8;
  direntry_plus_size := fun s => (152 + Z.of_nat (String.length s) + 7) / 8 * 8;
  page_size := 4096;
  bad_hsfs_inode := 0x8000 }.

Lemma calm_bad_placed : bad_inode_placed.
Proof. by split. Qed.

#[export] Instance calm_clnt_laws : ClntLaws.
Proof. constructor. intros l addr s r e c e' [= <- _]. apply sample_clnt_new. Qed.

(** ** The promises hold *)

#[export] Instance calm_connected : Connected.
Proof.
  constructor. intros R c p t e x e'. simpl. unfold calm_call.
  destruct (se_fail e) as [|y l].
  - by destruct (sample_answer p (calm e)).
  - intros [= <- _]. unfold calm_err.
    destruct (Z.eqb_spec y ENOTCONN), (Z.eqb_spec y ECONNRESET); simpl; done.
Qed.

(** An answer is the sample server's, in a state with attributes. *)
Lemma calm_answers {R} (p : nfsproc R) r :
  answers p r -> exists s, se_attrs s = true /\ 1 <= se_max s /\ r = (sample_answer p s).1.
Proof.
  intros (c & t & e & e' & Hc). simpl in Hc. unfold calm_call in Hc.
  destruct (se_fail e); [|done]. exists (calm e). simpl. split_and!; [done|lia|].
  destruct (sample_answer p (calm e)). by injection Hc as <- _.
Qed.

Lemma sample_attrs_ok h s : se_attrs s = true -> attrs_ok (sample_post h s).
Proof.
  intros Ha. unfold sample_post. rewrite Ha. eexists. split; [done|]. simpl. by case_bool_decide.
Qed.

Lemma sample_created_ok s r : se_attrs s = true -> sample_create s = RES_OK r -> created_ok r.
Proof.
  intros Ha [= <-]. split; [by apply sample_attrs_ok|]. by exists [2].
Qed.

Ltac calm_law Ha :=
  apply calm_answers in Ha as (s & Hs & Hmax & Ha); cbn [sample_answer fst] in Ha.

#[export] Instance calm_server_laws : ServerLaws.
Proof.
  constructor.
  - intros R p r st Ha Hst. apply calm_answers in Ha as (s & Hs & _ & ->).
    destruct p; simpl in Hst; try done.
    + case_bool_decide; simpl in Hst; [done|]. by injection Hst as <-.
    + by injection Hst as <-.
  - intros a r Ha. calm_law Ha. case_bool_decide; [|done]. injection Ha as ->.
    split; [done|by apply sample_attrs_ok].
  - intros a r Ha. calm_law Ha. by eapply sample_created_ok.
  - intros a r Ha. calm_law Ha. by eapply sample_created_ok.
  - intros a r Ha. calm_law Ha. by eapply sample_created_ok.
  - intros a r Ha. calm_law Ha. by eapply sample_created_ok.
  - intros fh r Ha. calm_law Ha. by injection Ha as ->.
  - intros a r Ha. calm_law Ha. injection Ha as ->. split; [done|].
    repeat constructor; [by apply sample_attrs_ok|]. by exists [2].
Qed.

#[export] Instance calm_malloc_laws : MallocLaws.
Proof.
  constructor. intros h e p e'. simpl. unfold calm_malloc_inode.
  destruct (Z.ltb_spec (Z.of_nat (size h)) (2 ^ 32)); [|done].
  destruct (list_find _ _) as [[i q]|] eqn:Hf; simpl; [|done]. intros [= <- _].
  apply list_find_Some in Hf as (Hq & Hfree & _). split; [done|].
  apply list_elem_of_lookup_2, list_elem_of_fmap in Hq as (k & -> & Hk).
  apply elem_of_seq in Hk. unfold valid_ptr, calm_addr, MAX_ERRNO. simpl. lia.
Qed.

(** Of one address more than there are inodes, one is free. *)
Lemma calm_addr_free (h : gmap Z nfs_inode) :
  is_Some (list_find (fun p => h !! p = None) (calm_addr <$> seq 0 (S (size h)))).
Proof.
  destruct (list_find _ _) as [x|] eqn:Hf; [eauto|]. exfalso.
  apply list_find_None in Hf. rewrite Forall_forall in Hf.
  assert (Hsub : list_to_set (calm_addr <$> seq 0 (S (size h))) ⊆@{gset Z} dom h).
  { intros p Hp%elem_of_list_to_set. specialize (Hf p Hp). simpl in Hf.
    destruct (h !! p) as [n|] eqn:Hn; [by eapply elem_of_dom_2|done]. }
  apply subseteq_size in Hsub. rewrite size_dom, size_list_to_set in Hsub.
  - rewrite length_fmap, length_seq in Hsub. lia.
  - apply NoDup_fmap_2; [|apply NoDup_seq]. intros i j. unfold calm_addr. lia.
Qed.

#[export] Instance calm_mem_laws : MemLaws.
Proof.
  constructor.
  - intros h e Hsz. destruct (calm_addr_free h) as [x Hx]. exists x.2, e.
    simpl. unfold calm_malloc_inode. rewrite (proj2 (Z.ltb_lt _ _)) by done. by rewrite Hx.
  - intros n e Hn. exists e. simpl. f_equal. apply Z.ltb_lt. lia.
Qed.

#[export] Instance calm_files : FileServer.
Proof.
  refine {| content := fun (s : env) _ => se_file (s : sample_state) |}; simpl; unfold calm_call.
  - intros c a t e x e'. destruct (se_fail e); simpl; by intros [= _ <-].
  - intros c a t e r e'. destruct (se_fail e); simpl; [|done]. intros [= <- _] Hoff Hcnt.
    unfold sample_read. simpl. set (D := drop _ (se_file e)). set (m := Z.to_nat _).
    assert (Hlen : length (take m D) = Nat.min m (length D)) by apply length_take.
    assert (HD : length D = (length (se_file e) - Z.to_nat (rd_offset a))%nat) by apply length_drop.
    rewrite Hlen. split_and!; [|done|lia|].
    + destruct (Nat.min_spec m (length D)) as [[? ->]|[? ->]]; [done|]. by rewrite !take_ge by lia.
    + case_if; lia.
  - intros c a t e r e'. destruct (se_fail e); simpl; [|done]. intros [= <- <-] Hlen. simpl.
    set (d := take _ (wr_data a)). assert (Hd : length d = Nat.min (Z.to_nat (Z.min (wr_count a) (Z.max 1 (se_max e)))) (length (wr_data a)))
      by apply length_take.
    split; [|lia]. f_equal. rewrite Nat2Z.id. unfold d. rewrite length_take.
    destruct (Nat.min_spec (Z.to_nat (Z.min (wr_count a) (Z.max 1 (se_max e)))) (length (wr_data a)))
      as [[? ->]|[? ->]]; [done|]. by rewrite !take_ge by lia.
  - done.
  - intros c a t e x e'. destruct (se_fail e); simpl; [done|]. intros [= _ <-]. by exists 0%nat.
Defined.

(** ** Worlds *)

Definition calm0 : sample_state :=
  {| se_file := [10; 11; 12; 13; 14; 15; 16; 17; 18; 19]; se_max := 4; se_fail := [EAGAIN];
     se_attrs := true; se_clnt := 2; se_mem := true |}.

Definition calm_empty : world := mk_world ∅ sample_sb {[1]} backup_zero calm0 [].

Lemma calm_empty_good : good calm_empty.
Proof.
  constructor; [|by apply elem_of_singleton|by left|done|done]. split; [|by constructor].
  constructor; simpl; rewrite ?hash_init_nodes; try done; try apply NoDup_nil_2;
    intros p; (split; [by intros ?%not_elem_of_nil|by intros []]).
Qed.

(** The root is inode 1 at 0x10000. *)
Definition calm_mounted : world :=
  let w := after_run (hsi_nfs_fhget hsi_nfs_sop (sample_fh [1]) (sample_fa [1])) calm_empty in
  set_sb (set_sb_root 0x10000 (w_sb w)) w.

Lemma calm_mounted_good : good calm_mounted.
Proof.
  destruct (fhget_usable calm_bad_placed (sample_fh [1]) (Some (sample_fattr [1] sample0)) calm_empty)
    as (p & w' & Hf & Hg & Hs & _).
  - apply calm_empty_good.
  - by apply sample_fh_wf.
  - by eexists.
  - done.
  - unfold calm_mounted, after_run.
    change (fattr_of (Some (sample_fattr [1] sample0))) with (sample_fa [1]) in Hf. rewrite Hf.
    apply good_sb; [exact Hg|reflexivity..|apply Hg|apply Hg].
Qed.

#[global] Opaque calm_mounted.

Lemma calm_mounted_root : exists n, w_heap calm_mounted !! sb_root (w_sb calm_mounted) = Some n /\
  ino_of n = 1 /\ refs_of n = 0.
Proof.
  destruct (w_heap calm_mounted !! sb_root (w_sb calm_mounted)) as [n|] eqn:Hn; [|by vm_compute in Hn].
  exists n. split; [done|].
  assert (H : (fun m => (ino_of m, refs_of m)) <$> w_heap calm_mounted !! sb_root (w_sb calm_mounted)
    = Some (1, 0)) by (by vm_compute).
  rewrite Hn in H. by injection H as -> ->.
Qed.

(** The session after INIT, and after a lookup of the file. *)
Definition calm_conn : fuse_conn_info := {| conn_capable := 0x3fff; conn_want := 0 |}.
Definition calm_start : world := after_run (hsx_fuse_init calm_conn) calm_mounted.
Definition calm_looked : world := after_run (hsfs_oper (FUSE_LOOKUP 1 "f")) calm_start.
#[global] Opaque calm_start calm_looked.

Lemma calm_start_reachable : reachable (one 1) calm_start.
Proof.
  destruct calm_mounted_root as (n & Hn & Hi & H0). rewrite <- Hi.
  eapply reach_init; [apply calm_mounted_good|done|done|].
  apply (after_run_ret (hsx_fuse_init calm_conn) calm_mounted (hsx_fuse_init_cap calm_conn)).
  by vm_compute.
Qed.

Lemma calm_start_limits : limits calm_start.
Proof. apply limits_b_ok. by vm_compute. Qed.

(** The mounted world with the file cached, inode 2 at 0x10200. *)
Definition calm_file : world :=
  after_run (hsi_nfs_fhget hsi_nfs_sop (sample_fh [2]) (sample_fa [2])) calm_mounted.

Lemma calm_file_good : good calm_file.
Proof.
  destruct (fhget_usable calm_bad_placed (sample_fh [2]) (Some (sample_fattr [2] sample0)) calm_mounted)
    as (p & w' & Hf & Hg & _).
  - apply calm_mounted_good.
  - by apply sample_fh_wf.
  - by eexists.
  - apply Z.ltb_lt. by vm_compute.
  - unfold calm_file, after_run.
    change (fattr_of (Some (sample_fattr [2] sample0))) with (sample_fa [2]) in Hf. by rewrite Hf.
Qed.

#[global] Opaque calm_file.

Lemma calm_file_inode k : exists n, w_heap calm_file !! (if (k : bool) then 0x10000 else 0x10200) = Some n /\
  ino_of n = if k then 1 else 2.
Proof.
  destruct (w_heap calm_file !! (if k then 0x10000 else 0x10200)) as [n|] eqn:Hn.
  - exists n. split; [done|].
    assert (H : ino_of <$> w_heap calm_file !! (if k then 0x10000 else 0x10200)
      = Some (if k then 1 else 2)) by (destruct k; by vm_compute).
    rewrite Hn in H. by injection H.
  - exfalso. destruct k; by vm_compute in Hn.
Qed.

Lemma calm_file_limits : limits calm_file.
Proof. apply limits_b_ok. by vm_compute. Qed.

Lemma calm_file_content h : content (w_env calm_file) h = [10; 11; 12; 13; 14; 15; 16; 17; 18; 19].
Proof. by vm_compute. Qed.
