(* ===== verification/LostConn.v ===== *)
(** * Lost connections

    When the connection to the server is lost, [hsi_nfs3_clnt_call] destroys the
    client, makes a new one and repeats the call on it.  The operations that release
    the result of a call on the client the superblock holds after it, GETATTR, LOOKUP,
    RMDIR and STATFS, are safe then; those that have read the client before the call
    are not. *)

From S2P Require Import Prelude Bitops Hash Proto World Icache IcacheFacts Attr Rpc NfsInode Sample Wp Blocks Nfs3Ops.
From S2P Require Import Nfs3Spec Acl FuseOps FuseIo FileSpec FuseSpec RefSpec Session Calm.

(** The clients of the superblock are two, and both are live. *)
Definition conn_ok `{E : Env} (w : world) : Prop :=
  good w /\ sb_acl_clntp (w_sb w) <> sb_clntp (w_sb w).

Section Reconnect.
Context {E : Env} {HCL : ClntLaws}.

(** What is left of the state but for the clients. *)
Definition same_state (w w' : world) : Prop :=
  w_heap w' = w_heap w /\ w_sb w' = w_sb w /\ w_out w' = w_out w.

(** A new client, or none, beside those that are there. *)
Definition one_more (w : world) (c : Z) (w' : world) : Prop :=
  same_state w w' /\
  if c =? NULL then w_clnts w' = w_clnts w else w_clnts w' = {[c]} ∪ w_clnts w /\ c ∉ w_clnts w.

Lemma wp_openclnt a s r w :
  wp (hsi_mnt_openclnt a s r) (fun ca w' => one_more w ca.1 w') w.
Proof.
  unfold hsi_mnt_openclnt. case_if; [|by apply wp_ret].
  set (addr := {| ca_hostname := ca_hostname a |}). apply wp_bind, wp_asks.
  destruct (clnt_create (w_clnts w) addr s r (w_env w)) as [[c|] e] eqn:Hc; cbn [fst snd]; [|by apply wp_ret].
  apply clnt_create_new in Hc as [Hn Hnew]. apply wp_bind. eexists tt, _. split; [reflexivity|].
  apply wp_bind, wp_asks. case_if.
  - apply wp_ret. split; [done|]. cbn [fst]. by rewrite (proj2 (Z.eqb_neq _ _) Hn).
  - apply wp_bind. eexists tt, _. split; [apply clnt_destroy_total; simpl; set_solver|]. apply wp_ret.
    split; [done|]. simpl. set_solver.
Qed.

Lemma wp_clnt_create a s r w :
  wp (hsi_nfs3_clnt_create a s r) (fun ca w' => one_more w ca.1 w') w.
Proof.
  apply wp_bind. eapply wp_mono; [apply wp_openclnt|]. intros [c addr] w1 [Hs Hc]. cbn [fst snd] in *.
  destruct (Z.eqb_spec c NULL) as [->|Hn]; [by apply wp_ret|]. destruct Hc as [Hcl Hnew].
  apply wp_bind, wp_rpc; [set_solver|]. intros [u|x] e _.
  - apply wp_bind. eexists tt, _. split; [reflexivity|]. apply wp_ret. split; [done|].
    cbn [fst]. by rewrite (proj2 (Z.eqb_neq _ _) Hn).
  - apply wp_bind. eexists tt, _. split; [apply clnt_destroy_total; simpl; set_solver|]. apply wp_ret.
    split; [done|]. simpl. rewrite Hcl. set_solver.
Qed.

(** The superblock after its client was replaced. *)
Lemma conn_ok_replace w w' c :
  conn_ok w -> w_heap w' = w_heap w -> w_sb w' = set_sb_clntp c (w_sb w) ->
  w_clnts w' = {[c]} ∪ w_clnts w ∖ {[sb_clntp (w_sb w)]} -> c ∉ w_clnts w ∖ {[sb_clntp (w_sb w)]} -> c <> NULL ->
  conn_ok w'.
Proof.
  intros [[Hc Hl Ha Hr Hw] Hne] Hh Hs Hcl Hnew Hn. split; [constructor|]; rewrite ?Hs, ?Hcl; simpl; try done.
  - destruct Hc as [Hi Hnf]. split; [|by rewrite Hh]. unfold icache_ok in *. rewrite Hh, Hs. by apply (icache_inv_sb _ (w_sb w)).
  - set_solver.
  - destruct Ha as [Ha|Ha]; [by left|right]. set_solver.
  - destruct Ha as [Ha|Ha]; [congruence|]. intros Heq. apply Hnew. rewrite <- Heq. set_solver.
Qed.

Lemma wp_reconnect w :
  conn_ok w ->
  wp (hsi_nfs3_clnt_reconnect (sb_clntp (w_sb w)))
    (fun c w' => rpc_frame w w' /\ (c <> NULL -> c = sb_clntp (w_sb w') /\ conn_ok w')) w.
Proof.
  intros Hok. assert (Hl := good_clnt _ (proj1 Hok)).
  enough (Hwp : wp (hsi_nfs3_clnt_reconnect (sb_clntp (w_sb w)))
    (fun c w' => c <> NULL -> c = sb_clntp (w_sb w') /\ conn_ok w') w).
  { destruct Hwp as (c & w' & Hr & Hc). exists c, w'. split; [done|]. split; [|done].
    by apply reconnect_ret in Hr as [? _]. }
  apply wp_bind, wp_get_sb, wp_bind. eexists tt, _. split; [by apply clnt_destroy_total|].
  rewrite Z.eqb_refl. apply wp_bind. eexists _, _. split; [reflexivity|].
  apply wp_bind. eapply wp_mono; [apply wp_clnt_create|].
  intros [c a] w2 [(Hh & Hs & Ho) Hc]. cbn [fst snd] in *. apply wp_bind. eexists tt, _. split; [reflexivity|].
  destruct (Z.eqb_spec c NULL) as [->|Hn]; cbn [negb].
  - by apply wp_bind, wp_ret, wp_ret.
  - destruct Hc as [Hcl Hnew]. apply wp_bind, wp_update_sb, wp_ret. intros _. split; [done|].
    eapply (conn_ok_replace w _ c); try done. simpl. by rewrite Hs.
Qed.

(** ** Calls *)

(** The call returns, whatever is lost; after a result both clients are live. *)
Definition call_end {R} (p : nfsproc R) (w : world) (eo : Z * option R) (w' : world) : Prop :=
  rpc_frame w w' /\
  match eo.2 with
  | None => eo.1 <> 0
  | Some r => eo.1 = 0 /\ conn_ok w' /\ answers p r
  end.

Lemma conn_ok_env e w : conn_ok w -> conn_ok (set_env e w).
Proof. intros [Hg Hn]. split; [by apply good_env|done]. Qed.

Lemma env_frame e w : rpc_frame w (set_env e w).
Proof. by apply rpc_frame_eq. Qed.

Lemma retry_lost {R} tries (p : nfsproc R) t w :
  conn_ok w -> wp (clnt_call_retry tries (sb_clntp (w_sb w)) p t) (call_end p w) w.
Proof.
  revert w. induction tries as [|tries IH]; intros w Hok; simpl; apply wp_bind;
    (apply wp_rpc; [apply Hok|]); intros x e He;
    assert (Hne : forall y, hsi_rpc_stat_to_errno y <> 0) by (intros y; unfold hsi_rpc_stat_to_errno; case_if; done);
    (destruct x as [r|x]; [apply wp_ret; split; [apply env_frame|];
      split_and!; [done|by apply conn_ok_env|by eexists _, _, _, _]|]).
  - apply wp_ret. split; [apply env_frame|apply Hne].
  - assert (Hagain : forall w1, rpc_frame w w1 -> conn_ok w1 ->
      wp (clnt_call_retry tries (sb_clntp (w_sb w1)) p t) (call_end p w) w1).
    { intros w1 Hf Hok1. eapply wp_mono; [by apply IH|]. intros eo w2 [Hf2 He2]. split; [|done].
      by eapply rpc_frame_trans. }
    case_if; [apply (Hagain (set_env e w)); [apply env_frame|by apply conn_ok_env]|].
    case_if; [|apply wp_ret; split; [apply env_frame|apply Hne]].
    apply wp_bind. eapply wp_mono; [apply (wp_reconnect (set_env e w)); by apply conn_ok_env|].
    intros c w1 [Hf Hc]. assert (Hf1 : rpc_frame w w1) by (eapply rpc_frame_trans; [apply (env_frame e)|done]).
    destruct (Z.eqb_spec c NULL) as [->|Hn]; cbn [negb].
    + apply wp_ret. split; [done|apply Hne].
    + destruct (Hc Hn) as [-> Hok1]. by apply Hagain.
Qed.

Lemma call_lost {R} (p : nfsproc R) w :
  conn_ok w -> wp (hsi_nfs3_clnt_call (sb_clntp (w_sb w)) p) (call_end p w) w.
Proof. intros Hok. apply wp_bind, wp_get_sb. by apply retry_lost. Qed.
End Reconnect.

(** ** The requests *)

(** The requests that release results on the client of the superblock. *)
Definition survivor `{E : Env} (w : world) (req : request) : Prop :=
  match req with
  | FUSE_GETATTR _ | FUSE_LOOKUP _ _ => True
  | FUSE_RMDIR parent _ => known w parent
  | FUSE_STATFS => is_Some (w_heap w !! sb_root (w_sb w))
  | _ => False
  end.

Section Survivors.
Context {E : Env} {HCL : ClntLaws} {HSL : ServerLaws} {HML : MallocLaws} {HMem : MemLaws}.
Hypothesis Hbad : bad_inode_placed.

(** One reply, with the cache consistent, and the clients unless it is an error. *)
Definition survived (w w' : world) : Prop :=
  exists r, w_out w' = w_out w ++ [r] /\ cache_ok w' /\ (failed_reply r \/ conn_ok w').

Lemma frame_cache w w' : rpc_frame w w' -> cache_ok w -> cache_ok w'.
Proof. intros Hf [Hi Hn]. split; [by eapply rpc_frame_icache|]. destruct Hf as (-> & _). done. Qed.

Lemma conn_ok_out l w : conn_ok w -> conn_ok (set_out l w).
Proof. intros [[] Hn]. split; [by constructor|done]. Qed.

(** The last step: a reply while the clients are live, or an error. *)
Lemma send_live r w w1 :
  w_out w1 = w_out w -> conn_ok w1 -> wp (send r) (fun _ => survived w) w1.
Proof.
  intros Ho Hok. apply wp_send. exists r. simpl. rewrite Ho. split_and!; [done| |right; by apply conn_ok_out].
  apply (good_cache _ (proj1 Hok)).
Qed.

Lemma send_failed err w w1 :
  rpc_frame w w1 -> cache_ok w -> err <> 0 -> wp (send (reply_err err)) (fun _ => survived w) w1.
Proof.
  intros Hf Hc He. apply wp_send. exists (reply_err err). split_and!; [|by apply (frame_cache w w1)|].
  - simpl. by destruct Hf as (_ & -> & _).
  - left. by exists err.
Qed.

(** What the operations do with the two ends of a call: an error, or a state in
    which the clients are live. *)
Definition op_end (w : world) (err : Z) (w' : world) : Prop :=
  (err <> 0 /\ rpc_frame w w') \/ (conn_ok w' /\ w_out w' = w_out w).

Lemma op_end_live w w' err : rpc_frame w w' -> conn_ok w' -> op_end w err w'.
Proof. intros (_ & Ho & _) Hok. by right. Qed.

Lemma send_error w w1 err :
  op_end w err w1 -> cache_ok w -> wp (send (reply_err err)) (fun _ => survived w) w1.
Proof. intros [[He Hf]|[Hok Ho]] Hc; [by eapply send_failed|by apply send_live]. Qed.

Lemma rmdir_lost p n name w :
  conn_ok w -> w_heap w !! p = Some n -> wp (hsi_nfs3_rmdir p name) (op_end w) w.
Proof.
  intros Hok Hn. unfold hsi_nfs3_rmdir. wp_go. eapply wp_mono; [by apply call_lost|].
  intros [err [r|]] w1 [Hf He]; cbn [fst snd] in *; [|apply wp_ret; by left].
  destruct He as (_ & Hok1 & _). pose proof (good_clnt _ (proj1 Hok1)). wp_go. by apply op_end_live.
Qed.

Lemma statfs_lost p n w :
  conn_ok w -> w_heap w !! p = Some n -> wp (hsi_nfs3_statfs p) (op_end w) w.
Proof.
  intros Hok Hn. unfold hsi_nfs3_statfs. wp_go. eapply wp_mono; [by apply call_lost|].
  intros [err [[r|st x]|]] w1 [Hf He]; cbn [fst snd] in *; [| |apply wp_ret; by left];
    destruct He as (_ & Hok1 & _); pose proof (good_clnt _ (proj1 Hok1)).
  - apply wp_bind, wp_update_sb, wp_bind, wp_free_sb; [done|]. apply wp_ret. right.
    split; [|by destruct Hf as (_ & ? & _)]. destruct Hok1 as [Hg1 Hn1]. split; [|done].
    apply good_sb; [done..|apply Hg1|apply Hg1].
  - wp_go. by apply op_end_live.
Qed.

Lemma getattr_lost p n st w :
  conn_ok w -> w_heap w !! p = Some n ->
  wp (hsi_nfs3_getattr p st) (fun r w' => op_end w r.1 w' /\ is_Some (w_heap w' !! p)) w.
Proof.
  intros Hok Hn. unfold hsi_nfs3_getattr, hsi_nfs3_do_getattr. wp_go. eapply wp_mono; [by apply call_lost|].
  intros [err [[a|s x]|]] w1 [Hf He]; cbn [fst snd] in *.
  - destruct He as (_ & Hok1 & _). pose proof (good_clnt _ (proj1 Hok1)). wp_go. cbn [Z.eqb negb fmap option_fmap option_map].
    destruct Hf as (Hh & Ho & _). apply wp_bind. eapply wp_refresh; [by rewrite Hh|]. apply wp_ret. split.
    + right. split; [|done]. destruct Hok1 as [Hg1 Hn1]. split; [|done].
      eapply good_update; [done|by rewrite Hh|apply refreshed_identity].
    + simpl. rewrite lookup_insert_eq. eauto.
  - destruct He as (_ & Hok1 & Ha). pose proof (good_clnt _ (proj1 Hok1)). wp_go.
    rewrite (proj2 (Z.eqb_neq _ _) (errno_nonzero _ _ _ Ha eq_refl)). apply wp_ret.
    split; [by apply op_end_live|]. destruct Hf as (-> & _). by exists n.
  - wp_go. rewrite (proj2 (Z.eqb_neq _ _) He). apply wp_ret. split; [by left|].
    destruct Hf as (-> & _). by exists n.
Qed.

(** A LOOKUP that succeeds has the inode in the cache. *)
Lemma lookup_lost p n name w :
  conn_ok w -> Z.of_nat (size (w_heap w)) < 2 ^ 32 -> w_heap w !! p = Some n ->
  wp (hsi_nfs3_lookup p name) (fun r w' => op_end w r.1 w' /\
    (r.1 = 0 -> conn_ok w' /\ exists q m, r.2 = Some q /\ (q =? NULL) = false /\ w_heap w' !! q = Some m)) w.
Proof using HCL HSL HML HMem Hbad.
  intros Hok Hsz Hn. unfold hsi_nfs3_lookup. wp_go. eapply wp_mono; [by apply call_lost|].
  intros [err [[res|st x]|]] w1 [Hf He]; cbn [fst snd] in *.
  - destruct He as (_ & Hok1 & Hans). pose proof Hf as (Hh & Ho & _). destruct (law_lookup _ _ Hans) as [Hh1 Ha].
    apply wp_bind, wp_copy_fh3; [done|]. intros f Hwf Hb. apply wp_bind.
    eapply wp_mono; [apply (fhget_usable Hbad f (lk_obj_attributes res) w1); [apply Hok1|done|done|by rewrite Hh]|].
    intros q w2 (Hg2 & Hs2 & (m & Hm & _) & Hq & _). pose proof (good_clnt _ Hg2) as Hl2.
    assert (Hok2 : conn_ok w2) by (split; [done|]; rewrite (steps_clntp _ _ Hs2), (steps_acl _ _ Hs2); apply Hok1).
    apply wp_bind, wp_free_sb; [done|]. apply wp_ret. split; [right; split; [done|]; by rewrite (steps_out _ _ Hs2)|].
    intros _. split; [done|]. by exists q, m.
  - destruct He as (_ & Hok1 & Ha). pose proof (good_clnt _ (proj1 Hok1)). wp_go.
    split; [by apply op_end_live|]. intros H0. by destruct (errno_nonzero _ _ _ Ha eq_refl).
  - apply wp_ret. split; [by left|done].
Qed.

(** The reply to LOOKUP: an entry of an inode that one more reference is counted for. *)
Lemma entry_lost q m w w1 :
  conn_ok w1 -> w_out w1 = w_out w -> w_heap w1 !! q = Some m ->
  wp (do! hsx_fuse_ref_inc q 1 in let! e := hsx_fuse_fill_reply q in send (reply_entry e))
    (fun _ => survived w) w1.
Proof.
  intros [Hg Hne] Ho Hm. unfold hsx_fuse_ref_inc, hsx_fuse_fill_reply.
  apply wp_bind, wp_bind. eapply wp_deref; [done|]. cbv zeta. apply wp_bind. eapply wp_update; [done|]. apply wp_ret.
  set (m' := set_private _ m). set (w2 := set_heap _ w1).
  assert (Hm' : w_heap w2 !! q = Some m') by (simpl; by rewrite lookup_insert_eq).
  apply wp_bind, wp_bind. eapply wp_deref; [exact Hm'|]. apply wp_bind, wp_get_sb, wp_ret.
  apply send_live; [done|]. split; [|done]. eapply good_update; [done|exact Hm|apply set_private_identity].
Qed.

(** An unknown number is answered with ENOENT where a handler looks it up. *)
Lemma on_inode ino w (k : Z -> M world unit) :
  conn_ok w -> (forall p n, w_heap w !! p = Some n -> wp (k p) (fun _ => survived w) w) ->
  wp (let! p := hsfs_ilookup ino in if p =? NULL then send (reply_err ENOENT) else k p) (fun _ => survived w) w.
Proof.
  intros Hok Hk. apply wp_bind, wp_ilookup; [apply Hok| |].
  - intros _. by apply send_live.
  - intros p n Hn _ Hp. rewrite (proj2 (Z.eqb_neq _ _) Hp). by eapply Hk.
Qed.

(** C10: The requests that release the result of their call on the client the
    superblock holds after the call survive a lost connection.  Whatever calls fail
    and however often the connection is lost and made again, or not, GETATTR and LOOKUP
    of any number, RMDIR in a cached directory and STATFS with a cached root return
    with one reply and a consistent cache, and unless the reply is an error both
    clients of the superblock are live, so that the session goes on.  It is assumed
    that both clients are live before, that a client that is made has a handle of its
    own ([ClntLaws]), that answers to LOOKUP carry the attributes of an object that
    exists and failed ones a status ([ServerLaws]; see [lookup_without_attributes]),
    and that there is memory for an inode while there are fewer than 2^32
    ([MallocLaws], [MemLaws]). *)
Theorem survives_lost_connection req w :
  conn_ok w -> Z.of_nat (size (w_heap w)) < 2 ^ 32 -> survivor w req ->
  exists r w', hsfs_oper req w = Ret tt w' /\ w_out w' = w_out w ++ [r] /\ cache_ok w' /\
    (failed_reply r \/ conn_ok w').
Proof.
  intros Hok Hsz Hs. pose proof (good_cache _ (proj1 Hok)) as Hc.
  enough (Hwp : wp (hsfs_oper req) (fun _ => survived w) w).
  { destruct Hwp as ([] & w' & Hr & r & Ho). by exists r, w'. }
  destruct req; try done; simpl in Hs |- *.
  - apply on_inode; [done|]. intros p n Hn. apply wp_bind. eapply wp_mono; [by eapply lookup_lost|].
    intros [err o] w1 [He Hend]. cbn [fst snd] in *. case_if; [by apply send_error|]. to_prop. subst err.
    destruct (Hend eq_refl) as (Hok1 & q & m & -> & -> & Hm).
    destruct He as [[? _]|[_ Ho]]; [done|]. by eapply entry_lost.
  - apply on_inode; [done|]. intros p n Hn. apply wp_bind. eapply wp_mono; [by eapply getattr_lost|].
    intros [err o] w1 [He [m Hm]]. cbn [fst snd] in *. case_if; [by apply send_error|]. to_prop. subst err.
    destruct He as [[? _]|[Hok1 Ho]]; [done|]. apply wp_bind. eapply attr_timeout_wp; [done|]. intros t. by apply send_live.
  - destruct Hs as (p & n & Hn & Hi). apply wp_bind. eapply wp_known; [apply Hok|done..|]. intros ->. apply wp_bind.
    eapply wp_mono; [by eapply rmdir_lost|]. intros err w1 He. by apply send_error.
  - destruct Hs as [n Hn]. apply wp_bind, wp_get_sb, wp_bind. eapply wp_deref; [done|]. apply wp_bind.
    eapply wp_mono; [by eapply statfs_lost|]. intros err w1 He. case_if; [by apply send_error|]. to_prop. subst err.
    destruct He as [[? _]|[Hok1 Ho]]; [done|]. apply wp_bind, wp_get_sb. case_match; by apply send_live.
Qed.
End Survivors.

(** ** A witness

    The calm server on a connection that is lost. *)

Definition lossy_call {R} (clnt : Z) (p : nfsproc R) (tout : Z * Z) (s : sample_state) :
    clnt_result R * sample_state :=
  match se_fail s with
  | x :: l => (RPC_FAILED x, set_fail l s)
  | [] => calm_call clnt p tout s
  end.

Definition lossy_env : Env := {|
  env := sample_state;
  clnt_call := @lossy_call;
  clnt_create l _ _ _ s := (Some (sample_clnt l s), next_clnt s);
  authunix_create s := (true, s);
  malloc_inode := calm_malloc_inode;
  malloc n s := (n <? 2 ^ 40, s);
  direntry_size s := 0;
  direntry_plus_size s := 0;
  page_size := 4096;
  bad_hsfs_inode := 0x8000 |}.

Lemma lossy_clnt : @ClntLaws lossy_env.
Proof. constructor. intros l addr s r e c e' [= <- _]. apply sample_clnt_new. Qed.

Lemma lossy_answers {R} (p : nfsproc R) r : @answers lossy_env R p r -> @answers CalmEnv R p r.
Proof.
  intros (c & t & e & e' & Hc). exists c, t, e, e'. simpl in *. unfold lossy_call, calm_call in *.
  by destruct (se_fail e).
Qed.

Lemma lossy_server : @ServerLaws lossy_env.
Proof.
  constructor.
  - intros R p r st Ha%lossy_answers. by apply (@law_status CalmEnv _ R p).
  - intros a r Ha%lossy_answers. by apply (@law_lookup CalmEnv _ a).
  - intros a r Ha%lossy_answers. by apply (@law_create CalmEnv _ a).
  - intros a r Ha%lossy_answers. by apply (@law_mkdir CalmEnv _ a).
  - intros a r Ha%lossy_answers. by apply (@law_symlink CalmEnv _ a).
  - intros a r Ha%lossy_answers. by apply (@law_mknod CalmEnv _ a).
  - intros a r Ha%lossy_answers. by apply (@law_fsinfo CalmEnv _ a).
  - intros a r Ha%lossy_answers. by apply (@law_readdirplus CalmEnv _ a).
Qed.

Lemma lossy_malloc : @MallocLaws lossy_env.
Proof. constructor. apply (@malloc_inode_law CalmEnv _). Qed.

Lemma lossy_mem : @MemLaws lossy_env.
Proof. constructor; [apply (@inode_memory CalmEnv _)|apply (@small_memory CalmEnv _)]. Qed.

(** The connection is lost once. *)
Definition lossy_world : @world lossy_env :=
  @mk_world lossy_env (w_heap calm_mounted) (w_sb calm_mounted) (w_clnts calm_mounted)
    {| nfs_server_bak := {| ca_hostname := "server"; ca_saddr := sockaddr_zero;
         ca_pmap := {| pm_prog := NFS_PROGRAM; pm_vers := NFS_V3; pm_prot := IPPROTO_TCP; pm_port := 2049 |} |};
       acl_server_bak := clnt_addr_zero; ssize_bak := 4; rsize_bak := 4 |}
    (set_fail [ENOTCONN] calm0) [].

Lemma lossy_good (w : @world CalmEnv) b e l :
  good w -> @good lossy_env (@mk_world lossy_env (w_heap w) (w_sb w) (w_clnts w) b e l).
Proof.
  intros [[Hi Hn] Hc Ha Hr Hw]. constructor; [|exact Hc|exact Ha|exact Hr|exact Hw].
  split; [|exact Hn]. destruct Hi. constructor; assumption.
Qed.

Lemma lossy_conn : @conn_ok lossy_env lossy_world.
Proof. split; [apply lossy_good, calm_mounted_good|by vm_compute]. Qed.

Lemma survives_lost_connection_witness :
  exists r w', @hsfs_oper lossy_env (FUSE_LOOKUP 1 "f") lossy_world = Ret tt w' /\
    @w_out lossy_env w' = [r] /\ @cache_ok lossy_env w' /\ (failed_reply r \/ @conn_ok lossy_env w').
Proof.
  apply (@survives_lost_connection lossy_env lossy_clnt lossy_server lossy_malloc lossy_mem ltac:(by split)
    (FUSE_LOOKUP 1 "f") lossy_world lossy_conn).
  - apply Z.ltb_lt. by vm_compute.
  - exact I.
Defined.

(** The entry is inode 2, and the client of the superblock is new. *)
Example lossy_looked :
  match @hsfs_oper lossy_env (FUSE_LOOKUP 1 "f") lossy_world with
  | Ret _ w' => Some (map (fun r => match r with reply_entry e => e_ino e | _ => 0 end) (@w_out lossy_env w'),
      sb_clntp (@w_sb lossy_env w'), elements (@w_clnts lossy_env w'))
  | _ => None
  end = Some ([2], 2, [2]).
Proof. vm_compute. reflexivity. Qed.
