(* ===== verification/SessionSpec.v ===== *)
(** * Properties of sessions, with their witnesses

    The invariant of sessions, that every request is served, what LOOKUP, READ
    and WRITE reply, and the requests that break the protocol with the kernel:
    LINK, SETXATTR and requests about unknown inodes. *)

From S2P Require Import Prelude Bitops Hash Proto World Icache IcacheFacts Attr Rpc NfsInode Sample Wp Blocks Nfs3Ops Nfs3Spec Acl FuseOps FuseIo FileSpec FuseSpec RefSpec Session Calm.

Section Claims.
Context {E : Env} {HC : Connected} {HS : ServerLaws} {HML : MallocLaws} {HMem : MemLaws}
  {HF : FileServer}.

(** C2: The invariant of sessions.  In every state that INIT and a sequence of
    [allowed] requests lead to, the cache is consistent, the client handles are
    live, and each inode number the kernel holds references to is the number of a
    cached inode on which at least as many are counted in [private].  The conditions
    are those of [request_served]: no LINK (after which the references are not
    counted, see [link_not_counted]) and no SETXATTR among the requests, a
    connection that is not lost, a server that sends the handle and the attributes
    with every object, memory for inodes, and counters within their [limits]. *)
Theorem session_invariant k (w : world) :
  bad_inode_placed -> reachable k w -> session_inv k w.
Proof. intros Hbad. by apply reachable_inv. Qed.

(** C1: An [allowed] request in a reachable state is served: the handler returns (no
    failed assertion, no undefined behaviour, no endless loop), sends exactly one
    reply (of the kind that sends nothing for FORGET), and the session goes on from a
    reachable state.  [allowed] is any request about inodes the kernel holds, with
    transfers of FUSE sizes, but for LINK and SETXATTR, for MKNOD with a name of 255
    characters, and for a creation that is answered with an inode the kernel holds.
    The conditions on the world are classes: the connection is not lost ([Connected];
    see [unlink_after_reconnect]), the server sends a handle and attributes with every
    object ([ServerLaws]; see [lookup_without_attributes]), it reads and writes what
    it says ([FileServer]), there is memory for inodes and small buffers ([MallocLaws],
    [MemLaws]), the static [bad_hsfs_inode] lies where objects of a process do
    ([bad_inode_placed]), and there are at most 2^31 inodes and fewer than 2^63
    references ([limits]). *)
Theorem request_served k (w : world) req :
  bad_inode_placed -> reachable k w -> limits w -> allowed k w req ->
  exists r w', hsfs_oper req w = Ret tt w' /\ w_out w' = w_out w ++ [r] /\
    reachable (settle k req r) w'.
Proof.
  intros Hbad Hr Hlim Hok.
  destruct (request_inv Hbad k w req) as (r & w' & Hrun & Hout & _); [by apply reachable_inv|done..|].
  exists r, w'. split_and!; [done..|]. by eapply reach_request.
Qed.

(** C6: A READ of [size] bytes at [off] of a cached inode ends, after as many calls of
    at most [rsize] bytes as the short answers of the server need; it replies an
    error, or exactly that part of the file, up to its end.  Calls may fail, but the
    connection is not lost ([Connected]: after a reconnection the result is released
    on the client that was destroyed); the server returns the bytes of the file, at
    least one before its end ([FileServer]), and failed answers have a status other
    than NFS3_OK ([ServerLaws]); the size has 32 bits and the end is below 2^63. *)
Theorem read_correct ino p n size off (w : world) :
  good w -> w_heap w !! p = Some n -> ino_of n = ino ->
  0 <= off -> 0 <= size < 2 ^ 32 -> off + size < 2 ^ 63 ->
  let h := hsi_nfs3_getfh3 n in let C := content (w_env w) h in
  exists r w', hsfs_oper (FUSE_READ ino size off) w = Ret tt w' /\ w_out w' = w_out w ++ [r] /\
    (failed_reply r \/
     r = reply_buf (take (Z.to_nat size) (drop (Z.to_nat off) C)) /\ content (w_env w') h = C).
Proof.
  intros Hg Hn Hi Hoff Hsz Hend h C.
  destruct (read_run (S (Z.to_nat size)) ino p n size off w) as ([] & w' & Hrun & r & e & -> & Hr);
    [done..|lia|]. by exists r, (set_out (w_out w ++ [r]) (set_env e w)).
Qed.

(** C5: A WRITE of a buffer at [off] of a cached inode ends; it replies an error, or
    the size of the whole buffer, and then the file is the old contents with the
    buffer at [off], whatever part of it the server stored in a call and whatever
    failed attempts left behind.  Calls may fail, but the connection is not lost
    ([Connected]: after a reconnection the result is released on the client that was
    destroyed); the server stores a beginning of what it is sent, at least one byte,
    and says how much ([FileServer]), and failed answers have a status other than
    NFS3_OK ([ServerLaws]); the size has 32 bits and the end is below 2^63. *)
Theorem write_correct ino p n buf size off direct_io (w : world) :
  good w -> w_heap w !! p = Some n -> ino_of n = ino ->
  0 <= off -> 0 <= size < 2 ^ 32 -> off + size < 2 ^ 63 -> length buf = Z.to_nat size ->
  let h := hsi_nfs3_getfh3 n in
  exists r w', hsfs_oper (FUSE_WRITE ino buf size off direct_io) w = Ret tt w' /\
    w_out w' = w_out w ++ [r] /\
    (failed_reply r \/ r = reply_write size /\
       content (w_env w') h = splice (Z.to_nat off) buf (content (w_env w) h)).
Proof.
  intros Hg Hn Hi Hoff Hsz Hend Hlen h.
  destruct (write_run (S (Z.to_nat size)) ino p n buf size off direct_io w)
    as ([] & w' & Hrun & r & e & -> & Hr); [done..|lia|].
  by exists r, (set_out (w_out w ++ [r]) (set_env e w)).
Qed.

(** The entry the handlers send for an inode. *)
Definition entry_of (w : world) (n : nfs_inode) : fuse_entry_param :=
  {| e_ino := ino_of n; e_generation := 0; e_attr := hsfs_generic_fillattr (ni_hsfs_inode n);
     e_attr_timeout := sb_acdirmin (w_sb w); e_entry_timeout := sb_acregmin (w_sb w) |}.

(** C7: A LOOKUP in a cached directory replies an error, or the entry of the one
    cached inode that has the handle and file id in the server's answer for that
    directory and name; exactly one more reference is counted on it than before, or
    one if the inode is new.  The server sends the attributes of an object that exists
    with the handle ([ServerLaws]; without them the handler writes through an error
    pointer, [lookup_without_attributes]), the connection is not lost ([Connected]),
    there is memory for an inode ([MemLaws]) and the counters are within their
    [limits]. *)
Theorem lookup_correct ino p n name (w : world) :
  bad_inode_placed -> good w -> limits w -> w_heap w !! p = Some n -> ino_of n = ino ->
  exists r w', hsfs_oper (FUSE_LOOKUP ino name) w = Ret tt w' /\ w_out w' = w_out w ++ [r] /\
    good w' /\
    (failed_reply r \/ exists q m resok,
       r = reply_entry (entry_of w' m) /\ w_heap w' !! q = Some m /\
       answers (NFSPROC3_LOOKUP {| da_dir := hsi_nfs3_getfh3 n; da_name := name |}) (RES_OK resok) /\
       fh_bytes (ni_fh m) = lk_object resok /\
       ni_fileid m = fa_fileid (fattr_of (lk_obj_attributes resok)) /\
       refs_of m = 1 + default 0 (refs_of <$> w_heap w !! q)).
Proof.
  intros Hbad Hg Hlim Hn Hi. pose proof (lim_size _ Hlim) as Hsz.
  enough (Hwp : wp (hsx_fuse_lookup ino name) (fun _ w' => exists r, w_out w' = w_out w ++ [r] /\
    good w' /\ (failed_reply r \/ exists q m resok,
       r = reply_entry (entry_of w' m) /\ w_heap w' !! q = Some m /\
       answers (NFSPROC3_LOOKUP {| da_dir := hsi_nfs3_getfh3 n; da_name := name |}) (RES_OK resok) /\
       fh_bytes (ni_fh m) = lk_object resok /\
       ni_fileid m = fa_fileid (fattr_of (lk_obj_attributes resok)) /\
       refs_of m = 1 + default 0 (refs_of <$> w_heap w !! q))) w).
  { destruct Hwp as ([] & w' & Hrun & r & Hr). by exists r, w'. }
  apply wp_bind. eapply wp_known; [done..|]. intros ->. apply wp_bind.
  eapply wp_mono; [apply (lookup_spec Hbad p n name w); [done|done|lia]|].
  intros r w1 (Hg1 & Hs1 & Hr).
  destruct Hr as [[Herr Hnone]|(H0 & child & n' & resok & Hc & Hnn & Hn' & Hans & Hio)].
  - rewrite (proj2 (Z.eqb_neq _ _) Herr). apply wp_send. eexists. simpl.
    rewrite (steps_out _ _ Hs1). split; [done|]. split; [by destruct Hg1|]. left. by eexists.
  - rewrite H0, Hc. simpl. rewrite Hnn.
    assert (Hrefs : refs_of n' = default 0 (refs_of <$> w_heap w !! child) /\ 0 <= refs_of n' < 2 ^ 63).
    { destruct Hio as (_ & _ & [[Hno Hz]|(m & Hm & [_ Hpr])]).
      - rewrite Hno. unfold refs_of. simpl. lia.
      - pose proof (lim_refs _ Hlim _ _ Hm). rewrite Hm. unfold refs_of in *. simpl. lia. }
    destruct Hrefs as [Hrefs Hb]. apply wp_bind. eapply wp_ref_inc; [done|]. rewrite u64_small by lia.
    apply wp_bind, wp_bind. eapply wp_deref; [apply lookup_insert_eq|]. apply wp_bind, wp_get_sb, wp_ret.
    apply wp_send. eexists. simpl. rewrite (steps_out _ _ Hs1). split; [done|]. split.
    { assert (Hg2 : good (set_heap (<[child := set_private (refs_of n' + 1) n']> (w_heap w1)) w1))
        by (by eapply good_update). by destruct Hg2. }
    right. exists child, (set_private (refs_of n' + 1) n'), resok.
    destruct Hio as (Hh & Hf & _). split_and!; try done.
    + apply lookup_insert_eq.
    + change (refs_of n' + 1 = 1 + default 0 (refs_of <$> w_heap w !! child)). lia.
Qed.

(** ** Requests that break the protocol *)

Lemma link_run ino p n newparent q m newname (w : world) :
  good w -> w_heap w !! p = Some n -> ino_of n = ino ->
  w_heap w !! q = Some m -> ino_of m = newparent -> strlen newname < NAME_MAX ->
  wp (hsx_fuse_link ino newparent newname) (fun _ w' => exists r w1 n1,
    w' = set_out (w_out w ++ [r]) w1 /\ good w1 /\ w_heap w1 !! p = Some n1 /\ kept n n1 /\
    (r = reply_entry (entry_of w1 n1) \/ exists err, r = reply_err err)) w.
Proof.
  intros Hg Hn Hi Hm Hi' Hlen. apply wp_bind. eapply wp_known; [exact Hg|exact Hm|done|]. intros ->.
  apply wp_bind. eapply wp_known; [exact Hg|exact Hn|done|]. intros ->.
  apply wp_bind. eapply wp_mono; [by eapply (link_spec p n q m newname w)|].
  intros err w1 (Hg1 & Hs1 & _). destruct (steps_live_n _ _ _ _ Hs1 Hn) as (n1 & Hn1 & Hk).
  case_if.
  - apply wp_bind, wp_malloc. intros b e. case_if.
    + apply wp_send. eexists _, (set_env e w1), n1. simpl. rewrite (steps_out _ _ Hs1).
      split_and!; [done|by apply good_env|done|done|by eauto].
    + apply wp_bind, wp_bind. eapply wp_deref; [exact Hn1|]. apply wp_bind, wp_get_sb, wp_ret.
      apply wp_send. eexists _, (set_env e w1), n1. simpl. rewrite (steps_out _ _ Hs1).
      split_and!; [done|by apply good_env|done|done|by left].
  - apply wp_send. eexists _, w1, n1. rewrite (steps_out _ _ Hs1). split_and!; [done..|by eauto].
Qed.

(** C38: LINK gives the kernel a reference that it does not count: when it
    replies the entry of the inode, [private] is what it was, and a FORGET of
    all the references the kernel then holds (one more than were counted) fails
    the assertion of [hsx_fuse_ref_dec] and stops the daemon. *)
Theorem link_not_counted ino p n newparent q m newname (w w' : world) e :
  good w -> limits w -> w_heap w !! p = Some n -> ino_of n = ino ->
  w_heap w !! q = Some m -> ino_of m = newparent -> strlen newname < NAME_MAX ->
  hsfs_oper (FUSE_LINK ino newparent newname) w = Ret tt w' ->
  w_out w' = w_out w ++ [reply_entry e] ->
  counts (reply_entry e) ino = 1 /\ hsfs_oper (FUSE_FORGET ino (refs_of n + 1)) w' = Abort.
Proof.
  intros Hg Hlim Hn Hi Hm Hi' Hlen Hrun Hout.
  destruct (link_run ino p n newparent q m newname w Hg Hn Hi Hm Hi' Hlen)
    as ([] & w'' & Hrun' & r & w1 & n1 & -> & Hg1 & Hn1 & [Hid Hpr] & Hr).
  simpl in Hrun. rewrite Hrun in Hrun'. injection Hrun' as ->. simpl in Hout.
  apply app_inj_2 in Hout as [_ [= ->]]; [|done].
  assert (Hino : ino_of n1 = ino) by (unfold ino_of in *; destruct Hid as (_ & _ & _ & -> & _); done).
  destruct Hr as [[= ->]|[? [=]]]. split; [simpl; unfold one; by rewrite Hino, Z.eqb_refl|].
  set (w2 := set_out _ w1). assert (Hg2 : good w2) by (by destruct Hg1).
  assert (Hl : wp (hsfs_ilookup ino) (fun a w' => a = p /\ w' = w2) w2)
    by (eapply wp_known; [done|exact Hn1|done|done]).
  destruct Hl as (a & w3 & Hl & -> & ->). simpl. unfold hsx_fuse_forget.
  rewrite (bind_ret _ _ _ _ _ Hl).
  rewrite (valid_ptr_nonnull p) by (eapply inv_ptr; [apply (good_cache _ Hg1)|done]).
  erewrite (bind_ret (c_assert _)) by reflexivity. unfold hsx_fuse_ref_dec, bind at 1, bind at 1.
  erewrite deref_ret by exact Hn1. unfold refs_of in *. rewrite Hpr.
  unfold bind, c_assert. rewrite (proj2 (Z.leb_gt _ _)) by lia. done.
Qed.
End Claims.

(** ** Steps that send nothing *)
Section Silent.
Context {E : Env} {HCl : ClntLaws}.

Definition silent {A} (m : M world A) : Prop :=
  forall w a w', m w = Ret a w' -> w_out w' = w_out w.

Lemma silent_ret {A} (a : A) : silent (ret a).
Proof. intros w b w' [= _ <-]. done. Qed.

Lemma silent_undef {A} : silent (undef (A := A)).
Proof. done. Qed.

Lemma silent_get_sb : silent get_sb.
Proof. intros w a w' [= _ <-]. done. Qed.

Lemma silent_bind {A B} (m : M world A) (k : A -> M world B) :
  silent m -> (forall a, silent (k a)) -> silent (bind m k).
Proof.
  intros Hm Hk w b w' (a & w1 & H1 & H2)%bind_ret_inv.
  rewrite (Hk _ _ _ _ H2). by eapply Hm.
Qed.

Lemma silent_deref p : silent (deref p).
Proof. intros w n w' Hr. unfold deref in Hr. destruct (w_heap w !! p); [|done]. by injection Hr as _ <-. Qed.

Lemma silent_malloc n : silent (c_malloc n).
Proof. intros w b w' Hr. by apply from_env_frame in Hr as [(_ & Ho & _) _]. Qed.

Lemma silent_freeres c : silent (clnt_freeres c).
Proof. intros w u w' Hr. by apply clnt_freeres_ret in Hr as ->. Qed.

Lemma silent_call {R} c (p : nfsproc R) : silent (hsi_nfs3_clnt_call c p).
Proof. intros w [err o] w' Hr. apply nfs3_clnt_call_ret in Hr as [(_ & Ho & _) _]. done. Qed.
End Silent.

Create HintDb silent.
#[export] Hint Resolve silent_ret silent_undef silent_get_sb silent_deref silent_malloc
  silent_freeres silent_call : silent.

Ltac quiet :=
  repeat first
  [ solve [auto with silent]
  | apply silent_bind; [|intros ?]
  | progress cbv zeta
  | match goal with |- silent (match ?x with _ => _ end) => destruct x end ].

Section SetXattr.
Context {E : Env} {HCl : ClntLaws}.

Lemma silent_getxattr inode mask type : silent (hsi_nfs3_getxattr inode mask type).
Proof. unfold hsi_nfs3_getxattr, handle_of, posix_acl_alloc. quiet. Qed.

Lemma silent_from_xattr value size : silent (posix_acl_from_xattr value size).
Proof. unfold posix_acl_from_xattr, posix_acl_alloc. quiet. Qed.

Lemma silent_setxattr inode value type size : silent (hsi_nfs3_setxattr inode value type size).
Proof.
  pose proof silent_getxattr. pose proof silent_from_xattr.
  unfold hsi_nfs3_setxattr, setxattr_acls, copy_aclents, posix_acl_from_mode, posix_acl_alloc. quiet.
Qed.

(** SETXATTR of an access control list is answered twice: whenever the
    handler returns, it has sent two error replies for the one request. *)
Theorem setxattr_replies_twice ino p n name type value size (w w' : world) :
  cache_ok w -> w_heap w !! p = Some n -> ino_of n = ino -> xattr_type name = Some type ->
  hsfs_oper (FUSE_SETXATTR ino name value size) w = Ret tt w' ->
  exists err, w_out w' = w_out w ++ [reply_err err; reply_err err].
Proof.
  intros Hok Hn Hi Hty Hrun. simpl in Hrun. unfold hsx_fuse_setxattr in Hrun. rewrite Hty in Hrun.
  apply bind_ret_inv in Hrun as (hi & w1 & Hl & Hrun).
  assert (Hl' : wp (hsfs_ilookup ino) (fun a w' => (a =? NULL) = false /\ w' = w) w).
  { apply wp_ilookup; [done| |].
    - intros Hf. exfalso. by eapply Hf.
    - intros q m Hm _ Hq. split; [by apply Z.eqb_neq|done]. }
  destruct Hl' as (a & w0 & Hl' & Ha & ->). rewrite Hl in Hl'. injection Hl' as -> ->.
  rewrite Ha in Hrun. apply bind_ret_inv in Hrun as (err & w2 & Hs & Hrun).
  apply silent_setxattr in Hs. inv_bind. injection Hm as _ <-. injection Hk as <-.
  exists err. simpl. rewrite Hs, <- app_assoc. done.
Qed.

(** Asked about a number no inode has, ACCESS, CREATE, MKDIR, RMDIR, LINK
    and READLINK return without any reply. *)
Theorem missing_inode_silent ino (w : world) :
  cache_ok w -> id_free (w_heap w) ino ->
  forall req,
    (exists mask, req = FUSE_ACCESS ino mask) \/
    (exists name mode flags uid gid, req = FUSE_CREATE ino name mode flags uid gid) \/
    (exists name mode, req = FUSE_MKDIR ino name mode) \/
    (exists name, req = FUSE_RMDIR ino name) \/
    (exists i name, req = FUSE_LINK i ino name) \/
    req = FUSE_READLINK ino ->
  hsfs_oper req w = Ret tt w.
Proof.
  intros Hok Hfree. assert (Hl : hsfs_ilookup ino w = Ret NULL w).
  { assert (Hwp : wp (hsfs_ilookup ino) (fun a w' => a = NULL /\ w' = w) w).
    { apply wp_ilookup; [done|done|]. intros p n Hn Hi. by destruct (Hfree p n Hn). }
    destruct Hwp as (a & w' & Hl & -> & ->). done. }
  intros req [[m ->]|[(a & b & c & d & e & ->)|[(a & b & ->)|[[a ->]|[(i & a & ->)| ->]]]]]; simpl;
    unfold hsx_fuse_access, hsx_fuse_create, hsx_fuse_mkdir, hsx_fuse_rmdir, hsx_fuse_link,
      hsx_fuse_readlink; rewrite (bind_ret _ _ _ _ _ Hl); done.
Qed.
End SetXattr.

(** ** Replies without attributes *)
Section NoAttrs.
Context {E : Env}.

(** C39: When the server answers a LOOKUP with the handle but without the
    (optional) attributes, the error pointer of [hsi_nfs_fhget] passes for an
    inode and [hsx_fuse_lookup] writes through it: undefined behaviour. *)
Theorem lookup_without_attributes ino p n name resok e (w : world) :
  bad_inode_placed -> good w -> w_heap w !! p = Some n -> ino_of n = ino ->
  clnt_call (sb_clntp (w_sb w))
    (NFSPROC3_LOOKUP {| da_dir := hsi_nfs3_getfh3 n; da_name := name |})
    (call_timeout (sb_timeo (w_sb w))) (w_env w) = (RPC_SUCCESS (RES_OK resok), e) ->
  handle_ok (lk_object resok) -> lk_obj_attributes resok = None ->
  hsfs_oper (FUSE_LOOKUP ino name) w = Undef.
Proof.
  intros Hbad Hg Hn Hi Hcall Hh Hno. pose proof (good_clnt _ Hg) as Hl. simpl.
  set (w1 := set_env e w).
  assert (Hlk : wp (hsi_nfs3_lookup p name)
    (fun r w' => r = (0, Some (bad_hsfs_inode + ENOENT)) /\ w' = w1) w).
  { unfold hsi_nfs3_lookup. wp_go. eexists _, _. split; [by eapply call_at_once|]. wp_go.
    apply wp_copy_fh3; [done|]. intros f Hf _. rewrite Hno. apply wp_bind.
    exists (bad_hsfs_inode + ENOENT), w1.
    split; [|apply wp_bind, wp_free_sb; [done|]; by apply wp_ret].
    unfold hsi_nfs_fhget. rewrite (bind_ret _ _ _ _ _ (err_ptr_ret Hbad ENOENT _ ltac:(done))). done. }
  assert (Hlook : wp (hsfs_ilookup ino) (fun a w' => a = p /\ (a =? NULL) = false /\ w' = w) w)
    by (eapply wp_known; done).
  destruct Hlook as (a & w0 & Hlook & -> & Hnn & ->). destruct Hlk as (r & w2 & Hlk & -> & ->).
  unfold hsx_fuse_lookup. rewrite (bind_ret _ _ _ _ _ Hlook), Hnn, (bind_ret _ _ _ _ _ Hlk).
  cbn [fst snd]. simpl negb. cbv iota. destruct Hbad as [H1 H2].
  unfold MAX_ERRNO in H1.
  rewrite (proj2 (Z.eqb_neq (bad_hsfs_inode + ENOENT) NULL)) by (unfold ENOENT, NULL; lia).
  unfold hsx_fuse_ref_inc, bind, deref. simpl.
  destruct (w_heap w !! (bad_hsfs_inode + ENOENT)) as [m|] eqn:Hm; [|done].
  destruct (inv_ptr _ _ (proj1 (good_cache _ Hg)) _ _ Hm) as [_ Hv].
  unfold ENOENT, MAX_ERRNO in *. lia.
Qed.
End NoAttrs.

(** ** Witnesses *)

Lemma session_invariant_witness : session_inv (one 1) calm_start.
Proof. apply session_invariant; [apply calm_bad_placed|apply calm_start_reachable]. Defined.

Lemma request_served_witness :
  exists r w', hsfs_oper (FUSE_LOOKUP 1 "f") calm_start = Ret tt w' /\
    w_out w' = w_out calm_start ++ [r] /\
    reachable (settle (one 1) (FUSE_LOOKUP 1 "f") r) w'.
Proof.
  apply (request_served (one 1) calm_start (FUSE_LOOKUP 1 "f")).
  - apply calm_bad_placed.
  - apply calm_start_reachable.
  - apply calm_start_limits.
  - by vm_compute.
Defined.

(** Eight bytes, of which the server gives four at a time. *)
Lemma read_correct_witness :
  exists r w', hsfs_oper (FUSE_READ 2 8 1) calm_file = Ret tt w' /\
    w_out w' = w_out calm_file ++ [r] /\
    (failed_reply r \/ r = reply_buf [11; 12; 13; 14; 15; 16; 17; 18]).
Proof.
  destruct (calm_file_inode false) as (n & Hn & Hi).
  destruct (read_correct 2 0x10200 n 8 1 calm_file) as (r & w' & Hrun & Hout & Hr);
    [exact calm_file_good|exact Hn|exact Hi|lia|lia|lia|].
  exists r, w'. split; [exact Hrun|]. split; [exact Hout|]. rewrite calm_file_content in Hr.
  destruct Hr as [Hr|[Hr _]]; [left; exact Hr|right; exact Hr].
Defined.

Lemma write_correct_witness :
  exists r w', hsfs_oper (FUSE_WRITE 2 [1; 2; 3; 4; 5] 5 8 false) calm_file = Ret tt w' /\
    w_out w' = w_out calm_file ++ [r] /\
    (failed_reply r \/ r = reply_write 5 /\
       exists h, content (w_env w') h = [10; 11; 12; 13; 14; 15; 16; 17; 1; 2; 3; 4; 5]).
Proof.
  destruct (calm_file_inode false) as (n & Hn & Hi).
  destruct (write_correct 2 0x10200 n [1; 2; 3; 4; 5] 5 8 false calm_file) as (r & w' & Hrun & Hout & Hr);
    [exact calm_file_good|exact Hn|exact Hi|lia|lia|lia|reflexivity|].
  exists r, w'. split; [exact Hrun|]. split; [exact Hout|].
  destruct Hr as [Hr|[Hr Hc]]; [left; exact Hr|]. right. split; [exact Hr|].
  exists (hsi_nfs3_getfh3 n). rewrite Hc, calm_file_content. done.
Defined.

Lemma lookup_correct_witness :
  exists r w', hsfs_oper (FUSE_LOOKUP 1 "f") calm_file = Ret tt w' /\
    w_out w' = w_out calm_file ++ [r] /\ good w'.
Proof.
  destruct (calm_file_inode true) as (n & Hn & Hi).
  destruct (lookup_correct 1 0x10000 n "f" calm_file) as (r & w' & Hrun & Hout & Hg & _);
    [apply calm_bad_placed|apply calm_file_good|apply calm_file_limits|exact Hn|exact Hi|].
  exists r, w'. exact (conj Hrun (conj Hout Hg)).
Defined.

(** A hard link to the file, and the FORGET that stops the daemon. *)
Definition calm_linked : world := after_run (hsfs_oper (FUSE_LINK 2 1 "g")) calm_file.

Lemma calm_linked_run : hsfs_oper (FUSE_LINK 2 1 "g") calm_file = Ret tt calm_linked.
Proof. apply (after_run_ret (hsfs_oper (FUSE_LINK 2 1 "g")) calm_file tt). vm_compute. reflexivity. Qed.

#[global] Opaque calm_linked.

Lemma link_not_counted_witness :
  exists n, w_heap calm_file !! 0x10200 = Some n /\
    hsfs_oper (FUSE_FORGET 2 (refs_of n + 1)) calm_linked = Abort.
Proof.
  destruct (calm_file_inode false) as (n & Hn & Hi). destruct (calm_file_inode true) as (m & Hm & Him).
  exists n. split; [exact Hn|].
  assert (Hout : exists e, w_out calm_linked = w_out calm_file ++ [reply_entry e]).
  { assert (Hb : match w_out calm_linked with [reply_entry _] => true | _ => false end = true)
      by (vm_compute; reflexivity).
    assert (H0 : w_out calm_file = []) by (vm_compute; reflexivity). rewrite H0.
    destruct (w_out calm_linked) as [|[| |e| | | | | | | | |] [|]]; try discriminate Hb.
    exists e. reflexivity. }
  destruct Hout as [e He].
  refine (proj2 (link_not_counted 2 0x10200 n 1 0x10000 m "g" calm_file calm_linked e
    calm_file_good calm_file_limits Hn Hi Hm Him _ _ He)).
  - reflexivity.
  - exact calm_linked_run.
Defined.

Definition calm_acl : world := after_run (hsfs_oper (FUSE_SETXATTR 2 POSIX_ACL_XATTR_ACCESS None 0)) calm_file.

Lemma calm_acl_run :
  hsfs_oper (FUSE_SETXATTR 2 POSIX_ACL_XATTR_ACCESS None 0) calm_file = Ret tt calm_acl.
Proof.
  apply (after_run_ret (hsfs_oper (FUSE_SETXATTR 2 POSIX_ACL_XATTR_ACCESS None 0)) calm_file tt).
  vm_compute. reflexivity.
Qed.

#[global] Opaque calm_acl.

Lemma setxattr_replies_twice_witness :
  exists err, w_out calm_acl = w_out calm_file ++ [reply_err err; reply_err err].
Proof.
  destruct (calm_file_inode false) as (n & Hn & Hi).
  eapply (setxattr_replies_twice 2 0x10200 n POSIX_ACL_XATTR_ACCESS ACL_TYPE_ACCESS None 0);
    [apply calm_file_good|exact Hn|exact Hi|reflexivity|].
  exact calm_acl_run.
Defined.

Lemma missing_inode_silent_witness : hsfs_oper (FUSE_ACCESS 7 4) calm_empty = Ret tt calm_empty.
Proof.
  apply (missing_inode_silent 7 calm_empty); [apply calm_empty_good|done|]. left. by exists 4.
Defined.

(** The sample server, without attributes in its replies. *)
Definition bare : sample_state :=
  {| se_file := []; se_max := 4; se_fail := []; se_attrs := false; se_clnt := 2; se_mem := true |}.

Definition bare_world : @world SampleEnv := @set_env SampleEnv bare sample_world1.

Lemma bare_good : @good SampleEnv bare_world.
Proof.
  apply (@good_env SampleEnv). constructor; [apply sample_world1_ok|..].
  - apply (bool_decide_unpack _). by vm_compute.
  - left. by vm_compute.
  - by vm_compute.
  - by vm_compute.
Qed.

Lemma lookup_without_attributes_witness :
  @hsfs_oper SampleEnv (FUSE_LOOKUP 1 "f") bare_world = Undef.
Proof.
  destruct (w_heap bare_world !! 0x10000) as [n|] eqn:Hn; [|by vm_compute in Hn].
  eapply (@lookup_without_attributes SampleEnv 1 0x10000 n "f" _ bare bare_world sample_bad_placed bare_good Hn).
  - assert (H : ino_of <$> w_heap bare_world !! 0x10000 = Some 1) by (by vm_compute).
    rewrite Hn in H. by injection H.
  - reflexivity.
  - done.
  - done.
Defined.
