(* ===== verification/AttrSpec.v ===== *)
(** * Properties of attributes and directory listings, with their witnesses

    What GETATTR, SETATTR and ACCESS ask and reply, and what fits in the reply
    to READDIR. *)

From S2P Require Import Prelude Bitops Hash Proto World Icache IcacheFacts Attr Rpc NfsInode Sample Wp Blocks Nfs3Ops Nfs3Spec Acl FuseOps FuseIo FileSpec FuseSpec RefSpec Session Calm.

(** *** What a SETATTR of the kernel asks for *)

Definition asked_time (given now : bool) (t : timespec) : set_time :=
  if given then if now then SET_TO_SERVER_TIME
                else SET_TO_CLIENT_TIME {| seconds := u32 (tv_sec t); nseconds := u32 (tv_nsec t) |}
  else DONT_CHANGE.

(** The attributes named in [to_set]: the mode without the type, the owner, the
    group, the size of a regular file where it differs, and the times, given or
    now. *)
Definition asked_attrs (i : hsfs_inode) (st : stat) (to_set : Z) : sattr3 := {|
  sa_mode := if flag to_set FUSE_SET_ATTR_MODE then Some (Z.ldiff (st_mode st) S_IFMT) else None;
  sa_uid := if flag to_set FUSE_SET_ATTR_UID then Some (st_uid st) else None;
  sa_gid := if flag to_set FUSE_SET_ATTR_GID then Some (st_gid st) else None;
  sa_size := if flag to_set FUSE_SET_ATTR_SIZE && S_ISREG (ia_mode (in_iattr i)) &&
               negb (st_size st =? ia_size (in_iattr i))
             then Some (u64 (st_size st)) else None;
  sa_atime := asked_time (flag to_set FUSE_SET_ATTR_ATIME) (flag to_set FUSE_SET_ATTR_ATIME_NOW) (st_atim st);
  sa_mtime := asked_time (flag to_set FUSE_SET_ATTR_MTIME) (flag to_set FUSE_SET_ATTR_MTIME_NOW) (st_mtim st) |}.

(** Times that were given become the time of the server. *)
Definition time_at_server (t : set_time) : set_time :=
  match t with SET_TO_CLIENT_TIME _ => SET_TO_SERVER_TIME | _ => t end.
Definition at_server_time (a : sattr3) : sattr3 := {|
  sa_mode := sa_mode a; sa_uid := sa_uid a; sa_gid := sa_gid a; sa_size := sa_size a;
  sa_atime := time_at_server (sa_atime a); sa_mtime := time_at_server (sa_mtime a) |}.

Lemma sent_attrs st to_set (i : hsfs_inode) a0 :
  sattr3_of_iattr (setattr_filter i (hsx_fuse_stat2iattr st to_set a0)) = at_server_time (asked_attrs i st to_set).
Proof.
  unfold setattr_filter, hsx_fuse_stat2iattr, at_server_time, asked_attrs, asked_time.
  destruct (flag to_set FUSE_SET_ATTR_MODE), (flag to_set FUSE_SET_ATTR_UID),
    (flag to_set FUSE_SET_ATTR_GID), (flag to_set FUSE_SET_ATTR_SIZE),
    (flag to_set FUSE_SET_ATTR_ATIME), (flag to_set FUSE_SET_ATTR_MTIME),
    (flag to_set FUSE_SET_ATTR_ATIME_NOW), (flag to_set FUSE_SET_ATTR_MTIME_NOW); simpl;
    try destruct (S_ISREG (ia_mode (in_iattr i))); simpl;
    try destruct (st_size st =? ia_size (in_iattr i)); simpl; reflexivity.
Qed.

Lemma at_server_time_zero a : at_server_time a = sattr3_zero -> a = sattr3_zero.
Proof. destruct a as [? ? ? ? [] []]; intros [=]; by subst. Qed.

(** With no attribute left the caller asked for none. *)
Lemma none_sent st to_set (i : hsfs_inode) a0 :
  ia_valid (setattr_filter i (hsx_fuse_stat2iattr st to_set a0)) = 0 -> asked_attrs i st to_set = sattr3_zero.
Proof.
  intros Hv. apply at_server_time_zero. rewrite <- (sent_attrs st to_set i a0). unfold sattr3_of_iattr.
  by rewrite Hv.
Qed.

Section Attributes.
Context {E : Env} {HC : Connected} {HS : ServerLaws}.

(** C28: GETATTR replies an error, or exactly the attributes the server gave
    for the handle of the inode, as [hsi_nfs3_fattr2stat] converts them. *)
Theorem getattr_correct ino p n (w : world) :
  good w -> w_heap w !! p = Some n -> ino_of n = ino ->
  exists r w', hsfs_oper (FUSE_GETATTR ino) w = Ret tt w' /\ w_out w' = w_out w ++ [r] /\
    (failed_reply r \/ exists attr t,
       answers (NFSPROC3_GETATTR (hsi_nfs3_getfh3 n)) (RES_OK attr) /\
       r = reply_attr (hsi_nfs3_fattr2stat attr stat_zero).2 t).
Proof.
  intros Hg Hn Hi.
  enough (Hwp : wp (hsx_fuse_getattr ino) (fun _ w' => exists r, w_out w' = w_out w ++ [r] /\
    (failed_reply r \/ exists attr t,
       answers (NFSPROC3_GETATTR (hsi_nfs3_getfh3 n)) (RES_OK attr) /\
       r = reply_attr (hsi_nfs3_fattr2stat attr stat_zero).2 t)) w).
  { destruct Hwp as ([] & w' & Hrun & r & Hr). by exists r, w'. }
  apply wp_bind. eapply wp_known; [done..|]. intros ->. apply wp_bind.
  eapply wp_mono; [by eapply getattr_spec|]. intros r w1 (Hg1 & Hs1 & _ & Hgot).
  pose proof (steps_out _ _ Hs1) as Hout. case_if.
  - apply wp_send. eexists. simpl. rewrite Hout. split; [done|]. left. by eexists.
  - destruct (Hgot ltac:(done)) as (attr & Hans & Hst).
    destruct (steps_live_n _ _ _ _ Hs1 Hn) as (n' & Hn' & _).
    apply wp_bind. eapply attr_timeout_wp; [done|]. intros t. apply wp_send. eexists. simpl.
    rewrite Hout, Hst. split; [done|]. right. by exists attr, t.
Qed.

(** C29: A SETATTR replies an error, or the cached attributes of the inode, and then
    either nothing was left to change or the server carried out a SETATTR on the
    handle of the inode for what the kernel asked: the mode, owner and group as they
    are given, the size for a regular file whose size differs; but every time, also
    one that the caller gave, is sent as "set to the time of the server"
    ([at_server_time]).  The connection is not lost meanwhile ([Connected]: the result
    would be released on a client that is destroyed), and failed answers have a status
    other than NFS3_OK ([ServerLaws]). *)
Theorem setattr_correct ino p n attr to_set (w : world) :
  good w -> w_heap w !! p = Some n -> ino_of n = ino ->
  let asked := asked_attrs (ni_hsfs_inode n) attr to_set in
  exists r w', hsfs_oper (FUSE_SETATTR ino attr to_set) w = Ret tt w' /\ w_out w' = w_out w ++ [r] /\
    (failed_reply r \/ exists n' t,
       w_heap w' !! p = Some n' /\ r = reply_attr (hsfs_generic_fillattr (ni_hsfs_inode n')) t /\
       (asked = sattr3_zero \/ exists wcc, answers (NFSPROC3_SETATTR
          {| se_object := hsi_nfs3_getfh3 n; se_new_attributes := at_server_time asked;
             se_guard := None |}) (RES_OK wcc))).
Proof.
  intros Hg Hn Hi asked.
  enough (Hwp : wp (hsx_fuse_setattr ino attr to_set) (fun _ w' => exists r, w_out w' = w_out w ++ [r] /\
    (failed_reply r \/ exists n' t,
       w_heap w' !! p = Some n' /\ r = reply_attr (hsfs_generic_fillattr (ni_hsfs_inode n')) t /\
       (asked = sattr3_zero \/ exists wcc, answers (NFSPROC3_SETATTR
          {| se_object := hsi_nfs3_getfh3 n; se_new_attributes := at_server_time asked;
             se_guard := None |}) (RES_OK wcc)))) w).
  { destruct Hwp as ([] & w' & Hrun & r & Hr). by exists r, w'. }
  apply wp_bind. eapply wp_known; [done..|]. intros ->. apply wp_bind.
  eapply wp_mono; [by eapply nfs_setattr_spec|]. intros err w1 (Hg1 & Hs1 & Hgot).
  pose proof (steps_out _ _ Hs1) as Hout. destruct (Z.eqb_spec err 0) as [H0|H0]; simpl.
  - destruct (steps_live_n _ _ _ _ Hs1 Hn) as (n' & Hn' & _).
    apply wp_bind. eapply wp_deref; [done|]. apply wp_bind.
    eapply attr_timeout_wp; [done|]. intros t. apply wp_send. eexists. simpl.
    rewrite Hout. split; [done|]. right. exists n', t. split_and!; [done..|].
    cbv zeta in Hgot. rewrite sent_attrs in Hgot. revert Hgot.
    match goal with |- context [ia_valid ?a =? 0] => destruct (Z.eqb_spec (ia_valid a) 0) as [Hv|Hv] end; [|auto].
    intros _. left. by eapply none_sent.
  - apply wp_send. eexists. simpl. rewrite Hout. split; [done|]. left. by eexists.
Qed.
End Attributes.

(** ** ACCESS *)

(** The bits ACCESS asks the server for are those of the kernel's mask:
    read for R_OK; modify and extend for W_OK, for a directory delete too; for
    X_OK lookup in a directory and execute of anything else; and no others. *)
Theorem access_mode_bits imode mask :
  let m := access_mode imode mask in
  flag m ACCESS3_READ = flag mask R_OK /\
  flag m ACCESS3_MODIFY = flag mask W_OK /\ flag m ACCESS3_EXTEND = flag mask W_OK /\
  flag m ACCESS3_DELETE = flag mask W_OK && S_ISDIR imode /\
  flag m ACCESS3_LOOKUP = flag mask X_OK && S_ISDIR imode /\
  flag m ACCESS3_EXECUTE = flag mask X_OK && negb (S_ISDIR imode) /\
  Z.land m FULL_ACCESS = m.
Proof.
  unfold access_mode. destruct (flag mask R_OK), (flag mask W_OK), (flag mask X_OK), (S_ISDIR imode);
    split_and!; reflexivity.
Qed.

Section Access.
Context {E : Env}.

(** The rights the server grants in its answer to ACCESS are not looked at:
    whatever they are, none included, the reply says that access is allowed. *)
Theorem access_grant_ignored ino p n mask resok e (w : world) :
  good w -> w_heap w !! p = Some n -> ino_of n = ino ->
  clnt_call (sb_clntp (w_sb w))
    (NFSPROC3_ACCESS {| ac_object := hsi_nfs3_getfh3 n;
       ac_access := Z.land (access_mode (ia_mode (in_iattr (ni_hsfs_inode n))) mask) FULL_ACCESS |})
    (call_timeout (sb_timeo (w_sb w))) (w_env w) = (RPC_SUCCESS (RES_OK resok), e) ->
  hsfs_oper (FUSE_ACCESS ino mask) w = Ret tt (set_out (w_out w ++ [reply_err 0]) (set_env e w)).
Proof.
  intros Hg Hn Hi Hcall. pose proof (good_clnt _ Hg) as Hl.
  enough (Hwp : wp (hsx_fuse_access ino mask)
    (fun _ w' => w' = set_out (w_out w ++ [reply_err 0]) (set_env e w)) w).
  { destruct Hwp as ([] & w' & Hrun & ->). done. }
  apply wp_bind. eapply wp_known; [done..|]. intros ->. apply wp_bind. eapply wp_deref; [done|].
  apply wp_bind. unfold hsi_nfs3_access. wp_go. eexists _, _.
  split; [by eapply call_at_once|]. wp_go. by apply wp_send.
Qed.

(** C36: When the server's attributes for the handle of an inode are those of
    another object, with another file id or another type, GETATTR sends the error
    as [nfs_refresh_inode] has it: the reply is the negative number -ESTALE, where
    libfuse expects a positive [errno].  The inode is left as it was. *)
Theorem stale_error_negative ino p n attr e (w : world) :
  good w -> w_heap w !! p = Some n -> ino_of n = ino ->
  clnt_call (sb_clntp (w_sb w)) (NFSPROC3_GETATTR (hsi_nfs3_getfh3 n))
    (call_timeout (sb_timeo (w_sb w))) (w_env w) = (RPC_SUCCESS (RES_OK attr), e) ->
  ni_fileid n <> f3_fileid attr \/
    Z.land (ia_mode (in_iattr (ni_hsfs_inode n))) S_IFMT <>
      Z.land (fa_mode (hsi_nfs3_fattr2fattr attr fattr_local)) S_IFMT ->
  hsfs_oper (FUSE_GETATTR ino) w = Ret tt (set_out (w_out w ++ [reply_err (- ESTALE)]) (set_env e w)).
Proof.
  intros Hg Hn Hi Hcall Hdiff. pose proof (good_clnt _ Hg) as Hl.
  assert (Href : refreshed (hsi_nfs3_fattr2fattr attr (nfs_init_fattr fattr_local)) n = (- ESTALE, n)).
  { unfold refreshed. change (Z.land (fa_valid _) NFS_ATTR_FATTR =? 0) with false. cbv iota.
    case_if; [done|]. case_if; [done|]. to_prop. by destruct Hdiff. }
  enough (Hwp : wp (hsx_fuse_getattr ino)
    (fun _ w' => w' = set_out (w_out w ++ [reply_err (- ESTALE)]) (set_env e w)) w).
  { destruct Hwp as ([] & w' & Hrun & ->). done. }
  apply wp_bind. eapply wp_known; [done..|]. intros ->.
  unfold hsi_nfs3_getattr, hsi_nfs3_do_getattr. wp_go. eexists _, _.
  split; [by eapply call_at_once|]. wp_go.
  cbn [Z.eqb negb fmap option_fmap option_map]. apply wp_bind. eapply wp_refresh; [exact Hn|].
  rewrite Href. cbn [fst snd]. wp_go. apply wp_send. simpl. by rewrite (insert_id _ _ _ Hn).
Qed.
End Access.

(** ** Directory listings *)
Section Listing.
Context {E : Env}.

Definition dirent_sizes (l : list hsfs_readdir_ctx) : Z :=
  foldr (fun c s => direntry_size (ctx_name c) + s) 0 l.

(** C31: The reply to READDIR holds the first entries of the list, in order,
    with their names, numbers and offsets; together they take less than the
    size of the buffer, and the next one would fill or exceed it. *)
Theorem readdir_fits (l : list hsfs_readdir_ctx) size :
  0 < size -> (forall s, 0 <= direntry_size s) ->
  exists k, fill_dir l size = (fun c => ctx_dirent c None) <$> take k l /\
    dirent_sizes (take k l) < size /\
    (forall c, l !! k = Some c -> size <= dirent_sizes (take k l) + direntry_size (ctx_name c)) /\
    (k <= length l)%nat.
Proof.
  intros Hs Hpos. revert size Hs. induction l as [|c l IH]; intros size Hs; simpl.
  - exists 0%nat. split_and!; [done|simpl; lia|done|done].
  - destruct (Z.leb_spec size (direntry_size (ctx_name c))) as [Hle|Hlt].
    + exists 0%nat. split_and!; [done|simpl; lia| |lia]. intros c' [= <-]. simpl. lia.
    + destruct (IH (size - direntry_size (ctx_name c))) as (k & Hk & Hfit & Hmax & Hlen); [lia|].
      exists (S k). simpl. rewrite Hk. split_and!; [done|lia| |lia].
      intros c' Hc'. specialize (Hmax c' Hc'). lia.
Qed.
End Listing.

(** ** Witnesses *)

Lemma getattr_correct_witness :
  exists r w', hsfs_oper (FUSE_GETATTR 2) calm_file = Ret tt w' /\ w_out w' = w_out calm_file ++ [r].
Proof.
  destruct (calm_file_inode false) as (n & Hn & Hi).
  destruct (getattr_correct 2 0x10200 n calm_file) as (r & w' & Hrun & Hout & _);
    [exact calm_file_good|exact Hn|exact Hi|]. exists r, w'. exact (conj Hrun Hout).
Defined.

Lemma setattr_correct_witness :
  exists r w', hsfs_oper (FUSE_SETATTR 2 stat_zero FUSE_SET_ATTR_MODE) calm_file = Ret tt w' /\
    w_out w' = w_out calm_file ++ [r].
Proof.
  destruct (calm_file_inode false) as (n & Hn & Hi).
  destruct (setattr_correct 2 0x10200 n stat_zero FUSE_SET_ATTR_MODE calm_file)
    as (r & w' & Hrun & Hout & _);
    [exact calm_file_good|exact Hn|exact Hi|]. exists r, w'. exact (conj Hrun Hout).
Defined.

(** The server grants what it is asked for, here nothing. *)
Definition calm_quiet : world := set_env (set_fail [] calm0) calm_file.

Lemma calm_quiet_good : good calm_quiet.
Proof. apply good_env, calm_file_good. Qed.

Lemma set_env_fields e (w : world) : w_heap (set_env e w) = w_heap w /\ w_env (set_env e w) = e.
Proof. done. Qed.

Lemma calm_quiet_inode : exists n, w_heap calm_quiet !! 0x10200 = Some n /\ ino_of n = 2.
Proof.
  destruct (calm_file_inode false) as (n & Hn & Hi). cbv iota in Hn, Hi. exists n.
  split; [|exact Hi]. unfold calm_quiet. rewrite (proj1 (set_env_fields _ _)). exact Hn.
Qed.

Lemma calm_quiet_env : w_env calm_quiet = set_fail [] calm0.
Proof. apply set_env_fields. Qed.

#[global] Opaque calm_quiet.

Lemma access_grant_ignored_witness :
  exists e, hsfs_oper (FUSE_ACCESS 2 0) calm_quiet =
    Ret tt (set_out (w_out calm_quiet ++ [reply_err 0]) (set_env e calm_quiet)).
Proof.
  destruct calm_quiet_inode as (n & Hn & Hi). eexists.
  refine (access_grant_ignored 2 0x10200 n 0 _ _ calm_quiet calm_quiet_good Hn Hi _).
  rewrite calm_quiet_env. reflexivity.
Defined.

(** An inode whose handle the server has since given to another file. *)
Definition calm_stale : world :=
  set_env (set_fail [] calm0)
    (after_run (hsi_nfs_fhget hsi_nfs_sop (sample_fh [2]) (sample_fa [1])) calm_mounted).

Lemma calm_stale_good : good calm_stale.
Proof.
  destruct (fhget_usable calm_bad_placed (sample_fh [2]) (Some (sample_fattr [1] sample0)) calm_mounted)
    as (p & w' & Hf & Hg & _).
  - apply calm_mounted_good.
  - by apply sample_fh_wf.
  - by eexists.
  - apply Z.ltb_lt. by vm_compute.
  - apply good_env. unfold after_run.
    change (fattr_of (Some (sample_fattr [1] sample0))) with (sample_fa [1]) in Hf. by rewrite Hf.
Qed.

Lemma calm_stale_env : w_env calm_stale = set_fail [] calm0.
Proof. done. Qed.

#[global] Opaque calm_stale.

Lemma stale_error_negative_witness :
  exists e, hsfs_oper (FUSE_GETATTR 2) calm_stale =
    Ret tt (set_out (w_out calm_stale ++ [reply_err (- ESTALE)]) (set_env e calm_stale)).
Proof.
  assert (H : (fun n => (ino_of n, hsi_nfs3_getfh3 n, ni_fileid n)) <$> w_heap calm_stale !! 0x10200 =
    Some (2, [2], 100)) by by vm_compute.
  destruct (w_heap calm_stale !! 0x10200) as [n|] eqn:Hn; [|done]. injection H as Hi Hh Hf. eexists.
  refine (stale_error_negative 2 0x10200 n _ _ calm_stale calm_stale_good Hn Hi _ (or_introl _)).
  - rewrite calm_stale_env, Hh. reflexivity.
  - by rewrite Hf.
Defined.

Lemma readdir_fits_witness :
  let l := [mk_ctx 1 "a" stat_zero 0; mk_ctx 2 "b" stat_zero 0] in
  exists k, fill_dir l 40 = (fun c => ctx_dirent c None) <$> take k l /\ (k <= 2)%nat.
Proof.
  intros l. destruct (readdir_fits l 40) as (k & Hk & _ & _ & Hlen).
  - lia.
  - intros s. apply Z.mul_nonneg_nonneg; [apply Z.div_pos|]; lia.
  - exists k. exact (conj Hk Hlen).
Defined.
