(* ===== verification/AttrTypes.v ===== *)
(** * The ranges of attributes

    XDR decodes every field of a [fattr3] into an unsigned integer of 32 or 64
    bits.  The conversions and the operations that write attributes to inodes keep
    each field in the range of its C type, so what the program reports in a
    [struct stat] is in range too: sizes and block counts are not negative and
    modes have 32 bits. *)

From S2P Require Import Prelude Bitops Hash Proto World Icache IcacheFacts Attr Rpc NfsInode Sample Wp Blocks Nfs3Ops.
From S2P Require Import Nfs3Spec FileSpec FuseSpec RefSpec Session Calm.

Definition u32_ok (x : Z) : Prop := 0 <= x < 2 ^ 32.
Definition u64_ok (x : Z) : Prop := 0 <= x < 2 ^ 64.
Definition off_ok (x : Z) : Prop := 0 <= x < 2 ^ 63.
Definition s32_ok (x : Z) : Prop := - 2 ^ 31 <= x < 2 ^ 31.
Definition s64_ok (x : Z) : Prop := - 2 ^ 63 <= x < 2 ^ 63.

Lemma lor_below n a b : 0 <= n -> 0 <= a < 2 ^ n -> 0 <= b < 2 ^ n -> 0 <= Z.lor a b < 2 ^ n.
Proof.
  intros Hn Ha Hb. split; [apply Z.lor_nonneg; lia|].
  rewrite <- (Z.mod_small a (2 ^ n)), <- (Z.mod_small b (2 ^ n)) by done.
  rewrite <- !Z.land_ones, <- Z.land_lor_distr_l, Z.land_ones by done. apply Z.mod_pos_bound. lia.
Qed.

Lemma ldiff_below n a m : 0 <= n -> 0 <= a < 2 ^ n -> 0 <= Z.ldiff a m < 2 ^ n.
Proof.
  intros Hn Ha. split; [apply Z.ldiff_nonneg; lia|].
  assert (H : Z.ldiff a m = Z.ldiff a m mod 2 ^ n).
  { rewrite <- Z.land_ones by done. apply Z.bits_inj'. intros i Hi. rewrite Z.land_spec, Z.ldiff_spec.
    destruct (decide (i < n)); [rewrite Z.ones_spec_low by lia; by rewrite andb_true_r|].
    rewrite (Z.ones_spec_high n i), andb_false_r by lia.
    rewrite <- (Z.mod_small a (2 ^ n)), Z.mod_pow2_bits_high by lia. done. }
  rewrite H. apply Z.mod_pos_bound. lia.
Qed.

(** Setting and clearing bits of an [int] other than its sign. *)
Lemma lor_s32 a c : s32_ok a -> 0 <= c < 2 ^ 31 -> s32_ok (Z.lor a c).
Proof.
  unfold s32_ok. intros Ha Hc. destruct (decide (0 <= a)) as [H0|H0].
  - pose proof (lor_below 31 a c). lia.
  - replace (Z.lor a c) with (Z.lnot (Z.ldiff (Z.lnot a) c)).
    2:{ apply Z.bits_inj'. intros i Hi.
        rewrite Z.lnot_spec, Z.ldiff_spec, Z.lnot_spec, Z.lor_spec by done. by destruct (Z.testbit a i), (Z.testbit c i). }
    pose proof (ldiff_below 31 (Z.lnot a) c). unfold Z.lnot in *. lia.
Qed.

Lemma ldiff_s32 a c : s32_ok a -> 0 <= c < 2 ^ 31 -> s32_ok (Z.ldiff a c).
Proof.
  unfold s32_ok. intros Ha Hc. destruct (decide (0 <= a)) as [H0|H0].
  - pose proof (ldiff_below 31 a c). lia.
  - replace (Z.ldiff a c) with (Z.lnot (Z.lor (Z.lnot a) c)).
    2:{ apply Z.bits_inj'. intros i Hi.
        rewrite Z.lnot_spec, Z.lor_spec, Z.lnot_spec, Z.ldiff_spec by done. by destruct (Z.testbit a i), (Z.testbit c i). }
    pose proof (lor_below 31 (Z.lnot a) c). unfold Z.lnot in *. lia.
Qed.

(** ** Types *)

Record time3_typed (t : nfstime3) : Prop := { t3_sec : u32_ok (seconds t); t3_nsec : u32_ok (nseconds t) }.

Record fattr3_typed (f : fattr3) : Prop := {
  ft_mode : u32_ok (f3_mode f); ft_nlink : u32_ok (f3_nlink f);
  ft_uid : u32_ok (f3_uid f); ft_gid : u32_ok (f3_gid f);
  ft_size : u64_ok (f3_size f); ft_used : u64_ok (f3_used f); ft_fileid : u64_ok (f3_fileid f);
  ft_atime : time3_typed (f3_atime f); ft_mtime : time3_typed (f3_mtime f); ft_ctime : time3_typed (f3_ctime f) }.

(** A time the protocol can carry. *)
Record timespec_typed (t : timespec) : Prop := { ts_sec : u32_ok (tv_sec t); ts_nsec : u32_ok (tv_nsec t) }.

Record inode_typed (n : nfs_inode) : Prop := {
  it_mode : u32_ok (ia_mode (in_iattr (ni_hsfs_inode n)));
  it_uid : u32_ok (ia_uid (in_iattr (ni_hsfs_inode n)));
  it_gid : u32_ok (ia_gid (in_iattr (ni_hsfs_inode n)));
  it_size : off_ok (ia_size (in_iattr (ni_hsfs_inode n)));
  it_atime : timespec_typed (ia_atime (in_iattr (ni_hsfs_inode n)));
  it_mtime : timespec_typed (ia_mtime (in_iattr (ni_hsfs_inode n)));
  it_ctime : timespec_typed (ia_ctime (in_iattr (ni_hsfs_inode n)));
  it_nlink : u32_ok (in_i_nlink (ni_hsfs_inode n));
  it_blocks : off_ok (in_i_blocks (ni_hsfs_inode n));
  it_real_ino : u64_ok (in_real_ino (ni_hsfs_inode n));
  it_ino : u64_ok (in_ino (ni_hsfs_inode n));
  it_private : u64_ok (in_private (ni_hsfs_inode n));
  it_count : s32_ok (in_i_count (ni_hsfs_inode n));
  it_valid : u32_ok (ia_valid (in_iattr (ni_hsfs_inode n)));
  it_state : u32_ok (in_i_state (ni_hsfs_inode n));
  it_blkbits : u32_ok (in_i_blkbits (ni_hsfs_inode n));
  it_rdev : u64_ok (in_i_rdev (ni_hsfs_inode n));
  it_generation : u64_ok (in_generation (ni_hsfs_inode n));
  it_fileid : u64_ok (ni_fileid n);
  it_flags : u64_ok (ni_flags n);
  it_attrtimeo : u64_ok (ni_attrtimeo n);
  it_cookieverf : u64_ok (ni_cookieverf n) }.

(** [size_ok] is [off_ok], or [s64_ok] where a size may wrap. *)
Record stat_typed (size_ok : Z -> Prop) (s : stat) : Prop := {
  stt_ino : u64_ok (st_ino s); stt_mode : u32_ok (st_mode s); stt_nlink : u32_ok (st_nlink s);
  stt_uid : u32_ok (st_uid s); stt_gid : u32_ok (st_gid s);
  stt_size : size_ok (st_size s); stt_blocks : off_ok (st_blocks s);
  stt_blksize : s32_ok (st_blksize s);
  stt_atim : timespec_typed (st_atim s); stt_mtim : timespec_typed (st_mtim s);
  stt_ctim : timespec_typed (st_ctim s) }.

Definition heap_typed `{E : Env} (w : world) : Prop :=
  forall p n, w_heap w !! p = Some n -> inode_typed n.

(** ** The conversions *)

Record fattr_typed (fa : nfs_fattr) : Prop := {
  fat_mode : u32_ok (fa_mode fa); fat_nlink : u32_ok (fa_nlink fa);
  fat_uid : u32_ok (fa_uid fa); fat_gid : u32_ok (fa_gid fa);
  fat_size : u64_ok (fa_size fa); fat_used : u64_ok (fa_used fa); fat_fileid : u64_ok (fa_fileid fa);
  fat_atime : timespec_typed (fa_atime fa); fat_mtime : timespec_typed (fa_mtime fa);
  fat_ctime : timespec_typed (fa_ctime fa) }.

Lemma time2spec_typed t : time3_typed t -> timespec_typed (hsi_nfs3_time2spec t).
Proof. by intros []. Qed.

Lemma type2fmt_range k : u32_ok (nfs_type2fmt k).
Proof. unfold nfs_type2fmt. repeat case_match; by split. Qed.

Lemma fattr2fattr_typed f t : fattr3_typed f -> fattr_typed (hsi_nfs3_fattr2fattr f t).
Proof.
  intros []. constructor; try done; try by apply time2spec_typed.
  apply lor_below; [done|by apply ldiff_below|apply type2fmt_range].
Qed.

Lemma fattr_of_typed a : (forall f, a = Some f -> fattr3_typed f) -> fattr_typed (fattr_of a).
Proof. intros Ha. destruct a as [f|]; [by apply fattr2fattr_typed, Ha|by repeat constructor]. Qed.

Lemma blocks_range fa : fattr_typed fa -> off_ok (fattr_blocks fa).
Proof.
  intros Hf. unfold fattr_blocks, off_ok. destruct (fat_used _ Hf) as [H0 H1]. case_if.
  - unfold nfs_calc_block_size, LLONG_MAX. pose proof (u64_range (fa_used fa + 511)) as Hu.
    rewrite Z.shiftr_div_pow2 by lia.
    assert (0 <= u64 (fa_used fa + 511) / 2 ^ 9 < 2 ^ 55)
      by (split; [apply Z.div_pos|apply Z.div_lt_upper_bound]; lia).
    rewrite s64_small by lia. case_if; lia.
  - rewrite Z.shiftr_div_pow2 by lia. split; [apply Z.div_pos; lia|apply Z.div_lt_upper_bound; lia].
Qed.

Lemma store_typed fa n : fattr_typed fa -> inode_typed n -> inode_typed (nfs_store_fattr fa n).
Proof.
  intros Hf Hn. pose proof (blocks_range fa Hf) as Hb. destruct Hf, Hn. constructor; try done.
  apply size_to_off_t_range, fat_size0.
Qed.

Lemma refreshed_typed fa n : fattr_typed fa -> inode_typed n -> inode_typed (refreshed fa n).2.
Proof. intros Hf Hn. unfold refreshed. repeat case_if; try done. by apply store_typed. Qed.

Lemma new_inode_typed fh fa s c :
  fattr_typed fa -> u64_ok c -> u32_ok (sb_bsize_bits s) -> inode_typed (new_inode fh fa s c).
Proof.
  intros Hf Hc Hb. apply store_typed; [done|]. destruct Hf.
  constructor; simpl; try done; repeat split; simpl; lia.
Qed.

Lemma s32_range x : s32_ok (s32 x).
Proof. unfold s32_ok, s32. case_if; pose proof (u32_range x); lia. Qed.

Lemma fillattr_typed n : inode_typed n -> stat_typed off_ok (hsfs_generic_fillattr (ni_hsfs_inode n)).
Proof. intros []. constructor; try done. apply s32_range. Qed.

(** ** The operations *)

Section Typed.
Context `{E : Env} {HML : MallocLaws}.
Hypothesis Hbad : bad_inode_placed.

Lemma heap_typed_insert w p n h :
  heap_typed w -> inode_typed n -> w_heap h = <[p := n]> (w_heap w) -> heap_typed h.
Proof.
  intros Hw Hn Hh q m. rewrite Hh. intros [[_ <-]|[_ Hq]]%lookup_insert_Some; [done|by eapply Hw].
Qed.

(** Attributes from the wire leave every inode well typed.  When the fields
    of the attributes have the widths of the protocol and every inode of the heap
    has its fields in the ranges of their C types, then so it is after
    [hsi_nfs_fhget], which finds or makes an inode, and after
    [nfs_refresh_inode] of any inode; and the [struct stat] reported for the
    inode is in range: its size and block count are not negative, also for a size
    or a use of up to 2^64 - 1 on the server. *)
Theorem attributes_typed fh a w :
  cache_ok w -> fh_wf fh -> heap_typed w -> u32_ok (sb_bsize_bits (w_sb w)) -> (forall f, a = Some f -> fattr3_typed f) ->
  (exists q w', hsi_nfs_fhget hsi_nfs_sop fh (fattr_of a) w = Ret q w' /\ heap_typed w' /\
     forall n, w_heap w' !! q = Some n -> stat_typed off_ok (hsfs_generic_fillattr (ni_hsfs_inode n))) /\
  (forall p, is_Some (w_heap w !! p) -> exists r w',
     nfs_refresh_inode p (fattr_of a) w = Ret r w' /\ heap_typed w').
Proof.
  intros Hc Hfh Hw Hb Ha%fattr_of_typed. split.
  - destruct (fhget_spec hsi_nfs_sop Hbad fh (fattr_of a) w Hc Hfh) as (q & w' & Hr & Hres).
    exists q, w'. split; [done|].
    assert (Hw' : heap_typed w').
    { inversion Hres as [| |p n Hn|p c w1 _ _ _ _ Hh Hok]; subst; [done|done| |].
      - eapply heap_typed_insert; [exact Hw|apply refreshed_typed, (Hw _ _ Hn); done|done].
      - assert (Hc' : 0 < c < 2 ^ 64).
        { apply (inv_id_range _ _ Hok q (new_inode fh (fattr_of a) (w_sb w) c)). by rewrite Hh, lookup_insert_eq. }
        eapply heap_typed_insert; [exact Hw| |exact Hh]. apply new_inode_typed; [done|unfold u64_ok; lia|done]. }
    split; [done|]. intros n Hn. by eapply fillattr_typed, Hw'.
  - intros p [n Hn]. eexists _, _. split; [by apply refresh_ret|].
    eapply heap_typed_insert; [exact Hw|apply refreshed_typed, (Hw _ _ Hn); done|done].
Qed.
End Typed.

(** ** Witness *)

(** Wire attributes of the largest size. *)
Definition huge_fattr : fattr3 := {|
  f3_type := 1; f3_mode := 0x81a4; f3_nlink := 1; f3_uid := 2 ^ 32 - 1; f3_gid := 2 ^ 32 - 1;
  f3_size := 2 ^ 64 - 1; f3_used := 2 ^ 64 - 1; f3_rdev := f3_rdev (sample_fattr [1] sample0);
  f3_fsid := 1; f3_fileid := 2 ^ 64 - 1;
  f3_atime := f3_atime (sample_fattr [1] sample0); f3_mtime := f3_mtime (sample_fattr [1] sample0);
  f3_ctime := f3_ctime (sample_fattr [1] sample0) |}.

Lemma huge_typed : fattr3_typed huge_fattr.
Proof. repeat split; simpl; lia. Qed.

Lemma attributes_typed_witness :
  (exists q w', hsi_nfs_fhget hsi_nfs_sop (sample_fh [1]) (fattr_of (Some huge_fattr)) calm_empty = Ret q w' /\
     heap_typed w' /\
     forall n, w_heap w' !! q = Some n -> stat_typed off_ok (hsfs_generic_fillattr (ni_hsfs_inode n))) /\
  (forall p, is_Some (w_heap calm_empty !! p) -> exists r w',
     nfs_refresh_inode p (fattr_of (Some huge_fattr)) calm_empty = Ret r w' /\ heap_typed w').
Proof.
  apply (attributes_typed calm_bad_placed (sample_fh [1]) (Some huge_fattr) calm_empty).
  - apply calm_empty_good.
  - by apply sample_fh_wf.
  - intros p n Hn. exact (match lookup_empty_Some p n Hn with end).
  - by split.
  - intros f [= <-]. exact huge_typed.
Defined.

(** GETATTR converts the same attributes without the limit: the size it reports is
    negative. *)
Example getattr_size_wraps : st_size (hsi_nfs3_fattr2stat huge_fattr stat_zero).2 = -1.
Proof. by vm_compute. Qed.
