(* ===== verification/TypeSafe.v ===== *)
(** * Sessions keep their types

    A triple [typed m Q] says that from a state in which every inode, the
    superblock and every reply have their fields in the ranges of their C types, a
    step that returns leads to such a state and returns a value with [Q].  Every
    handler has such a triple, in any environment whose results XDR has decoded:
    the server may answer anything else, calls may fail and clients may be lost. *)

From S2P Require Import Prelude Bitops Hash Proto World Icache IcacheFacts Attr Rpc NfsInode Sample Wp Blocks Nfs3Ops.
From S2P Require Import Nfs3Spec Acl FuseOps FuseIo FileSpec FuseSpec RefSpec Session Calm AttrTypes.

Create HintDb typed discriminated.

(** ** What XDR decodes *)

Definition byte_ok (x : Z) : Prop := 0 <= x < 256.
Definition attr_typed (a : post_op_attr) : Prop := forall f, a = Some f -> fattr3_typed f.

Definition on_ok {ok fail} (P : ok -> Prop) (r : nfsres ok fail) : Prop :=
  match r with RES_OK x => P x | RES_FAIL _ _ => True end.

Record fsstat_typed (r : fsstat3resok) : Prop := {
  fst_tbytes : u64_ok (fs_tbytes r); fst_fbytes : u64_ok (fs_fbytes r); fst_abytes : u64_ok (fs_abytes r);
  fst_tfiles : u64_ok (fs_tfiles r); fst_ffiles : u64_ok (fs_ffiles r); fst_afiles : u64_ok (fs_afiles r) }.

Record fsinfo_typed (r : fsinfo3resok) : Prop := {
  fit_attr : attr_typed (fi_obj_attributes r);
  fit_rtmax : u32_ok (fi_rtmax r); fit_rtpref : u32_ok (fi_rtpref r); fit_rtmult : u32_ok (fi_rtmult r);
  fit_wtmax : u32_ok (fi_wtmax r); fit_wtpref : u32_ok (fi_wtpref r); fit_wtmult : u32_ok (fi_wtmult r);
  fit_dtpref : u32_ok (fi_dtpref r); fit_maxfilesize : u64_ok (fi_maxfilesize r);
  fit_time_delta : time3_typed (fi_time_delta r); fit_properties : u32_ok (fi_properties r) }.

Definition created_typed (r : diropres3ok) : Prop := attr_typed (do_obj_attributes r).
Definition readdir_typed (r : readdir3resok) : Prop :=
  attr_typed (rr_dir_attributes r) /\ u64_ok (rr_cookieverf r) /\ Forall (fun e => u64_ok (e3_fileid e)) (rr_entries r).
Definition entryplus_typed (e : entryplus3) : Prop :=
  u64_ok (ep_fileid e) /\ attr_typed (ep_name_attributes e).
Definition readdirplus_typed (r : readdirplus3resok) : Prop :=
  attr_typed (rpr_dir_attributes r) /\ u64_ok (rpr_cookieverf r) /\ Forall entryplus_typed (rpr_entries r).

(** The ranges of the fields the client uses. *)
Definition wire_typed {R} (p : nfsproc R) : R -> Prop :=
  match p in nfsproc R return R -> Prop with
  | NFSPROC3_GETATTR _ => on_ok fattr3_typed
  | NFSPROC3_SETATTR _ => on_ok (fun r => attr_typed (after r))
  | NFSPROC3_LOOKUP _ => on_ok (fun r => attr_typed (lk_obj_attributes r))
  | NFSPROC3_READ _ => on_ok (fun r => Forall byte_ok (rdr_data r))
  | NFSPROC3_CREATE _ => on_ok created_typed
  | NFSPROC3_MKDIR _ => on_ok created_typed
  | NFSPROC3_SYMLINK _ => on_ok created_typed
  | NFSPROC3_MKNOD _ => on_ok created_typed
  | NFSPROC3_LINK _ => on_ok (fun r => attr_typed (ln_file_attributes r))
  | NFSPROC3_READDIR _ => on_ok readdir_typed
  | NFSPROC3_READDIRPLUS _ => on_ok readdirplus_typed
  | NFSPROC3_FSSTAT _ => on_ok fsstat_typed
  | NFSPROC3_FSINFO _ => on_ok fsinfo_typed
  | _ => fun _ => True
  end.

Class WireLaws `{E : Env} : Prop := {
  wire_law : forall R c (p : nfsproc R) t e r e',
    clnt_call c p t e = (RPC_SUCCESS r, e') -> wire_typed p r }.

(** ** The state *)

(** Every integer of [struct hsfs_super]; the handles of the clients, the pointer
    to the root and the address are what the services return. *)
Record super_typed (s : hsfs_super) : Prop := {
  spt_curr : u64_ok (sb_curr_id s); spt_flags : s32_ok (sb_flags s);
  spt_rsize : u32_ok (sb_rsize s); spt_wsize : u32_ok (sb_wsize s);
  spt_timeo : s32_ok (sb_timeo s); spt_retrans : s32_ok (sb_retrans s);
  spt_acregmin : s32_ok (sb_acregmin s); spt_acregmax : s32_ok (sb_acregmax s);
  spt_acdirmin : s32_ok (sb_acdirmin s); spt_acdirmax : s32_ok (sb_acdirmax s);
  spt_namlen : s32_ok (sb_namlen s); spt_dtsize : u32_ok (sb_dtsize s);
  spt_bsize : u32_ok (sb_bsize s); spt_bits : 0 <= sb_bsize_bits s < 256;
  spt_rtmax : u32_ok (sb_rtmax s); spt_rtpref : u32_ok (sb_rtpref s); spt_rtmult : u32_ok (sb_rtmult s);
  spt_wtmax : u32_ok (sb_wtmax s); spt_wtpref : u32_ok (sb_wtpref s); spt_wtmult : u32_ok (sb_wtmult s);
  spt_dtpref : u32_ok (sb_dtpref s); spt_maxfilesize : u64_ok (sb_maxfilesize s);
  spt_time_delta : time3_typed (sb_time_delta s); spt_properties : u32_ok (sb_properties s);
  spt_tbytes : u64_ok (sb_tbytes s); spt_fbytes : u64_ok (sb_fbytes s); spt_abytes : u64_ok (sb_abytes s);
  spt_tfiles : u64_ok (sb_tfiles s); spt_ffiles : u64_ok (sb_ffiles s); spt_afiles : u64_ok (sb_afiles s) }.

Record entry_typed (e : fuse_entry_param) : Prop := {
  ept_ino : u64_ok (e_ino e); ept_attr : stat_typed off_ok (e_attr e) }.

Record dirent_typed (d : dirent) : Prop := {
  dt_ino : u64_ok (d_ino d); dt_off : s64_ok (d_off d);
  dt_param : forall e, d_param d = Some e -> entry_typed e }.

Record statvfs_typed (s : statvfs) : Prop := {
  svt_bsize : u64_ok (f_bsize s); svt_frsize : u64_ok (f_frsize s); svt_blocks : u64_ok (f_blocks s);
  svt_bfree : u64_ok (f_bfree s); svt_bavail : u64_ok (f_bavail s); svt_files : u64_ok (f_files s);
  svt_ffree : u64_ok (f_ffree s); svt_favail : u64_ok (f_favail s); svt_flag : u64_ok (f_flag s);
  svt_namemax : u64_ok (f_namemax s) }.

(** GETATTR does not limit the size, so only the C type bounds it there.  The text
    of a link is a string, and error numbers are not considered. *)
Definition reply_typed (r : reply) : Prop :=
  match r with
  | reply_entry e | reply_create e => entry_typed e
  | reply_attr st _ => stat_typed s64_ok st
  | reply_buf data => Forall byte_ok data
  | reply_dir l => Forall dirent_typed l
  | reply_write count => u64_ok count
  | reply_statfs st => statvfs_typed st
  | reply_xattr size => u64_ok size
  | reply_err _ | reply_none | reply_open | reply_readlink _ => True
  end.

Record world_typed `{E : Env} (w : world) : Prop := {
  wt_heap : heap_typed w;
  wt_super : super_typed (w_sb w);
  wt_out : Forall reply_typed (w_out w) }.

(** ** Triples *)

Section Triples.
Context `{E : Env}.

Definition typed {A} (m : M world A) (Q : A -> Prop) : Prop :=
  forall w, world_typed w -> match m w with Ret a w' => world_typed w' /\ Q a | _ => True end.

Abbreviation safe m := (typed m (fun _ => True)).

Lemma typed_ret {A} (a : A) (Q : A -> Prop) : Q a -> typed (ret a) Q.
Proof. intros Ha w Hw. done. Qed.

Lemma typed_ret_eq {A} (a : A) : typed (ret a) (eq a).
Proof. by apply typed_ret. Qed.

Lemma typed_bind {A B} (m : M world A) (k : A -> M world B) (P : A -> Prop) (Q : B -> Prop) :
  typed m P -> (forall a, P a -> typed (k a) Q) -> typed (let! a := m in k a) Q.
Proof.
  intros Hm Hk w Hw. specialize (Hm w Hw). unfold bind. destruct (m w) as [a w'| | |]; [|done..].
  destruct Hm as [Hw' Ha]. by apply Hk.
Qed.

Lemma typed_conseq {A} (m : M world A) (P Q : A -> Prop) :
  typed m P -> (forall a, P a -> Q a) -> typed m Q.
Proof. intros Hm HQ w Hw. specialize (Hm w Hw). destruct (m w); naive_solver. Qed.

Lemma typed_safe {A} (m : M world A) (P : A -> Prop) : typed m P -> safe m.
Proof. intros Hm. by eapply typed_conseq. Qed.

Lemma typed_stops {A} (m : M world A) (Q : A -> Prop) :
  (forall w, match m w with Ret _ _ => False | _ => True end) -> typed m Q.
Proof. intros Hm w _. specialize (Hm w). by destruct (m w). Qed.

(** Steps that touch no part of the state that has a type. *)
Lemma typed_untouched {A} (m : M world A) :
  (forall w a w', m w = Ret a w' ->
     w_heap w' = w_heap w /\ w_out w' = w_out w /\ (super_typed (w_sb w) -> super_typed (w_sb w'))) -> safe m.
Proof.
  intros Hm w Hw. destruct (m w) as [a w'| | |] eqn:Hr; [|done..]. split; [|done].
  destruct (Hm _ _ _ Hr) as (Hh & Ho & Hs). destruct Hw as [H1 H2 H3]. constructor; [|by apply Hs|by rewrite Ho].
  intros p n. rewrite Hh. apply H1.
Qed.

Lemma typed_get_sb : typed get_sb super_typed.
Proof. intros w Hw. split; [done|apply Hw]. Qed.

Lemma typed_update_sb f : (forall s, super_typed s -> super_typed (f s)) -> safe (update_sb f).
Proof. intros Hf w [Hh Hs Ho]. split; [|done]. constructor; [exact Hh|by apply Hf|done]. Qed.

Lemma typed_deref p : typed (deref p) inode_typed.
Proof.
  intros w Hw. unfold deref. destruct (w_heap w !! p) as [n|] eqn:Hn; [|done]. split; [done|]. by eapply wt_heap.
Qed.

Lemma typed_update p f : (forall n, inode_typed n -> inode_typed (f n)) -> safe (update p f).
Proof.
  intros Hf. eapply typed_bind; [apply typed_deref|]. intros n Hn w [Hh Hs Ho]. unfold store.
  destruct (w_heap w !! p); [|done]. split; [|done]. constructor; [|done..].
  eapply heap_typed_insert; [exact Hh|by apply Hf|done].
Qed.

Lemma typed_send r : reply_typed r -> safe (send r).
Proof. intros Hr w [Hh Hs Ho]. split; [|done]. constructor; [done..|]. apply Forall_app. auto. Qed.

Lemma typed_from_env {A} (f : env -> A * env) : safe (from_env f).
Proof. apply typed_untouched. intros w a w'. unfold from_env. destruct (f (w_env w)). by intros [= <- <-]. Qed.

Lemma typed_assert b : safe (c_assert b).
Proof. apply typed_untouched. intros w a w'. unfold c_assert. destruct b; by intros [= <- <-]. Qed.

Lemma typed_err_ptr x : safe (err_ptr x).
Proof. unfold err_ptr. destruct (ERR_PTR x); [by apply typed_ret|by apply typed_stops]. Qed.

Lemma typed_freeres c : safe (clnt_freeres c).
Proof. apply typed_untouched. intros w a w' ->%clnt_freeres_ret. done. Qed.

Lemma typed_frame {A} (m : M world A) :
  (forall w a w', m w = Ret a w' -> rpc_frame w w') -> safe m.
Proof.
  intros Hm. apply typed_untouched. intros w a w' Hr. destruct (Hm _ _ _ Hr) as (Hh & Ho & c & d & Hs).
  split_and!; [done|done|]. intros []. by rewrite Hs.
Qed.
End Triples.

#[export] Hint Resolve typed_ret_eq typed_get_sb typed_deref typed_from_env typed_assert typed_err_ptr typed_freeres : typed.
#[export] Hint Extern 1 (typed (update_sb _) _) => apply typed_update_sb; by intros ? [] : typed.

(** Runs through a step: a bind whose first part has a triple in the database, a
    test, a value, a triple up to its postcondition. *)
Ltac typed_bind_as H := eapply typed_bind; [solve [eauto with typed]|intros ? H; cbv beta in H].

Ltac typed_go :=
  repeat first
    [ progress cbv zeta
    | apply typed_ret; done
    | by apply typed_stops
    | solve [eapply typed_safe; eauto with typed]
    | let H := fresh "H" in typed_bind_as H
    | eapply (typed_bind _ _ (fun _ => True)); [|intros ? _]
    | case_match ].

(** ** Calls *)

Section Calls.
Context `{E : Env} {HW : WireLaws}.
Abbreviation safe m := (typed m (fun _ => True)).

Definition result_typed {R} (p : nfsproc R) (er : Z * option R) : Prop :=
  match er.2 with Some r => wire_typed p r | None => True end.

Lemma typed_rpc {R} c (p : nfsproc R) t :
  typed (rpc c p t) (fun st => match st with RPC_SUCCESS r => wire_typed p r | RPC_FAILED _ => True end).
Proof using HW.
  intros w Hw. unfold rpc, from_env. case_decide; [|done].
  destruct (clnt_call c p t (w_env w)) as [st e'] eqn:Hc. split; [by destruct Hw|].
  destruct st; [|done]. by eapply wire_law.
Qed.

Lemma typed_modify_bak (f : world -> backup) : safe (modify (fun w => set_bak (f w) w)).
Proof. apply typed_untouched. by intros w a w' [= <- <-]. Qed.

Lemma typed_destroy c : safe (clnt_destroy c).
Proof.
  apply typed_frame. intros w [] w' Hr. by apply clnt_destroy_ret in Hr as [].
Qed.
Hint Resolve typed_destroy typed_rpc typed_modify_bak : typed.

Lemma typed_openclnt a s r : safe (hsi_mnt_openclnt a s r).
Proof.
  assert (Hn : forall b x y, safe (new_clnt b x y)).
  { intros b x y. apply typed_untouched. intros w o w'. unfold new_clnt, from_env.
    destruct (clnt_create _ _ _ _ _). by intros [= <- <-]. }
  unfold hsi_mnt_openclnt. case_if; [|by apply typed_ret]. typed_bind_as Ho.
  case_match; [|by apply typed_ret].
  eapply typed_bind; [apply typed_untouched; by intros w u w' [= <- <-]|]. intros [] _. typed_go.
Qed.
Hint Resolve typed_openclnt : typed.

Lemma typed_clnt_create a s r : safe (hsi_nfs3_clnt_create a s r).
Proof. unfold hsi_nfs3_clnt_create, hsi_mnt_closeclnt. typed_go. Qed.
Hint Resolve typed_clnt_create : typed.

Lemma typed_reconnect c : safe (hsi_nfs3_clnt_reconnect c).
Proof.
  assert (Hget : safe get) by by intros w Hw.
  unfold hsi_nfs3_clnt_reconnect, hsi_mnt_closeclnt. typed_go.
Qed.
Hint Resolve typed_reconnect : typed.

Lemma typed_retry {R} tries c (p : nfsproc R) t : typed (clnt_call_retry tries c p t) (result_typed p).
Proof using HW.
  revert c. induction tries as [|tries IH]; intros c; simpl;
    (eapply typed_bind; [apply typed_rpc|]; intros [r|e] Hr; [by apply typed_ret|]);
    [by apply typed_ret|]. case_if; [done|]. case_if; [|by apply typed_ret].
  typed_bind_as Hc. case_if; [done|by apply typed_ret].
Qed.

Lemma typed_call {R} c (p : nfsproc R) : typed (hsi_nfs3_clnt_call c p) (result_typed p).
Proof using HW. eapply typed_bind; [apply typed_get_sb|]. intros sb _. apply typed_retry. Qed.
End Calls.

#[export] Hint Resolve typed_call : typed.

(** ** The cache *)

(** An update of fields other than those with a type, or with values in range. *)
Ltac inode_done :=
  let n := fresh "n" in intros n []; constructor; simpl in *; try done; try (unfold u64_ok, u32_ok, off_ok, s32_ok in *; lia).

#[export] Hint Extern 1 (typed (update _ _) _) => apply typed_update; solve [inode_done] : typed.

Section Cache.
Context `{E : Env} {HW : WireLaws}.
Abbreviation safe m := (typed m (fun _ => True)).
Abbreviation sop := hsi_nfs_sop.

Lemma typed_walk l test : safe (ifind_walk l test).
Proof. induction l as [|p l IH]; simpl; typed_go. Qed.
Hint Resolve typed_walk : typed.

Lemma typed_id_ifind key : safe (__id_ifind key).
Proof. unfold __id_ifind. typed_go. Qed.
Hint Resolve typed_id_ifind : typed.

Lemma typed_ilookup ino : safe (hsfs_ilookup ino).
Proof. unfold hsfs_ilookup, __iget. typed_go. Qed.

Lemma typed_fh_ifind key test wait : safe (__fh_ifind key test wait).
Proof. unfold __fh_ifind, __iget, wait_on_inode. typed_go. Qed.
Hint Resolve typed_fh_ifind : typed.

Lemma zero_typed : inode_typed nfs_inode_zero.
Proof. constructor; simpl; try done; repeat split; simpl; lia. Qed.

Lemma typed_destroy_inode p : safe (nfs_destroy_inode p).
Proof.
  intros w [Hh Hs Ho]. unfold nfs_destroy_inode. destruct (w_heap w !! p) as [m|]; [|done]. split; [|done].
  constructor; [|done..]. intros q n. simpl. intros [_ Hq]%lookup_delete_Some. by eapply Hh.
Qed.
Hint Resolve typed_destroy_inode : typed.

Lemma typed_init_always p : safe (inode_init_always p).
Proof. unfold inode_init_always. typed_bind_as Hs. pose proof (spt_bits _ Hs). typed_go. Qed.
Hint Resolve typed_init_always : typed.

Lemma typed_alloc_inode : safe (alloc_inode sop).
Proof.
  unfold alloc_inode. eapply typed_bind with (P := fun _ => True).
  - intros w [Hh Hs Ho]. simpl. unfold nfs_alloc_inode. destruct (malloc_inode _ _) as [[p|] e]; (split; [|done]).
    + constructor; [|done..]. eapply heap_typed_insert; [exact Hh|apply zero_typed|done].
    + by constructor.
  - intros p _. typed_go.
Qed.
Hint Resolve typed_alloc_inode : typed.

Lemma next_id_u64 c : u64_ok (next_id c).
Proof. unfold next_id, u64_ok. pose proof (u64_range (c + 1)). case_if; lia. Qed.

Lemma typed_pick_id fuel : safe (pick_id fuel).
Proof.
  induction fuel as [|fuel IH]; simpl; [by apply typed_stops|]. eapply typed_bind.
  { apply typed_update_sb. intros s []. constructor; try done. apply next_id_u64. }
  intros [] _. typed_go.
Qed.
Hint Resolve typed_pick_id : typed.

Lemma typed_add_to_lists key p : safe (__inode_add_to_lists key p).
Proof.
  unfold __inode_add_to_lists. typed_bind_as Hs. typed_bind_as Hp. typed_bind_as Hs2. destruct Hs2 as [Hc].
  typed_go.
Qed.
Hint Resolve typed_add_to_lists : typed.

Lemma typed_init_locked fh fa p : fattr_typed fa -> safe (nfs_init_locked fh fa p).
Proof. intros [_ _ _ _ _ _ Hf _ _ _]. unfold nfs_init_locked. typed_go. Qed.
Hint Resolve typed_init_locked : typed.

Lemma typed_store fa p : fattr_typed fa -> safe (update p (nfs_store_fattr fa)).
Proof. intros Hf. apply typed_update. intros n. by apply store_typed. Qed.
Hint Resolve typed_store : typed.

Lemma typed_refresh p fa : fattr_typed fa -> safe (nfs_refresh_inode p fa).
Proof. intros Hf. unfold nfs_refresh_inode, nfs_update_inode. typed_go. Qed.

Lemma typed_unlock_new p : safe (hsfs_unlock_new_inode p).
Proof.
  apply typed_update. intros n []. constructor; simpl in *; try done. by apply ldiff_below.
Qed.
Hint Resolve typed_unlock_new : typed.

Lemma typed_fhget fh fa : fattr_typed fa -> safe (hsi_nfs_fhget sop fh fa).
Proof.
  intros Hf. pose proof (fat_fileid _ Hf) as Hid. pose proof (typed_refresh) as Hr.
  unfold hsi_nfs_fhget, hsfs_iget5_locked, get_new_inode, destroy_inode. simpl. typed_go.
Qed.

Lemma typed_iput p : safe (hsfs_iput sop p).
Proof.
  unfold hsfs_iput, iput_final, generic_drop_inode, generic_delete_inode, generic_forget_inode, destroy_inode.
  simpl. case_if; [by apply typed_ret|]. typed_bind_as Hn. cbv zeta. case_if; [by apply typed_stops|].
  eapply typed_bind.
  { apply typed_update. pose proof (it_count _ Hn). intros m []. constructor; simpl in *; try done; unfold s32_ok in *; lia. }
  intros [] _. typed_go.
Qed.
End Cache.

#[export] Hint Resolve typed_ilookup typed_refresh typed_fhget typed_iput : typed.

(** ** The operations *)

Lemma post_typed a : attr_typed a -> fattr_typed (hsi_nfs3_post2fattr a (nfs_init_fattr fattr_local)).2.
Proof. apply fattr_of_typed. Qed.

#[export] Hint Resolve post_typed : typed.

(** A call, and the two kinds of its result. *)
Ltac call_as r Hr :=
  eapply typed_bind; [apply typed_call|]; intros [? [[r|? ?]|]] Hr; unfold result_typed in Hr; cbn [snd wire_typed on_ok] in Hr |- *.

Section Ops.
Context `{E : Env} {HW : WireLaws}.
Abbreviation safe m := (typed m (fun _ => True)).
Abbreviation sop := hsi_nfs_sop.

Lemma typed_sb_client : safe sb_client.
Proof. unfold sb_client. typed_go. Qed.

Lemma typed_handle_of p : safe (handle_of p).
Proof. unfold handle_of. typed_go. Qed.

Lemma typed_free_sb : safe free_sb_res.
Proof. unfold free_sb_res. typed_go. Qed.

Lemma typed_copy_fh3 h : safe (copy_fh3 h).
Proof. unfold copy_fh3. typed_go. Qed.
Hint Resolve typed_sb_client typed_handle_of typed_free_sb typed_copy_fh3 : typed.

Lemma stat_zero_typed : stat_typed s64_ok stat_zero.
Proof. constructor; simpl; try (unfold u32_ok, u64_ok, s64_ok, off_ok; lia); by repeat constructor. Qed.

Lemma fattr2stat_typed f st :
  fattr3_typed f -> stat_typed s64_ok st -> stat_typed s64_ok (hsi_nfs3_fattr2stat f st).2.
Proof.
  intros [] Hst.
  assert (Hm : forall fmt, u32_ok fmt -> u32_ok (Z.lor (Z.land (f3_mode f) 0xfff) fmt)).
  { intros fmt Hf. apply lor_below; [done| |done]. change 0xfff with (Z.ones 12).
    rewrite Z.land_ones by done. pose proof (Z.mod_pos_bound (f3_mode f) (2 ^ 12)). lia. }
  assert (Hb : 0 <= f3_used f / 512 < 2 ^ 55)
    by (destruct ft_used; split; [by apply Z.div_pos|apply Z.div_lt_upper_bound; lia]).
  assert (Hs : s64_ok (s64 (f3_size f))).
  { unfold s64_ok, s64. pose proof (u64_range (f3_size f)). case_if; lia. }
  pose proof (ts_nsec _ (stt_ctim _ _ Hst)) as Hct. destruct ft_atime, ft_mtime, ft_ctime, Hst.
  unfold hsi_nfs3_fattr2stat. repeat case_match; constructor; simpl; try done;
    try (apply Hm; by split); try (rewrite s64_small by lia; unfold off_ok; lia);
    try (by split); try lia.
Qed.

(** [*fattr] and [*st] are typed where they are given. *)
Lemma typed_do_getattr fh fa st :
  (forall f, fa = Some f -> fattr_typed f) -> (forall s, st = Some s -> stat_typed s64_ok s) ->
  typed (hsi_nfs3_do_getattr fh fa st) (fun r =>
    (forall f, r.1.2 = Some f -> fattr_typed f) /\ (forall s, r.2 = Some s -> stat_typed s64_ok s)).
Proof using HW.
  intros Hf Hs. unfold hsi_nfs3_do_getattr. typed_bind_as Hc. call_as attr Ha.
  - typed_bind_as Hu. apply typed_ret. cbn [fst snd]. split.
    + intros f (g & _ & ->)%fmap_Some. by apply fattr2fattr_typed.
    + intros x (y & -> & ->)%fmap_Some. apply fattr2stat_typed; [done|by apply Hs].
  - typed_bind_as Hu. by apply typed_ret.
  - by apply typed_ret.
Qed.

Lemma init_typed : fattr_typed (nfs_init_fattr fattr_local).
Proof. apply (fattr_of_typed None). done. Qed.

Lemma typed_getattr p st :
  (forall s, st = Some s -> stat_typed s64_ok s) ->
  typed (hsi_nfs3_getattr p st) (fun r => forall s, r.2 = Some s -> stat_typed s64_ok s).
Proof using HW.
  intros Hs. unfold hsi_nfs3_getattr. typed_bind_as Hh. eapply typed_bind.
  { apply typed_do_getattr; [intros f [= <-]; apply init_typed|exact Hs]. }
  intros [[err fa] st'] [Hf Hst]. cbn [fst snd] in *. case_if; [by apply typed_ret|].
  eapply typed_bind with (P := fun _ => True).
  { destruct fa as [f|]; [apply typed_refresh; auto|by apply typed_ret]. }
  intros e _. by apply typed_ret.
Qed.

Lemma typed_lookup p name : safe (hsi_nfs3_lookup p name).
Proof using HW.
  unfold hsi_nfs3_lookup. typed_bind_as Hh. cbv zeta. typed_bind_as Hc. call_as r Hr; typed_go.
Qed.

Lemma typed_access p mask : safe (hsi_nfs3_access p mask).
Proof using HW. unfold hsi_nfs3_access. typed_go. Qed.

Lemma typed_readlink p : safe (hsi_nfs3_readlink p).
Proof using HW. unfold hsi_nfs3_readlink. typed_go. Qed.

(** The buffer holds bytes before and after. *)
Lemma typed_read ri :
  Forall byte_ok (rw_data_val ri) -> typed (hsi_nfs3_read ri) (fun r => Forall byte_ok (rw_data_val r.2)).
Proof using HW.
  intros Hb. unfold hsi_nfs3_read. typed_bind_as Hc. typed_bind_as Hh. cbv zeta. call_as r Hr.
  - case_if; [|by apply typed_stops]. typed_bind_as Hu. apply typed_ret. simpl. unfold copy_bytes.
    apply Forall_app. split; [by apply Forall_take|by apply Forall_drop].
  - typed_bind_as Hu. by apply typed_ret.
  - by apply typed_ret.
Qed.

Lemma typed_write wi : safe (hsi_nfs3_write wi).
Proof using HW. unfold hsi_nfs3_write. typed_go. Qed.

Lemma typed_handle_create r : created_typed r -> safe (hsi_nfs3_handle_create r).
Proof. intros Hr%post_typed. unfold hsi_nfs3_handle_create. typed_go. Qed.
Hint Resolve typed_handle_create : typed.

Lemma typed_sop_setattr p a : typed (hsi_nfs3_setattr p fattr_local a) (fun r => fattr_typed r.2).
Proof using HW.
  unfold hsi_nfs3_setattr. typed_bind_as Hn. typed_bind_as Hs. cbv zeta. call_as r Hr.
  - typed_bind_as Hu. apply typed_ret. by apply post_typed.
  - typed_bind_as Hu. apply typed_ret. apply init_typed.
  - apply typed_ret. apply init_typed.
Qed.

Lemma typed_nfs_setattr p a : safe (hsi_nfs_setattr sop p a).
Proof using HW.
  unfold hsi_nfs_setattr. typed_bind_as Hn. cbv zeta. case_if; [by apply typed_ret|].
  eapply typed_bind; [apply typed_sop_setattr|]. intros ef Hf. cbv beta in Hf. typed_go.
Qed.
Hint Resolve typed_nfs_setattr : typed.

Lemma typed_create p name mode : safe (hsi_nfs3_create p name mode).
Proof using HW.
  unfold hsi_nfs3_create. cbv zeta. typed_bind_as Hn. typed_bind_as Hc. call_as r Hr; typed_go.
Qed.

Lemma typed_mkdir p name mode : safe (hsi_nfs3_mkdir p name mode).
Proof using HW.
  unfold hsi_nfs3_mkdir. typed_bind_as Hh. cbv zeta. typed_bind_as Hc. call_as r Hr; typed_go.
Qed.

Lemma typed_mknod p name mode rdev : safe (hsi_nfs3_mknod p name mode rdev).
Proof using HW.
  unfold hsi_nfs3_mknod, copy_name. case_if; [by apply typed_ret|]. typed_bind_as Hh. typed_bind_as Hm.
  case_if; [by apply typed_ret|]. case_if; [by apply typed_stops|]. typed_bind_as Hc. call_as r Hr; typed_go.
Qed.

Lemma typed_symlink p link name : safe (hsi_nfs3_symlink p link name).
Proof using HW.
  unfold hsi_nfs3_symlink. typed_bind_as Hh. cbv zeta. typed_bind_as Hc. call_as r Hr; typed_go.
Qed.

Lemma typed_unlink p name : safe (hsi_nfs3_unlink p name).
Proof using HW. unfold hsi_nfs3_unlink. typed_go. Qed.

Lemma typed_rmdir p name : safe (hsi_nfs3_rmdir p name).
Proof using HW. unfold hsi_nfs3_rmdir. typed_go. Qed.

Lemma typed_rename p name q name' : safe (hsi_nfs3_rename p name q name').
Proof using HW. unfold hsi_nfs3_rename. typed_go. Qed.

Lemma typed_link p q name : safe (hsi_nfs3_link p q name).
Proof using HW.
  unfold hsi_nfs3_link, copy_name. case_if; [by apply typed_ret|]. typed_bind_as Hh. typed_bind_as Hd.
  eapply (typed_bind _ _ (fun _ => True)); [|intros r _; by apply typed_ret].
  typed_bind_as Hm. case_if; [by apply typed_ret|]. case_if; [by apply typed_stops|]. cbv zeta.
  typed_bind_as Hc. call_as r Hr; [|by typed_go..].
  eapply (typed_bind _ _ (fun _ => True)); [|intros e _; by typed_go].
  case_if; [|apply typed_refresh; by apply post_typed].
  eapply typed_bind; [by apply typed_getattr|]. intros x _. by apply typed_ret.
Qed.

Lemma typed_statfs p : safe (hsi_nfs3_statfs p).
Proof using HW.
  unfold hsi_nfs3_statfs. typed_bind_as Hh. typed_bind_as Hc. call_as r Hr; [destruct Hr|..]; typed_go.
Qed.
End Ops.

#[export] Hint Resolve typed_getattr typed_lookup typed_access typed_readlink typed_read typed_write typed_create : typed.
#[export] Hint Resolve typed_mkdir typed_mknod typed_symlink typed_unlink typed_rmdir typed_rename typed_link typed_statfs : typed.
#[export] Hint Resolve typed_nfs_setattr typed_sb_client typed_handle_of typed_free_sb typed_copy_fh3 : typed.

(** ** Directories and extended attributes *)

Section Dirs.
Context `{E : Env} {HW : WireLaws}.
Abbreviation safe m := (typed m (fun _ => True)).
Abbreviation sop := hsi_nfs_sop.

Definition ctx_typed (c : hsfs_readdir_ctx) : Prop := u64_ok (st_ino (ctx_stbuf c)) /\ s64_ok (ctx_off c).
Definition list_typed (r : Z * list hsfs_readdir_ctx) : Prop := Forall ctx_typed r.2.

Lemma s64_range x : s64_ok (s64 x).
Proof. unfold s64_ok, s64. pose proof (u64_range x). case_if; lia. Qed.

Lemma typed_alloc_name name off ino :
  u64_ok ino -> typed (__alloc_copy_name name (s64 off) ino)
    (fun r => match r with inr c => ctx_typed c | inl _ => True end).
Proof.
  intros Hi. unfold __alloc_copy_name, c_malloc. typed_bind_as H1. case_if; [by apply typed_ret|]. cbv zeta.
  typed_bind_as H2. case_if; apply typed_ret; [done|]. split; [done|apply s64_range].
Qed.

Lemma typed_free_ctx_put l : safe (free_ctx_put l).
Proof. induction l as [|c l IH]; simpl; typed_go. Qed.
Hint Resolve typed_free_ctx_put : typed.

Lemma typed_fail_list l e : typed (do! free_ctx_put l in ret (e, [])) list_typed.
Proof. typed_bind_as Hf. apply typed_ret. by constructor. Qed.

Lemma typed_readdir_fill es acc :
  Forall (fun e => u64_ok (e3_fileid e)) es -> Forall ctx_typed acc -> typed (readdir_fill es acc) list_typed.
Proof.
  intros Hes. revert acc. induction Hes as [|e es He _ IH]; intros acc Hacc; simpl; [by apply typed_ret|].
  eapply typed_bind; [by apply typed_alloc_name|]. intros [err|c] Hc; [apply typed_fail_list|].
  apply IH. apply Forall_app. auto.
Qed.

Lemma typed_readdir_plus_fill es acc :
  Forall entryplus_typed es -> Forall ctx_typed acc -> typed (readdir_plus_fill es acc) list_typed.
Proof.
  intros Hes. revert acc. induction Hes as [|e es [He Ha] _ IH]; intros acc Hacc; simpl; [by apply typed_ret|].
  eapply typed_bind; [by apply typed_alloc_name|]. intros [err|c] Hc; [apply typed_fail_list|]. apply post_typed in Ha.
  case_match; [|apply typed_fail_list]. typed_bind_as Hh. typed_bind_as Hf. case_if; [apply typed_fail_list|]. apply IH. apply Forall_app. auto.
Qed.

(** What is common to both: the list is typed, also after the release. *)
Lemma typed_then_free (m : M world (Z * list hsfs_readdir_ctx)) c :
  typed m list_typed -> typed (let! r := m in do! clnt_freeres c in ret r) list_typed.
Proof. intros Hm. eapply typed_bind; [exact Hm|]. intros r Hr. typed_bind_as Hu. by apply typed_ret. Qed.

Lemma typed_no_list c e : typed (do! clnt_freeres c in ret (e, [])) list_typed.
Proof. typed_bind_as Hu. apply typed_ret. by constructor. Qed.

Lemma typed_readdir p count cookie : typed (hsi_nfs3_readdir p count cookie) list_typed.
Proof using HW.
  unfold hsi_nfs3_readdir. typed_bind_as Hc. typed_bind_as Hn. cbv zeta.
  call_as r Hr; [|apply typed_no_list|by apply typed_ret; constructor]. destruct Hr as (Ha & Hck & He).
  typed_bind_as Hf. case_if; [apply typed_no_list|]. typed_bind_as Hv. by apply typed_then_free, typed_readdir_fill.
Qed.

Lemma typed_readdir_plus p count cookie m : typed (hsi_nfs3_readdir_plus p count cookie m) list_typed.
Proof using HW.
  unfold hsi_nfs3_readdir_plus. typed_bind_as Hc. typed_bind_as Hn. cbv zeta.
  call_as r Hr; [|apply typed_no_list|by apply typed_ret; constructor]. destruct Hr as (Ha & Hck & He).
  typed_bind_as Hf. case_if; [apply typed_no_list|]. typed_bind_as Hv.
  by apply typed_then_free, typed_readdir_plus_fill.
Qed.

Lemma typed_getxattr p mask type : safe (hsi_nfs3_getxattr p mask type).
Proof using HW. unfold hsi_nfs3_getxattr, handle_of, posix_acl_alloc, c_malloc. typed_go. Qed.
Hint Resolve typed_getxattr : typed.

Lemma typed_from_xattr value size : safe (posix_acl_from_xattr value size).
Proof. unfold posix_acl_from_xattr, posix_acl_alloc, c_malloc. typed_go. Qed.

Lemma typed_copy_aclents acl : safe (copy_aclents acl).
Proof. unfold copy_aclents, c_malloc. typed_go. Qed.

Lemma typed_setxattr_acls p type mode mask acl : safe (setxattr_acls p type mode mask acl).
Proof using HW. unfold setxattr_acls, posix_acl_from_mode, posix_acl_alloc, c_malloc. typed_go. Qed.
Hint Resolve typed_from_xattr typed_copy_aclents typed_setxattr_acls : typed.

Lemma typed_setxattr p value type size : safe (hsi_nfs3_setxattr p value type size).
Proof using HW. unfold hsi_nfs3_setxattr. typed_go. Qed.
End Dirs.

#[export] Hint Resolve typed_readdir typed_readdir_plus typed_getxattr typed_setxattr : typed.

(** ** The handlers *)

(** The arguments of a request that reach an inode. *)
Definition request_typed (req : request) : Prop :=
  match req with
  | FUSE_CREATE _ _ _ _ uid gid => u32_ok uid /\ u32_ok gid
  | _ => True
  end.

#[export] Hint Extern 1 (typed (send _) _) => apply typed_send; solve [simpl; eauto with typed] : typed.

Section Handlers.
Context `{E : Env} {HW : WireLaws}.
Abbreviation safe m := (typed m (fun _ => True)).
Abbreviation sop := hsi_nfs_sop.

Lemma typed_c_malloc n : safe (c_malloc n).
Proof. apply typed_from_env. Qed.
Hint Resolve typed_c_malloc : typed.

Lemma typed_set_private p v : u64_ok v -> safe (update p (set_private v)).
Proof. intros Hv. apply typed_update. intros n []. by constructor. Qed.
Hint Resolve typed_set_private : typed.

Lemma typed_ref_xchg p : safe (hsx_fuse_ref_xchg p 1).
Proof. assert (u64_ok 1) by by split. unfold hsx_fuse_ref_xchg. typed_go. Qed.

Lemma typed_ref_inc p v : safe (hsx_fuse_ref_inc p v).
Proof. assert (forall x, u64_ok (u64 x)) by apply u64_range. unfold hsx_fuse_ref_inc. typed_go. Qed.

Lemma typed_ref_dec p v : safe (hsx_fuse_ref_dec p v).
Proof. assert (forall x, u64_ok (u64 x)) by apply u64_range. unfold hsx_fuse_ref_dec. typed_go. Qed.
Hint Resolve typed_ref_xchg typed_ref_inc typed_ref_dec : typed.

Lemma typed_fill_reply p : typed (hsx_fuse_fill_reply p) entry_typed.
Proof.
  unfold hsx_fuse_fill_reply. typed_bind_as Hn. typed_bind_as Hs. apply typed_ret.
  split; [apply (it_ino _ Hn)|by apply fillattr_typed].
Qed.
Hint Resolve typed_fill_reply : typed.

Lemma typed_reply_new p r : (forall e, entry_typed e -> reply_typed (r e)) -> safe (reply_new p r).
Proof. intros Hr. unfold reply_new. typed_go. Qed.

Lemma typed_attr_timeout p : safe (attr_timeout p).
Proof. unfold attr_timeout. typed_go. Qed.
Hint Resolve typed_attr_timeout : typed.

Lemma off_stat st : stat_typed off_ok st -> stat_typed s64_ok st.
Proof. intros []. constructor; try done. unfold off_ok, s64_ok in *. lia. Qed.

Lemma typed_h_create parent name mode flags uid gid :
  u32_ok uid -> u32_ok gid -> safe (hsx_fuse_create parent name mode flags uid gid).
Proof using HW.
  intros Hu Hg. pose proof typed_reply_new as Hn. unfold hsx_fuse_create. typed_go.
Qed.

Lemma typed_h_getattr ino : safe (hsx_fuse_getattr ino).
Proof using HW.
  unfold hsx_fuse_getattr. typed_bind_as Hi. case_if; [by typed_go|]. eapply typed_bind.
  { apply typed_getattr. intros s [= <-]. apply stat_zero_typed. }
  intros [err st] Hst. cbn [fst snd] in *. case_if; [by typed_go|]. typed_bind_as Ht.
  apply typed_send. simpl. destruct st; [by apply Hst|apply stat_zero_typed].
Qed.

Lemma typed_h_setattr ino attr to_set : safe (hsx_fuse_setattr ino attr to_set).
Proof using HW.
  unfold hsx_fuse_setattr, hsfs_ll_setattr. typed_bind_as Hi. case_if; [by typed_go|]. cbv zeta. typed_bind_as He.
  case_if; [by typed_go|]. typed_bind_as Hn. typed_bind_as Ht. apply typed_send. simpl.
  by apply off_stat, fillattr_typed.
Qed.

Lemma statvfs_of_super s st : super_typed s -> hsi_super2statvfs s = Some st -> statvfs_typed st.
Proof.
  intros []. unfold hsi_super2statvfs. repeat case_if; [done..|]. intros [= <-].
  assert (Hb : forall x, u64_ok (Z.shiftr (u64 x) (sb_bsize_bits s))).
  { intros x. unfold u64_ok. pose proof (u64_range x) as [H0 H1]. rewrite Z.shiftr_div_pow2 by lia.
    assert (1 <= 2 ^ sb_bsize_bits s) by (apply (Z.pow_le_mono_r 2 0); lia).
    split; [apply Z.div_pos; lia|]. eapply Z.le_lt_trans; [|exact H1]. apply Z.div_le_upper_bound; [lia|nia]. }
  unfold u32_ok in *. constructor; simpl; try done; try apply Hb; try apply u64_range; unfold u64_ok; lia.
Qed.

Lemma typed_h_statfs : safe hsx_fuse_statfs.
Proof using HW.
  unfold hsx_fuse_statfs. typed_bind_as Hs. typed_bind_as Hn. typed_bind_as He. case_if; [by typed_go|].
  typed_bind_as Hs2. case_match; [|by typed_go]. apply typed_send. by eapply statvfs_of_super.
Qed.

Lemma typed_read_loop fuel p size off buf cnt :
  Forall byte_ok buf -> typed (read_loop fuel p size off buf cnt) (fun r => Forall byte_ok r.1.2).
Proof using HW.
  revert buf cnt. induction fuel as [|fuel IH]; intros buf cnt Hb; simpl; [by apply typed_stops|].
  case_if; [|by apply typed_ret]. typed_bind_as Hs. cbv zeta.
  eapply typed_bind; [apply typed_read; by apply Forall_drop|]. intros [e ri] Hr. cbn [fst snd] in *.
  case_if; [by apply typed_ret|].
  assert (Forall byte_ok (take (Z.to_nat cnt) buf ++ rw_data_val ri))
    by (apply Forall_app; split; [by apply Forall_take|done]).
  case_if; [by apply typed_ret|]. by apply IH.
Qed.

Lemma typed_h_read fuel ino size off : safe (hsx_fuse_read fuel ino size off).
Proof using HW.
  unfold hsx_fuse_read. typed_bind_as Hm. case_if; [by typed_go|]. typed_bind_as Hi. case_if; [by typed_go|].
  eapply typed_bind; [apply typed_read_loop, Forall_replicate; by split|]. intros [[err buf] cnt] Hb.
  cbn [fst snd] in *. case_if; [by typed_go|]. case_if; [by apply typed_stops|]. apply typed_send.
  by apply Forall_take.
Qed.

Lemma typed_write_loop fuel p stable buf size off cnt :
  u64_ok cnt -> typed (write_loop fuel p stable buf size off cnt) (fun r => u64_ok r.2).
Proof using HW.
  revert cnt. induction fuel as [|fuel IH]; intros cnt Hc; simpl; [by apply typed_stops|].
  case_if; [|by apply typed_ret]. typed_bind_as Hs. cbv zeta. typed_bind_as Hw.
  case_if; [by apply typed_ret|]. apply IH, u64_range.
Qed.

Lemma typed_h_write fuel ino buf size off d : safe (hsx_fuse_write fuel ino buf size off d).
Proof using HW.
  unfold hsx_fuse_write. typed_bind_as Hs. typed_bind_as Hm. case_if; [by typed_go|]. cbv zeta. typed_bind_as Hi.
  case_if; [by typed_go|]. eapply typed_bind; [apply typed_write_loop; by split|]. intros [err cnt] Hc.
  cbn [fst snd] in *. case_if; [by typed_go|]. by apply typed_send.
Qed.

Lemma ctx_dirent_typed c p : ctx_typed c -> (forall e, p = Some e -> entry_typed e) -> dirent_typed (ctx_dirent c p).
Proof. intros [Hi Ho] Hp. by constructor. Qed.

Lemma fill_dir_typed l room : Forall ctx_typed l -> Forall dirent_typed (fill_dir l room).
Proof.
  intros Hl. revert room. induction Hl as [|c l Hc _ IH]; intros room; simpl; [done|].
  case_if; constructor; [by apply ctx_dirent_typed|apply IH].
Qed.

Lemma typed_fill_dir_plus l room : Forall ctx_typed l -> typed (fill_dir_plus l room) (Forall dirent_typed).
Proof.
  intros Hl. revert room. induction Hl as [|c l Hc _ IH]; intros room; simpl; [by apply typed_ret|].
  typed_bind_as He. cbv zeta. case_if; [by apply typed_ret|]. case_if; [by apply typed_ret|]. typed_bind_as Hr.
  eapply typed_bind; [apply IH|]. intros es Hes. apply typed_ret. constructor; [|done].
  apply ctx_dirent_typed; [done|]. by intros e' [= <-].
Qed.

Lemma typed_free_ctx l pos a : safe (fuse_free_ctx l pos a).
Proof. revert pos. induction l as [|c l IH]; intros pos; simpl; typed_go. Qed.
Hint Resolve typed_free_ctx : typed.

Lemma typed_h_readdir ino size off : safe (hsx_fuse_readdir ino size off).
Proof using HW.
  unfold hsx_fuse_readdir. typed_bind_as Hi. typed_bind_as Ha. eapply typed_bind; [apply typed_readdir|].
  intros [err l] Hl. unfold list_typed in Hl. cbn [fst snd] in *. case_if; [by typed_go|]. typed_bind_as Hm.
  case_if; [by typed_go|]. eapply typed_bind; [by apply typed_send, fill_dir_typed|]. intros [] _. typed_go.
Qed.

Lemma typed_h_readdir_plus ino size off : safe (hsx_fuse_readdir_plus ino size off).
Proof using HW.
  unfold hsx_fuse_readdir_plus. typed_bind_as Hi. typed_bind_as Ha. eapply typed_bind; [apply typed_readdir_plus|].
  intros [err l] Hl. unfold list_typed in Hl. cbn [fst snd] in *. case_if; [by typed_go|]. typed_bind_as Hm.
  case_if; [by typed_go|]. eapply typed_bind; [by apply typed_fill_dir_plus|]. intros es Hes.
  eapply typed_bind; [by apply typed_send|]. intros [] _. typed_go.
Qed.

Lemma xattr_bytes acl : Forall byte_ok (le32 POSIX_ACL_XATTR_VERSION ++ concat (map xattr_entry (a_entries acl))).
Proof.
  assert (Hb : forall x, byte_ok (x mod 256)) by (intros x; apply Z.mod_pos_bound; lia).
  apply Forall_app. split; [by repeat constructor|]. induction (a_entries acl) as [|e es IH]; simpl; [done|].
  by repeat (constructor; [apply Hb|]).
Qed.

Lemma xattr_size_range acl buf size : u64_ok (posix_acl_to_xattr acl buf size).1.
Proof.
  unfold posix_acl_to_xattr, u64_ok, ERANGE. pose proof (u32_range (posix_acl_xattr_size (a_count acl))).
  repeat case_if; simpl; lia.
Qed.

Lemma typed_h_getxattr ino name size : safe (hsx_fuse_getxattr ino name size).
Proof using HW.
  unfold hsx_fuse_getxattr. case_match; [|by typed_go]. typed_bind_as Hi. case_if; [by typed_go|]. cbv zeta.
  typed_bind_as Hr. case_if; [by typed_go|]. typed_bind_as Hm. case_if; [by typed_go|].
  case_match; [|by apply typed_stops]. case_if; [apply typed_send, xattr_size_range|]. case_if; [by typed_go|]. apply typed_send.
  unfold posix_acl_to_xattr. case_if; [by constructor|]. case_if; [by constructor|]. apply xattr_bytes.
Qed.

Lemma typed_oper req : request_typed req -> safe (hsfs_oper req).
Proof using HW.
  pose proof (fun p r => typed_reply_new p r) as Hn.
  intros Hq. destruct req; simpl;
    try first [apply typed_h_getattr|apply typed_h_setattr|apply typed_h_statfs|apply typed_h_read
      |apply typed_h_write|apply typed_h_readdir|apply typed_h_readdir_plus|apply typed_h_getxattr].
  - unfold hsx_fuse_lookup. typed_go.
  - unfold hsx_fuse_forget. typed_go.
  - unfold hsx_fuse_readlink. typed_go.
  - unfold hsx_fuse_symlink. typed_go.
  - unfold hsx_fuse_mknod. typed_go.
  - unfold hsx_fuse_mkdir. typed_go.
  - unfold hsx_fuse_unlink. typed_go.
  - unfold hsx_fuse_rmdir. typed_go.
  - unfold hsx_fuse_rename. typed_go.
  - unfold hsx_fuse_link. typed_go.
  - unfold hsx_fuse_open. typed_go.
  - by apply typed_send.
  - unfold hsx_fuse_setxattr. typed_go.
  - unfold hsx_fuse_opendir. typed_go.
  - unfold hsx_fuse_access. typed_go.
  - destruct Hq. by apply typed_h_create.
Qed.

Lemma typed_init conn : safe (hsx_fuse_init conn).
Proof. unfold hsx_fuse_init. typed_go. Qed.

Lemma typed_requests reqs : Forall request_typed reqs -> safe (run_requests hsfs_oper reqs).
Proof using HW.
  induction 1 as [|req reqs Hq _ IH]; simpl; [by apply typed_ret|].
  eapply typed_bind; [by apply typed_oper|]. done.
Qed.
End Handlers.

#[export] Hint Resolve typed_init typed_requests typed_c_malloc : typed.
