(* ===== verification/AclSpec.v ===== *)
(** * Properties of access control lists, with their witnesses

    The value of the extended attribute decodes to the list it was made from,
    what [posix_acl_to_xattr] returns, the query for the size, and the lists that
    SETXATTR sends for a directory. *)

From S2P Require Import Prelude Bitops Hash Proto World Icache IcacheFacts Attr Rpc NfsInode Sample Wp Blocks Nfs3Ops Nfs3Spec Acl FuseOps FuseIo FileSpec FuseSpec RefSpec Session Calm.

(** An entry the kernel accepts: a known tag, and an id only where it counts. *)
Definition entry_wf (e : posix_acl_entry) : Prop :=
  0 <= e_perm e < 2 ^ 16 /\
  ((e_tag e = ACL_USER_OBJ \/ e_tag e = ACL_GROUP_OBJ \/ e_tag e = ACL_MASK \/ e_tag e = ACL_OTHER) /\
     e_id e = ACL_UNDEFINED_ID \/
   (e_tag e = ACL_USER \/ e_tag e = ACL_GROUP) /\ 0 <= e_id e < 2 ^ 32).

Lemma le16_decode x : 0 <= x < 2 ^ 16 -> x mod 256 + 256 * (x / 256 mod 256) = x.
Proof.
  intros Hx. rewrite (Z.mod_small (x / 256)); [pose proof (Z.div_mod x 256); lia|].
  split; [apply Z.div_pos|apply Z.div_lt_upper_bound]; lia.
Qed.

Lemma le32_decode x :
  0 <= x < 2 ^ 32 ->
  x mod 256 + 256 * (x / 256 mod 256) + 65536 * (x / 65536 mod 256) +
    16777216 * (x / 16777216 mod 256) = x.
Proof.
  intros Hx. rewrite (Z.mod_small (x / 16777216))
    by (split; [apply Z.div_pos|apply Z.div_lt_upper_bound]; lia).
  pose proof (Z.div_mod x 256). pose proof (Z.div_mod (x / 256) 256).
  pose proof (Z.div_mod (x / 65536) 256).
  replace (x / 65536) with (x / 256 / 256) in * by (rewrite Z.div_div by lia; done).
  replace (x / 16777216) with (x / 256 / 256 / 256) in * by (rewrite !Z.div_div by lia; done).
  lia.
Qed.

Lemma decode_xattr_entry e :
  entry_wf e ->
  exists t0 t1 p0 p1 i0 i1 i2 i3, xattr_entry e = [t0; t1; p0; p1; i0; i1; i2; i3] /\
    decode_entry (s16 (t0 + 256 * t1)) (p0 + 256 * p1)
      (i0 + 256 * i1 + 65536 * i2 + 16777216 * i3) = Some e.
Proof.
  intros [Hp Hc]. unfold xattr_entry, le16, le32. do 8 eexists. split; [reflexivity|].
  rewrite (le16_decode (e_perm e)) by done. destruct e as [tag perm id]. simpl in *.
  assert (Hid : 0 <= id < 2 ^ 32) by (unfold ACL_UNDEFINED_ID in *; lia).
  rewrite (le32_decode id) by done.
  destruct Hc as [[[->|[->|[->| ->]]] ->]|[[->| ->] _]]; reflexivity.
Qed.

Lemma decode_xattr es :
  Forall entry_wf es -> decode_entries (concat (map xattr_entry es)) = Some es.
Proof.
  induction 1 as [|e es He _ IH]; [done|]. cbn [map concat].
  destruct (decode_xattr_entry e He) as (t0 & t1 & p0 & p1 & i0 & i1 & i2 & i3 & -> & Hd).
  cbn [app decode_entries]. rewrite Hd, IH. done.
Qed.

Lemma xattr_length es : length (concat (map xattr_entry es)) = (8 * length es)%nat.
Proof.
  induction es as [|e es IH]; [done|]. cbn [map concat length]. rewrite length_app, IH.
  change (length (xattr_entry e)) with 8%nat. lia.
Qed.

Lemma real_size_small acl :
  a_count acl < 2 ^ 28 -> u32 (posix_acl_xattr_size (a_count acl)) = 4 + 8 * a_count acl.
Proof.
  intros Hc. assert (0 <= a_count acl) by (unfold a_count; lia).
  rewrite u32_small; unfold posix_acl_xattr_size; lia.
Qed.

(** C30: The value written for a list of known tags decodes to the same list:
    [posix_acl_from_xattr] after [posix_acl_to_xattr] gives it back, unless
    there is no memory for it. *)
Theorem acl_xattr_roundtrip `{E : Env} acl (w : world) :
  Forall entry_wf (a_entries acl) -> 0 < a_count acl < 2 ^ 28 ->
  let size := 4 + 8 * a_count acl in
  exists bytes b e, posix_acl_to_xattr acl true size = (size, Some bytes) /\
    Z.of_nat (length bytes) = size /\
    malloc (u64 (8 + a_count acl * 8)) (w_env w) = (b, e) /\
    posix_acl_from_xattr (Some bytes) size w = Ret (if b then Some acl else None) (set_env e w).
Proof.
  intros Hwf Hc size. destruct (malloc (u64 (8 + a_count acl * 8)) (w_env w)) as [b e] eqn:Hm.
  exists (le32 POSIX_ACL_XATTR_VERSION ++ concat (map xattr_entry (a_entries acl))), b, e.
  unfold posix_acl_to_xattr. rewrite real_size_small by lia. simpl negb. cbv iota.
  unfold size. rewrite Z.ltb_irrefl. split; [done|]. split.
  { rewrite length_app, xattr_length. change (length (le32 POSIX_ACL_XATTR_VERSION)) with 4%nat.
    unfold a_count. lia. }
  split; [done|]. unfold posix_acl_from_xattr.
  rewrite (proj2 (Z.ltb_ge _ _)) by lia. cbn [app le32]. cbv zeta.
  replace (4 + 8 * a_count acl - 4) with (a_count acl * 8) by lia.
  rewrite Z.mod_mul, Z.div_mul by lia. rewrite (s32_small (a_count acl)) by lia.
  rewrite (proj2 (Z.ltb_ge (a_count acl) 0)) by lia.
  rewrite (proj2 (Z.eqb_neq (a_count acl) 0)) by lia.
  change (negb (0 =? 0)) with false. match goal with |- (if negb ?b then _ else _) _ = _ =>
    change (negb b) with false end. cbv iota.
  unfold bind, posix_acl_alloc, c_malloc, from_env. cbv beta. rewrite Hm. destruct b; simpl negb; cbv iota; [|done].
  assert (Hlen : Z.of_nat (length (concat (map xattr_entry (a_entries acl)))) = a_count acl * 8)
    by (rewrite xattr_length; unfold a_count; lia).
  rewrite Hlen, Z.ltb_irrefl. rewrite take_ge by lia. rewrite decode_xattr by done.
  by destruct acl.
Qed.

(** [posix_acl_to_xattr] returns ERANGE exactly when there is a buffer and
    it is too small (the real size, 4 + 8 n, is never ERANGE, which is 34), the
    real size otherwise, and it writes only into a buffer that is large
    enough. *)
Theorem to_xattr_result acl buffer size :
  a_count acl < 2 ^ 28 ->
  let real := 4 + 8 * a_count acl in
  ((posix_acl_to_xattr acl buffer size).1 = ERANGE <-> buffer = true /\ size < real) /\
  ((posix_acl_to_xattr acl buffer size).1 = real <-> ~ (buffer = true /\ size < real)) /\
  (forall bytes, (posix_acl_to_xattr acl buffer size).2 = Some bytes ->
     buffer = true /\ Z.of_nat (length bytes) = real /\ real <= size).
Proof.
  intros Hc real. unfold posix_acl_to_xattr. rewrite real_size_small by done. fold real.
  assert (Hne : real <> ERANGE) by (unfold real, ERANGE; lia).
  destruct buffer; simpl.
  - destruct (Z.ltb_spec size real); simpl.
    + split_and!; [done| |done]. split; [congruence|]. intros Hn. destruct Hn. done.
    + split_and!; [split; [congruence|intros [_ ?]; lia]|split; [intros _ [_ ?]; lia|done]|].
      intros bytes [= <-]. split; [done|]. split; [|lia].
      cbn [length app]. rewrite xattr_length. unfold real, a_count. lia.
  - split_and!; [split; [congruence|by intros [? _]]|split; [by intros _ [? _]|done]|done].
Qed.

Section SizeQuery.
Context {E : Env}.

(** Asked for the size of an access control list (a request of size 0), the
    handler answers 34, the value of ERANGE, for every list, where
    [calloc(1, 0)] does not return NULL. *)
Theorem getxattr_size_query ino p n resok e (w : world) :
  good w -> (forall m e, m < 2 ^ 32 -> (malloc m e).1 = true) ->
  sb_acl_clntp (w_sb w) <> NULL -> w_heap w !! p = Some n -> ino_of n = ino ->
  clnt_call (sb_acl_clntp (w_sb w))
    (ACLPROC3_GETACL {| ga_fh := hsi_nfs3_getfh3 n; ga_mask := Z.lor NA_ACLCNT NA_ACL |})
    (call_timeout (sb_timeo (w_sb w))) (w_env w) = (RPC_SUCCESS (RES_OK resok), e) ->
  Z.of_nat (length (sec_aclent (gar_acl resok))) < 2 ^ 28 ->
  exists w', hsfs_oper (FUSE_GETXATTR ino POSIX_ACL_XATTR_ACCESS 0) w = Ret tt w' /\
    w_out w' = w_out w ++ [reply_xattr ERANGE].
Proof.
  intros Hg Hmal Hacl Hn Hi Hcall Hlen. pose proof (good_clnt _ Hg) as Hl.
  assert (Ha : sb_acl_clntp (w_sb w) ∈ w_clnts w) by (by destruct (good_acl _ Hg)).
  assert (Hm : forall m (Q : bool -> world -> Prop) w, m < 2 ^ 32 ->
    (forall e, Q true (set_env e w)) -> wp (c_malloc m) Q w).
  { intros m Q w1 Hlt HQ. exists true, (set_env (malloc m (w_env w1)).2 w1). split; [|done].
    unfold c_malloc, from_env. specialize (Hmal m (w_env w1) Hlt). destruct (malloc m (w_env w1)). simpl in *. by subst. }
  enough (Hwp : wp (hsx_fuse_getxattr ino POSIX_ACL_XATTR_ACCESS 0)
    (fun _ w' => w_out w' = w_out w ++ [reply_xattr ERANGE]) w).
  { destruct Hwp as ([] & w' & Hrun & Ho). by exists w'. }
  unfold hsx_fuse_getxattr. simpl (xattr_type _). cbv iota.
  apply wp_bind. eapply wp_known; [done..|]. intros ->. apply wp_bind.
  unfold hsi_nfs3_getxattr. wp_go. rewrite (proj2 (Z.eqb_neq _ _) Hacl). apply wp_bind.
  eexists _, _. split; [by eapply call_at_once|]. wp_go. apply Hm.
  { simpl. rewrite length_map, s32_small, u64_small by lia. lia. }
  intros e1. wp_go.
  change (negb true) with false. cbv iota. wp_go.
  change (negb (0 =? 0)) with false. cbv iota. apply wp_bind, Hm; [done|]. intros e2.
  set (acl := mk_acl _).
  assert (Hc : a_count acl < 2 ^ 28) by (unfold a_count, acl; simpl; by rewrite length_map).
  change (negb true && negb (0 =? 0)) with false. cbv iota.
  assert (Hx : posix_acl_to_xattr acl true 0 = (ERANGE, None)).
  { unfold posix_acl_to_xattr. rewrite real_size_small by done. change (negb true) with false. cbv iota.
    rewrite (proj2 (Z.ltb_lt _ _)); [done|]. unfold a_count. lia. }
  cbv zeta. change (0 =? 0) with true. cbv iota. rewrite Hx. by apply wp_send.
Qed.
End SizeQuery.

(** ** SETXATTR on a directory *)

Section DirLists.
Context {E : Env}.

(** The lists of the SETACL: the access list and the default list. *)
Definition dir_lists (type : Z) (acl : posix_acl) (cur : secattr) : posix_acl * posix_acl :=
  if type =? ACL_TYPE_ACCESS then (acl, mk_acl (map (entry_of_aclent 0) (sec_aclent cur)))
  else (mk_acl (map (entry_of_aclent NA_ACL_DEFAULT) (sec_dfaclent cur)), acl).

Definition dir_setacl (fh : nfs_fh3) (lists : posix_acl * posix_acl) : SETACL3args :=
  {| sx_fh := fh;
     sx_acl := {| sec_mask := Z.lor NFS_ACL NFS_DFACL;
                  sec_aclcnt := a_count lists.1; sec_aclent := map aclent_of_entry (a_entries lists.1);
                  sec_dfaclcnt := a_count lists.2; sec_dfaclent := map aclent_of_entry (a_entries lists.2) |} |}.

Definition dir_mask (type : Z) : Z :=
  Z.lor (if type =? ACL_TYPE_ACCESS then Z.lor NA_ACLCNT NA_ACL else 0) (Z.lor NA_DFACLCNT NA_DFACL).

(** Memory is there, and taking it changes nothing else. *)
Hypothesis Hmal : forall m e, m < 2 ^ 32 -> malloc m e = (true, e).

Lemma wp_memory m (Q : bool -> world -> Prop) w : m < 2 ^ 32 -> Q true w -> wp (c_malloc m) Q w.
Proof.
  intros Hm HQ. exists true, w. split; [|done]. unfold c_malloc, from_env. rewrite Hmal by done. by destruct w.
Qed.

Lemma wp_copy_aclents acl (Q : list aclent -> world -> Prop) w :
  a_count acl < 2 ^ 28 -> Q (map aclent_of_entry (a_entries acl)) w -> wp (copy_aclents acl) Q w.
Proof. intros Hc HQ. apply wp_bind, wp_memory; [lia|]. by apply wp_ret. Qed.

(** The list of the given kind that the server has. *)
Lemma wp_getacl p n type mask cur e (w : world) Q :
  good w -> sb_acl_clntp (w_sb w) <> NULL -> w_heap w !! p = Some n ->
  type = ACL_TYPE_ACCESS \/ type = ACL_TYPE_DEFAULT ->
  clnt_call (sb_acl_clntp (w_sb w)) (ACLPROC3_GETACL {| ga_fh := hsi_nfs3_getfh3 n; ga_mask := mask |})
    (call_timeout (sb_timeo (w_sb w))) (w_env w) = (RPC_SUCCESS (RES_OK cur), e) ->
  Z.of_nat (length (sec_aclent (gar_acl cur))) < 2 ^ 28 -> Z.of_nat (length (sec_dfaclent (gar_acl cur))) < 2 ^ 28 ->
  Q (0, Some (if type =? ACL_TYPE_ACCESS then mk_acl (map (entry_of_aclent 0) (sec_aclent (gar_acl cur)))
              else mk_acl (map (entry_of_aclent NA_ACL_DEFAULT) (sec_dfaclent (gar_acl cur))))) (set_env e w) ->
  wp (hsi_nfs3_getxattr p mask type) Q w.
Proof using Hmal.
  intros Hg Hacl Hn Ht Hcall Hl1 Hl2 HQ.
  assert (Ha : sb_acl_clntp (w_sb w) ∈ w_clnts w) by (by destruct (good_acl _ Hg)).
  unfold hsi_nfs3_getxattr. wp_go. rewrite (proj2 (Z.eqb_neq _ _) Hacl). apply wp_bind.
  eexists _, _. split; [by eapply call_at_once|]. cbv beta iota zeta delta [snd].
  destruct Ht as [-> | ->]; cbn [Z.eqb Pos.eqb ACL_TYPE_ACCESS ACL_TYPE_DEFAULT] in *; (apply wp_bind, wp_memory;
    [rewrite length_map, s32_small, u64_small by lia; lia|]);
    cbn [negb]; wp_go; exact HQ.
Qed.

(** C35: Setting one list of a directory overwrites the other one.  SETACL sends both
    lists of a directory, and the one that is not set is fetched with the type of the
    one that is: a new access list is sent with the access list that was there as the
    default list, and a new default list with the default list that was there as the
    access list.  The list the server had of the other kind is lost. *)
Theorem dir_list_overwritten p n type value size acl cur e res e2 (w : world) :
  good w -> sb_acl_clntp (w_sb w) <> NULL -> w_heap w !! p = Some n ->
  S_ISDIR (ia_mode (in_iattr (ni_hsfs_inode n))) = true ->
  type = ACL_TYPE_ACCESS \/ type = ACL_TYPE_DEFAULT ->
  posix_acl_from_xattr value size w = Ret (Some acl) w -> a_count acl < 2 ^ 28 ->
  clnt_call (sb_acl_clntp (w_sb w)) (ACLPROC3_GETACL {| ga_fh := hsi_nfs3_getfh3 n; ga_mask := dir_mask type |})
    (call_timeout (sb_timeo (w_sb w))) (w_env w) = (RPC_SUCCESS (RES_OK cur), e) ->
  Z.of_nat (length (sec_aclent (gar_acl cur))) < 2 ^ 28 -> Z.of_nat (length (sec_dfaclent (gar_acl cur))) < 2 ^ 28 ->
  clnt_call (sb_acl_clntp (w_sb w))
    (ACLPROC3_SETACL (dir_setacl (hsi_nfs3_getfh3 n) (dir_lists type acl (gar_acl cur))))
    (call_timeout (sb_timeo (w_sb w))) e = (RPC_SUCCESS res, e2) ->
  hsi_nfs3_setxattr p value type size w = Ret (hsi_nfs3_stat_to_errno (status res)) (set_env e2 w).
Proof using Hmal.
  intros Hg Hacl Hn Hdir Ht Hx Hc Hget Hl1 Hl2 Hset.
  assert (Ha : sb_acl_clntp (w_sb w) ∈ w_clnts w) by (by destruct (good_acl _ Hg)).
  enough (Hwp : wp (hsi_nfs3_setxattr p value type size)
    (fun r w' => r = hsi_nfs3_stat_to_errno (status res) /\ w' = set_env e2 w) w).
  { destruct Hwp as (r & w' & Hr & -> & ->). exact Hr. }
  unfold hsi_nfs3_setxattr. wp_go. rewrite (proj2 (Z.eqb_neq _ _) Hacl). wp_go. rewrite Hdir.
  fold (dir_mask type). exists (Some acl), w. split; [exact Hx|].
  assert (Hlists : wp (setxattr_acls p type (ia_mode (in_iattr (ni_hsfs_inode n))) (dir_mask type) (Some acl))
    (fun r w' => r = Some ((dir_lists type acl (gar_acl cur)).1, Some (dir_lists type acl (gar_acl cur)).2) /\
       w' = set_env e w) w).
  { unfold setxattr_acls, dir_lists. rewrite Hdir. apply wp_bind.
    destruct Ht as [-> | ->]; cbn [Z.eqb Pos.eqb ACL_TYPE_ACCESS ACL_TYPE_DEFAULT] in *;
      apply wp_bind; (eapply wp_getacl; [done..|by auto|exact Hget|done|done|]);
      cbn [Z.eqb Pos.eqb ACL_TYPE_ACCESS ACL_TYPE_DEFAULT fst snd]; by apply wp_ret, wp_ret. }
  apply wp_bind. eapply wp_mono; [exact Hlists|]. intros r w1 [-> ->].
  assert (Hcnt : a_count (dir_lists type acl (gar_acl cur)).1 < 2 ^ 28 /\ a_count (dir_lists type acl (gar_acl cur)).2 < 2 ^ 28).
  { unfold dir_lists. case_if; simpl; unfold a_count in *; simpl; by rewrite length_map. }
  apply wp_bind, wp_copy_aclents; [apply Hcnt|]. apply wp_bind, wp_copy_aclents; [apply Hcnt|].
  apply wp_bind. eexists _, _. split; [by eapply (call_at_once _ _ (set_env e w))|].
  cbv beta iota zeta delta [snd]. apply wp_bind, wp_freeres; [done|]. by apply wp_ret.
Qed.
End DirLists.

(** ** Witnesses *)

Definition sample_acl : posix_acl :=
  mk_acl [mk_entry ACL_USER_OBJ 6 ACL_UNDEFINED_ID; mk_entry ACL_USER 4 1000;
          mk_entry ACL_GROUP_OBJ 4 ACL_UNDEFINED_ID; mk_entry ACL_MASK 4 ACL_UNDEFINED_ID;
          mk_entry ACL_OTHER 0 ACL_UNDEFINED_ID].

Lemma acl_xattr_roundtrip_witness :
  exists bytes b e, posix_acl_to_xattr sample_acl true 44 = (44, Some bytes) /\
    Z.of_nat (length bytes) = 44 /\ malloc (u64 48) (w_env calm_empty) = (b, e) /\
    posix_acl_from_xattr (Some bytes) 44 calm_empty =
      Ret (if b then Some sample_acl else None) (set_env e calm_empty).
Proof.
  apply (acl_xattr_roundtrip sample_acl calm_empty).
  - repeat (apply Forall_cons; split; [unfold entry_wf; simpl; unfold ACL_UNDEFINED_ID; split; [lia|]; tauto || lia|]).
    apply Forall_nil. exact I.
  - vm_compute. split; reflexivity.
Defined.

Lemma to_xattr_result_witness :
  ((posix_acl_to_xattr sample_acl true 40).1 = ERANGE <-> true = true /\ 40 < 44).
Proof. apply (to_xattr_result sample_acl true 40). vm_compute. reflexivity. Defined.

(** With a client for the ACL protocol. *)
Definition calm_aclient : world :=
  set_env (set_fail [] calm0) (set_sb (set_sb_acl_clntp 1 (w_sb calm_file)) calm_file).

Lemma good_acl_client `{E : Env} c w :
  good w -> c ∈ w_clnts w -> good (set_sb (set_sb_acl_clntp c (w_sb w)) w).
Proof.
  intros [[Hc Hn] Hl Ha Hr Hw] Hlive. constructor; simpl; [|done|by right|done|done].
  split; [|done]. by apply (icache_inv_sb (w_heap w) (w_sb w)).
Qed.

Lemma calm_aclient_good : good calm_aclient.
Proof.
  apply good_env, good_acl_client; [exact calm_file_good|].
  apply (bool_decide_unpack _). vm_compute. exact I.
Qed.

Lemma aclient_fields `{E : Env} e c w :
  let w' := set_env e (set_sb (set_sb_acl_clntp c (w_sb w)) w) in
  w_heap w' = w_heap w /\ w_env w' = e /\ sb_acl_clntp (w_sb w') = c.
Proof. done. Qed.

Lemma calm_aclient_facts :
  w_heap calm_aclient = w_heap calm_file /\ w_env calm_aclient = set_fail [] calm0 /\
  sb_acl_clntp (w_sb calm_aclient) = 1.
Proof.
  unfold calm_aclient. pose proof (@aclient_fields CalmEnv (set_fail [] calm0) 1 calm_file) as H.
  cbv zeta in H. exact H.
Qed.

#[global] Opaque calm_aclient.

Lemma getxattr_size_query_witness :
  exists w', hsfs_oper (FUSE_GETXATTR 2 POSIX_ACL_XATTR_ACCESS 0) calm_aclient = Ret tt w' /\
    w_out w' = w_out calm_aclient ++ [reply_xattr 34].
Proof.
  destruct (calm_file_inode false) as (n & Hn & Hi). cbv iota in Hn, Hi.
  destruct calm_aclient_facts as (Hh & He & Ha). rewrite <- Hh in Hn.
  eapply (getxattr_size_query 2 0x10200 n).
  - exact calm_aclient_good.
  - intros m e Hm. apply Z.ltb_lt. lia.
  - rewrite Ha. discriminate.
  - exact Hn.
  - exact Hi.
  - rewrite He. reflexivity.
  - reflexivity.
Defined.

(** The extended attribute of [sample_acl]. *)
Definition sample_value : list Z := default [] (posix_acl_to_xattr sample_acl true 44).2.

Lemma sample_value_read (w : world) : posix_acl_from_xattr (Some sample_value) 44 w = Ret (Some sample_acl) w.
Proof. by destruct w. Qed.

(** The access list of the root is set. *)
Lemma dir_list_overwritten_witness :
  exists r e, hsi_nfs3_setxattr 0x10000 (Some sample_value) ACL_TYPE_ACCESS 44 calm_aclient =
    Ret r (set_env e calm_aclient).
Proof.
  destruct (calm_file_inode true) as (n & Hn & Hi). cbv iota in Hn, Hi.
  assert (Hd : (fun m => S_ISDIR (ia_mode (in_iattr (ni_hsfs_inode m)))) <$> w_heap calm_file !! 0x10000 = Some true)
    by by vm_compute.
  rewrite Hn in Hd. injection Hd as Hd.
  destruct calm_aclient_facts as (Hh & He & Ha). rewrite <- Hh in Hn. eexists _, _.
  eapply (fun H => dir_list_overwritten H 0x10000 n ACL_TYPE_ACCESS (Some sample_value) 44 sample_acl).
  - intros m e Hm. simpl. f_equal. apply Z.ltb_lt. lia.
  - exact calm_aclient_good.
  - rewrite Ha. discriminate.
  - exact Hn.
  - exact Hd.
  - left. reflexivity.
  - apply sample_value_read.
  - reflexivity.
  - rewrite He. reflexivity.
  - reflexivity.
  - reflexivity.
  - reflexivity.
Defined.
