(* ===== verification/FsSpec.v ===== *)
(** * Properties of the mounted file system, with their witnesses

    The transfer sizes taken from FSINFO, the figures of STATFS, the errors of
    the protocol, and what happens when the connection is lost in the middle of
    an operation. *)

From S2P Require Import Prelude Bitops Hash Proto World Icache IcacheFacts Attr Rpc NfsInode Sample Wp Blocks Nfs3Ops Nfs3Spec Acl FuseOps FuseIo FileSpec FuseSpec RefSpec Session.

(** ** Transfer sizes *)

(** [hsfs_block_size] gives a power of two between 1 KiB and 1 MiB, with its
    logarithm: the largest that does not exceed the size when that is in this
    range, 4 KiB for smaller sizes and 1 MiB for larger ones. *)
Theorem block_size_pow2 b :
  0 <= b ->
  exists k, hsfs_block_size b true = (2 ^ k, Some k) /\ 10 <= k <= 20 /\
    (1024 <= b <= 1048576 -> 2 ^ k <= b < 2 ^ (k + 1)) /\
    (b < 1024 -> k = 12) /\ (1048576 < b -> k = 20).
Proof.
  intros Hb. destruct (block_size_spec b true Hb) as (k & H1 & Hk & H2 & H3 & H4). exists k.
  destruct (hsfs_block_size b true) as [x y] eqn:Hbs. simpl in H1, H2. subst.
  split_and!; [done|lia|lia|lia| |].
  - intros Hlt. unfold hsfs_block_size, HSFS_MIN_FILE_IO_SIZE in Hbs.
    rewrite (proj2 (Z.ltb_lt _ _)) in Hbs by lia. vm_compute in Hbs. by injection Hbs as _ <-.
  - intros Hgt. unfold hsfs_block_size, HSFS_MIN_FILE_IO_SIZE, HSFS_MAX_FILE_IO_SIZE in Hbs.
    rewrite (proj2 (Z.ltb_ge _ _)), (proj2 (Z.leb_le _ _)) in Hbs by lia.
    vm_compute in Hbs. by injection Hbs as _ <-.
Qed.

(** Maxima below 1 KiB: the rounding takes one of 512 bytes or more for too small a
    wish and answers its default, and smaller ones are not looked at. *)
Lemma io_size_small size pref mx :
  (512 <= mx < 1024 -> io_size size pref mx <= mx \/ io_size size pref mx = 4096) /\
  (mx < 512 -> io_size size pref mx = io_size size pref 0).
Proof.
  unfold io_size. cbv zeta. set (x := if size =? 0 then _ else size). split; intros Hm.
  - rewrite (proj2 (Z.leb_le 512 mx)) by lia. cbn [andb]. destruct (Z.ltb_spec mx x) as [Hx|Hx].
    + right. unfold hsfs_block_size, HSFS_MIN_FILE_IO_SIZE. by rewrite (proj2 (Z.ltb_lt mx 1024)) by lia.
    + left. unfold HSFS_MAX_FILE_IO_SIZE. case_if; lia.
  - by rewrite (proj2 (Z.leb_gt 512 mx)) by lia.
Qed.

(** C32: After FSINFO the sizes of reads and writes are at least 1 byte and at
    most 1 MiB.  A maximum of the server of 1 KiB or more is respected; with one of
    512 to 1023 bytes the size is within it or is 4096, and then it exceeds it; one
    below 512 bytes is ignored.  The size of directory reads does not exceed the
    size of reads. *)
Theorem fsinfo_sizes `{E : Env} super fsinfo :
  0 <= sb_rsize super -> 0 <= sb_wsize super ->
  0 <= fi_rtpref fsinfo -> 0 <= fi_rtmax fsinfo -> 0 <= fi_wtpref fsinfo -> 0 <= fi_wtmax fsinfo ->
  let s := hsi_fsinfo_to_super super fsinfo in
  0 < sb_rsize s <= HSFS_MAX_FILE_IO_SIZE /\ (1024 <= fi_rtmax fsinfo -> sb_rsize s <= fi_rtmax fsinfo) /\
  0 < sb_wsize s <= HSFS_MAX_FILE_IO_SIZE /\ (1024 <= fi_wtmax fsinfo -> sb_wsize s <= fi_wtmax fsinfo) /\
  sb_dtsize s <= sb_rsize s /\
  (512 <= fi_rtmax fsinfo < 1024 -> sb_rsize s <= fi_rtmax fsinfo \/ sb_rsize s = 4096) /\
  (512 <= fi_wtmax fsinfo < 1024 -> sb_wsize s <= fi_wtmax fsinfo \/ sb_wsize s = 4096) /\
  (fi_rtmax fsinfo < 512 -> sb_rsize s = io_size (sb_rsize super) (fi_rtpref fsinfo) 0) /\
  (fi_wtmax fsinfo < 512 -> sb_wsize s = io_size (sb_wsize super) (fi_wtpref fsinfo) 0).
Proof.
  intros Hr Hw Hrp Hrm Hwp Hwm s.
  destruct (io_size_spec (sb_rsize super) (fi_rtpref fsinfo) (fi_rtmax fsinfo)) as [H1 H2]; [done..|].
  destruct (io_size_spec (sb_wsize super) (fi_wtpref fsinfo) (fi_wtmax fsinfo)) as [H3 H4]; [done..|].
  split_and!; try (apply io_size_small); try done; try lia; [apply H1|apply H1|apply H3|apply H3|].
  unfold s, hsi_fsinfo_to_super. simpl. case_if; lia.
Qed.

(** A server whose maximum for reads is between 512 and 1023 bytes is read
    with 4096 bytes at a time: the rounding takes the maximum for too small a
    wish and replaces it by the default. *)
Theorem fsinfo_small_rtmax `{E : Env} super fsinfo :
  512 <= fi_rtmax fsinfo < 1024 -> fi_rtmax fsinfo < sb_rsize super ->
  sb_rsize (hsi_fsinfo_to_super super fsinfo) = 4096.
Proof.
  intros Hm Hr. unfold hsi_fsinfo_to_super. simpl. unfold io_size.
  rewrite (proj2 (Z.eqb_neq (sb_rsize super) 0)) by lia.
  rewrite (proj2 (Z.leb_le 512 _)), (proj2 (Z.ltb_lt (fi_rtmax fsinfo) _)) by lia. simpl andb.
  cbv iota zeta. unfold hsfs_block_size, HSFS_MIN_FILE_IO_SIZE.
  rewrite (proj2 (Z.ltb_lt (fi_rtmax fsinfo) 1024)) by lia. reflexivity.
Qed.

(** ** STATFS *)

(** The figures of STATFS are those of FSSTAT in blocks of [bsize] bytes,
    rounded up; a superblock that FSINFO and PATHCONF did not fill gives an
    error. *)
Theorem statvfs_figures sp :
  0 < sb_bsize_bits sp < 31 -> sb_bsize sp = 2 ^ sb_bsize_bits sp -> 0 < sb_namlen sp < 2 ^ 31 ->
  (forall b, b = sb_tbytes sp \/ b = sb_fbytes sp \/ b = sb_abytes sp ->
     0 <= b /\ b + sb_bsize sp <= 2 ^ 64) ->
  exists st, hsi_super2statvfs sp = Some st /\
    f_bsize st = sb_bsize sp /\ f_frsize st = sb_bsize sp /\
    f_blocks st = (sb_tbytes sp + sb_bsize sp - 1) / sb_bsize sp /\
    f_bfree st = (sb_fbytes sp + sb_bsize sp - 1) / sb_bsize sp /\
    f_bavail st = (sb_abytes sp + sb_bsize sp - 1) / sb_bsize sp /\
    f_files st = sb_tfiles sp /\ f_ffree st = sb_ffiles sp /\ f_favail st = sb_afiles sp /\
    f_namemax st = sb_namlen sp.
Proof.
  intros Hbits Hbs Hn Hb. assert (Hpos : 0 < 2 ^ sb_bsize_bits sp) by (apply Z.pow_pos_nonneg; lia).
  unfold hsi_super2statvfs. rewrite (proj2 (Z.eqb_neq (sb_bsize_bits sp) 0)) by lia.
  rewrite (proj2 (Z.eqb_neq (sb_bsize sp) 0)), (proj2 (Z.eqb_neq (sb_namlen sp) 0)) by lia.
  assert (Hceil : forall b, b = sb_tbytes sp \/ b = sb_fbytes sp \/ b = sb_abytes sp ->
    Z.shiftr (u64 (b + u64 (s32 (Z.shiftl 1 (sb_bsize_bits sp)) - 1))) (sb_bsize_bits sp) =
      (b + sb_bsize sp - 1) / sb_bsize sp).
  { intros b Hc. destruct (Hb b Hc). rewrite Hbs in *. apply statvfs_blocks_ceil; lia. }
  eexists. split; [reflexivity|]. simpl. rewrite !Hceil by auto. rewrite u64_small by lia.
  split_and!; done.
Qed.

(** ** Errors *)

(** A status of the protocol is reported as 0 exactly when it is NFS3_OK,
    never as a negative number, as the error of the table when the table has
    it, and as EIO otherwise. *)
Theorem stat_to_errno_correct st :
  (hsi_nfs3_stat_to_errno st = 0 <-> st = NFS3_OK) /\ 0 <= hsi_nfs3_stat_to_errno st /\
  (forall err, (st, err) ∈ nfs_errtbl -> st <> -1 -> hsi_nfs3_stat_to_errno st = err) /\
  (st ∉ nfs_errtbl.*1 -> hsi_nfs3_stat_to_errno st = EIO).
Proof.
  split_and!.
  - apply stat_to_errno_zero.
  - apply stat_to_errno_nonneg.
  - intros err Hin Hst. unfold nfs_errtbl in Hin.
    repeat (apply elem_of_cons in Hin as [Hin|Hin]; [by injection Hin as -> ->|]).
    by apply not_elem_of_nil in Hin.
  - apply stat_to_errno_default.
Qed.

(** ** A lost connection *)
Section Lost.
Context {E : Env}.

(** C40: When the connection is lost during UNLINK and the call is repeated on
    a new client, the result is released on the client handle that was read
    before the call and has been destroyed meanwhile: undefined behaviour. *)
Theorem unlink_after_reconnect ino p n name x e c' w2 r e' (w : world) :
  good w -> w_heap w !! p = Some n -> ino_of n = ino ->
  name <> ""%string -> strlen name <= NAME_MAX -> x = ENOTCONN \/ x = ECONNRESET ->
  let proc := NFSPROC3_REMOVE {| da_dir := hsi_nfs3_getfh3 n; da_name := name |} in
  let t := call_timeout (sb_timeo (w_sb w)) in
  clnt_call (sb_clntp (w_sb w)) proc t (w_env w) = (RPC_FAILED x, e) ->
  hsi_nfs3_clnt_reconnect (sb_clntp (w_sb w)) (set_env e w) = Ret c' w2 ->
  c' <> NULL -> c' ∈ w_clnts w2 -> sb_clntp (w_sb w) ∉ w_clnts w2 ->
  clnt_call c' proc t (w_env w2) = (RPC_SUCCESS r, e') ->
  hsfs_oper (FUSE_UNLINK ino (Some name)) w = Undef.
Proof.
  intros Hg Hn Hi Hname Hlen Hx proc t Hcall Hrec Hc0 Hc' Hdead Hcall2.
  pose proof (good_clnt _ Hg) as Hl.
  assert (Hrpc : hsi_nfs3_clnt_call (sb_clntp (w_sb w)) proc w = Ret (0, Some r) (set_env e' w2)).
  { unfold hsi_nfs3_clnt_call, bind at 1, get_sb. simpl. unfold bind, rpc, from_env.
    rewrite decide_True by done. fold t. rewrite Hcall.
    assert (Herr : hsi_rpc_stat_to_errno x = x /\ (x =? EAGAIN) = false /\
      (x =? ENOTCONN) || (x =? ECONNRESET) = true) by (by destruct Hx as [->| ->]).
    destruct Herr as (-> & -> & ->). rewrite Hrec. rewrite (proj2 (Z.eqb_neq _ _) Hc0). simpl.
    rewrite decide_True by done. by rewrite Hcall2. }
  assert (Hlook : wp (hsfs_ilookup ino) (fun a w' => a = p /\ (a =? NULL) = false /\ w' = w) w)
    by (eapply wp_known; done).
  destruct Hlook as (a & w0 & Hlook & -> & Hnn & ->). simpl. unfold hsx_fuse_unlink.
  rewrite bool_decide_eq_false_2 by done. rewrite (proj2 (Z.ltb_ge NAME_MAX _)) by done.
  rewrite (bind_ret _ _ _ _ _ Hlook), Hnn.
  assert (Hfree : clnt_freeres (sb_clntp (w_sb w)) (set_env e' w2) = Undef)
    by (unfold clnt_freeres; by rewrite decide_False).
  assert (Hs : sb_client w = Ret (sb_clntp (w_sb w)) w) by done.
  assert (Hh : handle_of p w = Ret (hsi_nfs3_getfh3 n) w)
    by (unfold handle_of; by rewrite (bind_ret _ _ _ n w) by (by apply deref_ret)).
  enough (Hu : hsi_nfs3_unlink p name w = Undef) by (unfold bind; by rewrite Hu).
  unfold hsi_nfs3_unlink. rewrite (bind_ret _ _ _ _ _ Hs), (bind_ret _ _ _ _ _ Hh). cbv zeta.
  fold proc. rewrite (bind_ret _ _ _ _ _ Hrpc). cbn [fst snd].
  destruct r; unfold bind; by rewrite Hfree.
Qed.
End Lost.

(** ** Witnesses *)

Lemma block_size_pow2_witness :
  exists k, hsfs_block_size 5000 true = (2 ^ k, Some k) /\ 2 ^ k <= 5000 < 2 ^ (k + 1).
Proof.
  destruct (block_size_pow2 5000) as (k & Hk & _ & Hr & _); [lia|].
  exists k. split; [exact Hk|]. apply Hr. lia.
Defined.

Definition sample_fsinfo (rtmax : Z) : fsinfo3resok :=
  {| fi_obj_attributes := None; fi_rtmax := rtmax; fi_rtpref := 65536; fi_rtmult := 4096;
     fi_wtmax := 65536; fi_wtpref := 65536; fi_wtmult := 4096; fi_dtpref := 4096;
     fi_maxfilesize := 2 ^ 50; fi_time_delta := {| seconds := 0; nseconds := 1 |};
     fi_properties := 0 |}.

Lemma fsinfo_sizes_witness :
  0 < sb_rsize (hsi_fsinfo_to_super super_zero (sample_fsinfo 65536)) <= HSFS_MAX_FILE_IO_SIZE.
Proof. apply (fsinfo_sizes super_zero (sample_fsinfo 65536)); simpl; lia. Defined.

Lemma fsinfo_small_rtmax_witness :
  sb_rsize (hsi_fsinfo_to_super (set_sb_rsize 8192 super_zero) (sample_fsinfo 512)) = 4096.
Proof. apply fsinfo_small_rtmax; simpl; lia. Defined.

Definition sample_statfs : hsfs_super :=
  set_sb_bsize 4096 (set_sb_bsize_bits 12 (set_sb_namlen 255 (set_sb_tbytes 10000 super_zero))).

Lemma statvfs_figures_witness :
  exists st, hsi_super2statvfs sample_statfs = Some st /\ f_blocks st = (10000 + 4096 - 1) / 4096.
Proof.
  destruct (statvfs_figures sample_statfs) as (st & Hst & _ & _ & Hb & _).
  - simpl. lia.
  - reflexivity.
  - simpl. lia.
  - simpl. intros b Hb. lia.
  - exists st. exact (conj Hst Hb).
Defined.

Lemma stat_to_errno_correct_witness : hsi_nfs3_stat_to_errno NFS3ERR_NOTEMPTY = ENOTEMPTY.
Proof.
  apply (stat_to_errno_correct NFS3ERR_NOTEMPTY); [|done]. unfold nfs_errtbl.
  repeat (apply elem_of_cons; (left; reflexivity) || right).
Defined.

(** The connection is lost once; the daemon connects again as client 2. *)
Definition tcp_server : clnt_addr_t :=
  {| ca_hostname := "server"; ca_saddr := sockaddr_zero;
     ca_pmap := {| pm_prog := NFS_PROGRAM; pm_vers := NFS_V3; pm_prot := IPPROTO_TCP; pm_port := 2049 |} |}.

Definition lost_world : world :=
  set_bak {| nfs_server_bak := tcp_server; acl_server_bak := clnt_addr_zero; ssize_bak := 0; rsize_bak := 0 |}
    (set_env (set_fail [ENOTCONN] sample0) sample_world1).

Lemma sample_world1_good : good sample_world1.
Proof.
  constructor; [apply sample_world1_ok|..].
  - apply (bool_decide_unpack _). by vm_compute.
  - left. by vm_compute.
  - by vm_compute.
  - by vm_compute.
Qed.

Lemma good_bak `{E : Env} b w : good w -> good (set_bak b w).
Proof. intros []. by constructor. Qed.

Lemma lost_good : good lost_world.
Proof. apply good_bak, good_env, sample_world1_good. Qed.

Definition cut_world : world := set_env (set_fail [] sample0) lost_world.
Definition reconnected : world := after_run (hsi_nfs3_clnt_reconnect 1) cut_world.

Lemma reconnected_run : hsi_nfs3_clnt_reconnect 1 cut_world = Ret 2 reconnected.
Proof. apply (after_run_ret (hsi_nfs3_clnt_reconnect 1) cut_world 2). vm_compute. reflexivity. Qed.

Lemma reconnected_env : w_env reconnected = next_clnt (set_fail [] sample0).
Proof. vm_compute. reflexivity. Qed.

Lemma reconnected_clnts : 2 ∈ w_clnts reconnected /\ 1 ∉ w_clnts reconnected.
Proof. apply (bool_decide_unpack _). vm_compute. exact I. Qed.

Lemma lost_facts : w_env lost_world = set_fail [ENOTCONN] sample0 /\ sb_clntp (w_sb lost_world) = 1.
Proof. split; vm_compute; reflexivity. Qed.

Lemma lost_root : exists n, w_heap lost_world !! 0x10000 = Some n /\ ino_of n = 1.
Proof.
  destruct (w_heap lost_world !! 0x10000) as [n|] eqn:Hn; [|by vm_compute in Hn].
  exists n. split; [done|].
  assert (H : ino_of <$> w_heap lost_world !! 0x10000 = Some 1) by (vm_compute; reflexivity).
  rewrite Hn in H. by injection H.
Qed.

#[global] Opaque lost_world reconnected.

Lemma unlink_after_reconnect_witness : hsfs_oper (FUSE_UNLINK 1 (Some "f")) lost_world = Undef.
Proof.
  destruct lost_root as (n & Hn & Hi). destruct lost_facts as [He Hc].
  destruct reconnected_clnts as [H2 H1].
  eapply (@unlink_after_reconnect SampleEnv 1 0x10000 n "f" ENOTCONN (set_fail [] sample0) 2 reconnected).
  - exact lost_good.
  - exact Hn.
  - exact Hi.
  - discriminate.
  - vm_compute. discriminate.
  - left. reflexivity.
  - rewrite He. reflexivity.
  - rewrite Hc. exact reconnected_run.
  - discriminate.
  - exact H2.
  - rewrite Hc. exact H1.
  - rewrite reconnected_env. reflexivity.
Defined.
