(* ===== verification/Mntent.v ===== *)
(** * The mount table ([nfs3/nfs_mntent.c], [include/nfs_mntent.h])

    Lines of /etc/mtab are written by [nfs_addmntent] and read by
    [nfs_getmntent].  Characters are bytes, a C string is the list of the bytes
    before its NUL, a file is the list of the bytes that are left to read, with
    those written at its end. *)

From S2P Require Import Prelude.

Definition SPACE : Z := 32.
Definition TAB : Z := 9.
Definition NEWLINE : Z := 10.
Definition RETURN : Z := 13.
Definition HASH : Z := 35.
Definition MINUS : Z := 45.
Definition ZERO : Z := 48.
Definition BACKSLASH : Z := 92.

Record nfs_mntent := mk_mntent {
  mnt_fsname : list Z; mnt_dir : list Z; mnt_type : list Z; mnt_opts : list Z;
  mnt_freq : Z; mnt_passno : Z }.

(** [mf_fp] is what is left to read of the file; messages to stderr are not
    modelled. *)
Record mntFILE := mk_mntFILE {
  mf_fp : list Z; mf_lineno : Z; mf_errs : bool; mf_softerrs : Z }.

Definition ERR_MAX : Z := 5.

(** The bytes of a buffer before the first NUL. *)
Fixpoint cstr (l : list Z) : list Z :=
  match l with
  | [] => []
  | c :: l => if c =? 0 then [] else c :: cstr l
  end.

(** ** Writing *)

Definition need_escaping (c : Z) : bool :=
  (c =? SPACE) || (c =? TAB) || (c =? NEWLINE) || (c =? BACKSLASH).

Fixpoint mangle (arg : list Z) : list Z :=
  match arg with
  | [] => []
  | s :: arg =>
      (if need_escaping s
       then [BACKSLASH; ZERO + Z.shiftr (Z.land s 0xc0) 6; ZERO + Z.shiftr (Z.land s 0x38) 3;
             ZERO + Z.land s 7]
       else [s]) ++ mangle arg
  end.

(** The decimal digits of a number below [10 ^ fuel]. *)
Fixpoint digits (fuel : nat) (n : Z) (acc : list Z) : list Z :=
  match fuel with
  | O => acc
  | S fuel => if n <? 10 then ZERO + n :: acc else digits fuel (n / 10) (ZERO + n mod 10 :: acc)
  end.

(** [%d] of an [int]. *)
Definition print_int (n : Z) : list Z :=
  if n <? 0 then MINUS :: digits 10 (- n) [] else digits 10 n [].

(** The line that [nfs_addmntent] prints at the end of the file. *)
Definition mntent_line (mnt : nfs_mntent) : list Z :=
  mangle (mnt_fsname mnt) ++ [SPACE] ++ mangle (mnt_dir mnt) ++ [SPACE] ++
  mangle (mnt_type mnt) ++ [SPACE] ++ mangle (mnt_opts mnt) ++ [SPACE] ++
  print_int (mnt_freq mnt) ++ [SPACE] ++ print_int (mnt_passno mnt) ++ [NEWLINE].

(** [seek] is whether [fseek] succeeds; a failing [fprintf] leaves some part of
    the line in the file. *)
Definition nfs_addmntent (seek : bool) (fails_after : option nat) (mfp : mntFILE) (mnt : nfs_mntent) :
    Z * mntFILE :=
  let append l := mk_mntFILE (mf_fp mfp ++ l) (mf_lineno mfp) (mf_errs mfp) (mf_softerrs mfp) in
  if negb seek then (1, mfp)
  else match fails_after with
  | Some k => (1, append (take k (mntent_line mnt)))
  | None => (0, append (mntent_line mnt))
  end.

(** ** Reading *)

Definition is_space_or_tab (c : Z) : bool := (c =? SPACE) || (c =? TAB).

Fixpoint skip_spaces (s : list Z) : list Z :=
  match s with
  | c :: s' => if is_space_or_tab c then skip_spaces s' else s
  | [] => []
  end.

Fixpoint skip_nonspaces (s : list Z) : list Z :=
  match s with
  | c :: s' => if is_space_or_tab c then s else skip_nonspaces s'
  | [] => []
  end.

(** The bytes [skip_nonspaces] passes over. *)
Fixpoint word (s : list Z) : list Z :=
  match s with
  | c :: s' => if is_space_or_tab c then [] else c :: word s'
  | [] => []
  end.

Definition isoctal (a : Z) : bool := Z.ldiff a 7 =? ZERO.

Fixpoint unescape (s : list Z) : list Z :=
  match s with
  | [] => []
  | c :: s' =>
      match s' with
      | d1 :: d2 :: d3 :: s4 =>
          if (c =? BACKSLASH) && isoctal d1 && isoctal d2 && isoctal d3
          then (64 * Z.land d1 7 + 8 * Z.land d2 7 + Z.land d3 7) mod 256 :: unescape s4
          else c :: unescape s'
      | _ => c :: unescape s'
      end
  end.

Definition unmangle (s : list Z) : list Z := cstr (unescape (word s)).

Definition isdigit (c : Z) : bool := (ZERO <=? c) && (c <=? 57).

(** [strtol] of the digits at the front, cut off at the largest [long], as an
    [int]. *)
Fixpoint strtol_digits (s : list Z) (acc : Z) : Z :=
  match s with
  | c :: s' => if isdigit c then strtol_digits s' (10 * acc + (c - ZERO)) else acc
  | [] => acc
  end.

Definition atoi (s : list Z) : Z := s32 (Z.min (strtol_digits s 0) (2 ^ 63 - 1)).

Fixpoint skip_digits (s : list Z) : list Z :=
  match s with
  | c :: s' => if isdigit c then skip_digits s' else s
  | [] => []
  end.

(** A number that may be missing, and what follows; [None] when that is not a
    space. *)
Definition read_number (s : list Z) : option (Z * list Z) :=
  let '(n, s) := match s with
                 | c :: _ => if isdigit c then (atoi s, skip_digits s) else (0, s)
                 | [] => (0, s)
                 end in
  match s with
  | [] => Some (n, [])
  | c :: _ => if is_space_or_tab c then Some (n, s) else None
  end.

(** A line from its first word on; [None] at [goto err]. *)
Definition parse_line (s : list Z) : option nfs_mntent :=
  let fsname := unmangle s in
  let s := skip_spaces (skip_nonspaces s) in
  let dir := unmangle s in
  let s := skip_spaces (skip_nonspaces s) in
  let type := unmangle s in
  let s := skip_spaces (skip_nonspaces s) in
  let opts := unmangle s in
  let s := skip_spaces (skip_nonspaces s) in
  match read_number s with
  | None => None
  | Some (freq, s) =>
      match read_number (skip_spaces s) with
      | None => None
      | Some (passno, _) => Some (mk_mntent fsname dir type opts freq passno)
      end
  end.

(** [fgets(buf, n + 1, fp)]: the bytes up to the newline, and whether the end of
    the file was met. *)
Fixpoint fgets (n : nat) (fp : list Z) : list Z * list Z * bool :=
  match n, fp with
  | O, _ => ([], fp, false)
  | _, [] => ([], [], true)
  | S n, c :: fp =>
      if c =? NEWLINE then ([c], fp, false)
      else let '(l, fp, eof) := fgets n fp in (c :: l, fp, eof)
  end.

(** The line without its newline (and a carriage return before it); [None] when
    there is no newline and it is not the end of the file. *)
Fixpoint before_newline (s : list Z) : option (list Z) :=
  match s with
  | [] => None
  | c :: s => if c =? NEWLINE then Some [] else (cons c) <$> before_newline s
  end.

Definition chop_return (s : list Z) : list Z :=
  match last s with
  | Some c => if c =? RETURN then removelast s else s
  | None => s
  end.

Definition line_of (buf : list Z) (eof : bool) : option (list Z) :=
  match before_newline (cstr buf) with
  | Some s => Some (chop_return s)
  | None => if eof then Some (chop_return (cstr buf)) else None
  end.

(** The loop; [None] is out of fuel.  An entry, or NULL at the end of the file
    or after too many errors. *)
Fixpoint getmntent_loop (fuel : nat) (mfp : mntFILE) : option (option nfs_mntent * mntFILE) :=
  match fuel with
  | O => None
  | S fuel =>
      if mf_errs mfp || (ERR_MAX <=? mf_softerrs mfp) then Some (None, mfp)
      else
        let '(buf, fp, eof) := fgets 4095 (mf_fp mfp) in
        match buf with
        | [] => Some (None, mk_mntFILE fp (mf_lineno mfp) (mf_errs mfp) (mf_softerrs mfp))
        | _ =>
            let lineno := mf_lineno mfp + 1 in
            match line_of buf eof with
            | None => getmntent_loop fuel (mk_mntFILE fp lineno true (mf_softerrs mfp + 1))
            | Some line =>
                let mfp1 := mk_mntFILE fp lineno (mf_errs mfp) (mf_softerrs mfp) in
                match skip_spaces line with
                | [] => getmntent_loop fuel mfp1
                | c :: s =>
                    if c =? HASH then getmntent_loop fuel mfp1
                    else match parse_line (c :: s) with
                    | Some me => Some (Some me, mfp1)
                    | None => getmntent_loop fuel
                        (mk_mntFILE fp lineno (mf_errs mfp) (mf_softerrs mfp + 1))
                    end
                end
            end
        end
  end.

(** Every round reads a byte, so one more than there are is enough. *)
Definition nfs_getmntent (mfp : mntFILE) : option (option nfs_mntent * mntFILE) :=
  getmntent_loop (S (length (mf_fp mfp))) mfp.
