(* ===== verification/MntentSpec.v ===== *)
(** * Properties of the mount table, with their witnesses

    An entry that is written is the entry that is read, for every name of
    directories and devices (spaces, tabs, newlines and backslashes included)
    that is not empty and does not start with '#'; reading ends on every file. *)

From S2P Require Import Prelude Mntent.

(** ** Escaping *)

(** A byte of a C string. *)
Definition is_char (c : Z) : Prop := 0 < c < 256.

(** Neither NUL nor a character that ends a word or a line. *)
Definition is_plain (c : Z) : Prop :=
  c <> 0 /\ c <> SPACE /\ c <> TAB /\ c <> NEWLINE.

Lemma need_escaping_cases c :
  need_escaping c = true -> c = SPACE \/ c = TAB \/ c = NEWLINE \/ c = BACKSLASH.
Proof.
  unfold need_escaping. intros H. repeat (apply orb_true_iff in H as [H|H]); to_prop; auto.
Qed.

Lemma need_escaping_false c :
  need_escaping c = false -> c <> SPACE /\ c <> TAB /\ c <> NEWLINE /\ c <> BACKSLASH.
Proof. unfold need_escaping. intros H. to_prop. auto. Qed.

Lemma mangle_plain s : Forall is_char s -> Forall is_plain (mangle s).
Proof.
  induction 1 as [|c s Hc _ IH]; [constructor|]. simpl. apply Forall_app. split; [|done].
  destruct (need_escaping c) eqn:He.
  - destruct (need_escaping_cases c He) as [->|[->|[->| ->]]]; repeat constructor; done.
  - apply need_escaping_false in He as (? & ? & ? & _). repeat constructor; unfold is_char in Hc; try done. lia.
Qed.

Lemma unescape_plain c s : c <> BACKSLASH -> unescape (c :: s) = c :: unescape s.
Proof.
  intros Hc. apply Z.eqb_neq in Hc. destruct s as [|d1 [|d2 [|d3 s]]]; try reflexivity.
  cbn [unescape]. by rewrite Hc.
Qed.

Lemma unescape_mangle s : Forall is_char s -> unescape (mangle s) = s.
Proof.
  induction 1 as [|c s Hc _ IH]; [done|]. simpl. destruct (need_escaping c) eqn:He.
  - destruct (need_escaping_cases c He) as [->|[->|[->| ->]]];
      cbn [app unescape]; rewrite IH; reflexivity.
  - apply need_escaping_false in He as (_ & _ & _ & He). simpl app.
    by rewrite unescape_plain, IH.
Qed.

Lemma cstr_chars s : Forall is_char s -> cstr s = s.
Proof.
  induction 1 as [|c s Hc _ IH]; [done|]. simpl. unfold is_char in Hc.
  rewrite (proj2 (Z.eqb_neq c 0)) by lia. by rewrite IH.
Qed.

(** ** Words *)

Lemma plain_no_space c : is_plain c -> is_space_or_tab c = false.
Proof.
  intros (_ & Hs & Ht & _). unfold is_space_or_tab.
  by rewrite (proj2 (Z.eqb_neq _ _) Hs), (proj2 (Z.eqb_neq _ _) Ht).
Qed.

Lemma word_plain l s : Forall is_plain l -> word (l ++ SPACE :: s) = l.
Proof. induction 1 as [|c l Hc _ IH]; [done|]. simpl. by rewrite plain_no_space, IH. Qed.

Lemma skip_nonspaces_plain l s :
  Forall is_plain l -> skip_nonspaces (l ++ SPACE :: s) = SPACE :: s.
Proof. induction 1 as [|c l Hc _ IH]; [done|]. simpl. by rewrite plain_no_space. Qed.

Lemma skip_spaces_plain l s :
  Forall is_plain l -> l <> [] -> skip_spaces (l ++ s) = l ++ s.
Proof. intros [|c l' Hc _] Hne; [done|]. simpl. by rewrite plain_no_space. Qed.

Lemma mangle_nil s : mangle s = [] -> s = [].
Proof. destruct s as [|c s]; [done|]. simpl. by destruct (need_escaping c). Qed.

(** One field at the front of a line. *)
Lemma read_field s rest :
  Forall is_char s -> s <> [] ->
  unmangle (mangle s ++ SPACE :: rest) = s /\
  skip_spaces (skip_nonspaces (mangle s ++ SPACE :: rest)) = skip_spaces rest.
Proof.
  intros Hs Hne. pose proof (mangle_plain s Hs) as Hp. unfold unmangle.
  rewrite word_plain, unescape_mangle, cstr_chars by done. split; [done|].
  by rewrite skip_nonspaces_plain.
Qed.

(** ** Numbers *)

Lemma isdigit_digit d : 0 <= d < 10 -> isdigit (ZERO + d) = true.
Proof. intros Hd. unfold isdigit, ZERO. apply andb_true_iff. split; apply Z.leb_le; lia. Qed.

Lemma digits_app fuel n acc : digits fuel n acc = digits fuel n [] ++ acc.
Proof.
  revert n acc. induction fuel as [|fuel IH]; intros n acc; [done|]. simpl. case_if; [done|].
  rewrite IH, (IH _ [_]), <- app_assoc. done.
Qed.

Lemma digits_are fuel n : 0 <= n -> Forall (fun c => exists d, 0 <= d < 10 /\ c = ZERO + d) (digits fuel n []).
Proof.
  revert n. induction fuel as [|fuel IH]; intros n Hn; [constructor|]. simpl. case_if.
  - repeat constructor. by exists n.
  - rewrite digits_app. apply Forall_app. split; [apply IH, Z.div_pos; lia|].
    repeat constructor. exists (n mod 10). split; [apply Z.mod_pos_bound; lia|done].
Qed.

Lemma digits_nonempty fuel n acc : digits (S fuel) n acc <> [].
Proof.
  revert n acc. induction fuel as [|fuel IH]; intros n acc; cbn [digits]; case_if; try done. apply IH.
Qed.

Lemma strtol_app l s acc :
  Forall (fun c => exists d, 0 <= d < 10 /\ c = ZERO + d) l ->
  strtol_digits (l ++ s) acc = strtol_digits s (strtol_digits l acc).
Proof.
  intros Hl. revert acc. induction Hl as [|c l (d & Hd & ->) _ IH]; intros acc; [done|].
  simpl. rewrite isdigit_digit by done. apply IH.
Qed.

Lemma strtol_print fuel n acc :
  0 <= n < 10 ^ Z.of_nat fuel ->
  exists k, strtol_digits (digits fuel n []) acc = acc * 10 ^ k + n /\ 0 <= k.
Proof.
  revert n acc. induction fuel as [|fuel IH]; intros n acc Hn.
  - exists 0. simpl in *. split; lia.
  - rewrite Nat2Z.inj_succ, Z.pow_succ_r in Hn by lia. simpl. destruct (Z.ltb_spec n 10).
    + exists 1. simpl. rewrite isdigit_digit by lia. unfold ZERO. split; lia.
    + rewrite digits_app, strtol_app by (apply digits_are, Z.div_pos; lia).
      destruct (IH (n / 10) acc) as (k & Hk & Hk0).
      { split; [apply Z.div_pos; lia|apply Z.div_lt_upper_bound; lia]. }
      rewrite Hk. exists (k + 1). simpl. rewrite isdigit_digit by (apply Z.mod_pos_bound; lia).
      split; [|lia]. rewrite Z.pow_add_r by lia. unfold ZERO.
      pose proof (Z.div_mod n 10 ltac:(lia)). lia.
Qed.

Lemma strtol_stop c s acc : isdigit c = false -> strtol_digits (c :: s) acc = acc.
Proof. intros Hc. simpl. by rewrite Hc. Qed.

Lemma atoi_print n s :
  0 <= n < 2 ^ 31 -> atoi (print_int n ++ SPACE :: s) = n /\ atoi (print_int n) = n.
Proof.
  intros Hn. unfold atoi, print_int. rewrite (proj2 (Z.ltb_ge n 0)) by lia.
  rewrite strtol_app by (apply digits_are; lia).
  destruct (strtol_print 10 n 0) as (k & -> & _); [simpl; lia|]. rewrite strtol_stop by done.
  rewrite Z.min_l by lia. rewrite s32_small by lia. lia.
Qed.

Lemma skip_digits_print n s :
  0 <= n -> skip_digits (print_int n ++ s) = skip_digits s.
Proof.
  intros Hn. unfold print_int. rewrite (proj2 (Z.ltb_ge n 0)) by lia.
  induction (digits_are 10 n Hn) as [|c l (d & Hd & ->) _ IH]; [done|].
  simpl. by rewrite isdigit_digit.
Qed.

Lemma print_int_cons n : 0 <= n -> exists d l, 0 <= d < 10 /\ print_int n = ZERO + d :: l.
Proof.
  intros Hn. unfold print_int. rewrite (proj2 (Z.ltb_ge n 0)) by lia.
  pose proof (digits_are 10 n Hn) as Hd. pose proof (digits_nonempty 9 n []) as Hne.
  destruct Hd as [|c l (d & Hd & ->) _]; [done|]. eauto.
Qed.

Lemma print_int_plain n : 0 <= n -> Forall is_plain (print_int n).
Proof.
  intros Hn. unfold print_int. rewrite (proj2 (Z.ltb_ge n 0)) by lia.
  eapply Forall_impl; [by apply digits_are|]. intros c (d & Hd & ->).
  unfold is_plain, ZERO, SPACE, TAB, NEWLINE. lia.
Qed.

Lemma read_number_print n s :
  0 <= n < 2 ^ 31 -> (s = [] \/ exists s', s = SPACE :: s') ->
  read_number (print_int n ++ s) = Some (n, s).
Proof.
  intros Hn Hs. unfold read_number. destruct (print_int_cons n ltac:(lia)) as (d & l & Hd & Hp).
  assert (Ha : atoi (print_int n ++ s) = n).
  { destruct Hs as [->|[s' ->]]; [rewrite app_nil_r; by apply (atoi_print n [])|by apply atoi_print]. }
  assert (Hk : skip_digits (print_int n ++ s) = s).
  { rewrite skip_digits_print by lia. by destruct Hs as [->|[s' ->]]. }
  rewrite Hp in *. cbn [app] in *. cbv iota. rewrite isdigit_digit by done. rewrite Ha, Hk.
  by destruct Hs as [->|[s' ->]].
Qed.

(** ** Lines *)

(** An entry that survives: no field empty, no comment sign at the front, and
    numbers that are not negative. *)
Record mntent_wf (mnt : nfs_mntent) : Prop := {
  wf_fsname : Forall is_char (mnt_fsname mnt) /\ mnt_fsname mnt <> [] /\ head (mnt_fsname mnt) <> Some HASH;
  wf_dir : Forall is_char (mnt_dir mnt) /\ mnt_dir mnt <> [];
  wf_type : Forall is_char (mnt_type mnt) /\ mnt_type mnt <> [];
  wf_opts : Forall is_char (mnt_opts mnt) /\ mnt_opts mnt <> [];
  wf_freq : 0 <= mnt_freq mnt < 2 ^ 31;
  wf_passno : 0 <= mnt_passno mnt < 2 ^ 31 }.

(** The line without its newline. *)
Definition mntent_text (mnt : nfs_mntent) : list Z :=
  mangle (mnt_fsname mnt) ++ SPACE :: mangle (mnt_dir mnt) ++ SPACE ::
  mangle (mnt_type mnt) ++ SPACE :: mangle (mnt_opts mnt) ++ SPACE ::
  print_int (mnt_freq mnt) ++ SPACE :: print_int (mnt_passno mnt).

Lemma mntent_line_text mnt : mntent_line mnt = mntent_text mnt ++ [NEWLINE].
Proof. unfold mntent_line, mntent_text. repeat (rewrite <- !app_assoc; cbn [app]). done. Qed.

Lemma skip_spaces_mangle s rest :
  Forall is_char s -> s <> [] -> skip_spaces (mangle s ++ rest) = mangle s ++ rest.
Proof.
  intros Hs Hne. apply skip_spaces_plain; [by apply mangle_plain|]. intros H. by apply mangle_nil in H.
Qed.

Lemma skip_spaces_print n rest : 0 <= n -> skip_spaces (print_int n ++ rest) = print_int n ++ rest.
Proof.
  intros Hn. apply skip_spaces_plain; [by apply print_int_plain|].
  destruct (print_int_cons n Hn) as (d & l & _ & ->). done.
Qed.

Lemma parse_text mnt : mntent_wf mnt -> parse_line (mntent_text mnt) = Some mnt.
Proof.
  intros [(Hf & Hf0 & _) [Hd Hd0] [Ht Ht0] [Ho Ho0] Hfr Hpa]. unfold parse_line, mntent_text.
  destruct (read_field (mnt_fsname mnt) (mangle (mnt_dir mnt) ++ SPACE ::
    mangle (mnt_type mnt) ++ SPACE :: mangle (mnt_opts mnt) ++ SPACE ::
    print_int (mnt_freq mnt) ++ SPACE :: print_int (mnt_passno mnt)) Hf Hf0) as [-> ->].
  rewrite skip_spaces_mangle by done.
  destruct (read_field (mnt_dir mnt) (mangle (mnt_type mnt) ++ SPACE :: mangle (mnt_opts mnt) ++
    SPACE :: print_int (mnt_freq mnt) ++ SPACE :: print_int (mnt_passno mnt)) Hd Hd0) as [-> ->].
  rewrite skip_spaces_mangle by done.
  destruct (read_field (mnt_type mnt) (mangle (mnt_opts mnt) ++
    SPACE :: print_int (mnt_freq mnt) ++ SPACE :: print_int (mnt_passno mnt)) Ht Ht0) as [-> ->].
  rewrite skip_spaces_mangle by done.
  destruct (read_field (mnt_opts mnt)
    (print_int (mnt_freq mnt) ++ SPACE :: print_int (mnt_passno mnt)) Ho Ho0) as [-> ->].
  rewrite skip_spaces_print by lia. rewrite read_number_print by eauto.
  cbn [skip_spaces]. change (is_space_or_tab SPACE) with true. cbv iota.
  rewrite <- (app_nil_r (print_int (mnt_passno mnt))) at 1.
  rewrite skip_spaces_print by lia. rewrite read_number_print by (done || by left).
  by destruct mnt.
Qed.

(** ** Files *)

Definition is_text (c : Z) : Prop := c <> 0 /\ c <> NEWLINE.

Lemma text_is_text mnt : mntent_wf mnt -> Forall is_text (mntent_text mnt).
Proof.
  assert (Hp : forall l, Forall is_plain l -> Forall is_text l).
  { intros l Hl. eapply Forall_impl; [exact Hl|]. intros c (? & _ & _ & ?). by split. }
  intros [(Hf & _ & _) [Hd _] [Ht _] [Ho _] Hfr Hpa]. unfold mntent_text.
  repeat (apply Forall_app; split; [apply Hp; (by apply mangle_plain) || (apply print_int_plain; lia)|
    constructor; [done|]]).
  apply Hp, print_int_plain. lia.
Qed.

Lemma fgets_line n l rest :
  Forall is_text l -> (length l < n)%nat ->
  fgets n (l ++ NEWLINE :: rest) = (l ++ [NEWLINE], rest, false).
Proof.
  intros Hl. revert n. induction Hl as [|c l [_ Hc] _ IH]; intros [|n] Hn; simpl in *; try lia; [done|].
  rewrite (proj2 (Z.eqb_neq _ _) Hc), IH by lia. done.
Qed.

Lemma cstr_text l : Forall is_text l -> cstr (l ++ [NEWLINE]) = l ++ [NEWLINE].
Proof.
  induction 1 as [|c l [Hc _] _ IH]; [done|]. simpl. by rewrite (proj2 (Z.eqb_neq _ _) Hc), IH.
Qed.

Lemma before_newline_text l : Forall is_text l -> before_newline (l ++ [NEWLINE]) = Some l.
Proof.
  induction 1 as [|c l [_ Hc] _ IH]; [done|]. simpl. by rewrite (proj2 (Z.eqb_neq _ _) Hc), IH.
Qed.

Lemma text_no_return mnt : mntent_wf mnt -> chop_return (mntent_text mnt) = mntent_text mnt.
Proof.
  intros Hwf. unfold chop_return.
  assert (Hl : exists d, 0 <= d < 10 /\ last (mntent_text mnt) = Some (ZERO + d)).
  { pose proof (wf_passno _ Hwf) as Hp. destruct (print_int_cons (mnt_passno mnt)) as (d & l & Hd & He); [lia|].
    unfold mntent_text. rewrite !app_comm_cons, !app_assoc.
    rewrite last_app, last_cons. rewrite He.
    assert (Hall : Forall (fun c => exists d, 0 <= d < 10 /\ c = ZERO + d) (ZERO + d :: l)).
    { rewrite <- He. unfold print_int. rewrite (proj2 (Z.ltb_ge _ 0)) by lia. apply digits_are. lia. }
    destruct (last (ZERO + d :: l)) as [c|] eqn:Hc.
    - apply last_Some_elem_of in Hc. rewrite Forall_forall in Hall. destruct (Hall _ Hc) as (d' & ? & ->). eauto.
    - by apply last_None in Hc. }
  destruct Hl as (d & Hd & ->). rewrite (proj2 (Z.eqb_neq _ _)); [done|].
  unfold ZERO, RETURN. lia.
Qed.

Lemma mangle_head s : head s <> Some HASH -> head (mangle s) <> Some HASH.
Proof. destruct s as [|c s]; [done|]. simpl. by destruct (need_escaping c). Qed.

(** Reading a line that was written. *)
Lemma getmntent_line mnt rest lineno softerrs :
  mntent_wf mnt -> (length (mntent_line mnt) <= 4095)%nat -> softerrs < ERR_MAX ->
  nfs_getmntent (mk_mntFILE (mntent_line mnt ++ rest) lineno false softerrs) =
    Some (Some mnt, mk_mntFILE rest (lineno + 1) false softerrs).
Proof.
  intros Hwf Hlen Hso. unfold nfs_getmntent. cbn [getmntent_loop mf_errs mf_softerrs mf_fp mf_lineno orb].
  rewrite (proj2 (Z.leb_gt _ _) Hso). rewrite mntent_line_text in *.
  rewrite length_app in Hlen. simpl in Hlen. rewrite <- app_assoc. simpl app.
  pose proof (text_is_text mnt Hwf) as Htxt.
  rewrite fgets_line by (done || lia).
  destruct (mntent_text mnt ++ [NEWLINE]) as [|c0 l0] eqn:Hc0; [by destruct (mntent_text mnt)|].
  rewrite <- Hc0. clear c0 l0 Hc0. unfold line_of. rewrite cstr_text, before_newline_text by done.
  rewrite text_no_return by done.
  destruct (wf_fsname _ Hwf) as (Hf & Hf0 & Hh).
  assert (Hskip : skip_spaces (mntent_text mnt) = mntent_text mnt) by (by apply skip_spaces_mangle).
  rewrite Hskip. destruct (mntent_text mnt) as [|c s] eqn:Ht.
  - unfold mntent_text in Ht. apply app_eq_nil in Ht as [_ ?]. done.
  - assert (Hc : c <> HASH).
    { intros ->. apply mangle_head in Hh. apply Hh. unfold mntent_text in Ht.
      destruct (mangle (mnt_fsname mnt)) as [|x l] eqn:Hm; [by apply mangle_nil in Hm|]. simpl in Ht.
      by injection Ht as -> _. }
    rewrite (proj2 (Z.eqb_neq _ _) Hc), <- Ht, parse_text by done. done.
Qed.

(** C27: A well-formed entry that [nfs_addmntent] writes is the entry that
    [nfs_getmntent] reads, with every byte of its names, and the rest of the file is
    left to read.  Well-formed ([mntent_wf]) is an entry with no empty field, with
    numbers that are not negative, and whose device does not start with [#] (that
    one is skipped as a comment, [comment_entry_lost]); its line has at most 4095
    bytes, and fewer than [ERR_MAX] bad lines were met before. *)
Theorem mntent_roundtrip mnt rest lineno softerrs :
  mntent_wf mnt -> (length (mntent_line mnt) <= 4095)%nat -> softerrs < ERR_MAX ->
  nfs_getmntent (mk_mntFILE (mntent_line mnt ++ rest) lineno false softerrs) =
    Some (Some mnt, mk_mntFILE rest (lineno + 1) false softerrs).
Proof. apply getmntent_line. Qed.

(** ** Every file can be read *)

Lemma fgets_length n fp buf fp' eof :
  fgets n fp = (buf, fp', eof) -> (length buf + length fp' = length fp)%nat.
Proof.
  revert fp buf fp' eof. induction n as [|n IH]; intros fp buf fp' eof.
  - intros [= <- <- _]. done.
  - destruct fp as [|c fp]; simpl; [by intros [= <- <- _]|]. case_if; [by intros [= <- <- _]|].
    destruct (fgets n fp) as [[l fp1] e] eqn:Hf. intros [= <- <- _]. simpl.
    specialize (IH _ _ _ _ Hf). lia.
Qed.

Lemma getmntent_loop_total fuel mfp :
  (length (mf_fp mfp) < fuel)%nat -> is_Some (getmntent_loop fuel mfp).
Proof.
  revert mfp. induction fuel as [|fuel IH]; intros mfp Hlen; [lia|]. cbn [getmntent_loop].
  case_if; [by eauto|]. destruct (fgets 4095 (mf_fp mfp)) as [[buf fp] eof] eqn:Hf.
  apply fgets_length in Hf. destruct buf as [|b buf]; [by eauto|]. simpl in Hf.
  assert (Hnext : forall l e s, is_Some (getmntent_loop fuel (mk_mntFILE fp l e s)))
    by (intros; apply IH; simpl; lia).
  destruct (line_of (b :: buf) eof) as [line|]; [|apply Hnext].
  destruct (skip_spaces line) as [|c s]; [apply Hnext|].
  case_if; [apply Hnext|]. destruct (parse_line (c :: s)); [by eauto|apply Hnext].
Qed.

(** An entry that is read is taken off the file. *)
Lemma getmntent_loop_length fuel mfp mnt mfp' :
  getmntent_loop fuel mfp = Some (Some mnt, mfp') -> (length (mf_fp mfp') < length (mf_fp mfp))%nat.
Proof.
  revert mfp. induction fuel as [|fuel IH]; intros mfp; [done|]. cbn [getmntent_loop].
  case_if; [done|]. destruct (fgets 4095 (mf_fp mfp)) as [[buf fp] eof] eqn:Hf.
  apply fgets_length in Hf. destruct buf as [|b buf]; [done|]. simpl in Hf.
  assert (Hnext : forall l e s, getmntent_loop fuel (mk_mntFILE fp l e s) = Some (Some mnt, mfp') ->
    (length (mf_fp mfp') < length (mf_fp mfp))%nat) by (intros l e s Hg; apply IH in Hg; simpl in Hg; lia).
  destruct (line_of (b :: buf) eof) as [line|]; [|apply Hnext].
  destruct (skip_spaces line) as [|c s]; [apply Hnext|].
  case_if; [apply Hnext|]. destruct (parse_line (c :: s)); [|apply Hnext].
  intros [= <- <-]. simpl. lia.
Qed.

(** [nfs_getmntent] returns on every file, whatever it contains (blank
    lines, comments, bad lines, over-long lines, NUL bytes, no final newline). *)
Theorem getmntent_total mfp : exists o mfp', nfs_getmntent mfp = Some (o, mfp').
Proof.
  destruct (getmntent_loop_total (S (length (mf_fp mfp))) mfp) as [[o mfp'] H]; [lia|]. eauto.
Qed.

(** An entry whose device name starts with '#' is written unescaped and
    taken for a comment: it is lost when the file is read back. *)
Theorem comment_entry_lost mnt name lineno softerrs :
  mntent_wf (mk_mntent name (mnt_dir mnt) (mnt_type mnt) (mnt_opts mnt) (mnt_freq mnt) (mnt_passno mnt)) ->
  let lost := mk_mntent (HASH :: name) (mnt_dir mnt) (mnt_type mnt) (mnt_opts mnt)
                (mnt_freq mnt) (mnt_passno mnt) in
  (length (mntent_line lost) <= 4095)%nat -> softerrs < ERR_MAX ->
  nfs_getmntent (mk_mntFILE (mntent_line lost) lineno false softerrs) =
    Some (None, mk_mntFILE [] (lineno + 1) false softerrs).
Proof.
  intros Hwf lost Hlen Hso. pose proof (text_is_text _ Hwf) as Htxt.
  assert (Hl : mntent_line lost = HASH :: mntent_text
    (mk_mntent name (mnt_dir mnt) (mnt_type mnt) (mnt_opts mnt) (mnt_freq mnt) (mnt_passno mnt)) ++ [NEWLINE])
    by apply (mntent_line_text lost).
  set (txt := mntent_text _) in *. rewrite Hl in *. simpl in Hlen.
  rewrite length_app in Hlen. simpl in Hlen.
  assert (Htxt' : Forall is_text (HASH :: txt)) by (by constructor).
  unfold nfs_getmntent. cbn [length mf_fp]. rewrite length_app, Nat.add_comm.
  change (length [NEWLINE]) with 1%nat. cbn [Nat.add getmntent_loop mf_errs mf_softerrs mf_fp mf_lineno orb].
  rewrite (proj2 (Z.leb_gt _ _) Hso).
  change (HASH :: txt ++ [NEWLINE]) with ((HASH :: txt) ++ NEWLINE :: []).
  rewrite fgets_line by (done || (simpl; lia)).
  unfold line_of. rewrite cstr_text, before_newline_text by done. cbn [app].
  assert (Hr : exists t, chop_return (HASH :: txt) = HASH :: t).
  { unfold chop_return. destruct (last (HASH :: txt)); [|eauto]. case_if; [|eauto].
    assert (Hne : txt <> []) by (intros Hx; by apply app_eq_nil in Hx as [_ ?]).
    clearbody txt. destruct txt as [|x l]; [done|]. simpl. eauto. }
  destruct Hr as [t ->]. cbn [skip_spaces].
  change (is_space_or_tab HASH) with false. cbv iota. rewrite Z.eqb_refl.
  cbn [mf_errs mf_softerrs mf_fp mf_lineno orb]. done.
Qed.

(** ** Witnesses *)

(** "host:/my dir" on "/mnt/a b" *)
Definition sample_mnt : nfs_mntent :=
  mk_mntent (bytes_of "host:/my dir") (bytes_of "/mnt/a b") (bytes_of "hsfs") (bytes_of "rw") 0 0.

Definition chars_b (l : list Z) : bool :=
  negb (bool_decide (l = [])) && forallb (fun c => (0 <? c) && (c <? 256)) l.

Lemma chars_b_ok l : chars_b l = true -> Forall is_char l /\ l <> [].
Proof.
  unfold chars_b. intros [Hne Hall]%andb_true_iff. split.
  - apply Forall_forall. intros c Hc. rewrite forallb_forall in Hall.
    specialize (Hall c ltac:(by apply list_elem_of_In)). to_prop. unfold is_char. lia.
  - apply negb_true_iff, bool_decide_eq_false in Hne. done.
Qed.

Lemma sample_mnt_wf : mntent_wf sample_mnt.
Proof.
  constructor.
  - destruct (chars_b_ok (mnt_fsname sample_mnt) eq_refl). split_and!; done.
  - apply chars_b_ok. done.
  - apply chars_b_ok. done.
  - apply chars_b_ok. done.
  - done.
  - done.
Qed.

Lemma mntent_roundtrip_witness :
  nfs_getmntent (mk_mntFILE (mntent_line sample_mnt ++ [HASH]) 0 false 0) =
    Some (Some sample_mnt, mk_mntFILE [HASH] 1 false 0).
Proof.
  apply (mntent_roundtrip sample_mnt [HASH] 0 0).
  - apply sample_mnt_wf.
  - apply Nat.leb_le. vm_compute. reflexivity.
  - reflexivity.
Defined.

Lemma comment_entry_lost_witness :
  nfs_getmntent (mk_mntFILE (mntent_line (mk_mntent (HASH :: mnt_fsname sample_mnt)
    (mnt_dir sample_mnt) (mnt_type sample_mnt) (mnt_opts sample_mnt) 0 0)) 0 false 0) =
    Some (None, mk_mntFILE [] 1 false 0).
Proof.
  apply (comment_entry_lost sample_mnt (mnt_fsname sample_mnt) 0 0).
  - apply sample_mnt_wf.
  - apply Nat.leb_le. vm_compute. reflexivity.
  - reflexivity.
Defined.
