(* ===== verification/Klist.v ===== *)
(** * Linked lists in memory ([include/hsfs/list.h])

    The two kinds of intrusive lists of the Linux kernel, on a memory of 64-bit
    words: the circular [list_head] with its links [next] and [prev], and the
    [hlist] of hash tables, whose head is one word and whose nodes point back to
    the word that points to them.  A structure of two pointers at address [p] is
    the words at [p] and [p + 8]; an access to a word that is not there is
    undefined.  The iterators are functions that run a body on each position. *)

From S2P Require Import Prelude.

Abbreviation mem := (gmap Z Z).

Definition load (a : Z) : M mem Z :=
  fun m => match m !! a with Some v => Ret v m | None => Undef end.

Definition write (a v : Z) : M mem unit :=
  fun m => match m !! a with Some _ => Ret tt (<[a := v]> m) | None => Undef end.

Definition LIST_POISON1 : Z := 0x00100100.
Definition LIST_POISON2 : Z := 0x00200200.

(** [container_of(ptr, type, member)], with the offset of the member. *)
Definition container_of (ptr offset : Z) : Z := ptr - offset.

(** ** Circular lists *)

(** [&p->next] and [&p->prev]. *)
Definition next_at (p : Z) : Z := p.
Definition prev_at (p : Z) : Z := p + 8.

Definition INIT_LIST_HEAD (ptr : Z) : M mem unit :=
  do! write (next_at ptr) ptr in write (prev_at ptr) ptr.

Definition __list_add (new prev next : Z) : M mem unit :=
  do! write (prev_at next) new in
  do! write (next_at new) next in
  do! write (prev_at new) prev in
  write (next_at prev) new.

Definition list_add (new head : Z) : M mem unit :=
  let! next := load (next_at head) in __list_add new head next.

Definition list_add_tail (new head : Z) : M mem unit :=
  let! prev := load (prev_at head) in __list_add new prev head.

Definition __list_del (prev next : Z) : M mem unit :=
  do! write (prev_at next) prev in write (next_at prev) next.

(** [__list_del(entry->prev, entry->next)]. *)
Definition unlink_entry (entry : Z) : M mem unit :=
  let! prev := load (prev_at entry) in
  let! next := load (next_at entry) in
  __list_del prev next.

Definition list_del (entry : Z) : M mem unit :=
  do! unlink_entry entry in
  do! write (next_at entry) LIST_POISON1 in
  write (prev_at entry) LIST_POISON2.

Definition list_del_init (entry : Z) : M mem unit :=
  do! unlink_entry entry in INIT_LIST_HEAD entry.

Definition list_move (list head : Z) : M mem unit :=
  do! unlink_entry list in list_add list head.

Definition list_move_tail (list head : Z) : M mem unit :=
  do! unlink_entry list in list_add_tail list head.

Definition list_empty (head : Z) : M mem bool :=
  let! next := load (next_at head) in ret (next =? head).

Definition __list_splice (list head : Z) : M mem unit :=
  let! first := load (next_at list) in
  let! last := load (prev_at list) in
  let! at_ := load (next_at head) in
  do! write (prev_at first) head in
  do! write (next_at head) first in
  do! write (next_at last) at_ in
  write (prev_at at_) last.

Definition list_splice (list head : Z) : M mem unit :=
  let! empty := list_empty list in
  if (empty : bool) then ret tt else __list_splice list head.

Definition list_splice_init (list head : Z) : M mem unit :=
  let! empty := list_empty list in
  if (empty : bool) then ret tt
  else do! __list_splice list head in INIT_LIST_HEAD list.

(** The iterators from position [pos] to [head]; [link] is [next_at] or
    [prev_at].  The plain one reads the link after the body, the safe one
    before. *)
Fixpoint walk (link : Z -> Z) (fuel : nat) (pos head : Z) (body : Z -> M mem unit) : M mem unit :=
  if pos =? head then ret tt
  else match fuel with
  | O => fun _ => NoFuel
  | S fuel =>
      do! body pos in
      let! pos := load (link pos) in
      walk link fuel pos head body
  end.

Fixpoint walk_safe (link : Z -> Z) (fuel : nat) (pos n head : Z) (body : Z -> M mem unit) :
    M mem unit :=
  if pos =? head then ret tt
  else match fuel with
  | O => fun _ => NoFuel
  | S fuel =>
      do! body pos in
      let! n' := load (link n) in
      walk_safe link fuel n n' head body
  end.

Definition list_for_each (fuel : nat) (head : Z) (body : Z -> M mem unit) : M mem unit :=
  let! pos := load (next_at head) in walk next_at fuel pos head body.

(** The condition of the backward iterator prefetches, that is reads,
    [pos->prev]. *)
Fixpoint walk_prev (fuel : nat) (pos head : Z) (body : Z -> M mem unit) : M mem unit :=
  do! load (prev_at pos) in
  if pos =? head then ret tt
  else match fuel with
  | O => fun _ => NoFuel
  | S fuel =>
      do! body pos in
      let! pos := load (prev_at pos) in
      walk_prev fuel pos head body
  end.

Definition list_for_each_prev (fuel : nat) (head : Z) (body : Z -> M mem unit) : M mem unit :=
  let! pos := load (prev_at head) in walk_prev fuel pos head body.

Definition list_for_each_safe (fuel : nat) (head : Z) (body : Z -> M mem unit) : M mem unit :=
  let! pos := load (next_at head) in
  let! n := load (next_at pos) in
  walk_safe next_at fuel pos n head body.

Definition list_for_each_entry (fuel : nat) (head member : Z) (body : Z -> M mem unit) :
    M mem unit :=
  list_for_each fuel head (fun pos => body (container_of pos member)).

Definition list_for_each_entry_reverse (fuel : nat) (head member : Z) (body : Z -> M mem unit) :
    M mem unit :=
  let! pos := load (prev_at head) in
  walk prev_at fuel pos head (fun pos => body (container_of pos member)).

Definition list_for_each_entry_safe (fuel : nat) (head member : Z) (body : Z -> M mem unit) :
    M mem unit :=
  list_for_each_safe fuel head (fun pos => body (container_of pos member)).

(** From the entry after [pos] on. *)
Definition list_for_each_entry_continue (fuel : nat) (pos head member : Z) (body : Z -> M mem unit) :
    M mem unit :=
  let! pos := load (next_at (pos + member)) in
  walk next_at fuel pos head (fun pos => body (container_of pos member)).

Definition list_for_each_entry_safe_continue (fuel : nat) (pos head member : Z) (body : Z -> M mem unit) :
    M mem unit :=
  let! pos := load (next_at (pos + member)) in
  let! n := load (next_at pos) in
  walk_safe next_at fuel pos n head (fun pos => body (container_of pos member)).

Definition list_for_each_entry_safe_reverse (fuel : nat) (head member : Z) (body : Z -> M mem unit) :
    M mem unit :=
  let! pos := load (prev_at head) in
  let! n := load (prev_at pos) in
  walk_safe prev_at fuel pos n head (fun pos => body (container_of pos member)).

(** ** Lists with a single pointer head *)

(** [&h->first] of a head, [&n->next] and [&n->pprev] of a node. *)
Definition first_at (h : Z) : Z := h.
Definition hnext_at (n : Z) : Z := n.
Definition pprev_at (n : Z) : Z := n + 8.

Definition INIT_HLIST_HEAD (ptr : Z) : M mem unit := write (first_at ptr) 0.

Definition INIT_HLIST_NODE (ptr : Z) : M mem unit :=
  do! write (hnext_at ptr) 0 in write (pprev_at ptr) 0.

Definition hlist_unhashed (h : Z) : M mem bool :=
  let! pprev := load (pprev_at h) in ret (pprev =? 0).

Definition hlist_empty (h : Z) : M mem bool :=
  let! first := load (first_at h) in ret (first =? 0).

Definition __hlist_del (n : Z) : M mem unit :=
  let! next := load (hnext_at n) in
  let! pprev := load (pprev_at n) in
  do! write pprev next in
  if next =? 0 then ret tt else write (pprev_at next) pprev.

Definition hlist_del (n : Z) : M mem unit :=
  do! __hlist_del n in
  do! write (hnext_at n) LIST_POISON1 in
  write (pprev_at n) LIST_POISON2.

Definition hlist_del_init (n : Z) : M mem unit :=
  let! pprev := load (pprev_at n) in
  if pprev =? 0 then ret tt
  else do! __hlist_del n in INIT_HLIST_NODE n.

Definition hlist_add_head (n h : Z) : M mem unit :=
  let! first := load (first_at h) in
  do! write (hnext_at n) first in
  do! (if first =? 0 then ret tt else write (pprev_at first) (hnext_at n)) in
  do! write (first_at h) n in
  write (pprev_at n) (first_at h).

Definition hlist_add_before (n next : Z) : M mem unit :=
  let! pprev := load (pprev_at next) in
  do! write (pprev_at n) pprev in
  do! write (hnext_at n) next in
  do! write (pprev_at next) (hnext_at n) in
  let! pprev := load (pprev_at n) in
  write pprev n.

Definition hlist_add_after (n next : Z) : M mem unit :=
  let! nn := load (hnext_at n) in
  do! write (hnext_at next) nn in
  do! write (hnext_at n) next in
  do! write (pprev_at next) (hnext_at n) in
  let! nn := load (hnext_at next) in
  if nn =? 0 then ret tt else write (pprev_at nn) (hnext_at next).

(** The iterators end at NULL; the body says whether to go on ([break] ends the
    loop), and the result is the position at the end.  The plain one prefetches
    [pos->next]. *)
Fixpoint hwalk (fuel : nat) (pos : Z) (body : Z -> M mem bool) : M mem Z :=
  if pos =? 0 then ret 0
  else match fuel with
  | O => fun _ => NoFuel
  | S fuel =>
      do! load (hnext_at pos) in
      let! go_on := body pos in
      if (go_on : bool) then let! pos := load (hnext_at pos) in hwalk fuel pos body
      else ret pos
  end.

Fixpoint hwalk_safe (fuel : nat) (pos : Z) (body : Z -> M mem bool) : M mem Z :=
  if pos =? 0 then ret 0
  else match fuel with
  | O => fun _ => NoFuel
  | S fuel =>
      let! n := load (hnext_at pos) in
      let! go_on := body pos in
      if (go_on : bool) then hwalk_safe fuel n body else ret pos
  end.

Definition hlist_for_each (fuel : nat) (head : Z) (body : Z -> M mem bool) : M mem Z :=
  let! pos := load (first_at head) in hwalk fuel pos body.

Definition hlist_for_each_safe (fuel : nat) (head : Z) (body : Z -> M mem bool) : M mem Z :=
  let! pos := load (first_at head) in hwalk_safe fuel pos body.

Definition hlist_for_each_entry (fuel : nat) (head member : Z) (body : Z -> M mem bool) :
    M mem Z :=
  hlist_for_each fuel head (fun pos => body (container_of pos member)).

Definition hlist_for_each_entry_continue (fuel : nat) (pos member : Z) (body : Z -> M mem bool) :
    M mem Z :=
  let! pos := load (hnext_at pos) in hwalk fuel pos (fun pos => body (container_of pos member)).

Definition hlist_for_each_entry_from (fuel : nat) (pos member : Z) (body : Z -> M mem bool) :
    M mem Z :=
  hwalk fuel pos (fun pos => body (container_of pos member)).

Definition hlist_for_each_entry_safe (fuel : nat) (head member : Z) (body : Z -> M mem bool) :
    M mem Z :=
  hlist_for_each_safe fuel head (fun pos => body (container_of pos member)).
