(* ===== verification/KlistFacts.v ===== *)
(** * What the list operations do

    A list in memory is a set of links: words with their values.  [ring h l]
    are the links of the circular list with head [h] and entries [l], [chain h
    l] those of the [hlist] with head [h] and nodes [l].  The memory [m] holds a
    list when it agrees with its links ([holds]); the words of different links
    are different, so an operation, which writes a few words, keeps all the
    other links.  Every lemma has a frame: links [F] the operation keeps. *)

From S2P Require Import Prelude Klist.

(** ** Memories and links *)

Abbreviation links := (list (Z * Z)).

Definition holds (m : mem) (L : links) : Prop := Forall (fun p => m !! p.1 = Some p.2) L.

Lemma holds_app m L1 L2 : holds m (L1 ++ L2) <-> holds m L1 /\ holds m L2.
Proof. apply Forall_app. Qed.

Lemma holds_cons m a v L : holds m ((a, v) :: L) <-> m !! a = Some v /\ holds m L.
Proof. unfold holds. by rewrite Forall_cons. Qed.

Lemma holds_insert m a v L : a ∉ L.*1 -> holds m L -> holds (<[a := v]> m) L.
Proof.
  unfold holds. rewrite !Forall_forall. intros Ha HL [b w] Hb. specialize (HL _ Hb). simpl in *.
  rewrite lookup_insert_ne; [done|]. intros ->. apply Ha, list_elem_of_fmap. by exists (b, w).
Qed.

Global Instance holds_perm m : Proper ((≡ₚ) ==> iff) (holds m).
Proof. intros L1 L2 HL. unfold holds. by rewrite HL. Qed.

(** [L] is a set of links of [m] with one value for each word. *)
Definition linked (m : mem) (L : links) : Prop := holds m L /\ NoDup L.*1.

Global Instance linked_perm m : Proper ((≡ₚ) ==> iff) (linked m).
Proof. intros L1 L2 HL. unfold linked. by rewrite HL. Qed.

Lemma linked_lookup m a v L : linked m ((a, v) :: L) -> m !! a = Some v.
Proof. intros [Hh _]. by apply holds_cons in Hh as [? _]. Qed.

(** A word may be overwritten. *)
Lemma linked_write m a v v' L :
  linked m ((a, v) :: L) ->
  write a v' m = Ret tt (<[a := v']> m) /\ linked (<[a := v']> m) ((a, v') :: L).
Proof.
  intros [Hh Hd]. apply holds_cons in Hh as [Ha HL]. apply NoDup_cons in Hd as [Hn Hd].
  unfold write. rewrite Ha. split; [done|]. split; [|by apply NoDup_cons].
  apply holds_cons. split; [apply lookup_insert_eq|by apply holds_insert].
Qed.

Lemma linked_load m a v L : linked m ((a, v) :: L) -> load a m = Ret v m.
Proof. intros H. unfold load. by rewrite (linked_lookup _ _ _ _ H). Qed.

(** ** Running an operation on links

    [runs op L L']: on every memory with the links [L] the operation returns,
    with the links [L']. *)
Definition runs {A} (op : M mem A) (L : links) (a : A) (L' : links) : Prop :=
  forall m, linked m L -> exists m', op m = Ret a m' /\ linked m' L'.

Lemma runs_perm {A} (op : M mem A) L1 L2 a L1' L2' :
  L1 ≡ₚ L2 -> L1' ≡ₚ L2' -> runs op L2 a L2' -> runs op L1 a L1'.
Proof.
  intros H H' Hr m Hm. rewrite H in Hm. destruct (Hr m Hm) as (m' & E & Hm'). exists m'.
  by rewrite H'.
Qed.

Lemma runs_ret {A} (a : A) L : runs (ret a) L a L.
Proof. intros m Hm. by exists m. Qed.

Lemma runs_bind {A B} (op : M mem A) (k : A -> M mem B) L1 a L2 b L3 :
  runs op L1 a L2 -> runs (k a) L2 b L3 -> runs (bind op k) L1 b L3.
Proof.
  intros H1 H2 m Hm. destruct (H1 m Hm) as (m1 & E1 & Hm1). destruct (H2 m1 Hm1) as (m2 & E2 & Hm2).
  exists m2. unfold bind. by rewrite E1.
Qed.

Lemma runs_load a v L : (a, v) ∈ L -> runs (load a) L v L.
Proof.
  intros Hin m Hm. exists m. split; [|done]. destruct Hm as [Hh _].
  unfold holds in Hh. rewrite Forall_forall in Hh. specialize (Hh _ Hin). unfold load. simpl in Hh.
  by rewrite Hh.
Qed.

Lemma runs_write a v v' L : runs (write a v') ((a, v) :: L) tt ((a, v') :: L).
Proof. intros m Hm. destruct (linked_write m a v v' L Hm). eauto. Qed.

Lemma runs_write_in a v v' L R :
  L ≡ₚ (a, v) :: R -> runs (write a v') L tt ((a, v') :: R).
Proof. intros HL. eapply runs_perm; [exact HL|reflexivity|apply runs_write]. Qed.

(** One step of an operation: a read of a link that is there, or a write to one,
    which moves to the front of the links. *)
Ltac other_links a L :=
  lazymatch L with
  | (a, _) :: ?R => constr:(R)
  | ?x :: ?R => let R' := other_links a R in constr:(x :: R')
  end.
Ltac run_load :=
  eapply runs_bind;
  [apply runs_load; rewrite ?elem_of_cons, ?elem_of_app, ?elem_of_cons; tauto|cbv beta].
Ltac run_write :=
  lazymatch goal with
  | |- runs (bind (write ?a ?v) _) ?L _ _ =>
      let R := other_links a L in
      apply (runs_bind _ _ _ tt ((a, v) :: R)); [eapply runs_write_in; solve_Permutation|cbv beta]
  | |- runs (write ?a ?v) ?L _ _ =>
      let R := other_links a L in
      apply (runs_perm _ L L tt _ ((a, v) :: R));
      [reflexivity|solve_Permutation|eapply runs_write_in; solve_Permutation]
  end.
Ltac run_step := first [run_load | run_write].

(** ** Paths *)

(** The links between consecutive entries: forward and back. *)
Fixpoint path (l : list Z) : links :=
  match l with
  | a :: ((b :: _) as l') => (a, b) :: (b + 8, a) :: path l'
  | _ => []
  end.

Lemma path_app l1 a l2 : path (l1 ++ a :: l2) = path (l1 ++ [a]) ++ path (a :: l2).
Proof.
  induction l1 as [|b l1 IH]; [done|]. destruct l1 as [|c l1]; [done|].
  simpl in *. by rewrite IH.
Qed.

Definition ring (h : Z) (l : list Z) : links := path (h :: l ++ [h]).

Fixpoint chain (a : Z) (l : list Z) : links :=
  match l with
  | [] => [(a, 0)]
  | n :: l => (a, n) :: (n + 8, a) :: chain n l
  end.

(** The words of an object of two pointers, whatever their values. *)
Definition object (p x y : Z) : links := [(p, x); (p + 8, y)].

(** ** The operations of circular lists on links *)

Ltac unfold_ops :=
  unfold list_add, list_add_tail, __list_add, unlink_entry, __list_del, INIT_LIST_HEAD,
    hlist_add_head, __hlist_del, INIT_HLIST_NODE, next_at, prev_at, first_at, hnext_at, pprev_at.

Lemma runs_init p x y F : runs (INIT_LIST_HEAD p) (object p x y ++ F) tt (ring p [] ++ F).
Proof. unfold_ops. unfold object, ring. simpl. repeat run_step. Qed.

(** Inserting between two entries that are linked. *)
Lemma runs_list_add new prev next x y F :
  runs (__list_add new prev next) (object new x y ++ path [prev; next] ++ F) tt
    (path [prev; new; next] ++ F).
Proof. unfold_ops. unfold object. simpl. repeat run_step. Qed.

(** Removing one. *)
Lemma runs_unlink prev e next F :
  runs (unlink_entry e) (path [prev; e; next] ++ F) tt
    (object e next prev ++ path [prev; next] ++ F).
Proof. unfold_ops. unfold object. simpl. repeat run_step. Qed.

(** Where the links of a ring are split. *)
Lemma path_two p1 a b p2 :
  path (p1 ++ a :: b :: p2) ≡ₚ path [a; b] ++ path (p1 ++ [a]) ++ path (b :: p2).
Proof. rewrite path_app. simpl. solve_Permutation. Qed.

Lemma path_three p1 a e b p2 :
  path (p1 ++ a :: e :: b :: p2) ≡ₚ path [a; e; b] ++ path (p1 ++ [a]) ++ path (b :: p2).
Proof. rewrite path_app. simpl. solve_Permutation. Qed.

(** A list is what comes before a place and what comes after it. *)
Lemma snoc_cons (a : Z) l : exists p z, a :: l = p ++ [z] /\ (l = [] -> z = a).
Proof.
  destruct (exists_last (l := a :: l)) as (p & z & Hp); [done|]. exists p, z. split; [done|].
  intros ->. destruct p as [|? [|? ?]]; naive_solver.
Qed.

(** The neighbours of a place in a ring. *)
Lemma ring_gap h l1 l2 : exists a b R,
  (forall mid, ring h (l1 ++ mid ++ l2) ≡ₚ path (a :: mid ++ [b]) ++ R) /\
  (l1 = [] -> a = h) /\ (l2 = [] -> b = h).
Proof.
  destruct (snoc_cons h l1) as (p & a & Hp & Ha).
  assert (exists b q, l2 ++ [h] = b :: q /\ (l2 = [] -> b = h)) as (b & q & Hq & Hb)
    by (destruct l2 as [|b l2]; [exists h, []|exists b, (l2 ++ [h])]; naive_solver).
  exists a, b, (path (p ++ [a]) ++ path (b :: q)). split_and!; [|naive_solver|done].
  intros mid. unfold ring. change (h :: (l1 ++ mid ++ l2) ++ [h]) with ((h :: l1 ++ mid ++ l2) ++ [h]).
  replace ((h :: l1 ++ mid ++ l2) ++ [h]) with (p ++ a :: (mid ++ b :: q)).
  2:{ rewrite <- Hq. change (h :: l1 ++ mid ++ l2) with ((h :: l1) ++ mid ++ l2). rewrite Hp.
      by rewrite <- !app_assoc. }
  rewrite path_app. change (a :: mid ++ b :: q) with ((a :: mid) ++ b :: q). rewrite (path_app (a :: mid)).
  solve_Permutation.
Qed.

Lemma runs_add new h l x y F :
  runs (list_add new h) (object new x y ++ ring h l ++ F) tt (ring h (new :: l) ++ F).
Proof.
  destruct (ring_gap h [] l) as (a & b & R & HR & Ha & _). rewrite (Ha eq_refl) in *. clear Ha a.
  pose proof (HR []) as H0. pose proof (HR [new]) as H1. simpl in H0, H1.
  eapply runs_perm; [by rewrite H0|by rewrite H1|]. unfold list_add, next_at.
  eapply runs_bind; [apply (runs_load h b); simpl; rewrite !elem_of_cons; tauto|].
  eapply runs_perm; [| |apply (runs_list_add new h b x y (R ++ F))]; simpl; solve_Permutation.
Qed.

Lemma runs_add_tail new h l x y F :
  runs (list_add_tail new h) (object new x y ++ ring h l ++ F) tt (ring h (l ++ [new]) ++ F).
Proof.
  destruct (ring_gap h l []) as (a & b & R & HR & _ & Hb). rewrite (Hb eq_refl) in *. clear Hb b.
  pose proof (HR []) as H0. pose proof (HR [new]) as H1. simpl in H0, H1.
  rewrite app_nil_r in H0.
  eapply runs_perm; [by rewrite H0|by rewrite H1|]. unfold list_add_tail, prev_at.
  eapply runs_bind; [apply (runs_load (h + 8) a); simpl; rewrite !elem_of_cons; tauto|].
  eapply runs_perm; [| |apply (runs_list_add new a h x y (R ++ F))]; simpl; solve_Permutation.
Qed.

(** What [__list_del] leaves of the entry: its old links. *)
Lemma runs_unlink_ring e h l1 l2 F : exists a b,
  runs (unlink_entry e) (ring h (l1 ++ e :: l2) ++ F) tt (object e b a ++ ring h (l1 ++ l2) ++ F).
Proof.
  destruct (ring_gap h l1 l2) as (a & b & R & HR & _ & _).
  pose proof (HR []) as H0. pose proof (HR [e]) as H1. simpl in H0, H1.
  exists a, b. eapply runs_perm; [by rewrite H1|by rewrite H0|].
  eapply runs_perm; [| |apply (runs_unlink a e b (R ++ F))]; simpl; solve_Permutation.
Qed.

Lemma runs_del e h l1 l2 F :
  runs (list_del e) (ring h (l1 ++ e :: l2) ++ F) tt
    (object e LIST_POISON1 LIST_POISON2 ++ ring h (l1 ++ l2) ++ F).
Proof.
  destruct (runs_unlink_ring e h l1 l2 F) as (a & b & Hu). unfold list_del.
  eapply runs_bind; [exact Hu|]. unfold object, next_at, prev_at. simpl. repeat run_step.
Qed.

Lemma runs_del_init e h l1 l2 F :
  runs (list_del_init e) (ring h (l1 ++ e :: l2) ++ F) tt (ring e [] ++ ring h (l1 ++ l2) ++ F).
Proof.
  destruct (runs_unlink_ring e h l1 l2 F) as (a & b & Hu). unfold list_del_init.
  eapply runs_bind; [exact Hu|]. apply runs_init.
Qed.

(** To another list, and within one. *)
Lemma runs_move e h l1 l2 h' l F :
  runs (list_move e h') (ring h (l1 ++ e :: l2) ++ ring h' l ++ F) tt
    (ring h (l1 ++ l2) ++ ring h' (e :: l) ++ F).
Proof.
  destruct (runs_unlink_ring e h l1 l2 (ring h' l ++ F)) as (a & b & Hu). unfold list_move.
  eapply runs_bind; [exact Hu|].
  eapply runs_perm; [| |apply (runs_add e h' l b a (ring h (l1 ++ l2) ++ F))]; solve_Permutation.
Qed.

Lemma runs_move_same e h l1 l2 F :
  runs (list_move e h) (ring h (l1 ++ e :: l2) ++ F) tt (ring h (e :: l1 ++ l2) ++ F).
Proof.
  destruct (runs_unlink_ring e h l1 l2 F) as (a & b & Hu). unfold list_move.
  eapply runs_bind; [exact Hu|]. apply runs_add.
Qed.

Lemma runs_move_tail e h l1 l2 h' l F :
  runs (list_move_tail e h') (ring h (l1 ++ e :: l2) ++ ring h' l ++ F) tt
    (ring h (l1 ++ l2) ++ ring h' (l ++ [e]) ++ F).
Proof.
  destruct (runs_unlink_ring e h l1 l2 (ring h' l ++ F)) as (a & b & Hu). unfold list_move_tail.
  eapply runs_bind; [exact Hu|].
  eapply runs_perm; [| |apply (runs_add_tail e h' l b a (ring h (l1 ++ l2) ++ F))]; solve_Permutation.
Qed.

Lemma runs_move_tail_same e h l1 l2 F :
  runs (list_move_tail e h) (ring h (l1 ++ e :: l2) ++ F) tt (ring h ((l1 ++ l2) ++ [e]) ++ F).
Proof.
  destruct (runs_unlink_ring e h l1 l2 F) as (a & b & Hu). unfold list_move_tail.
  eapply runs_bind; [exact Hu|]. apply runs_add_tail.
Qed.

(** The first link of a ring, and the two words of a head. *)
Lemma ring_head h l : (h, List.hd h l) ∈ ring h l.
Proof. destruct l; simpl; left. Qed.

Lemma linked_ne m a v b w L : linked m ((a, v) :: (b, w) :: L) -> a <> b.
Proof. intros [_ Hd] ->. simpl in Hd. apply NoDup_cons in Hd as [Hn _]. apply Hn. left. Qed.

Lemma ring_hd_ne m h x l F : linked m (ring h (x :: l) ++ F) -> x <> h.
Proof.
  intros Hm ->. destruct Hm as [_ Hd]. unfold ring in Hd. simpl in Hd.
  destruct (l ++ [h]) as [|y q] eqn:E; [by destruct l|]. simpl in Hd.
  apply NoDup_cons in Hd as [Hn _]. apply Hn. right. left.
Qed.

Lemma runs_empty h l F : runs (list_empty h) (ring h l ++ F) (bool_decide (l = [])) (ring h l ++ F).
Proof.
  intros m Hm. exists m. split; [|done]. unfold list_empty, next_at.
  destruct (runs_load h (List.hd h l) (ring h l ++ F)) with (m := m) as (m' & E & _);
    [apply elem_of_app; left; apply ring_head|done|].
  unfold bind. rewrite E. assert (m' = m) as ->.
  { unfold load in E. destruct (m !! h); congruence. }
  unfold ret. f_equal. destruct l as [|x l]; simpl; [by rewrite Z.eqb_refl|].
  apply Z.eqb_neq. by eapply ring_hd_ne.
Qed.

(** Splicing the entries of [xs] in front of those of [ys]; the head of the
    emptied list keeps its old links. *)
Lemma runs_splice_links lst h x xs ys F : exists p q,
  runs (__list_splice lst h) (ring lst (x :: xs) ++ ring h ys ++ F) tt
    (object lst p q ++ ring h ((x :: xs) ++ ys) ++ F).
Proof.
  destruct (snoc_cons x xs) as (px & z & Hz & _).
  destruct (ring_gap h [] ys) as (a & b & R & HR & Ha & _). rewrite (Ha eq_refl) in *. clear Ha a.
  pose proof (HR []) as H0. pose proof (HR (x :: xs)) as H1. simpl in H0.
  change ([] ++ (x :: xs) ++ ys) with ((x :: xs) ++ ys) in H1.
  assert (Hc : forall c d, path (c :: (x :: xs) ++ [d]) =
    (c, x) :: (x + 8, c) :: path (x :: xs) ++ [(z, d); (d + 8, z)]).
  { intros c d. change (path (c :: (x :: xs) ++ [d])) with
      ((c, x) :: (x + 8, c) :: path ((x :: xs) ++ [d])).
    rewrite Hz, <- app_assoc. simpl. by rewrite (path_app px z [d]). }
  rewrite Hc in H1.
  exists x, z. eapply runs_perm; [unfold ring at 1; rewrite Hc, H0; reflexivity|by rewrite H1|].
  eapply (runs_perm _ _ ((lst, x) :: (x + 8, lst) :: (z, lst) :: (lst + 8, z) :: (h, b) :: (b + 8, h) ::
    path (x :: xs) ++ R ++ F)); [simpl; solve_Permutation|reflexivity|].
  unfold __list_splice, next_at, prev_at. unfold object. do 3 run_load. repeat run_write.
Qed.

(** A list that is not empty is spliced, an empty one is left alone. *)
Lemma runs_splice lst h xs ys F : exists p q,
  runs (list_splice lst h) (ring lst xs ++ ring h ys ++ F) tt
    ((if decide (xs = []) then ring lst [] else object lst p q) ++ ring h (xs ++ ys) ++ F).
Proof.
  destruct xs as [|x xs].
  - exists 0, 0. eapply runs_bind; [apply (runs_empty lst [])|]. apply runs_ret.
  - destruct (runs_splice_links lst h x xs ys F) as (p & q & Hs). exists p, q.
    eapply runs_bind; [apply (runs_empty lst (x :: xs))|]. exact Hs.
Qed.

Lemma runs_splice_init lst h xs ys F :
  runs (list_splice_init lst h) (ring lst xs ++ ring h ys ++ F) tt
    (ring lst [] ++ ring h (xs ++ ys) ++ F).
Proof.
  destruct xs as [|x xs].
  - eapply runs_bind; [apply (runs_empty lst [])|]. apply runs_ret.
  - destruct (runs_splice_links lst h x xs ys F) as (p & q & Hs).
    eapply runs_bind; [apply (runs_empty lst (x :: xs))|]. simpl.
    eapply runs_bind; [exact Hs|]. apply runs_init.
Qed.

Local Arguments ring : simpl never.

(** ** Iterating

    [F i] are the links that the first [i] rounds of the body have made of
    [F 0]: the body runs once for each entry, in order. *)

Lemma path_words a l b : (path (a :: l ++ [b])).*1 ≡ₚ (a :: l) ++ ((fun x => x + 8) <$> l ++ [b]).
Proof.
  revert a. induction l as [|x l IH]; intros a; [done|].
  change (path (a :: (x :: l) ++ [b])) with ((a, x) :: (x + 8, a) :: path (x :: l ++ [b])).
  rewrite !fmap_cons, IH. simpl. solve_Permutation.
Qed.

Lemma ring_words h l : (ring h l).*1 ≡ₚ (h :: l) ++ ((fun x => x + 8) <$> h :: l).
Proof.
  unfold ring. rewrite path_words, fmap_app. simpl. solve_Permutation.
Qed.

Lemma linked_app_l m L F : linked m (L ++ F) -> linked m L.
Proof.
  intros [Hh Hd]. apply holds_app in Hh as [? _]. rewrite fmap_app in Hd.
  apply NoDup_app in Hd as (? & _). done.
Qed.

(** The entries of a ring are different from each other and from the head. *)
Lemma ring_NoDup m h l F : linked m (ring h l ++ F) -> NoDup (h :: l).
Proof.
  intros Hm%linked_app_l. destruct Hm as [_ Hd]. rewrite ring_words in Hd.
  by apply NoDup_app in Hd as (? & _).
Qed.

(** The links before an entry and after it. *)
Lemma ring_split h l1 e l2 :
  ring h (l1 ++ e :: l2) = path ((h :: l1) ++ [e]) ++ path (e :: l2 ++ [h]).
Proof. unfold ring. rewrite <- path_app. f_equal. simpl. by rewrite <- app_assoc. Qed.

Lemma ring_next h l1 e l2 : (e, List.hd h l2) ∈ ring h (l1 ++ e :: l2).
Proof.
  rewrite ring_split. apply elem_of_app. right. destruct l2; left.
Qed.

Lemma ring_prev h l1 e l2 : (e + 8, List.last l1 h) ∈ ring h (l1 ++ e :: l2).
Proof.
  destruct l1 as [|x l1 _] using rev_ind.
  - unfold ring. simpl. right. left.
  - rewrite last_last, <- app_assoc. change ([x] ++ e :: l2) with (x :: e :: l2).
    rewrite ring_split. apply elem_of_app. right. right. left.
Qed.

Lemma ring_tail h l : (h + 8, List.last l h) ∈ ring h l.
Proof.
  destruct l as [|x l _] using rev_ind; [right; left|].
  rewrite last_last, ring_split. apply elem_of_app. right. right. left.
Qed.

(** [runs] may look at the links to decide something. *)
Lemma runs_assume {A} (op : M mem A) L a L' :
  (forall m, linked m L -> runs op L a L') -> runs op L a L'.
Proof. intros H m Hm. by apply (H m). Qed.

Lemma runs_walk h l1 l2 (F : nat -> links) body fuel :
  (forall i e, (l1 ++ l2) !! i = Some e ->
     runs (body e) (ring h (l1 ++ l2) ++ F i) tt (ring h (l1 ++ l2) ++ F (S i))) ->
  (length l2 <= fuel)%nat ->
  runs (walk next_at fuel (List.hd h l2) h body) (ring h (l1 ++ l2) ++ F (length l1)) tt
    (ring h (l1 ++ l2) ++ F (length (l1 ++ l2))).
Proof.
  revert l1 fuel. induction l2 as [|e l2 IH]; intros l1 fuel Hb Hf.
  - simpl. rewrite app_nil_r. destruct fuel; simpl; rewrite Z.eqb_refl; apply runs_ret.
  - destruct fuel as [|fuel]; [simpl in Hf; lia|]. simpl in Hf.
    apply runs_assume. intros m Hm. apply ring_NoDup in Hm. apply NoDup_cons in Hm as [Hh _].
    simpl. rewrite (proj2 (Z.eqb_neq _ _)) by (intros ->; apply Hh, elem_of_app; right; left).
    eapply runs_bind; [apply Hb, list_lookup_middle; done|].
    eapply runs_bind; [apply runs_load, elem_of_app; left; apply ring_next|].
    specialize (IH (l1 ++ [e]) fuel). rewrite <- app_assoc, length_app, Nat.add_1_r in IH.
    apply IH; [done|lia].
Qed.

Lemma runs_walk_prev h l1 l2 (F : nat -> links) body fuel :
  (forall i e, rev (l1 ++ l2) !! i = Some e ->
     runs (body e) (ring h (l1 ++ l2) ++ F i) tt (ring h (l1 ++ l2) ++ F (S i))) ->
  (length l1 <= fuel)%nat ->
  runs (walk_prev fuel (List.last l1 h) h body) (ring h (l1 ++ l2) ++ F (length l2)) tt
    (ring h (l1 ++ l2) ++ F (length (l1 ++ l2))).
Proof.
  revert l2 fuel. induction l1 as [|e l1 IH] using rev_ind; intros l2 fuel Hb Hf.
  - simpl. destruct fuel; simpl; (eapply runs_bind;
      [apply runs_load, elem_of_app; left; apply ring_tail|]); rewrite Z.eqb_refl; apply runs_ret.
  - rewrite length_app, Nat.add_1_r in Hf. destruct fuel as [|fuel]; [lia|].
    rewrite last_last in *. rewrite <- app_assoc in *. change ([e] ++ l2) with (e :: l2) in *.
    apply runs_assume. intros m Hm. apply ring_NoDup in Hm. apply NoDup_cons in Hm as [Hh _].
    simpl. eapply runs_bind; [apply runs_load, elem_of_app; left; apply ring_prev|].
    rewrite (proj2 (Z.eqb_neq _ _)) by (intros ->; apply Hh, elem_of_app; right; left).
    eapply runs_bind; [apply Hb|].
    { rewrite rev_app_distr. simpl. rewrite <- app_assoc, <- length_rev. by apply list_lookup_middle. }
    eapply runs_bind; [apply runs_load, elem_of_app; left; apply ring_prev|].
    apply (IH (e :: l2) fuel); [done|lia].
Qed.

(** The safe iterator lets the body take the entry off the list. *)
Lemma runs_walk_safe h l (F : nat -> links) body k fuel :
  (forall i e l', drop i l = e :: l' ->
     runs (body e) (ring h (e :: l') ++ F (k + i)%nat) tt (ring h l' ++ F (S (k + i)))) ->
  (length l <= fuel)%nat ->
  runs (walk_safe next_at fuel (List.hd h l) (List.hd h (tail (l ++ [h]))) h body)
    (ring h l ++ F k) tt (ring h [] ++ F (k + length l)%nat).
Proof.
  revert k fuel. induction l as [|e l IH]; intros k fuel Hb Hf.
  - rewrite Nat.add_0_r. destruct fuel; simpl; rewrite Z.eqb_refl; apply runs_ret.
  - destruct fuel as [|fuel]; [simpl in Hf; lia|]. simpl in Hf.
    apply runs_assume. intros m Hm. apply ring_NoDup in Hm. apply NoDup_cons in Hm as [Hh _].
    simpl. rewrite (proj2 (Z.eqb_neq _ _)) by (intros ->; apply Hh; left).
    pose proof (Hb 0%nat e l eq_refl) as Hb0. rewrite Nat.add_0_r in Hb0.
    eapply runs_bind; [exact Hb0|].
    assert (Hn : List.hd h (l ++ [h]) = List.hd h l) by by destruct l.
    rewrite Hn. eapply runs_bind.
    { apply (runs_load _ (List.hd h (tail (l ++ [h])))), elem_of_app. left.
      destruct l as [|x l]; [apply (ring_head h [])|]. simpl.
      replace (List.hd h (l ++ [h])) with (List.hd h l) by by destruct l.
      apply (ring_next h [] x l). }
    replace (k + S (length l))%nat with (S k + length l)%nat by lia.
    apply IH; [|lia]. intros i e' l' Hd. replace (S k + i)%nat with (k + S i)%nat by lia.
    by apply Hb.
Qed.

(** The loops from the head. *)
Lemma runs_for_each h l (F : nat -> links) body :
  (forall i e, l !! i = Some e -> runs (body e) (ring h l ++ F i) tt (ring h l ++ F (S i))) ->
  runs (list_for_each (length l) h body) (ring h l ++ F 0%nat) tt (ring h l ++ F (length l)).
Proof.
  intros Hb. eapply runs_bind; [apply runs_load, elem_of_app; left; apply ring_head|].
  by apply (runs_walk h [] l F).
Qed.

Lemma runs_for_each_prev h l (F : nat -> links) body :
  (forall i e, rev l !! i = Some e -> runs (body e) (ring h l ++ F i) tt (ring h l ++ F (S i))) ->
  runs (list_for_each_prev (length l) h body) (ring h l ++ F 0%nat) tt (ring h l ++ F (length l)).
Proof.
  intros Hb. eapply runs_bind; [apply runs_load, elem_of_app; left; apply ring_tail|].
  pose proof (runs_walk_prev h l [] F body (length l)) as Hw. rewrite app_nil_r in Hw. by apply Hw.
Qed.

Lemma runs_for_each_safe h l (F : nat -> links) body :
  (forall i e l', drop i l = e :: l' ->
     runs (body e) (ring h (e :: l') ++ F i) tt (ring h l' ++ F (S i))) ->
  runs (list_for_each_safe (length l) h body) (ring h l ++ F 0%nat) tt (ring h [] ++ F (length l)).
Proof.
  intros Hb. eapply runs_bind; [apply runs_load, elem_of_app; left; apply ring_head|].
  eapply runs_bind; [|by apply (runs_walk_safe h l F body 0 (length l))].
  apply runs_load, elem_of_app. left. destruct l as [|x l]; [apply (ring_head h [])|]. simpl.
  replace (List.hd h (l ++ [h])) with (List.hd h l) by by destruct l.
  apply (ring_next h [] x l).
Qed.

(** ** Lists with a single pointer head *)

Local Arguments chain : simpl nomatch.

Lemma chain_app a l1 l2 : chain a (l1 ++ l2) = path (a :: l1) ++ chain (List.last l1 a) l2.
Proof.
  revert a. induction l1 as [|n l1 IH]; intros a; [done|].
  change (chain a ((n :: l1) ++ l2)) with ((a, n) :: (n + 8, a) :: chain n (l1 ++ l2)).
  by rewrite IH, last_cons_hd.
Qed.

Lemma runs_hadd n h l x y F :
  0 ∉ l -> runs (hlist_add_head n h) (object n x y ++ chain h l ++ F) tt (chain h (n :: l) ++ F).
Proof.
  intros Hz. unfold_ops. unfold object. destruct l as [|b l]; simpl.
  - run_load. run_write. rewrite Z.eqb_refl. eapply runs_bind; [apply runs_ret|]. repeat run_write.
  - run_load. run_write.
    rewrite (proj2 (Z.eqb_neq _ _)) by (intros ->; apply Hz; left). repeat run_write.
Qed.

(** What [__hlist_del] leaves of the node: its old links. *)
Lemma runs_hunlink n h l1 l2 F :
  0 ∉ l2 -> exists b,
  runs (__hlist_del n) (chain h (l1 ++ n :: l2) ++ F) tt
    (object n b (List.last l1 h) ++ chain h (l1 ++ l2) ++ F).
Proof.
  intros Hz. rewrite !chain_app. set (a := List.last l1 h). unfold_ops. unfold object.
  destruct l2 as [|b l2]; [exists 0|exists b].
  - eapply (runs_perm _ _ ((a, n) :: (n + 8, a) :: (n, 0) :: path (h :: l1) ++ F) tt _
      ((n, 0) :: (n + 8, a) :: (a, 0) :: path (h :: l1) ++ F));
      [simpl (chain _ _); solve_Permutation..|].
    run_load. run_load. run_write. rewrite Z.eqb_refl.
    eapply runs_perm; [reflexivity| |apply runs_ret]; solve_Permutation.
  - eapply (runs_perm _ _ ((a, n) :: (n + 8, a) :: (n, b) :: (b + 8, n) :: path (h :: l1) ++ chain b l2 ++ F) tt _
      ((n, b) :: (n + 8, a) :: (a, b) :: (b + 8, a) :: path (h :: l1) ++ chain b l2 ++ F));
      [simpl (chain _ _); solve_Permutation..|].
    run_load. run_load. run_write.
    rewrite (proj2 (Z.eqb_neq _ _)) by (intros ->; apply Hz; left). run_write.
Qed.

Lemma runs_hdel n h l1 l2 F :
  0 ∉ l2 ->
  runs (hlist_del n) (chain h (l1 ++ n :: l2) ++ F) tt
    (object n LIST_POISON1 LIST_POISON2 ++ chain h (l1 ++ l2) ++ F).
Proof.
  intros Hz. destruct (runs_hunlink n h l1 l2 F Hz) as [b Hu]. unfold hlist_del.
  eapply runs_bind; [exact Hu|]. unfold object, hnext_at, pprev_at. simpl. repeat run_step.
Qed.

(** The back link of a node is a word, and so not NULL, when no word has the
    address 0. *)
Lemma chain_pprev a l1 n l2 : (n + 8, List.last l1 a) ∈ chain a (l1 ++ n :: l2).
Proof. rewrite chain_app. apply elem_of_app. right. right. left. Qed.

Lemma chain_next a l1 n l2 : (n, List.hd 0 l2) ∈ chain a (l1 ++ n :: l2).
Proof.
  rewrite chain_app. apply elem_of_app. right. do 2 right. destruct l2; left.
Qed.

Lemma chain_first a l : (a, List.hd 0 l) ∈ chain a l.
Proof. destruct l; left. Qed.

Lemma runs_hdel_init n h l1 l2 F :
  h <> 0 -> 0 ∉ l1 -> 0 ∉ l2 ->
  runs (hlist_del_init n) (chain h (l1 ++ n :: l2) ++ F) tt
    (object n 0 0 ++ chain h (l1 ++ l2) ++ F).
Proof.
  intros Hh Hz1 Hz. destruct (runs_hunlink n h l1 l2 F Hz) as [b Hu]. unfold hlist_del_init.
  eapply runs_bind; [apply runs_load, elem_of_app; left; apply chain_pprev|].
  rewrite (proj2 (Z.eqb_neq _ _)).
  2:{ intros E. pose proof (last_in h l1) as Hl. rewrite E in Hl. apply elem_of_cons in Hl as [|]; naive_solver. }
  eapply runs_bind; [exact Hu|]. unfold INIT_HLIST_NODE, object, hnext_at, pprev_at. simpl. repeat run_step.
Qed.

(** A node that is not on a list is left alone. *)
Lemma runs_hdel_init_unhashed n x F :
  runs (hlist_del_init n) (object n x 0 ++ F) tt (object n x 0 ++ F).
Proof.
  unfold hlist_del_init. eapply runs_bind; [apply (runs_load _ 0); right; left|]. apply runs_ret.
Qed.

Lemma runs_hadd_before n next h l1 l2 x y F :
  runs (hlist_add_before n next) (object n x y ++ chain h (l1 ++ next :: l2) ++ F) tt
    (chain h (l1 ++ n :: next :: l2) ++ F).
Proof.
  rewrite !chain_app. set (a := List.last l1 h). unfold hlist_add_before, hnext_at, pprev_at, object.
  eapply (runs_perm _ _ ((n, x) :: (n + 8, y) :: (a, next) :: (next + 8, a) ::
    path (h :: l1) ++ chain next l2 ++ F) tt _
    ((a, n) :: (n + 8, a) :: (n, next) :: (next + 8, n) :: path (h :: l1) ++ chain next l2 ++ F));
    [simpl (chain _ _); solve_Permutation..|].
  repeat run_step.
Qed.

Lemma runs_hadd_after n next h l1 l2 x y F :
  0 ∉ l2 ->
  runs (hlist_add_after n next) (object next x y ++ chain h (l1 ++ n :: l2) ++ F) tt
    (chain h (l1 ++ n :: next :: l2) ++ F).
Proof.
  intros Hz. rewrite !chain_app. set (a := List.last l1 h).
  unfold hlist_add_after, hnext_at, pprev_at, object.
  destruct l2 as [|b l2].
  - eapply (runs_perm _ _ ((next, x) :: (next + 8, y) :: (n, 0) :: (a, n) :: (n + 8, a) ::
      path (h :: l1) ++ F) tt _
      ((a, n) :: (n + 8, a) :: (n, next) :: (next + 8, n) :: (next, 0) :: path (h :: l1) ++ F));
      [simpl (chain _ _); solve_Permutation..|].
    do 5 run_step. rewrite Z.eqb_refl.
    eapply runs_perm; [reflexivity| |apply runs_ret]; solve_Permutation.
  - eapply (runs_perm _ _ ((next, x) :: (next + 8, y) :: (n, b) :: (b + 8, n) :: (a, n) :: (n + 8, a) ::
      path (h :: l1) ++ chain b l2 ++ F) tt _
      ((a, n) :: (n + 8, a) :: (n, next) :: (next + 8, n) :: (next, b) :: (b + 8, next) ::
      path (h :: l1) ++ chain b l2 ++ F));
      [simpl (chain _ _); solve_Permutation..|].
    do 5 run_step. rewrite (proj2 (Z.eqb_neq _ _)) by (intros ->; apply Hz; left). run_write.
Qed.

(** A search: the body stops at the first node that passes the test. *)
Lemma runs_hwalk a l1 l2 (t : Z -> bool) body F fuel :
  0 ∉ l2 -> (length l2 <= fuel)%nat ->
  (forall e, e ∈ l2 -> runs (body e) (chain a (l1 ++ l2) ++ F) (negb (t e)) (chain a (l1 ++ l2) ++ F)) ->
  runs (hwalk fuel (List.hd 0 l2) body) (chain a (l1 ++ l2) ++ F)
    (default 0 (List.find t l2)) (chain a (l1 ++ l2) ++ F).
Proof.
  revert l1 fuel. induction l2 as [|e l2 IH]; intros l1 fuel Hz Hf Hb.
  - destruct fuel; apply runs_ret.
  - destruct fuel as [|fuel]; [simpl in Hf; lia|]. simpl in Hf. simpl List.hd.
    apply not_elem_of_cons in Hz as [Hz0 Hz]. simpl hwalk.
    rewrite (proj2 (Z.eqb_neq _ _)) by done.
    eapply runs_bind; [apply runs_load, elem_of_app; left; apply chain_next|].
    eapply runs_bind; [apply Hb; left|]. simpl List.find. destruct (t e); simpl; [apply runs_ret|].
    eapply runs_bind; [apply runs_load, elem_of_app; left; apply chain_next|].
    replace (l1 ++ e :: l2) with ((l1 ++ [e]) ++ l2) in * by by rewrite <- app_assoc.
    apply IH; [done|lia|]. intros e' He'. apply Hb. by right.
Qed.

Lemma runs_hempty a l F :
  0 ∉ l -> runs (hlist_empty a) (chain a l ++ F) (bool_decide (l = [])) (chain a l ++ F).
Proof.
  intros Hz. unfold hlist_empty. eapply runs_bind; [apply runs_load, elem_of_app; left; apply chain_first|].
  destruct l as [|x l]; [apply runs_ret|]. simpl.
  rewrite (proj2 (Z.eqb_neq _ _)) by (intros ->; apply Hz; left). apply runs_ret.
Qed.

(** A safe walk may unlink the node it is at. *)
Lemma runs_hwalk_del a l F fuel body :
  0 ∉ l -> (length l <= fuel)%nat ->
  (forall n l' G, 0 ∉ l' -> runs (body n) (chain a (n :: l') ++ G) true (object n 0 0 ++ chain a l' ++ G)) ->
  runs (hwalk_safe fuel (List.hd 0 l) body) (chain a l ++ F) 0
    (chain a [] ++ concat ((fun n => object n 0 0) <$> l) ++ F).
Proof.
  intros Hz Hf Hb. revert F fuel Hz Hf. induction l as [|n l IH]; intros F fuel Hz Hf.
  - destruct fuel; apply runs_ret.
  - destruct fuel as [|fuel]; [simpl in Hf; lia|]. simpl in Hf. simpl List.hd.
    apply not_elem_of_cons in Hz as [Hz0 Hz]. simpl hwalk_safe.
    rewrite (proj2 (Z.eqb_neq _ _)) by done.
    eapply runs_bind; [apply runs_load, elem_of_app; left; apply (chain_next a [])|].
    eapply runs_bind; [by apply Hb|]. simpl.
    eapply runs_perm; [| |apply (IH (object n 0 0 ++ F) fuel Hz); lia]; solve_Permutation.
Qed.
