(* ===== verification/HashPtr.v ===== *)
(** * The hash table in memory ([include/hsfs/hashtable.h])

    A table is an array of [hlist] heads: bucket [i] is the word at
    [t + 8 * i].  The object [p] is linked by its member at offset [member].
    The operations refine those of [Hash], where a bucket is the list of the
    objects it links. *)

From S2P Require Import Prelude Bitops Hash Klist KlistFacts.

(** [&ht[i]] and [&p->member]. *)
Definition bucket_at (t : Z) (i : nat) : Z := t + 8 * Z.of_nat i.
Definition node_of (member p : Z) : Z := p + member.

Fixpoint ht_init_from (t : Z) (i : nat) (n : nat) : M mem unit :=
  match n with
  | O => ret tt
  | S n => do! INIT_HLIST_HEAD (bucket_at t i) in ht_init_from t (S i) n
  end.
Definition ht_init (t : Z) (sz : nat) : M mem unit := ht_init_from t 0 sz.

(** The bucket of a key in a table of [sz] buckets. *)
Definition ht_bucket (sz : nat) (key : Z) : nat := bucket_of (replicate sz []) key.

Definition ht_add (t : Z) (sz : nat) (node key : Z) : M mem unit :=
  hlist_add_head node (bucket_at t (ht_bucket sz key)).

Definition ht_hashed (node : Z) : M mem bool :=
  let! b := hlist_unhashed node in ret (negb b).

Definition ht_del (node : Z) : M mem unit := hlist_del_init node.

Fixpoint ht_empty_from (t : Z) (i n : nat) : M mem bool :=
  match n with
  | O => ret true
  | S n =>
      let! e := hlist_empty (bucket_at t i) in
      if (e : bool) then ht_empty_from t (S i) n else ret false
  end.
Definition ht_empty (t : Z) (sz : nat) : M mem bool := ht_empty_from t 0 sz.

(** [hash_for_each_possible]: the position at the end of the loop; the body gets
    the object. *)
Definition ht_for_each_possible (fuel : nat) (t : Z) (sz : nat) (member key : Z)
    (body : Z -> M mem bool) : M mem Z :=
  hlist_for_each_entry fuel (bucket_at t (ht_bucket sz key)) member body.

(** [hash_for_each] and [hash_for_each_safe]: the outer loop goes on while the
    inner one has run to its end. *)
Fixpoint ht_for_each_from (loop : Z -> M mem Z) (t : Z) (i n : nat) : M mem Z :=
  match n with
  | O => ret 0
  | S n =>
      let! node := loop (bucket_at t i) in
      if node =? 0 then ht_for_each_from loop t (S i) n else ret node
  end.

Definition ht_for_each (fuel : nat) (t : Z) (sz : nat) (member : Z) (body : Z -> M mem bool) : M mem Z :=
  ht_for_each_from (fun h => hlist_for_each_entry fuel h member body) t 0 sz.

Definition ht_for_each_safe (fuel : nat) (t : Z) (sz : nat) (member : Z) (body : Z -> M mem bool) :
    M mem Z :=
  ht_for_each_from (fun h => hlist_for_each_entry_safe fuel h member body) t 0 sz.

Definition ht_for_each_possible_safe (fuel : nat) (t : Z) (sz : nat) (member key : Z)
    (body : Z -> M mem bool) : M mem Z :=
  hlist_for_each_entry_safe fuel (bucket_at t (ht_bucket sz key)) member body.

(** ** The links of a table *)

Definition bucket_links (t member : Z) (i : nat) (b : list Z) : links :=
  chain (bucket_at t i) (node_of member <$> b).

Definition table_links (t member : Z) (ht : hashtable) : links :=
  concat (imap (bucket_links t member) ht).

(** No head and no node is at the address 0. *)
Definition placed (t member : Z) (ht : hashtable) : Prop :=
  0 < t /\ forall p, p ∈ hash_nodes ht -> node_of member p <> 0.

Lemma table_links_split t member ht i b :
  ht !! i = Some b -> exists F, forall b',
    table_links t member (<[i := b']> ht) ≡ₚ bucket_links t member i b' ++ F.
Proof.
  intros Hi. exists (concat (imap (bucket_links t member) (take i ht)) ++
    concat (imap (fun j => bucket_links t member (S i + j)%nat) (drop (S i) ht))).
  intros b'. assert (Hl : (i < length ht)%nat) by by eapply lookup_lt_Some.
  rewrite insert_take_drop by done. unfold table_links. rewrite imap_app, concat_app. simpl.
  rewrite length_take_le, Nat.add_0_r by lia.
  replace (imap _ (drop (S i) ht)) with
    (imap (fun j => bucket_links t member (S i + j)%nat) (drop (S i) ht)); [solve_Permutation|].
  apply imap_ext. intros j x _. simpl. f_equal. lia.
Qed.

Lemma table_bucket t member ht i b :
  ht !! i = Some b -> exists F,
    table_links t member ht ≡ₚ bucket_links t member i b ++ F /\
    forall b', table_links t member (<[i := b']> ht) ≡ₚ bucket_links t member i b' ++ F.
Proof.
  intros Hi. destruct (table_links_split t member ht i b Hi) as [F HF]. exists F. split; [|done].
  rewrite <- (HF b). by rewrite list_insert_id.
Qed.

Lemma placed_bucket t member ht i b :
  placed t member ht -> ht !! i = Some b -> 0 ∉ node_of member <$> b.
Proof.
  intros [_ Hp] Hi (p & Hz & Hin)%list_elem_of_fmap. apply (Hp p); [|done].
  apply elem_of_hash_nodes. eauto.
Qed.

Lemma ht_bucket_eq sz ht key : length ht = sz -> ht_bucket sz key = bucket_of ht key.
Proof. intros <-. unfold ht_bucket, bucket_of, HASH_BITS. by rewrite length_replicate. Qed.

Lemma alter_insert (ht : hashtable) f i b : ht !! i = Some b -> alter f i ht = <[i := f b]> ht.
Proof.
  intros Hi. apply list_eq. intros j. destruct (decide (i = j)) as [<-|Hne].
  - rewrite list_lookup_alter_eq, Hi, list_lookup_insert_eq; [done|by eapply lookup_lt_Some].
  - by rewrite list_lookup_alter_ne, list_lookup_insert_ne.
Qed.

(** The words of a chain: the head, and both words of every node. *)
Lemma chain_words a l : (chain a l).*1 ≡ₚ a :: l ++ ((fun x => x + 8) <$> l).
Proof.
  revert a. induction l as [|n l IH]; intros a; [done|]. simpl. rewrite IH. solve_Permutation.
Qed.

Lemma table_words t member ht :
  (fun p => node_of member p + 8) <$> hash_nodes ht ⊆+ (table_links t member ht).*1.
Proof.
  unfold table_links, hash_nodes. assert (Hk : forall k,
    (fun p => node_of member p + 8) <$> concat ht ⊆+
    (concat (imap (fun j => bucket_links t member (k + j)%nat) ht)).*1); [|apply (Hk 0%nat)].
  induction ht as [|b ht IH]; intros k; [done|]. simpl. rewrite !fmap_app.
  apply submseteq_app.
  - unfold bucket_links. rewrite chain_words, <- list_fmap_compose. apply submseteq_cons, submseteq_inserts_l.
    done.
  - specialize (IH (S k)).
    replace (imap (_ ∘ S) ht) with (imap (fun j => bucket_links t member (S k + j)%nat) ht); [done|].
    apply imap_ext. intros j x _. simpl. f_equal. lia.
Qed.

(** An object is linked once. *)
Lemma table_nodes_NoDup m t member ht F :
  linked m (table_links t member ht ++ F) -> NoDup (hash_nodes ht).
Proof.
  intros [_ Hd]%linked_app_l. apply (NoDup_fmap_1 (fun p => node_of member p + 8)).
  destruct (submseteq_Permutation _ _ (table_words t member ht)) as [k Hk]. rewrite Hk in Hd.
  by apply NoDup_app in Hd as (? & _).
Qed.

Lemma concat_disjoint (ht : hashtable) i j a b p :
  NoDup (concat ht) -> ht !! i = Some a -> ht !! j = Some b -> p ∈ a -> p ∈ b -> i = j.
Proof.
  revert i j. induction ht as [|c ht IH]; intros i j Hd Hi Hj Ha Hb; [done|].
  simpl in Hd. apply NoDup_app in Hd as (_ & H1 & Hd).
  assert (Hin : forall k l, ht !! k = Some l -> p ∈ l -> p ∈ concat ht).
  { intros k l Hk Hl. apply list_elem_of_In, in_concat. exists l. rewrite <- !list_elem_of_In.
    split; [by eapply list_elem_of_lookup_2|done]. }
  destruct i as [|i], j as [|j]; simplify_eq/=; [done|..].
  - exfalso. eapply H1; eauto.
  - exfalso. eapply H1; eauto.
  - f_equal. eauto.
Qed.

Lemma hash_del_insert ht i l1 p l2 :
  NoDup (hash_nodes ht) -> ht !! i = Some (l1 ++ p :: l2) ->
  hash_del ht p = <[i := l1 ++ l2]> ht.
Proof.
  intros Hd Hi. apply list_eq. intros j. unfold hash_del.
  change (map (filter (fun q => q <> p)) ht) with (filter (fun q => q <> p) <$> ht).
  rewrite list_lookup_fmap. assert (Hfil : forall l : list Z, p ∉ l -> filter (fun q => q <> p) l = l).
  { induction l as [|q l IH]; intros Hn; [done|]. apply not_elem_of_cons in Hn as [Hq Hn].
    rewrite filter_cons_True by done. by rewrite IH. }
  assert (Hmid : NoDup (l1 ++ p :: l2)).
  { unfold hash_nodes in Hd. rewrite <- (take_drop_middle ht i _ Hi), concat_app in Hd. simpl in Hd.
    apply NoDup_app in Hd as (_ & _ & Hd). by apply NoDup_app in Hd as (Hd & _). }
  destruct (decide (i = j)) as [<-|Hne].
  - rewrite Hi, list_lookup_insert_eq by by eapply lookup_lt_Some. simpl. f_equal.
    apply NoDup_app in Hmid as (_ & H1 & H2). apply NoDup_cons in H2 as [H2 _].
    rewrite filter_app, filter_cons_False by naive_solver.
    rewrite !Hfil; [done|done|]. intros Hp. eapply H1; [exact Hp|left].
  - rewrite list_lookup_insert_ne by done. destruct (ht !! j) as [b|] eqn:Hj; [|done]. simpl. f_equal.
    apply Hfil. intros Hp. apply Hne.
    eapply (concat_disjoint ht i j); [done..| |done]. apply elem_of_app. right. left.
Qed.

(** ** Refinement *)

Lemma ht_add_runs t member ht p key x y F :
  length ht = 1024%nat -> placed t member ht ->
  runs (ht_add t 1024 (node_of member p) key)
    (object (node_of member p) x y ++ table_links t member ht ++ F) tt
    (table_links t member (hash_add ht p key) ++ F).
Proof.
  intros Hl Hp. unfold ht_add. rewrite (ht_bucket_eq 1024 ht) by done.
  destruct (lookup_lt_is_Some_2 ht (bucket_of ht key)) as [b Hb]; [by apply bucket_of_lt|].
  destruct (table_bucket t member ht _ b Hb) as (R & H0 & HR). unfold hash_add.
  rewrite (alter_insert _ _ _ b) by done.
  eapply runs_perm; [by rewrite H0|by rewrite HR|].
  rewrite <- !app_assoc. apply runs_hadd. by eapply placed_bucket.
Qed.

Lemma ht_del_runs t member ht p F :
  placed t member ht -> p ∈ hash_nodes ht ->
  runs (ht_del (node_of member p)) (table_links t member ht ++ F) tt
    (object (node_of member p) 0 0 ++ table_links t member (hash_del ht p) ++ F).
Proof.
  intros Hp (i & b & Hi & Hin)%elem_of_hash_nodes. apply runs_assume. intros m Hm.
  apply table_nodes_NoDup in Hm. apply list_elem_of_split in Hin as (l1 & l2 & ->).
  rewrite (hash_del_insert ht i l1 p l2) by done.
  destruct (table_bucket t member ht i _ Hi) as (R & H0 & HR).
  pose proof (placed_bucket _ _ _ _ _ Hp Hi) as Hz. destruct Hp as [Ht _].
  rewrite fmap_app in Hz. simpl in Hz. rewrite not_elem_of_app, not_elem_of_cons in Hz.
  eapply runs_perm; [by rewrite H0|by rewrite HR|]. unfold bucket_links. rewrite !fmap_app. simpl.
  rewrite <- !app_assoc. apply runs_hdel_init; [unfold bucket_at; lia|tauto..].
Qed.

(** What a search for [test] ends at. *)
Definition found (member : Z) (test : Z -> bool) (b : list Z) : Z :=
  match List.find test b with Some p => node_of member p | None => 0 end.

Lemma find_app (test : Z -> bool) l1 l2 :
  List.find test (l1 ++ l2) = match List.find test l1 with Some p => Some p | None => List.find test l2 end.
Proof. induction l1 as [|x l1 IH]; [done|]. simpl. by destruct (test x). Qed.

Lemma container_of_node member p : container_of (node_of member p) member = p.
Proof. unfold container_of, node_of. lia. Qed.

(** The search of a bucket; [body] leaves the table alone. *)
Lemma bucket_find_runs t member ht i b (test : Z -> bool) body F fuel :
  placed t member ht -> ht !! i = Some b -> (length b <= fuel)%nat ->
  (forall p, p ∈ b ->
     runs (body p) (table_links t member ht ++ F) (negb (test p)) (table_links t member ht ++ F)) ->
  runs (hlist_for_each_entry fuel (bucket_at t i) member body) (table_links t member ht ++ F)
    (found member test b) (table_links t member ht ++ F).
Proof.
  intros Hp Hi Hf Hb. destruct (table_bucket t member ht _ b Hi) as (R & H0 & _).
  pose proof (placed_bucket _ _ _ _ _ Hp Hi) as Hz.
  assert (Hperm : table_links t member ht ++ F ≡ₚ bucket_links t member i b ++ R ++ F)
    by (rewrite H0; solve_Permutation).
  replace (found member test b) with
    (default 0 (List.find (fun n => test (container_of n member)) (node_of member <$> b))).
  2:{ clear. unfold found. induction b as [|p b IH]; [done|]. simpl. rewrite container_of_node.
      by destruct (test p). }
  eapply runs_perm; [exact Hperm|exact Hperm|].
  unfold hlist_for_each_entry, hlist_for_each.
  eapply runs_bind; [apply runs_load, elem_of_app; left; apply chain_first|].
  cbv beta. unfold bucket_links. refine (runs_hwalk (bucket_at t i) [] (node_of member <$> b)
    (fun n => test (container_of n member)) _ (R ++ F) fuel _ _ _); [done|by rewrite length_fmap|].
  intros n (p & -> & Hin)%list_elem_of_fmap. eapply runs_perm; [symmetry; exact Hperm|symmetry; exact Hperm|].
  rewrite container_of_node. by apply Hb.
Qed.

Lemma ht_find_runs t member ht key (test : Z -> bool) body F fuel :
  length ht = 1024%nat -> placed t member ht -> (length (hash_for_each_possible ht key) <= fuel)%nat ->
  (forall p, p ∈ hash_for_each_possible ht key ->
     runs (body p) (table_links t member ht ++ F) (negb (test p)) (table_links t member ht ++ F)) ->
  runs (ht_for_each_possible fuel t 1024 member key body) (table_links t member ht ++ F)
    (found member test (hash_for_each_possible ht key)) (table_links t member ht ++ F).
Proof.
  intros Hl Hp Hf Hb. unfold ht_for_each_possible. rewrite (ht_bucket_eq 1024 ht) by done.
  unfold hash_for_each_possible in *.
  destruct (lookup_lt_is_Some_2 ht (bucket_of ht key)) as [b Hi]; [by apply bucket_of_lt|].
  rewrite Hi in *. by apply bucket_find_runs.
Qed.

(** The search of the whole table, bucket by bucket. *)
Lemma ht_find_all_runs t member ht (test : Z -> bool) body F fuel :
  placed t member ht -> (length (hash_nodes ht) <= fuel)%nat ->
  (forall p, p ∈ hash_nodes ht ->
     runs (body p) (table_links t member ht ++ F) (negb (test p)) (table_links t member ht ++ F)) ->
  runs (ht_for_each fuel t (length ht) member body) (table_links t member ht ++ F)
    (found member test (hash_nodes ht)) (table_links t member ht ++ F).
Proof.
  intros Hp Hf Hb. unfold ht_for_each. assert (Hk : forall l1 l2, l1 ++ l2 = ht ->
    runs (ht_for_each_from (fun h => hlist_for_each_entry fuel h member body) t (length l1) (length l2))
      (table_links t member ht ++ F) (found member test (concat l2)) (table_links t member ht ++ F));
    [|apply (Hk []); done].
  intros l1 l2. revert l1. induction l2 as [|b l2 IH]; intros l1 E; [apply runs_ret|].
  assert (Hi : ht !! length l1 = Some b) by (rewrite <- E; by apply list_lookup_middle).
  assert (Hin : forall p, p ∈ b -> p ∈ hash_nodes ht) by (intros p Hin; apply elem_of_hash_nodes; eauto).
  simpl. eapply runs_bind.
  { apply (bucket_find_runs t member ht _ b test); [done|done| |auto].
    unfold hash_nodes in Hf. rewrite <- E, concat_app in Hf. simpl in Hf. rewrite !length_app in Hf. lia. }
  unfold found. rewrite find_app. destruct (List.find test b) as [p|] eqn:Hfd; simpl.
  - apply List.find_some in Hfd as [Hpin _]. rewrite <- list_elem_of_In in Hpin.
    rewrite (proj2 (Z.eqb_neq _ _)); [apply runs_ret|]. destruct Hp as [_ Hp]. auto.
  - specialize (IH (l1 ++ [b])). rewrite length_app, Nat.add_1_r in IH. apply IH. by rewrite <- app_assoc.
Qed.

(** Removing every object with the safe loop empties the table. *)
Definition unlinked (member : Z) (l : list Z) : links :=
  concat ((fun p => object (node_of member p) 0 0) <$> l).

Definition remove (member p : Z) : M mem bool := do! ht_del (node_of member p) in ret true.

Lemma bucket_empties_runs h member b F fuel :
  h <> 0 -> 0 ∉ node_of member <$> b -> (length b <= fuel)%nat ->
  runs (hlist_for_each_entry_safe fuel h member (remove member)) (chain h (node_of member <$> b) ++ F) 0
    (chain h [] ++ unlinked member b ++ F).
Proof.
  intros Hh Hz Hl. unfold hlist_for_each_entry_safe, hlist_for_each_safe.
  eapply runs_bind; [apply runs_load, elem_of_app; left; apply chain_first|].
  replace (unlinked member b) with (concat ((fun n => object n 0 0) <$> (node_of member <$> b)))
    by by rewrite <- list_fmap_compose.
  apply runs_hwalk_del; [done|by rewrite length_fmap|]. intros n l' G Hz'. unfold remove, ht_del.
  replace (node_of member (container_of n member)) with n by (unfold node_of, container_of; lia).
  eapply runs_bind; [apply (runs_hdel_init n h []); [done|apply not_elem_of_nil|done]|]. apply runs_ret.
Qed.

Lemma ht_empties_runs t member ht F fuel :
  placed t member ht -> (length (hash_nodes ht) <= fuel)%nat ->
  runs (ht_for_each_safe fuel t (length ht) member (remove member)) (table_links t member ht ++ F) 0
    (table_links t member (__hash_init (length ht)) ++ unlinked member (hash_nodes ht) ++ F).
Proof.
  intros Hp Hf. unfold ht_for_each_safe, table_links, hash_nodes, __hash_init in *.
  assert (Hz : forall b, b ∈ ht -> 0 ∉ node_of member <$> b).
  { intros b [i Hi]%list_elem_of_lookup. by eapply placed_bucket. }
  destruct Hp as [Ht _]. assert (Hk : forall i,
    runs (ht_for_each_from (fun h => hlist_for_each_entry_safe fuel h member (remove member)) t i (length ht))
      (concat (imap (fun j => bucket_links t member (i + j)%nat) ht) ++ F) 0
      (concat (imap (fun j => bucket_links t member (i + j)%nat) (replicate (length ht) [])) ++
       unlinked member (concat ht) ++ F)); [|apply (Hk 0%nat)].
  revert F. induction ht as [|b ht IH]; intros F i; [apply runs_ret|].
  simpl in Hf. rewrite length_app in Hf. simpl. rewrite Nat.add_0_r.
  assert (Hext : forall l : list (list Z), imap ((fun j => bucket_links t member (i + j)%nat) ∘ S) l =
    imap (fun j => bucket_links t member (S i + j)%nat) l).
  { intros l. apply imap_ext. intros j x _. simpl. f_equal. lia. }
  rewrite !Hext. unfold bucket_links at 1. rewrite <- app_assoc.
  eapply runs_bind; [apply bucket_empties_runs; [unfold bucket_at; lia|apply Hz; left|lia]|]. simpl.
  eapply runs_perm; [| |apply (IH ltac:(lia) ltac:(intros; apply Hz; by right)
    (chain (bucket_at t i) [] ++ unlinked member b ++ F) (S i))].
  - solve_Permutation.
  - unfold bucket_links at 2, unlinked. rewrite fmap_app, concat_app. simpl. solve_Permutation.
Qed.

(** An array of [n] words from bucket [i] on. *)
Definition array (t : Z) (i : nat) (vs : list Z) : links :=
  imap (fun j v => (bucket_at t (i + j)%nat, v)) vs.

Lemma ht_init_runs t member vs F :
  runs (ht_init t (length vs)) (array t 0 vs ++ F) tt
    (table_links t member (__hash_init (length vs)) ++ F).
Proof.
  unfold ht_init, table_links, __hash_init. assert (Hk : forall i,
    runs (ht_init_from t i (length vs)) (array t i vs ++ F) tt
      (concat (imap (fun j => bucket_links t member (i + j)%nat) (replicate (length vs) [])) ++ F)).
  { revert F. induction vs as [|v vs IH]; intros F i; [apply runs_ret|].
    unfold array. simpl. rewrite Nat.add_0_r.
    eapply runs_bind; [apply runs_write|]. specialize (IH ((bucket_at t i, 0) :: F) (S i)).
    eapply runs_perm; [| |exact IH].
    - unfold array. rewrite (imap_ext _ (fun j v => (bucket_at t (S i + j)%nat, v)));
        [solve_Permutation|]. intros j x _. simpl. do 2 f_equal. lia.
    - rewrite (imap_ext _ (fun j => bucket_links t member (S i + j)%nat)); [simpl; solve_Permutation|].
      intros j x _. simpl. f_equal. lia. }
  apply (Hk 0%nat).
Qed.

Lemma ht_empty_runs t member ht F :
  placed t member ht ->
  runs (ht_empty t (length ht)) (table_links t member ht ++ F) (__hash_empty ht)
    (table_links t member ht ++ F).
Proof.
  intros Hp. unfold ht_empty. assert (Hk : forall l1 l2, l1 ++ l2 = ht ->
    runs (ht_empty_from t (length l1) (length l2)) (table_links t member ht ++ F) (__hash_empty l2)
      (table_links t member ht ++ F)); [|apply (Hk []); done].
  intros l1 l2. revert l1. induction l2 as [|b l2 IH]; intros l1 E; [apply runs_ret|].
  assert (Hi : ht !! length l1 = Some b) by (rewrite <- E; by apply list_lookup_middle).
  destruct (table_bucket t member ht _ b Hi) as (R & H0 & _).
  pose proof (placed_bucket _ _ _ _ _ Hp Hi) as Hz. simpl.
  assert (Hperm : table_links t member ht ++ F ≡ₚ bucket_links t member (length l1) b ++ R ++ F)
    by (rewrite H0; solve_Permutation).
  eapply runs_bind; [eapply runs_perm; [exact Hperm|exact Hperm|by apply runs_hempty]|].
  destruct b as [|p b]; simpl; [|apply runs_ret].
  specialize (IH (l1 ++ [[]])). rewrite length_app, Nat.add_1_r in IH. apply IH. by rewrite <- app_assoc.
Qed.
