(* ===== verification/ListSpec.v ===== *)
(** * Properties of the lists and hash tables in memory, with their witnesses

    The pointer operations of [include/hsfs/list.h] and
    [include/hsfs/hashtable.h] implement the operations on lists and on tables of
    lists that the rest of the library uses. *)

From S2P Require Import Prelude Bitops Hash Klist KlistFacts HashPtr.

(** C17: The operations of circular lists act on the list of their entries, for
    every list and whatever else is in memory ([F] is kept): adding puts the
    entry first or last, deleting takes it off and leaves it poisoned or as a
    list of its own, moving does both, splicing puts the entries of one list in
    front of the other's, and the test for an empty list is exact. *)
Theorem list_ops_refine h h' e l l1 l2 x y F :
  runs (list_add e h) (object e x y ++ ring h l ++ F) tt (ring h (e :: l) ++ F) /\
  runs (list_add_tail e h) (object e x y ++ ring h l ++ F) tt (ring h (l ++ [e]) ++ F) /\
  runs (list_del e) (ring h (l1 ++ e :: l2) ++ F) tt
    (object e LIST_POISON1 LIST_POISON2 ++ ring h (l1 ++ l2) ++ F) /\
  runs (list_del_init e) (ring h (l1 ++ e :: l2) ++ F) tt
    (ring e [] ++ ring h (l1 ++ l2) ++ F) /\
  runs (list_move e h') (ring h (l1 ++ e :: l2) ++ ring h' l ++ F) tt
    (ring h (l1 ++ l2) ++ ring h' (e :: l) ++ F) /\
  runs (list_move_tail e h') (ring h (l1 ++ e :: l2) ++ ring h' l ++ F) tt
    (ring h (l1 ++ l2) ++ ring h' (l ++ [e]) ++ F) /\
  runs (list_splice_init h h') (ring h l1 ++ ring h' l2 ++ F) tt
    (ring h [] ++ ring h' (l1 ++ l2) ++ F) /\
  runs (list_empty h) (ring h l ++ F) (bool_decide (l = [])) (ring h l ++ F).
Proof.
  split_and!.
  - apply runs_add.
  - apply runs_add_tail.
  - apply runs_del.
  - apply runs_del_init.
  - apply runs_move.
  - apply runs_move_tail.
  - apply runs_splice_init.
  - apply runs_empty.
Qed.

(** What a deleted entry leaves behind. *)
Definition poisoned (l : list Z) : links :=
  concat ((fun e => object e LIST_POISON1 LIST_POISON2) <$> rev l).

(** C18: A loop over a list ends after one round for each entry, and its body runs
    on the entries in the order of the list, or backward in the opposite order
    ([F i] is what [i] rounds have made of the rest of memory); a safe loop may
    take the entries off as it goes: a loop that deletes each leaves an empty
    list and poisoned entries. *)
Theorem list_loops_visit h l :
  (forall (F : nat -> links) body,
    (forall i e, l !! i = Some e -> runs (body e) (ring h l ++ F i) tt (ring h l ++ F (S i))) ->
    runs (list_for_each (length l) h body) (ring h l ++ F 0%nat) tt (ring h l ++ F (length l))) /\
  (forall (F : nat -> links) body,
    (forall i e, rev l !! i = Some e -> runs (body e) (ring h l ++ F i) tt (ring h l ++ F (S i))) ->
    runs (list_for_each_prev (length l) h body) (ring h l ++ F 0%nat) tt (ring h l ++ F (length l))) /\
  (forall F, runs (list_for_each_safe (length l) h list_del) (ring h l ++ F) tt
    (ring h [] ++ poisoned l ++ F)).
Proof.
  split_and!; [apply runs_for_each|apply runs_for_each_prev|]. intros F.
  pose proof (runs_for_each_safe h l (fun i => poisoned (take i l) ++ F) list_del) as Hs.
  cbv beta in Hs. rewrite firstn_all in Hs. apply Hs. clear Hs. intros i e l' Hd.
  assert (Hi : l !! i = Some e).
  { rewrite <- (Nat.add_0_r i), <- lookup_drop, Hd. done. }
  rewrite (take_S_r _ _ e) by done. unfold poisoned at 2. rewrite rev_app_distr. simpl.
  eapply runs_perm; [reflexivity| |apply (runs_del e h [] l')]. simpl. solve_Permutation.
Qed.

(** C19: The hash table in memory implements the table of [Hash]: initialising,
    adding, removing, searching the bucket of a key or the whole table, and testing
    for an empty table on the words of memory are what [__hash_init], [hash_add],
    [hash_del], a search of [hash_for_each_possible] or of all objects, and
    [__hash_empty] do on lists; a safe loop that removes every object leaves an
    empty table.  The table has 1024 buckets, as those of a superblock, and no list head or node is at the
    address 0. *)
Theorem hash_table_refines t member ht F :
  length ht = 1024%nat -> placed t member ht ->
  (forall vs, length vs = 1024%nat ->
    runs (ht_init t 1024) (array t 0 vs ++ F) tt
      (table_links t member (__hash_init 1024) ++ F)) /\
  (forall p key x y,
    runs (ht_add t 1024 (node_of member p) key)
      (object (node_of member p) x y ++ table_links t member ht ++ F) tt
      (table_links t member (hash_add ht p key) ++ F)) /\
  (forall p, p ∈ hash_nodes ht ->
    runs (ht_del (node_of member p)) (table_links t member ht ++ F) tt
      (object (node_of member p) 0 0 ++ table_links t member (hash_del ht p) ++ F)) /\
  (forall key test,
    runs (ht_for_each_possible (length (hash_for_each_possible ht key)) t 1024 member key
            (fun p => ret (negb (test p))))
      (table_links t member ht ++ F)
      (found member test (hash_for_each_possible ht key))
      (table_links t member ht ++ F)) /\
  (forall test,
    runs (ht_for_each (length (hash_nodes ht)) t 1024 member (fun p => ret (negb (test p))))
      (table_links t member ht ++ F) (found member test (hash_nodes ht)) (table_links t member ht ++ F)) /\
  runs (ht_for_each_safe (length (hash_nodes ht)) t 1024 member (remove member))
    (table_links t member ht ++ F) 0
    (table_links t member (__hash_init 1024) ++ unlinked member (hash_nodes ht) ++ F) /\
  runs (ht_empty t 1024) (table_links t member ht ++ F) (__hash_empty ht)
    (table_links t member ht ++ F).
Proof.
  intros Hl Hp. split_and!.
  - intros vs <-. apply ht_init_runs.
  - intros. by apply ht_add_runs.
  - intros. by apply ht_del_runs.
  - intros. apply ht_find_runs; [done..|]. intros. apply runs_ret.
  - intros. rewrite <- Hl. apply ht_find_all_runs; [done..|]. intros. apply runs_ret.
  - rewrite <- Hl. by apply ht_empties_runs.
  - rewrite <- Hl. by apply ht_empty_runs.
Qed.

(** A table at 4096 with the objects at 20000 and 30000, whose node is at 16, in
    the bucket of 7. *)
Definition sample_table : hashtable := hash_add (hash_add (__hash_init 1024) 20000 7) 30000 7.

Lemma sample_table_ok : length sample_table = 1024%nat /\ placed 4096 16 sample_table.
Proof.
  split; [by vm_compute|]. split; [lia|]. intros p. unfold sample_table.
  rewrite !hash_add_nodes, hash_init_nodes by by vm_compute.
  rewrite !elem_of_cons. unfold node_of. intros [->|[->|H]]; [lia..|]. by apply not_elem_of_nil in H.
Qed.

Lemma hash_table_refines_witness :
  runs (ht_for_each_possible (length (hash_for_each_possible sample_table 7)) 4096 1024 16 7
          (fun p => ret (negb (p =? 20000))))
    (table_links 4096 16 sample_table) 20016 (table_links 4096 16 sample_table).
Proof.
  destruct sample_table_ok as [Hl Hp].
  destruct (hash_table_refines 4096 16 sample_table [] Hl Hp) as (_ & _ & _ & Hf & _).
  specialize (Hf 7 (fun p => p =? 20000)). rewrite !app_nil_r in Hf. exact Hf.
Defined.
