(* ===== verification/Lock.v ===== *)
(** * The lock of the mount table ([nfs3/fstab.c]: [lock_mtab], [unlock_mtab])

    A process that rewrites /etc/mtab holds the lock file /etc/mtab~: it is the
    process whose [link] of its own file made it.  The functions are an
    automaton that goes from one system call to the next; a step takes the
    result of the call it is at.  [run_lock] runs it to its end.  LockSpec lets
    several processes take steps in any order. *)

From S2P Require Import Prelude.

Definition E_NOENT : Z := 2.
Definition E_EXIST : Z := 17.
Definition EX_USER : Z := 8.
Definition EX_FILEIO : Z := 16.

(** The system calls of the two functions. *)
Inductive lcall :=
  | open_target     (* open(linktargetfile, O_WRONLY|O_CREAT, 0) *)
  | link_target     (* link(linktargetfile, MOUNTED_LOCK) *)
  | open_lock       (* open(MOUNTED_LOCK, O_WRONLY) *)
  | fcntl_setlk     (* fcntl(lockfile_fd, F_SETLK, &flock) *)
  | fcntl_setlkw    (* fcntl(lockfile_fd, F_SETLKW, &flock) *)
  | unlink_target   (* unlink(linktargetfile) *)
  | close_lock      (* close(lockfile_fd) *)
  | unlink_lock.    (* unlink(MOUNTED_LOCK) *)

(** A result is the descriptor or 0, or an error number. *)
Inductive lresult := Ok (fd : Z) | Err (errno : Z).

(** Where a process is.  [j] is whether its [link] succeeded. *)
Inductive lpc :=
  | Idle                      (* outside of the functions, without the lock *)
  | L_open_target
  | L_link                    (* at the head of the loop, not [we_created_lockfile] *)
  | L_linked (errno : option Z) (* [link] has returned *)
  | L_open_lock (j : bool)
  | L_setlk | L_unlink        (* [j == 0] *)
  | L_setlkw | L_close        (* [j < 0] *)
  | L_fail_unlink (close : bool)  (* unlink(linktargetfile), perhaps close, then die *)
  | L_fail_close
  | Held                      (* [lock_mtab] has returned *)
  | U_close | U_unlink | U_reset  (* in [unlock_mtab] *)
  | D_close | D_unlink | D_reset  (* in [die], at [at_die()] *)
  | Exited (code : Z).

(** The statics and locals.  [lk_code] is the argument of a [die] under way. *)
Record lk := mk_lk {
  lk_pc : lpc;
  we_created_lockfile : bool;
  lockfile_fd : Z;
  lk_tries : Z;         (* the local of [lock_mtab] *)
  lk_static_tries : Z;  (* the static of the loop *)
  lk_code : Z }.

Definition lk_init : lk := mk_lk Idle false (-1) 100000 0 0.

Definition at_pc (pc : lpc) (l : lk) : lk :=
  mk_lk pc (we_created_lockfile l) (lockfile_fd l) (lk_tries l) (lk_static_tries l) (lk_code l).
Definition with_fd (fd : Z) (l : lk) : lk :=
  mk_lk (lk_pc l) (we_created_lockfile l) fd (lk_tries l) (lk_static_tries l) (lk_code l).
Definition with_created (b : bool) (l : lk) : lk :=
  mk_lk (lk_pc l) b (lockfile_fd l) (lk_tries l) (lk_static_tries l) (lk_code l).
Definition with_tries (n : Z) (l : lk) : lk :=
  mk_lk (lk_pc l) (we_created_lockfile l) (lockfile_fd l) n (lk_static_tries l) (lk_code l).
Definition with_static (n : Z) (l : lk) : lk :=
  mk_lk (lk_pc l) (we_created_lockfile l) (lockfile_fd l) (lk_tries l) n (lk_code l).
Definition with_code (c : Z) (l : lk) : lk :=
  mk_lk (lk_pc l) (we_created_lockfile l) (lockfile_fd l) (lk_tries l) (lk_static_tries l) c.

(** [die(err, ...)]: the message, [at_die()], which is [unlock_mtab], and
    [exit(err)]. *)
Definition die (err : Z) (l : lk) : lk :=
  if we_created_lockfile l then at_pc D_close (with_code err l) else at_pc (Exited err) l.

(** The test of the loop. *)
Definition loop_head (l : lk) : lk := if we_created_lockfile l then at_pc Held l else at_pc L_link l.

(** The call of [lock_mtab]: [tries] starts anew. *)
Definition lock_mtab (l : lk) : lk := at_pc L_open_target (with_tries 100000 l).

(** The call of [unlock_mtab]. *)
Definition unlock_mtab (l : lk) : lk := if we_created_lockfile l then at_pc U_close l else at_pc Idle l.

(** The call a process is at; [None] at a step of its own. *)
Definition call_of (l : lk) : option lcall :=
  match lk_pc l with
  | L_open_target => Some open_target
  | L_link => Some link_target
  | L_open_lock _ => Some open_lock
  | L_setlk => Some fcntl_setlk
  | L_unlink | L_fail_unlink _ => Some unlink_target
  | L_setlkw => Some fcntl_setlkw
  | L_close | L_fail_close | U_close | D_close => Some close_lock
  | U_unlink | D_unlink => Some unlink_lock
  | Idle | L_linked _ | Held | U_reset | D_reset | Exited _ => None
  end.

(** One step with the result of the call; [None] when there is nothing to do. *)
Definition lock_step (l : lk) (r : lresult) : option lk :=
  match lk_pc l with
  | Idle | Held | Exited _ => None
  | L_open_target =>
      match r with
      | Err _ => Some (die EX_FILEIO l)
      | Ok _ => Some (loop_head l)   (* close(i) *)
      end
  | L_link => Some (at_pc (L_linked (match r with Ok _ => None | Err e => Some e end)) l)
  | L_linked None => Some (at_pc (L_open_lock true) (with_created true l))
  | L_linked (Some errsv) =>
      if errsv =? E_EXIST then Some (at_pc (L_open_lock false) l)
      else Some (at_pc (L_fail_unlink false) l)
  | L_open_lock j =>
      match r with
      | Ok fd => Some (at_pc (if j then L_setlk else L_setlkw) (with_fd fd l))
      | Err errno =>
          let l := with_fd (-1) l in
          if errno =? E_NOENT then
            let l' := with_tries (lk_tries l - 1) l in
            if 0 <? lk_tries l then Some (loop_head l') else Some (at_pc (L_fail_unlink false) l')
          else Some (at_pc (L_fail_unlink false) l)
      end
  | L_setlk => Some (at_pc L_unlink l)   (* proceed anyway *)
  | L_unlink => Some (loop_head l)
  | L_setlkw =>
      match r with
      | Err _ => Some (at_pc (L_fail_unlink false) l)
      | Ok _ =>
          let l := with_static (lk_static_tries l + 1) l in
          if 100000 <? lk_static_tries l then Some (at_pc (L_fail_unlink true) l)
          else Some (at_pc L_close l)
      end
  | L_close => Some (loop_head l)
  | L_fail_unlink true => Some (at_pc L_fail_close l)
  | L_fail_unlink false | L_fail_close => Some (die EX_FILEIO l)
  | U_close => Some (at_pc U_unlink (with_fd (-1) l))
  | U_unlink => Some (at_pc U_reset l)
  | U_reset => Some (at_pc Idle (with_created false l))
  | D_close => Some (at_pc D_unlink (with_fd (-1) l))
  | D_unlink => Some (at_pc D_reset l)
  | D_reset => Some (at_pc (Exited (lk_code l)) (with_created false l))
  end.

(** [handler(sig)]: [die(EX_USER, ...)] from wherever the process is. *)
Definition handler (l : lk) : lk := die EX_USER l.

(** ** Running to the end

    [results] answers the calls of one process. *)
Section Run.
Context {env : Type} (results : lcall -> env -> lresult * env).

Definition ends (l : lk) : bool :=
  match lk_pc l with Idle | Held | Exited _ => true | _ => false end.

Fixpoint run_lock (fuel : nat) (l : lk) (e : env) : option (lk * env) :=
  if ends l then Some (l, e)
  else match fuel with
  | O => None
  | S fuel =>
      let '(r, e) := match call_of l with Some c => results c e | None => (Ok 0, e) end in
      match lock_step l r with
      | Some l => run_lock fuel l e
      | None => None
      end
  end.
End Run.
