(* ===== verification/LockSpec.v ===== *)
(** * Properties of the lock of the mount table, with their witnesses

    Processes with different ids run [lock_mtab] and [unlock_mtab] on one file
    system, a step at a time, in any order.  At most one of them holds the lock,
    as long as no signal comes between the removal of the lock file and the
    reset of [we_created_lockfile]; one that does breaks the lock. *)

From S2P Require Import Prelude Lock.

(** The files: the targets of the processes, and the process whose file is
    linked as the lock file. *)
Record lfs := mk_lfs { targets : gset Z; lockfile : option Z }.

(** What a call of process [p] may return, and what it does to the files.  The
    calls in [may_fail] may also fail for a reason of their own (a full disk, an
    interrupt). *)
Inductive sys_call (may_fail : lcall -> Prop) (p : Z) : lcall -> lfs -> lresult -> lfs -> Prop :=
  | sc_open_target s o fd :
      sys_call may_fail p open_target (mk_lfs s o) (Ok fd) (mk_lfs ({[p]} ∪ s) o)
  | sc_link s fd :
      p ∈ s -> sys_call may_fail p link_target (mk_lfs s None) (Ok fd) (mk_lfs s (Some p))
  | sc_link_missing s : p ∉ s -> sys_call may_fail p link_target (mk_lfs s None) (Err E_NOENT) (mk_lfs s None)
  | sc_link_exists s q : sys_call may_fail p link_target (mk_lfs s (Some q)) (Err E_EXIST) (mk_lfs s (Some q))
  | sc_open_lock s q fd : sys_call may_fail p open_lock (mk_lfs s (Some q)) (Ok fd) (mk_lfs s (Some q))
  | sc_open_lock_none s : sys_call may_fail p open_lock (mk_lfs s None) (Err E_NOENT) (mk_lfs s None)
  | sc_unlink_target s o fd :
      sys_call may_fail p unlink_target (mk_lfs s o) (Ok fd) (mk_lfs (s ∖ {[p]}) o)
  | sc_unlink_lock s o fd : sys_call may_fail p unlink_lock (mk_lfs s o) (Ok fd) (mk_lfs s None)
  | sc_fcntl c s o fd : c = fcntl_setlk \/ c = fcntl_setlkw \/ c = close_lock ->
      sys_call may_fail p c (mk_lfs s o) (Ok fd) (mk_lfs s o)
  | sc_fails c s o e : may_fail c -> e <> E_EXIST ->
      sys_call may_fail p c (mk_lfs s o) (Err e) (mk_lfs s o).

Record lsys := mk_lsys { procs : gmap Z lk; fs : lfs }.

(** The steps: a process calls [lock_mtab] or [unlock_mtab], takes a step of its
    own, returns from a system call, or is sent a signal where [sig] allows. *)
Inductive lstep (may_fail : lcall -> Prop) (sig : lpc -> bool) : lsys -> lsys -> Prop :=
  | ls_lock p l P f : P !! p = Some l -> lk_pc l = Idle ->
      lstep may_fail sig (mk_lsys P f) (mk_lsys (<[p := lock_mtab l]> P) f)
  | ls_unlock p l P f : P !! p = Some l -> lk_pc l = Held ->
      lstep may_fail sig (mk_lsys P f) (mk_lsys (<[p := unlock_mtab l]> P) f)
  | ls_own p l l' P f : P !! p = Some l -> call_of l = None -> lock_step l (Ok 0) = Some l' ->
      lstep may_fail sig (mk_lsys P f) (mk_lsys (<[p := l']> P) f)
  | ls_call p l l' c r P f f' : P !! p = Some l -> call_of l = Some c ->
      sys_call may_fail p c f r f' -> lock_step l r = Some l' ->
      lstep may_fail sig (mk_lsys P f) (mk_lsys (<[p := l']> P) f')
  | ls_signal p l P f : P !! p = Some l -> sig (lk_pc l) = true ->
      lstep may_fail sig (mk_lsys P f) (mk_lsys (<[p := handler l]> P) f).

(** All processes start outside of the functions, without a lock file. *)
Definition l_initial (s : lsys) : Prop :=
  (forall p l, procs s !! p = Some l -> l = lk_init) /\ lockfile (fs s) = None.

Inductive l_reachable (may_fail : lcall -> Prop) (sig : lpc -> bool) : lsys -> Prop :=
  | lr_init s : l_initial s -> l_reachable may_fail sig s
  | lr_step s s' : l_reachable may_fail sig s -> lstep may_fail sig s s' -> l_reachable may_fail sig s'.

(** Signals anywhere but between the removal of the lock file and the reset;
    exited processes get none. *)
Definition sig_safe (pc : lpc) : bool :=
  match pc with U_reset | D_reset | Exited _ => false | _ => true end.
Definition sig_any (pc : lpc) : bool := match pc with Exited _ => false | _ => true end.
Definition sig_none (pc : lpc) : bool := false.

(** ** The invariant *)

(** The process has made the lock file and has not removed it. *)
Definition owns (l : lk) : bool :=
  match lk_pc l with
  | L_linked None => true
  | U_reset | D_reset => false
  | _ => we_created_lockfile l
  end.

(** What the flag says at each place. *)
Definition pc_ok (l : lk) : Prop :=
  match lk_pc l with
  | Idle | Exited _ | L_link | L_linked _ | L_open_lock false | L_setlkw | L_close => we_created_lockfile l = false
  | L_open_lock true | L_setlk | L_unlink | Held | U_close | U_unlink | U_reset
  | D_close | D_unlink | D_reset => we_created_lockfile l = true
  | L_open_target => we_created_lockfile l = false
  | L_fail_unlink _ | L_fail_close => True
  end.

Definition lock_inv (s : lsys) : Prop :=
  forall p l, procs s !! p = Some l ->
    pc_ok l /\ (owns l = true -> lockfile (fs s) = Some p).

Ltac case_pc pc := destruct pc as [| | |[?|]|[]| | | | |[]| | | | | | | | |?].

Section Invariant.
Context (may_fail : lcall -> Prop).

(** The steps of one process. *)
Lemma lock_step_ok (l : lk) r l' :
  pc_ok l -> lock_step l r = Some l' ->
  pc_ok l' /\ (owns l' = true -> owns l = true \/ lk_pc l = L_link /\ exists fd, r = Ok fd).
Proof.
  destruct l as [pc w fd t st c]. unfold lock_step, loop_head, die, pc_ok, owns.
  case_pc pc; destruct w, r; simpl; intros Hok Hs; simplify_eq;
    repeat match type of Hs with
    | context [if ?b then _ else _] => destruct b eqn:?
    end; simplify_eq/=; split; try done; intros _;
    first [left; done | right; split; [done | by eexists]].
Qed.

Lemma handler_ok l :
  sig_safe (lk_pc l) = true -> pc_ok l -> pc_ok (handler l) /\ (owns (handler l) = true -> owns l = true).
Proof.
  destruct l as [pc w fd t st c]. unfold handler, die. simpl.
  case_pc pc; simpl; intros Hs Hok; try done;
    destruct w; simplify_eq/=; split; done.
Qed.

(** A call changes the lock file only to make it, where there is none, or to
    remove the caller's own. *)
Lemma sys_call_lock p c f r f' l :
  sys_call may_fail p c f r f' -> call_of l = Some c -> pc_ok l ->
  lockfile f' = lockfile f \/
  (lk_pc l = L_link /\ lockfile f = None /\ lockfile f' = Some p) \/
  (owns l = true /\ (lk_pc l = U_unlink \/ lk_pc l = D_unlink)).
Proof.
  destruct 1; intros Hc Hok; simpl; auto; destruct l as [pc w fd' t st cd]; unfold call_of in Hc; simpl in *;
    case_pc pc; simplify_eq/=; auto.
Qed.

Lemma lock_step_unlink l r l' :
  (lk_pc l = U_unlink \/ lk_pc l = D_unlink) -> lock_step l r = Some l' -> owns l' = false.
Proof. unfold lock_step. intros [-> | ->] [= <-]; done. Qed.

Lemma lock_step_linked p c f r f' l l' :
  sys_call may_fail p c f r f' -> call_of l = Some c -> lock_step l r = Some l' ->
  lk_pc l = L_link -> (exists fd, r = Ok fd) -> lockfile f = None /\ lockfile f' = Some p.
Proof.
  intros Hs Hc _ Hpc [fd ->]. unfold call_of in Hc. rewrite Hpc in Hc. injection Hc as <-.
  inversion Hs; subst; [done|]. naive_solver.
Qed.

Lemma lock_inv_step sig s s' :
  (forall pc, sig pc = true -> sig_safe pc = true) ->
  lock_inv s -> lstep may_fail sig s s' -> lock_inv s'.
Proof.
  intros Hsig Hinv Hst q lq Hq. destruct Hst as [p l P f Hp Hpc|p l P f Hp Hpc|p l l' P f Hp Hc Hl|
    p l l' c r P f f' Hp Hc Hs Hl|p l P f Hp Hpc]; simpl in *.
  all: assert (Hl0 := Hinv p l Hp); simpl in Hl0; destruct Hl0 as [Hok Hown].
  - destruct (decide (q = p)) as [->|Hne].
    + rewrite lookup_insert_eq in Hq. injection Hq as <-. unfold lock_mtab, pc_ok, owns in *. simpl.
      rewrite Hpc in Hok. rewrite Hok. done.
    + rewrite lookup_insert_ne in Hq by done. by apply (Hinv q).
  - destruct (decide (q = p)) as [->|Hne].
    + rewrite lookup_insert_eq in Hq. injection Hq as <-. unfold unlock_mtab, pc_ok, owns in *.
      rewrite Hpc in *. rewrite Hok in *. simpl. rewrite Hok. auto.
    + rewrite lookup_insert_ne in Hq by done. by apply (Hinv q).
  - destruct (decide (q = p)) as [->|Hne].
    + rewrite lookup_insert_eq in Hq. injection Hq as <-.
      destruct (lock_step_ok l (Ok 0) l' Hok Hl) as [Hok' Ho']. split; [done|]. intros Ho.
      destruct (Ho' Ho) as [?|[Hpc _]]; [auto|]. unfold call_of in Hc. by rewrite Hpc in Hc.
    + rewrite lookup_insert_ne in Hq by done. by apply (Hinv q).
  - destruct (lock_step_ok l r l' Hok Hl) as [Hok' Ho'].
    pose proof (sys_call_lock p c f r f' l Hs Hc Hok) as Hf.
    destruct (decide (q = p)) as [->|Hne].
    + rewrite lookup_insert_eq in Hq. injection Hq as <-. split; [done|]. intros Ho.
      destruct (Ho' Ho) as [H|[Hpc Hr]]; [|by eapply lock_step_linked].
      destruct Hf as [->|[(Hpc & _ & ?)|[_ Hu]]]; [auto|done|].
      by rewrite (lock_step_unlink _ _ _ Hu Hl) in Ho.
    + rewrite lookup_insert_ne in Hq by done. destruct (Hinv q lq Hq) as [Hokq Hoq]. simpl in Hoq.
      split; [done|]. intros Ho. specialize (Hoq Ho).
      destruct Hf as [->|[(_ & Hn & _)|[Hop _]]]; [done|congruence|]. rewrite (Hown Hop) in Hoq. congruence.
  - destruct (handler_ok l (Hsig _ Hpc) Hok) as [Hok' Ho'].
    destruct (decide (q = p)) as [->|Hne].
    + rewrite lookup_insert_eq in Hq. injection Hq as <-. auto.
    + rewrite lookup_insert_ne in Hq by done. by apply (Hinv q).
Qed.

Lemma lock_inv_reachable sig s :
  (forall pc, sig pc = true -> sig_safe pc = true) -> l_reachable may_fail sig s -> lock_inv s.
Proof.
  intros Hsig. induction 1 as [s [Hi _]|s s' _ IH Hst]; [|by eapply lock_inv_step].
  intros p l Hp. rewrite (Hi p l Hp). done.
Qed.
End Invariant.

(** ** Termination *)

(** Every step brings the end nearer: the two counters bound the rounds. *)
Definition lock_measure (l : lk) : Z :=
  5 * (Z.max 0 (lk_tries l) + Z.max 0 (100001 - lk_static_tries l)) +
  match lk_pc l with
  | L_open_target | L_close => 10 | L_link => 9 | L_linked _ => 8 | L_open_lock _ => 7 | L_setlkw => 6
  | L_fail_unlink _ => 5 | L_fail_close => 4 | D_close | U_close => 3
  | D_unlink | U_unlink | L_setlk => 2 | D_reset | U_reset | L_unlink => 1
  | Idle | Held | Exited _ => 0
  end.

Lemma lock_measure_pos l : 0 <= lock_measure l.
Proof. unfold lock_measure. destruct (lk_pc l); lia. Qed.

Lemma lock_step_total l r : ends l = false -> exists l', lock_step l r = Some l'.
Proof.
  unfold ends, lock_step. destruct l as [pc w fd t st c].
  case_pc pc; simpl; intros; try done; destruct r; eauto; repeat case_if; eauto.
Qed.

Lemma lock_measure_lt l r l' :
  pc_ok l -> lock_step l r = Some l' -> lock_measure l' < lock_measure l.
Proof.
  destruct l as [pc w fd t st c]. unfold lock_step, loop_head, die, pc_ok, lock_measure.
  case_pc pc; destruct w, r; simpl; intros Hok Hs; simplify_eq;
    repeat match type of Hs with
    | context [if ?b then _ else _] => destruct b eqn:?
    end; to_prop; simplify_eq/=; lia.
Qed.

(** Where a run from [l] may end: what the flag says there, and not outside of
    the functions when it starts in [lock_mtab] or [die]. *)
Definition in_unlock (l : lk) : bool :=
  match lk_pc l with Idle | U_close | U_unlink | U_reset => true | _ => false end.

Lemma in_unlock_step l r l' : lock_step l r = Some l' -> in_unlock l' = in_unlock l.
Proof.
  destruct l as [pc w fd t st c]. unfold lock_step, loop_head, die, in_unlock.
  case_pc pc; destruct w, r; simpl; intros Hs; simplify_eq;
    repeat match type of Hs with
    | context [if ?b then _ else _] => destruct b eqn:?
    end; simplify_eq/=; done.
Qed.

(** What a process keeps while it is in the functions or outside of them. *)
Record lk_ok (l : lk) : Prop := {
  lo_pc : pc_ok l;
  lo_tries : lk_tries l <= 100000;
  lo_static : 0 <= lk_static_tries l }.

Lemma lk_ok_step l r l' : lk_ok l -> lock_step l r = Some l' -> lk_ok l'.
Proof.
  intros [Hpc Ht Hst] Hs. destruct (lock_step_ok _ _ _ Hpc Hs) as [Hpc' _].
  constructor; [done|..]; revert Hs Ht Hst; clear; destruct l as [pc w fd t st c];
    unfold lock_step, loop_head, die; case_pc pc; destruct w, r; simpl; intros Hs; simplify_eq;
    repeat match type of Hs with
    | context [if ?b then _ else _] => destruct b eqn:?
    end; simplify_eq/=; lia.
Qed.

Lemma lk_ok_measure l : lk_ok l -> lock_measure l <= 1000020.
Proof. intros [_ Ht Hst]. unfold lock_measure. destruct (lk_pc l); lia. Qed.

(** A process in [die] exits. *)
Definition dying (l : lk) : bool :=
  match lk_pc l with D_close | D_unlink | D_reset | Exited _ => true | _ => false end.

Lemma dying_step l r l' : lock_step l r = Some l' -> dying l = true -> dying l' = true.
Proof.
  destruct l as [pc w fd t st c]. unfold lock_step, dying.
  case_pc pc; simpl; intros Hs Hd; simplify_eq/=; done.
Qed.

Lemma run_lock_ends {env} (results : lcall -> env -> lresult * env) fuel l e :
  lk_ok l -> lock_measure l <= Z.of_nat fuel ->
  exists l' e', run_lock results fuel l e = Some (l', e') /\ ends l' = true /\ lk_ok l' /\
    in_unlock l' = in_unlock l /\ (dying l = true -> dying l' = true).
Proof.
  revert l e. induction fuel as [|fuel IH]; intros l e Hok Hm; simpl;
    (destruct (ends l) eqn:He; [by exists l, e|]).
  - destruct (lock_step_total l (Ok 0) He) as [l' Hl'].
    pose proof (lock_measure_lt _ _ _ (lo_pc _ Hok) Hl'). pose proof (lock_measure_pos l'). lia.
  - destruct (match call_of l with Some c => results c e | None => (Ok 0, e) end) as [r e1].
    destruct (lock_step_total l r He) as [l' Hl']. rewrite Hl'.
    pose proof (lock_measure_lt _ _ _ (lo_pc _ Hok) Hl').
    destruct (IH l' e1) as (l2 & e2 & Hr & He2 & Hok2 & Hu & Hd); [by eapply lk_ok_step|lia|].
    exists l2, e2. split_and!; [done..| |].
    + by rewrite Hu, (in_unlock_step _ _ _ Hl').
    + intros H1. apply Hd. by eapply dying_step.
Qed.

(** ** Executions

    A schedule picks the process that goes on; the calls have their usual
    outcome. *)
Definition usual (p : Z) (c : lcall) (f : lfs) : lresult * lfs :=
  match c with
  | open_target => (Ok 3, mk_lfs ({[p]} ∪ targets f) (lockfile f))
  | link_target =>
      match lockfile f with
      | Some q => (Err E_EXIST, f)
      | None => if decide (p ∈ targets f) then (Ok 0, mk_lfs (targets f) (Some p)) else (Err E_NOENT, f)
      end
  | open_lock => match lockfile f with Some q => (Ok 3, f) | None => (Err E_NOENT, f) end
  | unlink_target => (Ok 0, mk_lfs (targets f ∖ {[p]}) (lockfile f))
  | unlink_lock => (Ok 0, mk_lfs (targets f) None)
  | fcntl_setlk | fcntl_setlkw | close_lock => (Ok 0, f)
  end.

Inductive action := a_lock (p : Z) | a_unlock (p : Z) | a_step (p : Z) | a_signal (p : Z).

Definition act (sig : lpc -> bool) (a : action) (s : lsys) : option lsys :=
  match a with
  | a_lock p =>
      l ← procs s !! p;
      match lk_pc l with Idle => Some (mk_lsys (<[p := lock_mtab l]> (procs s)) (fs s)) | _ => None end
  | a_unlock p =>
      l ← procs s !! p;
      match lk_pc l with Held => Some (mk_lsys (<[p := unlock_mtab l]> (procs s)) (fs s)) | _ => None end
  | a_step p =>
      l ← procs s !! p;
      match call_of l with
      | None => l' ← lock_step l (Ok 0); Some (mk_lsys (<[p := l']> (procs s)) (fs s))
      | Some c =>
          let '(r, f) := usual p c (fs s) in
          l' ← lock_step l r; Some (mk_lsys (<[p := l']> (procs s)) f)
      end
  | a_signal p =>
      l ← procs s !! p;
      if sig (lk_pc l) then Some (mk_lsys (<[p := handler l]> (procs s)) (fs s)) else None
  end.

Fixpoint acts (sig : lpc -> bool) (l : list action) (s : lsys) : option lsys :=
  match l with [] => Some s | a :: l => s' ← act sig a s; acts sig l s' end.

Section Executions.
Context (may_fail : lcall -> Prop) (sig : lpc -> bool).

Lemma usual_call p c f : sys_call may_fail p c f (usual p c f).1 (usual p c f).2.
Proof.
  destruct f as [s o], c; simpl; try (constructor; naive_solver); destruct o as [q|];
    [constructor|case_decide; by constructor|constructor..].
Qed.

Lemma act_step a s s' : act sig a s = Some s' -> lstep may_fail sig s s'.
Proof.
  destruct s as [P f]. destruct a as [p|p|p|p]; simpl; intros Ha; apply bind_Some in Ha as (l & Hl & Ha).
  - destruct (lk_pc l) eqn:Hpc; try done. injection Ha as <-. by constructor.
  - destruct (lk_pc l) eqn:Hpc; try done. injection Ha as <-. by constructor.
  - destruct (call_of l) as [c|] eqn:Hc.
    + pose proof (usual_call p c f) as Hu. destruct (usual p c f) as [r f'].
      apply bind_Some in Ha as (l' & Hl' & [= <-]). by eapply ls_call.
    + apply bind_Some in Ha as (l' & Hl' & [= <-]). by eapply ls_own.
  - destruct (sig (lk_pc l)) eqn:Hs; [|done]. injection Ha as <-. by constructor.
Qed.

Lemma acts_reachable l s s' :
  l_reachable may_fail sig s -> acts sig l s = Some s' -> l_reachable may_fail sig s'.
Proof.
  revert s. induction l as [|a l IH]; intros s Hr; simpl; [by intros [= <-]|].
  intros (s1 & Ha & Hs)%bind_Some. eapply IH; [|done]. eapply lr_step; [done|by eapply act_step].
Qed.
End Executions.

(** C12: At most one process holds the lock of the mount table, in every state
    that any number of processes can reach by any interleaving of their system
    calls, with failures of any calls, and signals anywhere but between the
    removal of the lock file and the reset of the flag. *)
Theorem mtab_mutual_exclusion may_fail s p q lp lq :
  l_reachable may_fail sig_safe s ->
  procs s !! p = Some lp -> procs s !! q = Some lq -> lk_pc lp = Held -> lk_pc lq = Held -> p = q.
Proof.
  intros Hr Hp Hq Hlp Hlq.
  assert (Hinv : lock_inv s) by (eapply lock_inv_reachable; [|exact Hr]; done).
  destruct (Hinv p lp Hp) as [Hop Hp']. destruct (Hinv q lq Hq) as [Hoq Hq'].
  unfold pc_ok, owns in *. rewrite Hlp in *. rewrite Hlq in *.
  specialize (Hp' Hop). specialize (Hq' Hoq). congruence.
Qed.

(** Three processes; the first takes the lock in eight steps. *)
Definition three : lsys :=
  mk_lsys (<[1 := lk_init]> (<[2 := lk_init]> (<[3 := lk_init]> ∅))) (mk_lfs ∅ None).

Definition take_lock (p : Z) : list action := a_lock p :: replicate 6 (a_step p).

Lemma three_initial may_fail sig : l_reachable may_fail sig three.
Proof.
  constructor. split; [|done]. intros p l. unfold three. simpl.
  rewrite !lookup_insert_Some, lookup_empty. naive_solver.
Qed.

Lemma mtab_mutual_exclusion_witness :
  exists s l, acts sig_safe (take_lock 1 ++ [a_lock 2; a_step 2; a_step 2]) three = Some s /\
    procs s !! 1 = Some l /\ lk_pc l = Held /\
    (forall q lq, procs s !! q = Some lq -> lk_pc lq = Held -> q = 1).
Proof.
  destruct (acts sig_safe (take_lock 1 ++ [a_lock 2; a_step 2; a_step 2]) three) as [s|] eqn:Hs;
    [|vm_compute in Hs; discriminate Hs].
  assert (Hr : l_reachable (fun _ => True) sig_safe s)
    by exact (acts_reachable _ _ _ _ _ (three_initial _ _) Hs).
  assert (Hl : exists l, procs s !! 1 = Some l /\ lk_pc l = Held)
    by (vm_compute in Hs; injection Hs as <-; vm_compute; eauto).
  destruct Hl as (l & Hl & Hpc). exists s, l. split_and!; [done..|]. intros q lq Hq Hheld.
  exact (mtab_mutual_exclusion (fun _ => True) s q 1 lq l Hr Hq Hl Hheld Hpc).
Defined.

(** C37: A signal between the removal of the lock file and the reset of the flag
    breaks the lock: the handler removes the lock file that another process has
    made in the meantime, and two processes hold the lock. *)
Theorem signal_breaks_lock :
  exists s l2 l3, l_reachable (fun _ => False) sig_any s /\
    procs s !! 2 = Some l2 /\ lk_pc l2 = Held /\ procs s !! 3 = Some l3 /\ lk_pc l3 = Held.
Proof.
  set (sched := take_lock 1 ++ [a_unlock 1; a_step 1; a_step 1] ++ take_lock 2 ++
    [a_signal 1; a_step 1; a_step 1] ++ take_lock 3).
  destruct (acts sig_any sched three) as [s|] eqn:Hs; [|vm_compute in Hs; discriminate Hs].
  assert (Hr : l_reachable (fun _ => False) sig_any s)
    by exact (acts_reachable _ _ _ _ _ (three_initial _ _) Hs).
  vm_compute in Hs. injection Hs as Hs. exists s. rewrite <- Hs in *.
  do 2 eexists. split; [exact Hr|]. vm_compute. split_and!; reflexivity.
Qed.

(** ** Progress *)

Definition in_loop (l : lk) : Prop :=
  lk_pc l = L_link \/ lk_pc l = L_linked (Some E_EXIST) \/
  lk_pc l = L_open_lock false \/ lk_pc l = L_setlkw \/ lk_pc l = L_close.

(** The lock file is that of a process that owns it, and a process in the loop
    has its target. *)
Record live_inv (s : lsys) : Prop := {
  li_lock : lock_inv s;
  li_owner : forall q, lockfile (fs s) = Some q -> exists l, procs s !! q = Some l /\ owns l = true;
  li_target : forall p l, procs s !! p = Some l -> in_loop l -> p ∈ targets (fs s) }.

Section Progress.
Context (may_fail : lcall -> Prop) (Hremove : ~ may_fail unlink_lock).

Lemma owns_kept l r l' :
  pc_ok l -> lock_step l r = Some l' -> owns l = true ->
  owns l' = true \/ lk_pc l = U_unlink \/ lk_pc l = D_unlink.
Proof.
  destruct l as [pc w fd t st c]. unfold lock_step, loop_head, die, pc_ok, owns.
  case_pc pc; destruct w, r; simpl; intros Hok Hs Ho; simplify_eq;
    repeat match type of Hs with
    | context [if ?b then _ else _] => destruct b eqn:?
    end; simplify_eq/=; eauto.
Qed.

(** Who is in the loop after a step was there before, or has just made its
    target. *)
Lemma in_loop_step l r l' :
  pc_ok l -> lock_step l r = Some l' -> in_loop l' ->
  in_loop l \/ lk_pc l = L_open_target /\ exists fd, r = Ok fd.
Proof.
  destruct l as [pc w fd t st c]. unfold lock_step, loop_head, die, pc_ok, in_loop.
  case_pc pc; destruct w, r; simpl; intros Hok Hs Hin; simplify_eq;
    repeat match type of Hs with
    | context [if ?b then _ else _] => destruct b eqn:?
    end; to_prop; simplify_eq/=; naive_solver.
Qed.

(** A call keeps the targets of the others, and the caller's too while it is in
    the loop. *)
Lemma sys_call_targets p c f r f' l :
  sys_call may_fail p c f r f' -> call_of l = Some c ->
  (forall q, q <> p -> q ∈ targets f -> q ∈ targets f') /\
  (in_loop l -> p ∈ targets f -> p ∈ targets f') /\
  (lk_pc l = L_open_target -> (exists fd, r = Ok fd) -> p ∈ targets f').
Proof.
  destruct 1; intros Hc; simpl; (split_and!; [set_solver| |]); unfold in_loop, call_of in *;
    destruct l as [pc w fd' t st cd]; simpl in *; try set_solver;
    case_pc pc; simplify_eq/=; try naive_solver; set_solver.
Qed.

(** The removal of the lock file succeeds. *)
Lemma sys_call_removes p c f r f' l :
  sys_call may_fail p c f r f' -> call_of l = Some c ->
  lk_pc l = U_unlink \/ lk_pc l = D_unlink -> lockfile f' = None.
Proof.
  intros Hs Hc Hpc. unfold call_of in Hc. assert (c = unlink_lock) as -> by (destruct Hpc as [E|E]; rewrite E in Hc; congruence).
  inversion Hs; subst; try done; naive_solver.
Qed.

(** One process moves to [l'] and the files to [f']. *)
Lemma live_inv_move p l l' P f f' :
  live_inv (mk_lsys P f) -> P !! p = Some l -> lock_inv (mk_lsys (<[p := l']> P) f') ->
  (owns l = true -> owns l' = true \/ lockfile f' = None) ->
  (lockfile f' = lockfile f \/ lockfile f' = None \/ lockfile f' = Some p /\ owns l' = true) ->
  (forall q, q <> p -> q ∈ targets f -> q ∈ targets f') ->
  (in_loop l' -> p ∈ targets f') ->
  live_inv (mk_lsys (<[p := l']> P) f').
Proof.
  intros [_ Hlf Htg] Hp Hinv Ho Hf Ht Hin. simpl in *. constructor; simpl; [done|..].
  - intros q Hq. destruct Hf as [Hf|[Hf|[Hf Hol]]]; [|congruence|].
    + rewrite Hf in Hq. destruct (Hlf q Hq) as (lq & Hlq & Hoq).
      destruct (decide (q = p)) as [->|Hne].
      * rewrite Hp in Hlq. injection Hlq as <-. exists l'. rewrite lookup_insert_eq. split; [done|].
        destruct (Ho Hoq) as [|H0]; [done|]. congruence.
      * exists lq. by rewrite lookup_insert_ne by done.
    + assert (q = p) as -> by congruence. exists l'. by rewrite lookup_insert_eq.
  - intros q lq Hq Hinq. destruct (decide (q = p)) as [->|Hne].
    + rewrite lookup_insert_eq in Hq. injection Hq as <-. auto.
    + rewrite lookup_insert_ne in Hq by done. eauto.
Qed.

Lemma live_inv_step s s' : live_inv s -> lstep may_fail sig_none s s' -> live_inv s'.
Proof.
  intros Hlive Hst. assert (Hinv' : lock_inv s')
    by (eapply lock_inv_step; [|exact (li_lock _ Hlive)|exact Hst]; done).
  destruct Hst as [p l P f Hp Hpc|p l P f Hp Hpc|p l l' P f Hp Hc Hl|
    p l l' c r P f f' Hp Hc Hs Hl|p l P f Hp Hpc]; [..|done].
  all: destruct (li_lock _ Hlive p l Hp) as [Hok Hown]; simpl in Hown;
    (eapply live_inv_move; [done..| | | |]); auto.
  - unfold pc_ok, owns in *. rewrite Hpc in *. congruence.
  - intros [H|[H|[H|[H|H]]]]; discriminate H.
  - unfold unlock_mtab, pc_ok, owns in *. rewrite Hpc in *. rewrite Hok. simpl. auto.
  - unfold unlock_mtab, in_loop, pc_ok in *. rewrite Hpc in Hok. rewrite Hok. simpl. naive_solver.
  - intros Ho. destruct (owns_kept _ _ _ Hok Hl Ho) as [|[E|E]]; [auto|..]; unfold call_of in Hc;
      by rewrite E in Hc.
  - intros Hin. destruct (in_loop_step _ _ _ Hok Hl Hin) as [|[E _]]; [by eapply (li_target _ Hlive)|].
    unfold call_of in Hc. by rewrite E in Hc.
  - intros Ho. destruct (owns_kept _ _ _ Hok Hl Ho) as [|E]; [auto|].
    right. by eapply sys_call_removes.
  - destruct (sys_call_lock may_fail p c f r f' l Hs Hc Hok) as [|[(E & En & E')|[_ E]]]; [auto| |].
    + right. right. split; [done|]. unfold lock_step in Hl. rewrite E in Hl. injection Hl as <-.
      unfold call_of in Hc. rewrite E in Hc. injection Hc as <-. inversion Hs; subst; simpl in *; first [done|congruence].
    + right. left. by eapply sys_call_removes.
  - apply (sys_call_targets p c f r f' l Hs Hc).
  - intros Hin. destruct (sys_call_targets p c f r f' l Hs Hc) as (_ & H1 & H2).
    destruct (in_loop_step _ _ _ Hok Hl Hin) as [Hi|[E Hr]]; [|auto].
    apply H1; [done|]. by eapply (li_target _ Hlive).
Qed.

Lemma live_inv_reachable s : l_reachable may_fail sig_none s -> live_inv s.
Proof.
  induction 1 as [s [Hi Hn]|s s' _ IH Hst]; [|by eapply live_inv_step]. constructor.
  - intros p l Hp. by rewrite (Hi p l Hp).
  - congruence.
  - intros p l Hp. rewrite (Hi p l Hp). intros [H|[H|[H|[H|H]]]]; discriminate H.
Qed.

(** ** Finding a way to the lock *)

Lemma act_steps l s s' : acts sig_none l s = Some s' -> rtc (lstep may_fail sig_none) s s'.
Proof.
  revert s. induction l as [|a l IH]; intros s; simpl; [intros [= <-]; constructor|].
  intros (s1 & Ha & Hs)%bind_Some. eapply rtc_l; [by eapply act_step|by apply IH].
Qed.

(** How far the owner is from removing the lock file. *)
Definition rank (l : lk) : nat :=
  match lk_pc l with
  | L_linked _ => 8 | L_open_lock _ => 7 | L_setlk => 6 | L_unlink => 5 | Held => 4
  | L_fail_unlink _ => 4 | L_fail_close => 3
  | U_close | D_close => 2 | U_unlink | D_unlink => 1
  | _ => 0
  end.

Definition owner_action (q : Z) (l : lk) : action :=
  match lk_pc l with Held => a_unlock q | _ => a_step q end.

Lemma owner_moves q l P s :
  P !! q = Some l -> pc_ok l -> owns l = true ->
  exists l' f', act sig_none (owner_action q l) (mk_lsys P (mk_lfs s (Some q))) =
      Some (mk_lsys (<[q := l']> P) f') /\
    (forall p, p <> q -> p ∈ s -> p ∈ targets f') /\
    (lockfile f' = None \/ lockfile f' = Some q /\ owns l' = true /\ (rank l' < rank l)%nat).
Proof.
  intros Hq Hok Ho. destruct l as [pc w fd t st c]. unfold owner_action, act, owns, pc_ok in *.
  unfold lock_step, call_of, unlock_mtab, loop_head, die.
  case_pc pc; simpl in *; simplify_eq; rewrite Hq; simpl; do 2 eexists; (split; [reflexivity|]); simpl;
    (split; [set_solver|]); auto; right; (split_and!; [done..|]); unfold rank; simpl; lia.
Qed.

(** From any state the owner, if there is one, gives the lock file up without
    the others moving. *)
Lemma lock_freed n P f p l :
  live_inv (mk_lsys P f) -> P !! p = Some l -> in_loop l ->
  (forall q lq, lockfile f = Some q -> P !! q = Some lq -> (rank lq < n)%nat) ->
  exists P' f', rtc (lstep may_fail sig_none) (mk_lsys P f) (mk_lsys P' f') /\
    P' !! p = Some l /\ p ∈ targets f' /\ lockfile f' = None.
Proof.
  revert P f. induction n as [|n IH]; intros P f Hlive Hp Hin Hr;
    (destruct (lockfile f) as [q|] eqn:Hf;
     [|exists P, f; split_and!; [done..|by eapply (li_target _ Hlive)|done]]).
  { destruct (li_owner _ Hlive q Hf) as (lq & Hq & _). specialize (Hr q lq eq_refl Hq). lia. }
  destruct (li_owner _ Hlive q Hf) as (lq & Hq & Ho). simpl in Hq.
  destruct (li_lock _ Hlive q lq Hq) as [Hokq _]. destruct (li_lock _ Hlive p l Hp) as [Hokp _].
  assert (Hne : p <> q).
  { intros ->. rewrite Hp in Hq. injection Hq as <-. unfold in_loop, owns, pc_ok in *.
    destruct l as [pc w fd t st c]. simpl in *. case_pc pc; naive_solver. }
  destruct f as [s o]. simpl in Hf. subst o.
  destruct (owner_moves q lq P s Hq Hokq Ho) as (l' & f' & Ha & Ht & Hc).
  pose proof (act_step may_fail sig_none _ _ _ Ha) as Hst.
  assert (Hlive' := live_inv_step _ _ Hlive Hst).
  destruct (IH (<[q := l']> P) f') as (P' & f2 & Hrun & Hrest); [done| |done| |].
  - by rewrite lookup_insert_ne by done.
  - intros q' lq' Hq' Hl'. destruct Hc as [Hc|(Hc & _ & Hlt)]; [congruence|].
    assert (q' = q) as -> by congruence. rewrite lookup_insert_eq in Hl'. injection Hl' as <-.
    specialize (Hr q lq eq_refl Hq). lia.
  - exists P', f2. split; [by eapply rtc_l|done].
Qed.

(** With no lock file, a process at the head of the loop takes the lock. *)
Lemma lock_taken P f p l :
  P !! p = Some l -> lk_pc l = L_link -> p ∈ targets f -> lockfile f = None ->
  exists s' l', acts sig_none (replicate 5 (a_step p)) (mk_lsys P f) = Some s' /\
    procs s' !! p = Some l' /\ lk_pc l' = Held.
Proof.
  intros Hp Hpc Hin Hf. destruct l as [pc w fd t st c], f as [s o]. simpl in *. subst.
  simpl. rewrite Hp. simpl. rewrite decide_True by done. simpl.
  do 4 (rewrite lookup_insert_eq; simpl). do 2 eexists. split; [reflexivity|].
  simpl. rewrite lookup_insert_eq. split; done.
Qed.

(** The counters of the process leave it another round. *)
Definition rounds_left (l : lk) : Prop := 0 < lk_tries l /\ lk_static_tries l < 100000.

(** With no lock file, a process anywhere in the loop comes to the head of it. *)
Lemma back_at_head P f p l :
  P !! p = Some l -> pc_ok l -> in_loop l -> rounds_left l -> lockfile f = None ->
  exists P' l', rtc (lstep may_fail sig_none) (mk_lsys P f) (mk_lsys P' f) /\ P' !! p = Some l' /\ lk_pc l' = L_link.
Proof.
  intros Hp Hok Hin [Ht Hst] Hf.
  assert (Hgo : exists k P' l', acts sig_none (replicate k (a_step p)) (mk_lsys P f) = Some (mk_lsys P' f) /\
    P' !! p = Some l' /\ lk_pc l' = L_link).
  2:{ destruct Hgo as (k & P' & l' & Ha & Hp' & Hl'). exists P', l'. split; [by eapply act_steps|done]. }
  destruct l as [pc w fd t st c], f as [ts o]. unfold in_loop, pc_ok in *. simpl in *. subst o.
  assert (H1 : (0 <? t) = true) by lia. assert (H2 : (100000 <? st + 1) = false) by lia.
  destruct Hin as [-> |[-> |[-> |[-> | ->]]]]; simpl in Hok; subst w;
    [exists 0%nat|exists 2%nat|exists 1%nat|exists 2%nat|exists 1%nat]; simpl; rewrite ?Hp;
    unfold lock_step, loop_head; simpl; rewrite ?lookup_insert_eq; simpl; rewrite ?H1, ?H2; simpl;
    rewrite ?lookup_insert_eq; simpl; (do 2 eexists; split; [reflexivity|]);
    rewrite ?lookup_insert_eq; by eauto.
Qed.
End Progress.

(** C13: No process waits for the lock of the mount table for ever.  Let no signals
    arrive and the removal of the lock file not fail (other calls may); then in every
    state reached by any number of processes, a process that is in the loop of
    [lock_mtab] without the lock, at its [link], after it gave EEXIST, at the [open],
    the [fcntl] or the [close], and whose two counters leave it another round (it
    exits after 100000 of them), is not locked out: there is a run from that state in
    which it gets the lock, where the owner of the lock file, if there is one, goes
    on to remove it, and then the process makes its own. *)
Theorem mtab_lock_progress (may_fail : lcall -> Prop) s p l :
  ~ may_fail unlink_lock -> l_reachable may_fail sig_none s ->
  procs s !! p = Some l -> in_loop l -> rounds_left l ->
  exists s' l', rtc (lstep may_fail sig_none) s s' /\ procs s' !! p = Some l' /\ lk_pc l' = Held.
Proof.
  intros Hrem Hr Hp Hpc Hrounds. destruct s as [P f].
  pose proof (live_inv_reachable may_fail Hrem _ Hr) as Hlive.
  destruct (lock_freed may_fail Hrem 9 P f p l) as (P' & f' & Hrun & Hp' & Hin & Hf);
    [done|done|done| |].
  { intros q lq _ _. unfold rank. destruct (lk_pc lq); lia. }
  destruct (li_lock _ Hlive p l Hp) as [Hok _].
  destruct (back_at_head may_fail P' f' p l Hp' Hok Hpc Hrounds Hf) as (P2 & l2 & Hrun2 & Hp2 & Hl2).
  destruct (lock_taken P2 f' p l2 Hp2 Hl2 Hin Hf) as (s' & l' & Ha & Hl' & Hh).
  exists s', l'. split; [|done]. etransitivity; [exact Hrun|]. etransitivity; [exact Hrun2|by eapply act_steps].
Qed.

(** The second process has found the lock file of the first one. *)
Lemma mtab_lock_progress_witness :
  exists s l, acts sig_none (take_lock 1 ++ [a_lock 2; a_step 2; a_step 2; a_step 2; a_step 2]) three = Some s /\
    procs s !! 2 = Some l /\ lk_pc l = L_setlkw /\
    exists s' l', rtc (lstep (fun c => c <> unlink_lock) sig_none) s s' /\
      procs s' !! 2 = Some l' /\ lk_pc l' = Held.
Proof.
  destruct (acts sig_none (take_lock 1 ++ [a_lock 2; a_step 2; a_step 2; a_step 2; a_step 2]) three) as [s|] eqn:Hs;
    [|vm_compute in Hs; discriminate Hs].
  assert (Hr : l_reachable (fun c => c <> unlink_lock) sig_none s)
    by exact (acts_reachable _ _ _ _ _ (three_initial _ _) Hs).
  assert (Hl : exists l, procs s !! 2 = Some l /\ lk_pc l = L_setlkw /\ rounds_left l)
    by (vm_compute in Hs; injection Hs as <-; vm_compute; eauto).
  destruct Hl as (l & Hl & Hpc & Hrl). exists s, l. split_and!; [done..|].
  refine (mtab_lock_progress (fun c => c <> unlink_lock) s 2 l (fun H => H eq_refl) Hr Hl _ Hrl).
  by right; right; right; left.
Defined.
