(* ===== verification/Mtab.v ===== *)
(** * The mount table and its chain ([nfs3/fstab.c])

    The entries of /etc/mtab, /proc/mounts and /etc/fstab are read into a doubly
    linked chain whose head is a dummy.  [update_mtab] reads the table again
    under the lock, changes the chain, writes it to /etc/mtab.tmp and renames
    that.  A process may end in [die], so a step returns a value or the code of
    [exit].  The C library and the system calls are the class [SysEnv]; what
    they write to stderr is not modelled. *)

From S2P Require Import Prelude Mntent Lock.

Record mntentchn := mk_chn { nxt : Z; prev : Z; chn_m : nfs_mntent }.

Inductive fname := MOUNTED | PROC_MOUNTS | PATH_FSTAB | MOUNTED_TEMP.

Global Instance fname_eq_dec : EqDecision fname.
Proof. solve_decision. Defined.

(** The calls that may fail.  [FERROR f]: whether there was an error while [f]
    was read. *)
Inductive syscall :=
  | LSTAT | OPEN_RDWR | FOPEN (f : fname) | FERROR (f : fname) | FSEEK | RENAME.

Class SysEnv := {
  sysenv : Type;
  sys_fails : syscall -> sysenv -> bool * sysenv;
  (** a write that fails, with the number of bytes that were written, by
      [fprintf] and, of what is still in its buffer, by [fclose] *)
  fprintf_fails : sysenv -> option nat * sysenv;
  fclose_cuts : sysenv -> option nat * sysenv;
  (** the system calls of the lock *)
  lock_result : lcall -> sysenv -> lresult * sysenv;
  (** [malloc] of an entry of the chain, and of anything else *)
  malloc_chn : gmap Z mntentchn -> sysenv -> option Z * sysenv;
  malloc_mnt : sysenv -> bool * sysenv }.

(** [mt_symlink]: /etc/mtab is a symbolic link.  The statics follow. *)
Record mt `{S : SysEnv} := mk_mt {
  mt_heap : gmap Z mntentchn;
  mt_files : fname -> option (list Z);
  mt_symlink : bool;
  have_mtab_info : bool;
  var_mtab_does_not_exist : bool;
  var_mtab_is_a_symlink : bool;
  got_mtab : bool;
  got_fstab : bool;
  mt_lock : lk;
  mt_env : sysenv }.
Arguments mt {S}.
Arguments mk_mt {S} _ _ _ _ _ _ _ _ _ _.

Definition EX_SYSERR : Z := 2.
Definition MNTTYPE_IGNORE : list Z := [105; 103; 110; 111; 114; 101].

(** The heads: two statics and a local of [update_mtab]. *)
Definition mounttable : Z := 8.
Definition fstab : Z := 16.
Definition mtabhead : Z := 24.

Section Mtab.
Context `{S : SysEnv}.

(** ** Steps of a process that may exit *)

Definition X (A : Type) : Type := XM mt A.

Definition set_mheap (h : gmap Z mntentchn) (t : mt) : mt :=
  mk_mt h (mt_files t) (mt_symlink t) (have_mtab_info t) (var_mtab_does_not_exist t)
    (var_mtab_is_a_symlink t) (got_mtab t) (got_fstab t) (mt_lock t) (mt_env t).
Definition set_mfiles (f : fname -> option (list Z)) (t : mt) : mt :=
  mk_mt (mt_heap t) f (mt_symlink t) (have_mtab_info t) (var_mtab_does_not_exist t)
    (var_mtab_is_a_symlink t) (got_mtab t) (got_fstab t) (mt_lock t) (mt_env t).
Definition set_minfo (a b c : bool) (t : mt) : mt :=
  mk_mt (mt_heap t) (mt_files t) (mt_symlink t) a b c (got_mtab t) (got_fstab t) (mt_lock t) (mt_env t).
Definition set_got (a b : bool) (t : mt) : mt :=
  mk_mt (mt_heap t) (mt_files t) (mt_symlink t) (have_mtab_info t) (var_mtab_does_not_exist t)
    (var_mtab_is_a_symlink t) a b (mt_lock t) (mt_env t).
Definition set_mlock (l : lk) (t : mt) : mt :=
  mk_mt (mt_heap t) (mt_files t) (mt_symlink t) (have_mtab_info t) (var_mtab_does_not_exist t)
    (var_mtab_is_a_symlink t) (got_mtab t) (got_fstab t) l (mt_env t).
Definition set_menv (e : sysenv) (t : mt) : mt :=
  mk_mt (mt_heap t) (mt_files t) (mt_symlink t) (have_mtab_info t) (var_mtab_does_not_exist t)
    (var_mtab_is_a_symlink t) (got_mtab t) (got_fstab t) (mt_lock t) e.

Definition ask {A} (f : sysenv -> A * sysenv) : X A :=
  fun t => let '(a, e) := f (mt_env t) in Ret (inl a) (set_menv e t).

Definition put_file (f : fname) (c : option (list Z)) : X unit :=
  xmodify (fun t => set_mfiles (fun g => if decide (g = f) then c else mt_files t g) t).

Definition chn_get (p : Z) : X mntentchn :=
  fun t => match mt_heap t !! p with Some c => Ret (inl c) t | None => Undef end.
Definition chn_put (p : Z) (f : mntentchn -> mntentchn) : X unit :=
  fun t => match mt_heap t !! p with
           | Some c => Ret (inl tt) (set_mheap (<[p := f c]> (mt_heap t)) t)
           | None => Undef
           end.
Definition set_nxt (v : Z) (c : mntentchn) : mntentchn := mk_chn v (prev c) (chn_m c).
Definition set_prev (v : Z) (c : mntentchn) : mntentchn := mk_chn (nxt c) v (chn_m c).
Definition set_chn_m (v : nfs_mntent) (c : mntentchn) : mntentchn := mk_chn (nxt c) (prev c) v.

(** ** The lock, run to its end *)

(** Rounds enough for 100000 failures of each kind (see [lock_mtab_ends]). *)
Definition lock_fuel : nat := Z.to_nat 1100000.

Definition run_to_end (l : lk) : X unit :=
  fun t =>
    match run_lock lock_result lock_fuel l (mt_env t) with
    | None => NoFuel
    | Some (l, e) =>
        let t := set_menv e (set_mlock l t) in
        match lk_pc l with Exited c => Ret (inr c) t | _ => Ret (inl tt) t end
    end.

Definition lock_mtab_x : X unit := let^ t := xget in run_to_end (lock_mtab (mt_lock t)).
Definition unlock_mtab_x : X unit := let^ t := xget in run_to_end (unlock_mtab (mt_lock t)).
Definition die_x {A} (code : Z) : X A :=
  let^ t := xget in do^ run_to_end (die code (mt_lock t)) in xexit code.

(** [xmalloc] of an entry of the chain, and of the rest. *)
Definition xmalloc_chn : X Z :=
  let^ t := xget in
  let^ o := ask (malloc_chn (mt_heap t)) in
  match o with
  | None => die_x EX_SYSERR
  | Some p => do^ xmodify (fun t => set_mheap (<[p := mk_chn 0 0 (mk_mntent [] [] [] [] 0 0)]> (mt_heap t)) t) in xret p
  end.
Definition xmalloc_mnt : X unit :=
  let^ ok := ask malloc_mnt in if (ok : bool) then xret tt else die_x EX_SYSERR.

(** ** Information about mtab *)

Definition get_mtab_info : X unit :=
  let^ t := xget in
  if have_mtab_info t then xret tt
  else
    let^ fails := ask (sys_fails LSTAT) in
    let missing := (fails : bool) || match mt_files t MOUNTED with None => true | Some _ => false end in
    xmodify (set_minfo true (missing || var_mtab_does_not_exist t)
      ((negb missing && mt_symlink t) || var_mtab_is_a_symlink t)).

Definition mtab_does_not_exist : X bool :=
  do^ get_mtab_info in let^ t := xget in xret (var_mtab_does_not_exist t).

Definition mtab_is_a_symlink : X bool :=
  do^ get_mtab_info in let^ t := xget in xret (var_mtab_is_a_symlink t).

(** [open(MOUNTED, O_RDWR | O_CREAT)] makes the file when it is not there. *)
Definition mtab_is_writable : X bool :=
  let^ sl := mtab_is_a_symlink in
  if (sl : bool) then xret false
  else
    let^ fails := ask (sys_fails OPEN_RDWR) in
    if (fails : bool) then xret false
    else
      let^ t := xget in
      do^ (match mt_files t MOUNTED with None => put_file MOUNTED (Some []) | Some _ => xret tt end) in
      xret true.

(** ** Opening and closing *)

(** [nfs_setmntent(file, "r")]; [None] when the file cannot be opened. *)
Definition nfs_setmntent_r (f : fname) : X (option mntFILE) :=
  do^ xmalloc_mnt in
  let^ fails := ask (sys_fails (FOPEN f)) in
  let^ t := xget in
  do^ xmalloc_mnt in
  match mt_files t f with
  | Some c => if (fails : bool) then xret None else xret (Some (mk_mntFILE c 0 false 0))
  | None => xret None
  end.

(** [nfs_setmntent(file, "w")] empties the file. *)
Definition nfs_setmntent_w (f : fname) : X (option mntFILE) :=
  do^ xmalloc_mnt in
  let^ fails := ask (sys_fails (FOPEN f)) in
  do^ (if (fails : bool) then xret tt else put_file f (Some [])) in
  do^ xmalloc_mnt in
  if (fails : bool) then xret None else xret (Some (mk_mntFILE [] 0 false 0)).

(** [nfs_endmntent] of a file that was written: what its buffer still holds goes
    to the file, and an error there is not looked at. *)
Definition nfs_endmntent_w (f : fname) (mfp : mntFILE) : X unit :=
  let^ cut := ask fclose_cuts in
  put_file f (Some (match cut with None => mf_fp mfp | Some k => take k (mf_fp mfp) end)).

(** ** The chain *)

(** [discard_mntentchn]: the entries are freed from the first on. *)
Fixpoint discard_loop (fuel : nat) (mc mc0 : Z) : X unit :=
  if (mc =? 0) || (mc =? mc0) then xret tt
  else match fuel with
  | O => fun _ => NoFuel
  | Datatypes.S fuel =>
      let^ c := chn_get mc in
      do^ xmodify (fun t => set_mheap (delete mc (mt_heap t)) t) in
      discard_loop fuel (nxt c) mc0
  end.

Definition discard_mntentchn (fuel : nat) (mc0 : Z) : X unit :=
  let^ c := chn_get mc0 in discard_loop fuel (nxt c) mc0.

Fixpoint read_loop_mnt (fuel : nat) (mfp : mntFILE) (mc mc0 : Z) : X (Z * mntFILE) :=
  match fuel with
  | O => fun _ => NoFuel
  | Datatypes.S fuel =>
      match nfs_getmntent mfp with
      | None => fun _ => NoFuel
      | Some (None, mfp) => xret (mc, mfp)
      | Some (Some mnt, mfp) =>
          if bool_decide (mnt_type mnt = MNTTYPE_IGNORE) then read_loop_mnt fuel mfp mc mc0
          else
            let^ p := xmalloc_chn in
            do^ chn_put mc (set_nxt p) in
            do^ chn_put p (set_prev mc) in
            do^ chn_put p (set_chn_m mnt) in
            do^ chn_put p (set_nxt mc0) in
            read_loop_mnt fuel mfp p mc0
      end
  end.

Definition read_mntentchn (f : fname) (mfp : mntFILE) (mc0 : Z) : X unit :=
  let^ r := read_loop_mnt (Datatypes.S (length (mf_fp mfp))) mfp mc0 mc0 in
  do^ chn_put mc0 (set_prev r.1) in
  let^ err := ask (sys_fails (FERROR f)) in
  if (err : bool) then chn_put mc0 (fun c => set_prev 0 (set_nxt 0 c)) else xret tt.

Definition read_mounttable : X unit :=
  do^ xmodify (fun t => set_got true (got_fstab t) t) in
  do^ chn_put mounttable (fun c => set_prev 0 (set_nxt 0 c)) in
  let^ o := nfs_setmntent_r MOUNTED in
  match o with
  | Some mfp => read_mntentchn MOUNTED mfp mounttable
  | None =>
      let^ o := nfs_setmntent_r PROC_MOUNTS in
      match o with
      | Some mfp => read_mntentchn PROC_MOUNTS mfp mounttable
      | None => xret tt
      end
  end.

Definition read_fstab : X unit :=
  do^ xmodify (fun t => set_got (got_mtab t) true t) in
  do^ chn_put fstab (fun c => set_prev 0 (set_nxt 0 c)) in
  let^ o := nfs_setmntent_r PATH_FSTAB in
  match o with
  | Some mfp => read_mntentchn PATH_FSTAB mfp fstab
  | None => xret tt
  end.

Definition mtab_head : X Z :=
  let^ t := xget in do^ (if got_mtab t then xret tt else read_mounttable) in xret mounttable.

Definition fstab_head : X Z :=
  let^ t := xget in do^ (if got_fstab t then xret tt else read_fstab) in xret fstab.

(** The searches go along [link] until NULL or the head; 0 when nothing passes
    the test. *)
Fixpoint chn_search (link : mntentchn -> Z) (test : nfs_mntent -> bool) (fuel : nat) (mc mc0 : Z) : X Z :=
  if (mc =? 0) || (mc =? mc0) then xret 0
  else match fuel with
  | O => fun _ => NoFuel
  | Datatypes.S fuel =>
      let^ c := chn_get mc in
      if test (chn_m c) then xret mc else chn_search link test fuel (link c) mc0
  end.

Definition has_dir (name : list Z) (m : nfs_mntent) : bool := bool_decide (mnt_dir m = name).
Definition has_fsname (name : list Z) (m : nfs_mntent) : bool := bool_decide (mnt_fsname m = name).

Definition getmntdirbackward (fuel : nat) (name : list Z) (mcprev : Z) : X Z :=
  let^ mc0 := mtab_head in
  let mcprev := if mcprev =? 0 then mc0 else mcprev in
  let^ c := chn_get mcprev in
  chn_search prev (has_dir name) fuel (prev c) mc0.

Definition getmntdevbackward (fuel : nat) (name : list Z) (mcprev : Z) : X Z :=
  let^ mc0 := mtab_head in
  let mcprev := if mcprev =? 0 then mc0 else mcprev in
  let^ c := chn_get mcprev in
  chn_search prev (has_fsname name) fuel (prev c) mc0.

Definition getfsfile (fuel : nat) (file : list Z) : X Z :=
  let^ mc0 := fstab_head in
  let^ c := chn_get mc0 in
  chn_search nxt (has_dir file) fuel (nxt c) mc0.

Definition getfsspec (fuel : nat) (spec : list Z) : X Z :=
  let^ mc0 := fstab_head in
  let^ c := chn_get mc0 in
  chn_search nxt (has_fsname spec) fuel (nxt c) mc0.

(** ** Updating mtab *)

(** Rounds enough for a chain in this heap. *)
Definition chn_fuel : X nat := let^ t := xget in xret (Datatypes.S (size (mt_heap t))).

(** The change of the chain at [mtabhead]. *)
Definition update_chain (dir : list Z) (instead : option nfs_mntent) : X unit :=
  let^ fuel := chn_fuel in
  let^ head := chn_get mtabhead in
  let^ mc := chn_search prev (has_dir dir) fuel (prev head) mtabhead in
  if negb (mc =? 0) then
    match instead with
    | None =>
        let^ c := chn_get mc in
        do^ chn_put (prev c) (set_nxt (nxt c)) in
        do^ chn_put (nxt c) (set_prev (prev c)) in
        xmodify (fun t => set_mheap (delete mc (mt_heap t)) t)
    | Some i =>
        chn_put mc (fun c =>
          let m := chn_m c in
          set_chn_m (mk_mntent (mnt_fsname m) (mnt_dir m) (mnt_type m) (mnt_opts i)
                       (mnt_freq m) (mnt_passno m)) c)
    end
  else match instead with
  | None => xret tt
  | Some i =>
      let^ absent := xmalloc_chn in
      do^ chn_put absent (set_chn_m i) in
      do^ chn_put absent (set_nxt mtabhead) in
      let^ head := chn_get mtabhead in
      do^ chn_put absent (set_prev (prev head)) in
      do^ chn_put mtabhead (set_prev absent) in
      if nxt head =? 0 then chn_put mtabhead (set_nxt absent) else xret tt
  end.

(** The loop that writes the chain; an error ends the process. *)
Fixpoint write_chain (fuel : nat) (mc mc0 : Z) (mftmp : mntFILE) : X mntFILE :=
  if (mc =? 0) || (mc =? mc0) then xret mftmp
  else match fuel with
  | O => fun _ => NoFuel
  | Datatypes.S fuel =>
      let^ c := chn_get mc in
      let^ seek := ask (sys_fails FSEEK) in
      let^ cut := ask fprintf_fails in
      let '(res, mftmp) := nfs_addmntent (negb seek) cut mftmp (chn_m c) in
      if res =? 1 then die_x EX_FILEIO else write_chain fuel (nxt c) mc0 mftmp
  end.

(** [fchmod], [stat] and [chown] of the temporary file change its mode and owner
    only, and their errors are not looked at. *)
Definition rewrite_mtab : X unit :=
  let^ o := nfs_setmntent_w MOUNTED_TEMP in
  match o with
  | None => xret tt
  | Some mftmp =>
      let^ fuel := chn_fuel in
      let^ head := chn_get mtabhead in
      let^ mftmp := write_chain fuel (nxt head) mtabhead mftmp in
      do^ discard_mntentchn fuel mtabhead in
      do^ nfs_endmntent_w MOUNTED_TEMP mftmp in
      let^ fails := ask (sys_fails RENAME) in
      if (fails : bool) then xret tt
      else
        let^ t := xget in
        do^ put_file MOUNTED (mt_files t MOUNTED_TEMP) in
        put_file MOUNTED_TEMP None
  end.

Definition update_mtab (dir : list Z) (instead : option nfs_mntent) : X unit :=
  let^ gone := mtab_does_not_exist in
  if (gone : bool) then xret tt
  else
    let^ writable := mtab_is_writable in
    if negb writable then xret tt
    else
      do^ lock_mtab_x in
      do^ xmodify (fun t =>
        set_mheap (<[mtabhead := mk_chn 0 0 (mk_mntent [] [] [] [] 0 0)]> (mt_heap t)) t) in
      let^ o := nfs_setmntent_r MOUNTED in
      do^ (match o with
           | None => xret tt
           | Some mfp =>
               do^ read_mntentchn MOUNTED mfp mtabhead in
               do^ update_chain dir instead in
               rewrite_mtab
           end) in
      unlock_mtab_x.

End Mtab.
