(* ===== verification/MtabFacts.v ===== *)
(** * What reading and rewriting the mount table do

    Rules for steps that may exit, the chain as a list of entries, and the
    specifications of the parts of [update_mtab].  Every specification is total:
    whatever the system calls return, the part returns or exits, and touches no
    memory that is not there. *)

From S2P Require Import Prelude Mntent MntentSpec Lock LockSpec Mtab.

(** ** The table as a list *)

(** The entries that [read_mntentchn] keeps. *)
Fixpoint read_entries (fuel : nat) (mfp : mntFILE) : list nfs_mntent :=
  match fuel with
  | O => []
  | S fuel =>
      match nfs_getmntent mfp with
      | Some (Some mnt, mfp) =>
          if bool_decide (mnt_type mnt = MNTTYPE_IGNORE) then read_entries fuel mfp
          else mnt :: read_entries fuel mfp
      | _ => []
      end
  end.

Definition entries (c : list Z) : list nfs_mntent :=
  read_entries (S (length c)) (mk_mntFILE c 0 false 0).

(** The text of a table. *)
Definition table_text (l : list nfs_mntent) : list Z := concat (mntent_line <$> l).

Definition with_opts (o : list Z) (m : nfs_mntent) : nfs_mntent :=
  mk_mntent (mnt_fsname m) (mnt_dir m) (mnt_type m) o (mnt_freq m) (mnt_passno m).

(** [f] on the last entry that passes the test; [None] when there is none. *)
Fixpoint change_last (test : nfs_mntent -> bool) (f : nfs_mntent -> list nfs_mntent)
    (l : list nfs_mntent) : option (list nfs_mntent) :=
  match l with
  | [] => None
  | x :: l =>
      match change_last test f l with
      | Some l' => Some (x :: l')
      | None => if test x then Some (f x ++ l) else None
      end
  end.

(** What the links of the chain make of a table: without a new entry, the last one
    for the directory is removed; with one, it gets its options.  An entry for a
    directory that has none is linked at the head only, so that it is seen when the
    table is written only if there are no others. *)
Definition updated (dir : list Z) (instead : option nfs_mntent) (l : list nfs_mntent) :
    list nfs_mntent :=
  match change_last (has_dir dir)
          (fun m => match instead with None => [] | Some i => [with_opts (mnt_opts i) m] end) l with
  | Some l' => l'
  | None => match instead, l with Some i, [] => [i] | _, _ => l end
  end.

(** What the comments of [update_mtab] ask for: remove the last entry of the
    directory; on a remount update its options; not found, add a new entry. *)
Definition wanted (dir : list Z) (instead : option nfs_mntent) (l : list nfs_mntent) : list nfs_mntent :=
  match change_last (has_dir dir)
          (fun m => match instead with None => [] | Some i => [with_opts (mnt_opts i) m] end) l with
  | Some l' => l'
  | None => l ++ match instead with None => [] | Some i => [i] end
  end.

(** The calls for which the chain gives what is asked for: the entry is removed, it
    is there, or it is the first one. *)
Definition in_place (dir : list Z) (instead : option nfs_mntent) (l : list nfs_mntent) : bool :=
  match instead, l with None, _ | _, [] => true | Some _, _ => existsb (has_dir dir) l end.

Lemma change_last_found test f l : is_Some (change_last test f l) <-> existsb test l = true.
Proof.
  induction l as [|x l IH]; simpl; [split; [by intros []|done]|].
  destruct (change_last test f l) as [l'|].
  - rewrite (proj1 IH), orb_true_r by eauto. by split; eauto.
  - destruct (existsb test l); [destruct (proj2 IH eq_refl) as [? [=]]|]. rewrite orb_false_r.
    destruct (test x); split; first [done|by intros []|by eexists].
Qed.

Lemma updated_wanted dir instead l :
  updated dir instead l = if in_place dir instead l then wanted dir instead l else l.
Proof.
  unfold updated, wanted, in_place.
  match goal with |- context [change_last ?a ?b l] => pose proof (change_last_found a b l) as Hf; destruct (change_last a b l) end.
  - destruct instead, l; simpl in *; try done. by rewrite (proj1 Hf (mk_is_Some _ _ eq_refl)).
  - destruct instead, l; simpl in *; rewrite ?app_nil_r; try done.
    destruct (_ || _); [|done]. destruct (proj2 Hf eq_refl) as [? [=]].
Qed.

Lemma change_last_None test f l :
  Forall (fun x => test x = false) l -> change_last test f l = None.
Proof. induction 1 as [|x l Hx _ IH]; [done|]. simpl. by rewrite IH, Hx. Qed.

Lemma change_last_Some test f l1 x l2 :
  test x = true -> Forall (fun x => test x = false) l2 ->
  change_last test f (l1 ++ x :: l2) = Some (l1 ++ f x ++ l2).
Proof.
  intros Hx H2. induction l1 as [|y l1 IH]; simpl; [|by rewrite IH].
  by rewrite change_last_None, Hx.
Qed.

(** A list splits at the last entry that passes the test. *)
Lemma last_split {A} (test : A -> bool) (l : list A) :
  (Forall (fun x => test x = false) l) \/
  (exists l1 x l2, l = l1 ++ x :: l2 /\ test x = true /\ Forall (fun x => test x = false) l2).
Proof.
  induction l as [|x l IH]; [by left|]. destruct IH as [IH|(l1 & y & l2 & -> & Hy & H2)].
  - destruct (test x) eqn:E; [right; by exists [], x, l|left; by constructor].
  - right. by exists (x :: l1), y, l2.
Qed.

(** An entry that is read as it is written. *)
Definition tab_ok (m : nfs_mntent) : Prop :=
  mntent_wf m /\ (length (mntent_line m) <= 4095)%nat /\ mnt_type m <> MNTTYPE_IGNORE.

Lemma mntent_line_nonempty m : (0 < length (mntent_line m))%nat.
Proof. rewrite mntent_line_text, length_app. simpl. lia. Qed.

Lemma read_entries_text l fuel n :
  Forall tab_ok l -> (length (table_text l) < fuel)%nat ->
  read_entries fuel (mk_mntFILE (table_text l) n false 0) = l.
Proof.
  intros Hl. revert fuel n. induction Hl as [|m l (Hwf & Hlen & Hty) _ IH]; intros fuel n Hf;
    (destruct fuel as [|fuel]; [simpl in Hf; lia|]); [done|].
  change (table_text (m :: l)) with (mntent_line m ++ table_text l) in *. cbn [read_entries].
  rewrite getmntent_line by (done || (unfold ERR_MAX; lia)). rewrite bool_decide_eq_false_2 by done. f_equal.
  apply IH. rewrite length_app in Hf. pose proof (mntent_line_nonempty m). lia.
Qed.

Lemma entries_text l : Forall tab_ok l -> entries (table_text l) = l.
Proof. intros Hl. apply read_entries_text; [done|lia]. Qed.

(** ** Steps that may exit *)

Section Rules.
Context `{S : SysEnv}.

Lemma wp_ask {A} (f : sysenv -> A * sysenv) (Q : A + Z -> mt -> Prop) t :
  (forall a e, f (mt_env t) = (a, e) -> Q (inl a) (set_menv e t)) -> wp (ask f) Q t.
Proof.
  intros HQ. unfold ask. destruct (f (mt_env t)) as [a e] eqn:E. exists (inl a), (set_menv e t).
  rewrite E. auto.
Qed.

Lemma wp_chn_get p c (Q : mntentchn + Z -> mt -> Prop) t :
  mt_heap t !! p = Some c -> Q (inl c) t -> wp (chn_get p) Q t.
Proof. intros H HQ. exists (inl c), t. unfold chn_get. by rewrite H. Qed.

Lemma wp_chn_put p c f (Q : unit + Z -> mt -> Prop) t :
  mt_heap t !! p = Some c -> Q (inl tt) (set_mheap (<[p := f c]> (mt_heap t)) t) ->
  wp (chn_put p f) Q t.
Proof. intros H HQ. eexists _, _. unfold chn_put. rewrite H. split; [reflexivity|done]. Qed.

(** Some call of the system fails, at some time; errors while a file is read or
    closed, on which the code goes on, are not meant. *)
Inductive sys_failure : Prop :=
  | f_sys c e e' : sys_fails c e = (true, e') -> (forall f, c <> FERROR f) -> sys_failure
  | f_write e n e' : fprintf_fails e = (Some n, e') -> sys_failure
  | f_chn h e e' : malloc_chn h e = (None, e') -> sys_failure
  | f_mnt e e' : malloc_mnt e = (false, e') -> sys_failure
  | f_lock c e n e' : lock_result c e = (Err n, e') -> sys_failure.

(** On the way to the lock, when every call succeeds. *)
Definition lock_going (l : lk) : bool :=
  match lk_pc l with
  | L_open_target | L_link | L_linked None | L_open_lock true | L_setlk | L_unlink | Held => true
  | _ => false
  end.

Lemma lock_going_step l fd l' :
  pc_ok l -> lock_going l = true -> lock_step l (Ok fd) = Some l' -> lock_going l' = true.
Proof.
  unfold lock_going, lock_step, loop_head, pc_ok.
  destruct (lk_pc l) as [| | |[?|]|[]| | | | |[]| | | | | | | | |c]; intros Hp Hl Hs; simplify_eq/=; try done;
    by destruct (we_created_lockfile l).
Qed.

Lemma run_lock_going fuel l e l' e' :
  run_lock lock_result fuel l e = Some (l', e') -> lk_ok l -> lock_going l = true ->
  lock_going l' = true \/ sys_failure.
Proof.
  revert l e. induction fuel as [|fuel IH]; intros l e; simpl;
    (destruct (ends l) eqn:He; [intros; simplify_eq; by left|]); [done|].
  destruct (match call_of l with Some c => lock_result c e | None => (Ok 0, e) end) as [r e1] eqn:Hr.
  destruct (lock_step l r) as [l1|] eqn:Hs; [|done]. intros Hrun Hok Hg. destruct r as [fd|n].
  - eapply IH; [done|by eapply lk_ok_step|]. eapply lock_going_step; [apply Hok|done..].
  - right. destruct (call_of l) as [c|]; [by eapply f_lock|done].
Qed.

(** The lock. *)
Lemma wp_run_to_end l (Q : unit + Z -> mt -> Prop) t :
  lk_ok l ->
  (forall l' e', ends l' = true -> lk_ok l' -> in_unlock l' = in_unlock l ->
     (dying l = true -> dying l' = true) -> (lock_going l = true -> lock_going l' = true \/ sys_failure) ->
     Q (match lk_pc l' with Exited c => inr c | _ => inl tt end) (set_menv e' (set_mlock l' t))) ->
  wp (run_to_end l) Q t.
Proof.
  intros Hok HQ. destruct (run_lock_ends lock_result lock_fuel l (mt_env t)) as
    (l' & e' & Hr & He & Hok' & Hu & Hd); [done| |].
  { pose proof (lk_ok_measure l Hok). unfold lock_fuel. rewrite Z2Nat.id by lia. lia. }
  specialize (HQ l' e' He Hok' Hu Hd (run_lock_going _ _ _ _ _ Hr Hok)). unfold run_to_end, wp. rewrite Hr.
  destruct (lk_pc l'); eauto.
Qed.

(** Outside of the functions, and with the lock. *)
Definition unlocked (t : mt) : Prop :=
  lk_ok (mt_lock t) /\ we_created_lockfile (mt_lock t) = false.
Definition locked (t : mt) : Prop := lk_ok (mt_lock t) /\ lk_pc (mt_lock t) = Held.

Lemma wp_lock (Q : unit + Z -> mt -> Prop) t :
  lk_ok (mt_lock t) -> lk_pc (mt_lock t) = Idle ->
  (forall l e r, let t' := set_menv e (set_mlock l t) in
     (r = inl tt /\ locked t') \/ ((exists c, r = inr c) /\ unlocked t' /\ sys_failure) -> Q r t') ->
  wp lock_mtab_x Q t.
Proof.
  intros [Hpc Ht Hs] Hi HQ. apply wp_xbind, wp_xget, wp_run_to_end.
  { constructor; simpl; [|lia..]. unfold pc_ok in *. simpl. by rewrite Hi in Hpc. }
  intros l' e' He Hok Hu _ Hg. apply HQ. unfold ends, in_unlock, locked, unlocked, lock_going in *. simpl in *.
  pose proof (lo_pc _ Hok) as Hp. unfold pc_ok in Hp.
  destruct (lk_pc l') eqn:E; try discriminate; [by left|right]. destruct Hg as [Hg|Hg]; [done..|]. eauto.
Qed.

Lemma wp_unlock (Q : unit + Z -> mt -> Prop) t :
  locked t ->
  (forall l e, let t' := set_menv e (set_mlock l t) in unlocked t' -> lk_pc l = Idle -> Q (inl tt) t') ->
  wp unlock_mtab_x Q t.
Proof.
  intros [[Hpc Ht Hs] Hh] HQ. apply wp_xbind, wp_xget. unfold unlock_mtab.
  unfold pc_ok in Hpc. rewrite Hh in Hpc. rewrite Hpc. apply wp_run_to_end.
  { constructor; simpl; [done|lia..]. }
  intros l' e' He Hok Hu _ _. pose proof (lo_pc _ Hok) as Hp. unfold ends, in_unlock, pc_ok in *. simpl in Hu.
  destruct (lk_pc l') eqn:E; try discriminate. by apply HQ.
Qed.

Lemma wp_die {A} code (Q : A + Z -> mt -> Prop) t :
  lk_ok (mt_lock t) ->
  (forall l e c, let t' := set_menv e (set_mlock l t) in unlocked t' -> Q (inr c) t') ->
  wp (die_x code) Q t.
Proof.
  intros Hok HQ. apply wp_xbind, wp_xget. cbv beta iota. apply wp_xbind, wp_run_to_end.
  { destruct Hok as [Hpc Ht Hs]. unfold die.
    destruct (we_created_lockfile (mt_lock t)) eqn:E; constructor; simpl; done. }
  intros l' e' He Hok' _ Hd _.
  assert (dying l' = true) as Hd' by (apply Hd; unfold die; by destruct (we_created_lockfile _)).
  pose proof (lo_pc _ Hok') as Hp. unfold ends, dying, pc_ok in *.
  destruct (lk_pc l') as [| | |[?|]|[]| | | | |[]| | | | | | | | |c] eqn:E; try discriminate.
  by apply HQ.
Qed.
End Rules.

(** What [malloc] promises of an entry of the chain. *)
Class ChnLaws `{S : SysEnv} : Prop := {
  malloc_chn_law : forall h e p e', malloc_chn h e = (Some p, e') -> h !! p = None /\ p <> 0 }.

(** ** Chains *)

Abbreviation chn_list := (list (Z * nfs_mntent)).

(** The entries [l] after the entry at [a]; the last one goes back to [h]. *)
Fixpoint linked_from (H : gmap Z mntentchn) (a : Z) (l : chn_list) (h : Z) : Prop :=
  match l with
  | [] => True
  | (p, m) :: l => H !! p = Some (mk_chn (List.hd h l.*1) a m) /\ linked_from H p l h
  end.

(** The same without the links back. *)
Fixpoint follows (H : gmap Z mntentchn) (l : chn_list) (h : Z) : Prop :=
  match l with
  | [] => True
  | (p, m) :: l => (exists b, H !! p = Some (mk_chn (List.hd h l.*1) b m)) /\ follows H l h
  end.

(** The addresses of a chain and of its head. *)
Definition chn_places (h : Z) (l : chn_list) : Prop := NoDup (h :: l.*1) /\ 0 ∉ l.*1.

Lemma linked_insert H a l h p c :
  p ∉ l.*1 -> linked_from H a l h -> linked_from (<[p := c]> H) a l h.
Proof.
  revert a. induction l as [|[q m] l IH]; intros a Hp; [done|]. simpl in *.
  apply not_elem_of_cons in Hp as [Hq Hp]. intros [Hl Hf]. rewrite lookup_insert_ne by done. auto.
Qed.

Lemma follows_insert H l h p c : p ∉ l.*1 -> follows H l h -> follows (<[p := c]> H) l h.
Proof.
  induction l as [|[q m] l IH]; intros Hp; [done|]. simpl in *.
  apply not_elem_of_cons in Hp as [Hq Hp]. intros [Hl Hf]. rewrite lookup_insert_ne by done. auto.
Qed.

Lemma follows_delete H l h p : p ∉ l.*1 -> follows H l h -> follows (delete p H) l h.
Proof.
  induction l as [|[q m] l IH]; intros Hp; [done|]. simpl in *.
  apply not_elem_of_cons in Hp as [Hq Hp]. intros [Hl Hf]. rewrite lookup_delete_ne by done. auto.
Qed.

Lemma linked_follows H a l h : linked_from H a l h -> follows H l h.
Proof. revert a. induction l as [|[p m] l IH]; intros a; simpl; [done|]. intros [? ?]. eauto. Qed.

Lemma linked_app H a l1 l2 h :
  linked_from H a (l1 ++ l2) h ->
  linked_from H (List.last l1.*1 a) l2 h.
Proof.
  revert a. induction l1 as [|[p m] l1 IH]; intros a; [done|]. simpl app. intros [_ Hf].
  rewrite fmap_cons, last_cons_hd. by apply IH.
Qed.

(** ** Reading *)

Section Read.
Context `{S : SysEnv} {HCL : ChnLaws}.

(** The chain at [h] while it is read: [mc] is the last entry. *)
Record reading (t : mt) (h : Z) (l : chn_list) : Prop := {
  rd_head : exists b m, mt_heap t !! h = Some (mk_chn (List.hd 0 l.*1) b m);
  rd_links : linked_from (mt_heap t) h l h;
  rd_places : chn_places h l;
  rd_ne : h <> 0 }.

(** What the parts of [update_mtab] keep: the files and the lock. *)
Definition frame (t t' : mt) : Prop := mt_files t' = mt_files t /\ mt_lock t' = mt_lock t.

(** An exit leaves the files as they are and gives the lock up. *)
Definition exits {A} (t : mt) (r : A + Z) (t' : mt) : Prop :=
  (exists c, r = inr c) /\ mt_files t' = mt_files t /\ unlocked t' /\ sys_failure.

Lemma wp_malloc_chn (Q : Z + Z -> mt -> Prop) t :
  lk_ok (mt_lock t) ->
  (forall p e, mt_heap t !! p = None -> p <> 0 ->
     Q (inl p) (set_mheap (<[p := mk_chn 0 0 (mk_mntent [] [] [] [] 0 0)]> (mt_heap t)) (set_menv e t))) ->
  (forall r t', exits t r t' -> Q r t') ->
  wp xmalloc_chn Q t.
Proof.
  intros Hok HQ Hx. apply wp_xbind, wp_xget. cbv beta iota. apply wp_xbind, wp_ask. intros [p|] e He.
  - destruct (malloc_chn_law _ _ _ _ He) as [Hp Hp0]. apply wp_xbind, wp_xmodify.
    apply wp_xret. by apply HQ.
  - apply wp_die; [done|]. intros l e' c t' Hu. apply Hx. split_and!; [eauto|done|done|by eapply f_chn].
Qed.

Lemma last_in_ne (l : list Z) a : l <> [] -> List.last l a ∈ l.
Proof.
  destruct l as [|x l]; [done|]. intros _. rewrite last_cons_hd. apply last_in.
Qed.

(** A new last entry. *)
Lemma linked_snoc H H' a l h p m :
  linked_from H a l h -> NoDup (l.*1) ->
  H' !! p = Some (mk_chn h (List.last l.*1 a) m) ->
  (forall q, q ∈ l.*1 -> q <> List.last l.*1 a -> H' !! q = H !! q) ->
  (l <> [] -> exists c, H !! List.last l.*1 a = Some c /\ H' !! List.last l.*1 a = Some (set_nxt p c)) ->
  linked_from H' a (l ++ [(p, m)]) h.
Proof.
  revert a. induction l as [|[q n] l IH]; intros a Hl Hd Hp Hq Hlast; [done|].
  rewrite fmap_cons, last_cons_hd in *. simpl in Hl. destruct Hl as [Hqn Hl].
  apply NoDup_cons in Hd as [Hnq Hd]. simpl app. split.
  - destruct l as [|[r o] l].
    + destruct (Hlast ltac:(done)) as (c & Hc & Hc'). simpl in *. rewrite Hqn in Hc. injection Hc as <-.
      done.
    + rewrite Hq; [done|left|]. intros Heq. apply Hnq. simpl in Heq |- *. rewrite Heq.
      by apply (last_in_ne (r :: l.*1)).
  - apply IH; [done..| |].
    + intros r Hr Hne. apply Hq; [by right|done].
    + intros _. apply Hlast. done.
Qed.

Lemma linked_absent H a l h p : linked_from H a l h -> H !! p = None -> p ∈ l.*1 -> False.
Proof.
  revert a. induction l as [|[q n] l IH]; intros a Hl Hp Hin; [by apply not_elem_of_nil in Hin|].
  destruct Hl as [Hq Hl]. apply elem_of_cons in Hin as [->|Hin]; [simpl in *; congruence|eauto].
Qed.

Lemma linked_lookup_last H a l h :
  linked_from H a l h -> l <> [] -> exists b m, H !! List.last l.*1 a = Some (mk_chn h b m).
Proof.
  revert a. induction l as [|[q n] l IH]; intros a Hl Hne; [done|]. rewrite fmap_cons, last_cons_hd.
  destruct Hl as [Hq Hl]. destruct l as [|x l]; [eauto|]. by apply IH.
Qed.

Lemma read_chn_spec h fuel (Q : Z * mntFILE + Z -> mt -> Prop) l mfp t :
  reading t h l -> lk_ok (mt_lock t) -> (length (mf_fp mfp) < fuel)%nat ->
  (forall t' l' mfp', frame t t' -> reading t' h (l ++ l') -> l'.*2 = read_entries fuel mfp ->
     Q (inl (List.last (l ++ l').*1 h, mfp')) t') ->
  (forall r t', exits t r t' -> Q r t') ->
  wp (read_loop_mnt fuel mfp (List.last l.*1 h) h) Q t.
Proof.
  revert l mfp t. induction fuel as [|fuel IH]; intros l mfp t Hrd Hok Hlen HQ Hx; [lia|].
  cbn [read_loop_mnt read_entries] in *.
  destruct (getmntent_loop_total (Datatypes.S (length (mf_fp mfp))) mfp) as [[o mfp1] Hg]; [lia|].
  change (nfs_getmntent mfp = Some (o, mfp1)) in Hg. rewrite Hg in *. destruct o as [mnt|].
  2:{ apply wp_xret. specialize (HQ t [] mfp1). rewrite app_nil_r in HQ. apply HQ; done. }
  assert (Hl1 : (length (mf_fp mfp1) < fuel)%nat).
  { apply getmntent_loop_length in Hg. lia. }
  destruct (bool_decide (mnt_type mnt = MNTTYPE_IGNORE)); [by apply IH|].
  apply wp_xbind, wp_malloc_chn; [done| |].
  2:{ intros r t' [[c ->] Hrest]. apply Hx. split; eauto. }
  intros p e Hp Hp0.
  destruct Hrd as [(b & m0 & Hh) Hlk [Hnd Hz] Hne].
  set (mc := List.last l.*1 h).
  assert (Hmc : exists c, mt_heap t !! mc = Some c).
  { subst mc. destruct (decide (l = [])) as [->|Hl]; [eauto|].
    destruct (linked_lookup_last _ _ _ _ Hlk Hl) as (b' & m' & ->). eauto. }
  destruct Hmc as [c Hc]. assert (Hpm : p <> mc) by congruence.
  apply wp_xbind. eapply (wp_chn_put _ c); [by simpl; rewrite lookup_insert_ne|].
  apply wp_xbind. eapply wp_chn_put; [simpl; rewrite lookup_insert_ne, lookup_insert_eq by done; reflexivity|].
  apply wp_xbind. eapply wp_chn_put; [simpl; rewrite lookup_insert_eq; reflexivity|].
  apply wp_xbind. eapply wp_chn_put; [simpl; rewrite lookup_insert_eq; reflexivity|].
  cbv beta iota. set (t2 := set_mheap _ _). 
  assert (Hheap : mt_heap t2 = <[p := mk_chn h mc mnt]> (<[mc := set_nxt p c]> (mt_heap t))).
  { subst t2. simpl. rewrite !insert_insert_eq. apply map_eq. intros q.
    rewrite !lookup_insert. repeat case_decide; solve [congruence|done]. }
  assert (Hnew : reading t2 h (l ++ [(p, mnt)])).
  { assert (Hhl : (h ∉ l.*1) /\ NoDup l.*1) by by apply NoDup_cons.
    assert (Hph : p <> h) by (intros ->; congruence).
    assert (Hpl : p ∉ l.*1) by (intros Hin; by eapply linked_absent).
    constructor; [..|done].
    - rewrite Hheap, lookup_insert_ne by done. subst mc. destruct l as [|[q n] l].
      + simpl in *. rewrite lookup_insert_eq. rewrite Hh in Hc. injection Hc as <-. eauto.
      + rewrite lookup_insert_ne; [eauto|]. intros E. destruct Hhl as [Hn _]. apply Hn. rewrite <- E.
        by apply last_in_ne.
    - rewrite Hheap. eapply (linked_snoc (mt_heap t)); [done|tauto|by rewrite lookup_insert_eq|..].
      + intros q Hq Hqm. rewrite !lookup_insert_ne; [done|done|]. by intros ->.
      + intros _. exists c. split; [done|]. rewrite lookup_insert_ne by done. by rewrite lookup_insert_eq.
    - unfold chn_places. rewrite fmap_app. simpl. split.
      + rewrite app_comm_cons. apply NoDup_app. split_and!; [done| |apply NoDup_singleton].
        intros q Hq Hq'. apply list_elem_of_singleton in Hq' as ->. apply elem_of_cons in Hq. naive_solver.
      + rewrite not_elem_of_app, not_elem_of_cons. split_and!; [done|congruence|apply not_elem_of_nil]. }
  replace p with (List.last (l ++ [(p, mnt)]).*1 h) at 1 by (rewrite fmap_app; apply last_last).
  apply IH; [done|done|done| |].
  - intros t' l' mfp' Hf Hr Hl'. rewrite <- app_assoc in *. apply HQ; [done|done|].
    simpl. by f_equal.
  - intros r t' Hex. by apply Hx.
Qed.
End Read.
