(* ===== verification/MtabUpdate.v ===== *)
(** * The parts of [update_mtab] after the lock is taken

    [read_mntentchn] builds the chain of the entries, [update_chain] changes it
    the way [updated] changes their list, [rewrite_mtab] puts their text in
    place of the table. *)

From S2P Require Import Prelude Mntent MntentSpec Lock LockSpec Mtab MtabFacts.

(** ** More on chains *)

(** The links back. *)
Fixpoint backs (H : gmap Z mntentchn) (a : Z) (l : chn_list) : Prop :=
  match l with
  | [] => True
  | (p, m) :: l => (exists n, H !! p = Some (mk_chn n a m)) /\ backs H p l
  end.

Lemma fst_snoc (l : chn_list) p m : (l ++ [(p, m)]).*1 = l.*1 ++ [p].
Proof. by rewrite fmap_app. Qed.

Lemma linked_backs H a l h : linked_from H a l h -> backs H a l.
Proof. revert a. induction l as [|[p m] l IH]; intros a; [done|]. intros [? ?]. simpl. eauto. Qed.

Lemma backs_snoc H a l p m :
  backs H a (l ++ [(p, m)]) -> backs H a l /\ exists n, H !! p = Some (mk_chn n (List.last l.*1 a) m).
Proof.
  revert a. induction l as [|[q k] l IH]; intros a; simpl app.
  - intros [[n Hn] _]. split; [done|]. by exists n.
  - intros [Hq Hl]. apply IH in Hl as [Hb Hp]. by rewrite fmap_cons, last_cons_hd.
Qed.

Lemma hd_app (x : Z) l1 l2 : List.hd x (l1 ++ l2) = List.hd (List.hd x l2) l1.
Proof. by destruct l1. Qed.

Lemma follows_app H l1 l2 h :
  follows H (l1 ++ l2) h <-> follows H l1 (List.hd h l2.*1) /\ follows H l2 h.
Proof.
  induction l1 as [|[p m] l1 IH]; simpl; [tauto|]. rewrite IH, fmap_app, hd_app. tauto.
Qed.

(** A change of the links back of an entry. *)
Lemma follows_set_prev H l h q c v :
  H !! q = Some c -> follows H l h -> follows (<[q := set_prev v c]> H) l h.
Proof.
  intros Hq. induction l as [|[p m] l IH]; [done|]. intros [[b Hp] Hl]. split; [|auto].
  destruct (decide (q = p)) as [->|Hne]; [|rewrite lookup_insert_ne by done; eauto].
  rewrite lookup_insert_eq. rewrite Hq in Hp. injection Hp as ->. by exists v.
Qed.

(** A new end of the part [l]. *)
Lemma follows_set_last H l x y q n c :
  H !! q = Some c -> NoDup (l ++ [(q, n)]).*1 -> follows H (l ++ [(q, n)]) x ->
  follows (<[q := set_nxt y c]> H) (l ++ [(q, n)]) y.
Proof.
  rewrite fmap_app, !follows_app. intros Hq Hnd [Hl [[b Hc] _]]. simpl in *. split.
  - apply follows_insert; [|done]. apply NoDup_app in Hnd as (_ & Hd & _).
    intros Hin. eapply Hd; [done|]. by left.
  - split; [|done]. rewrite lookup_insert_eq. rewrite Hq in Hc. injection Hc as ->. by exists b.
Qed.

Lemma backs_dom H a l : backs H a l -> forall p, p ∈ l.*1 -> p ∈ dom H.
Proof.
  revert a. induction l as [|[q m] l IH]; intros a; simpl; [by intros _ p ?%not_elem_of_nil|].
  intros [[n Hq] Hl] p Hp. apply elem_of_cons in Hp as [->|Hp]; [|eauto].
  by eapply elem_of_dom_2.
Qed.

Lemma follows_dom H l h : follows H l h -> forall p, p ∈ l.*1 -> p ∈ dom H.
Proof.
  induction l as [|[q m] l IH]; simpl; [by intros _ p ?%not_elem_of_nil|].
  intros [[n Hq] Hl] p Hp. apply elem_of_cons in Hp as [->|Hp]; [|eauto].
  by eapply elem_of_dom_2.
Qed.

(** The rounds of a loop over a chain. *)
Lemma places_size (H : gmap Z mntentchn) h (l : chn_list) :
  chn_places h l -> (forall p, p ∈ l.*1 -> p ∈ dom H) -> (length l < Datatypes.S (size H))%nat.
Proof.
  intros [Hnd _] Hin. apply NoDup_cons in Hnd as [_ Hnd].
  rewrite <- (size_dom (D := gset Z)), <- (length_fmap fst), <- (size_list_to_set (C := gset Z)) by done.
  apply Nat.lt_succ_r, subseteq_size. intros p Hp. apply Hin. by rewrite elem_of_list_to_set in Hp.
Qed.

Section Update.
Context `{S : SysEnv} {HCL : ChnLaws}.

(** A chain as [read_mntentchn] leaves it at [h]; the head of an empty one may
    have NULL as its link back. *)
Record chain (t : mt) (h : Z) (l : chn_list) : Prop := {
  ch_head : exists b m, mt_heap t !! h = Some (mk_chn (List.hd 0 l.*1) b m) /\
    (b = List.last l.*1 h \/ (l = [] /\ b = 0));
  ch_links : linked_from (mt_heap t) h l h;
  ch_places : chn_places h l;
  ch_ne : h <> 0 }.

(** A chain to be written. *)
Record fwd_chain (t : mt) (h : Z) (l : chn_list) : Prop := {
  fc_head : exists n b m, mt_heap t !! h = Some (mk_chn n b m) /\
    (n = List.hd h l.*1 \/ (l = [] /\ n = 0));
  fc_links : follows (mt_heap t) l h;
  fc_places : chn_places h l }.

(** The entries that are seen of a file: none after an error. *)
Definition seen (f : fname) (c : list Z) (l : list nfs_mntent) : Prop :=
  exists e, l = if (sys_fails (FERROR f) e).1 then [] else entries c.

Lemma read_mntentchn_spec f c h (Q : unit + Z -> mt -> Prop) t :
  reading t h [] -> lk_ok (mt_lock t) ->
  (forall t' l, frame t t' -> chain t' h l -> seen f c l.*2 -> Q (inl tt) t') ->
  (forall r t', exits t r t' -> Q r t') ->
  wp (read_mntentchn f (mk_mntFILE c 0 false 0) h) Q t.
Proof.
  intros Hrd Hok HQ Hx. apply wp_xbind. apply (read_chn_spec h _ _ []); [done|done|simpl; lia| |].
  2:{ intros r t' [[x ->] Hr]. apply Hx. split; eauto. }
  intros t1 l mfp' [Hf Hl] [(b & m & Hh) Hlk Hpl Hne] He. simpl app in *.
  apply wp_xbind. eapply wp_chn_put; [done|]. cbv beta iota. apply wp_xbind, wp_ask. intros err e Herr.
  assert (Hhl : h ∉ l.*1) by by destruct Hpl as [[? _]%NoDup_cons _].
  destruct err.
  - eapply wp_chn_put; [simpl; by rewrite lookup_insert_eq|]. eapply (HQ _ []); [done| |eexists; by rewrite Herr].
    constructor; [|done|split; [apply NoDup_singleton|apply not_elem_of_nil]|done].
    simpl. rewrite lookup_insert_eq. eexists _, _. split; [reflexivity|]. by right.
  - apply wp_xret. eapply (HQ _ l); [done| |eexists; by rewrite Herr]. constructor; [|by apply linked_insert|done..].
    simpl. rewrite lookup_insert_eq. eexists _, _. split; [reflexivity|]. by left.
Qed.

(** The search from the last entry on. *)
Lemma search_back_spec test fuel h l t :
  backs (mt_heap t) h l -> chn_places h l -> (length l < fuel)%nat ->
  wp (chn_search prev test fuel (List.last l.*1 h) h)
    (fun r t' => t' = t /\
       ((r = inl 0 /\ Forall (fun m => test m = false) l.*2) \/
        (exists l1 p m l2, r = inl p /\ l = l1 ++ (p, m) :: l2 /\ test m = true /\
           Forall (fun m => test m = false) l2.*2))) t.
Proof.
  revert l. induction fuel as [|fuel IH]; intros l; [lia|].
  destruct l as [|[p m] l _] using rev_ind; intros Hb [Hnd Hz] Hlen.
  { cbn [chn_search List.last fmap list_fmap]. rewrite Z.eqb_refl, orb_true_r. apply wp_xret. split; [done|]. by left. }
  apply backs_snoc in Hb as [Hb [n Hp]]. rewrite fmap_app in *. cbn [fmap list_fmap fst] in *.
  rewrite app_comm_cons in Hnd. apply NoDup_app in Hnd as (Hnd & Hd & _).
  apply not_elem_of_app in Hz as [Hz Hp0]. rewrite not_elem_of_cons in Hp0.
  rewrite length_app in Hlen. simpl in Hlen. rewrite last_last. cbn [chn_search].
  assert (p <> h) by (intros ->; eapply Hd; [left|left]).
  rewrite (proj2 (Z.eqb_neq p 0)), (proj2 (Z.eqb_neq p h)) by naive_solver. simpl orb. cbv iota.
  apply wp_xbind. eapply wp_chn_get; [done|]. simpl chn_m. destruct (test m) eqn:Ht.
  - apply wp_xret. split; [done|]. right. exists l, p, m, []. done.
  - simpl prev. eapply wp_mono; [apply IH; [done|done|lia]|]. intros r t' [-> [[-> Hl]|H1]]; (split; [done|]).
    + left. split; [done|]. rewrite fmap_app, Forall_app. split; [done|by repeat constructor].
    + right. destruct H1 as (l1 & q & k & l2 & -> & -> & Hk & H2). exists l1, q, k, (l2 ++ [(p, m)]).
      split_and!; [done|by rewrite <- app_assoc|done|]. rewrite fmap_app, Forall_app.
      split; [done|by repeat constructor].
Qed.

(** ** Changing the chain *)

(** The addresses without one of them. *)
Lemma places_mid h l1 p m l2 :
  chn_places h (l1 ++ (p, m) :: l2) ->
  chn_places h (l1 ++ l2) /\ (p ∉ (l1 ++ l2).*1) /\ p <> h.
Proof.
  intros [Hnd Hz].
  assert (Hperm : (l1 ++ (p, m) :: l2).*1 ≡ₚ p :: (l1 ++ l2).*1).
  { rewrite !fmap_app. symmetry. apply Permutation_middle. }
  rewrite Hperm in Hnd, Hz. rewrite NoDup_cons, NoDup_cons, not_elem_of_cons in Hnd.
  rewrite not_elem_of_cons in Hz. destruct Hnd as ([Hph Hh] & Hp & Hnd). destruct Hz as [_ Hz].
  split_and!; [split; [by apply NoDup_cons|done]|done|done].
Qed.

Lemma last_not_in h (l1 l2 : chn_list) : chn_places h (l1 ++ l2) -> List.last l1.*1 h ∉ l2.*1.
Proof.
  intros [Hnd _]. rewrite fmap_app, app_comm_cons in Hnd. apply NoDup_app in Hnd as (_ & Hd & _).
  apply Hd, last_in.
Qed.

(** The entries around an unlinked one. *)
Lemma unlink_follows H h l1 x l2 ca :
  follows H l1 x -> follows H l2 h -> chn_places h (l1 ++ l2) -> H !! List.last l1.*1 h = Some ca ->
  follows (<[List.last l1.*1 h := set_nxt (List.hd h l2.*1) ca]> H) (l1 ++ l2) h.
Proof.
  intros Hf1 Hf2 Hpl Ha. rewrite follows_app. split.
  - destruct l1 as [|[q j] l1 _] using rev_ind; [done|]. rewrite fst_snoc, last_last in *.
    eapply follows_set_last; [done| |done]. destruct Hpl as [Hnd _]. apply NoDup_cons in Hnd as [_ Hnd].
    rewrite fmap_app in Hnd. by apply NoDup_app in Hnd as (? & _ & _).
  - apply follows_insert; [by apply last_not_in|done].
Qed.

Lemma unlink_head (H : gmap Z mntentchn) h (l1 l2 : chn_list) ca v b k :
  chn_places h (l1 ++ l2) -> H !! List.last l1.*1 h = Some ca ->
  H !! h = Some (mk_chn (List.hd v l1.*1) b k) ->
  exists b' k', <[List.last l1.*1 h := set_nxt (List.hd h l2.*1) ca]> H !! h =
    Some (mk_chn (List.hd h (l1 ++ l2).*1) b' k').
Proof.
  intros [Hnd _] Ha Hh. apply NoDup_cons in Hnd as [Hn _]. rewrite fmap_app, hd_app.
  rewrite fmap_app, not_elem_of_app in Hn. destruct Hn as [Hn _]. destruct l1 as [|[q j] l1].
  - simpl in *. rewrite lookup_insert_eq. rewrite Hh in Ha. injection Ha as <-. eauto.
  - rewrite lookup_insert_ne; [eauto|]. intros E. apply Hn. rewrite <- E. by apply last_in_ne.
Qed.

(** An entry is unlinked. *)
Lemma unlink_chn_spec h l1 p m l2 (Q : unit + Z -> mt -> Prop) t :
  chain t h (l1 ++ (p, m) :: l2) ->
  (forall t', frame t t' -> fwd_chain t' h (l1 ++ l2) -> Q (inl tt) t') ->
  wp (let^ c := chn_get p in
      do^ chn_put (prev c) (set_nxt (nxt c)) in
      do^ chn_put (nxt c) (set_prev (prev c)) in
      xmodify (fun t => set_mheap (delete p (mt_heap t)) t)) Q t.
Proof.
  intros [(b & k & Hh & _) Hlk Hpl Hne] HQ. apply places_mid in Hpl as (Hpl & Hpn & Hph).
  pose proof (linked_app _ _ _ _ _ Hlk) as [Hp _].
  pose proof (linked_follows _ _ _ _ Hlk) as Hfw. apply follows_app in Hfw as [Hf1 [_ Hf2]]. simpl in Hf1.
  apply wp_xbind. eapply wp_chn_get; [done|]. simpl nxt. simpl prev.
  assert (Ha : exists ca, mt_heap t !! List.last l1.*1 h = Some ca).
  { destruct l1 as [|[q j] l1] using rev_ind; [eauto|].
    rewrite fst_snoc, last_last. apply follows_app in Hf1 as [_ [[? Hq] _]]. eauto. }
  destruct Ha as [ca Ha]. rewrite fmap_app, hd_app in Hh.
  pose proof (unlink_follows _ _ _ _ _ _ Hf1 Hf2 Hpl Ha) as Hf.
  destruct (unlink_head _ _ l1 l2 _ _ _ _ Hpl Ha Hh) as (b' & k' & Hh').
  set (H1 := <[List.last l1.*1 h := _]> (mt_heap t)) in *. set (n := List.hd h l2.*1) in *.
  assert (Hn : exists cn, H1 !! n = Some cn).
  { subst n. destruct l2 as [|[q j] l2]; [eauto|]. apply follows_app in Hf as [_ [[? Hq] _]]. eauto. }
  destruct Hn as [cn Hn].
  apply wp_xbind. eapply wp_chn_put; [done|]. apply wp_xbind. eapply wp_chn_put; [done|].
  apply wp_xmodify. apply HQ; [done|]. simpl mt_heap. fold H1. constructor; [| |done].
  - simpl. rewrite lookup_delete_ne by done. destruct (decide (n = h)) as [E|E].
    + rewrite E, lookup_insert_eq. rewrite E, Hh' in Hn. injection Hn as <-.
      eexists _, _, _. split; [reflexivity|]. by left.
    + rewrite lookup_insert_ne by done. eexists _, _, _. split; [exact Hh'|]. by left.
  - simpl. apply follows_delete; [done|]. by apply follows_set_prev.
Qed.

(** The options of an entry are changed. *)
Lemma follows_set_m H l1 p m m' l2 h c :
  H !! p = Some c -> (p ∉ (l1 ++ l2).*1) ->
  follows H (l1 ++ (p, m) :: l2) h ->
  follows (<[p := set_chn_m m' c]> H) (l1 ++ (p, m') :: l2) h.
Proof.
  rewrite fmap_app, not_elem_of_app, !follows_app. intros Hp [H1 H2] [Hf1 [[b Hb] Hf2]].
  split; [by apply follows_insert|split; [|by apply follows_insert]].
  rewrite lookup_insert_eq. rewrite Hp in Hb. injection Hb as ->. by exists b.
Qed.

Lemma chain_fwd t h l : chain t h l -> fwd_chain t h l.
Proof.
  intros [(b & m & Hh & _) Hl Hp Hne]. constructor; [|by eapply linked_follows|done].
  eexists _, _, _. split; [done|]. destruct l as [|x l]; [by right|by left].
Qed.

Lemma remount_spec h l1 p m l2 o (Q : unit + Z -> mt -> Prop) t :
  chain t h (l1 ++ (p, m) :: l2) ->
  (forall t', frame t t' -> fwd_chain t' h (l1 ++ (p, with_opts o m) :: l2) -> Q (inl tt) t') ->
  wp (chn_put p (fun c => let m := chn_m c in
        set_chn_m (mk_mntent (mnt_fsname m) (mnt_dir m) (mnt_type m) o (mnt_freq m) (mnt_passno m)) c)) Q t.
Proof.
  intros Hc HQ. destruct (chain_fwd _ _ _ Hc) as [(n & b & k & Hh & Hn) Hf Hpl].
  pose proof (places_mid _ _ _ _ _ Hpl) as (_ & Hpn & Hph).
  pose proof Hf as Hf'. apply follows_app in Hf' as [_ [[b' Hp] _]].
  eapply wp_chn_put; [done|]. simpl chn_m. apply HQ; [done|].
  assert (Hfst : (l1 ++ (p, with_opts o m) :: l2).*1 = (l1 ++ (p, m) :: l2).*1) by by rewrite !fmap_app.
  constructor.
  - rewrite Hfst. simpl. rewrite lookup_insert_ne by done. eexists _, _, _. split; [done|].
    destruct Hn as [Hn|[Hn _]]; [by left|by destruct l1].
  - by eapply (follows_set_m _ _ _ m).
  - unfold chn_places. by rewrite Hfst.
Qed.

(** A new entry: it is the first one of an empty chain and not reached from the
    head of another. *)
Lemma absent_spec h l i (Q : unit + Z -> mt -> Prop) t :
  chain t h l -> lk_ok (mt_lock t) ->
  (forall t' l', frame t t' -> fwd_chain t' h l' ->
     l'.*2 = match l.*2 with [] => [i] | _ => l.*2 end -> Q (inl tt) t') ->
  (forall r t', exits t r t' -> Q r t') ->
  wp (let^ absent := xmalloc_chn in
      do^ chn_put absent (set_chn_m i) in
      do^ chn_put absent (set_nxt h) in
      let^ head := chn_get h in
      do^ chn_put absent (set_prev (prev head)) in
      do^ chn_put h (set_prev absent) in
      if nxt head =? 0 then chn_put h (set_nxt absent) else xret tt) Q t.
Proof.
  intros Hc Hok HQ Hx. pose proof (chain_fwd _ _ _ Hc) as [_ Hf Hpl].
  destruct Hc as [(b & k & Hh & _) _ _ Hne].
  apply wp_xbind, wp_malloc_chn; [done| |intros r t' [[x ->] Hr]; apply Hx; split; eauto].
  intros p e Hp Hp0. assert (p <> h) by congruence.
  assert (Hpl' : p ∉ l.*1).
  { intros Hin. apply (follows_dom _ _ _ Hf) in Hin. by apply not_elem_of_dom in Hp. }
  assert (Hhl : h ∉ l.*1) by by destruct Hpl as [[? _]%NoDup_cons _].
  apply wp_xbind. eapply wp_chn_put; [simpl; by rewrite lookup_insert_eq|].
  apply wp_xbind. eapply wp_chn_put; [simpl; by rewrite lookup_insert_eq|].
  apply wp_xbind. eapply wp_chn_get; [simpl; rewrite !insert_insert_eq, lookup_insert_ne by done; exact Hh|].
  apply wp_xbind. eapply wp_chn_put; [simpl; by rewrite lookup_insert_eq|].
  apply wp_xbind. eapply wp_chn_put; [simpl; rewrite !insert_insert_eq, lookup_insert_ne by done; exact Hh|].
  simpl nxt. destruct l as [|[q j] l].
  - simpl. eapply wp_chn_put; [simpl; by rewrite lookup_insert_eq|]. apply (HQ _ [(p, i)]); [done| |done].
    constructor.
    + simpl. rewrite lookup_insert_eq. eexists _, _, _. split; [reflexivity|]. by left.
    + split; [|done]. simpl. rewrite !insert_insert_eq, lookup_insert_ne, lookup_insert_eq by done.
      eexists. reflexivity.
    + assert (Hni : forall x, x <> p -> x ∉ [p]) by (intros x Hxp; by rewrite list_elem_of_singleton).
      split; [apply NoDup_cons; split; [|apply NoDup_singleton]|]; apply Hni; congruence.
  - simpl hd. destruct Hpl as [Hnd Hz]. rewrite (proj2 (Z.eqb_neq q 0)) by (intros ->; apply Hz; left).
    apply wp_xret. apply (HQ _ ((q, j) :: l)); [done| |done]. constructor; [| |done].
    + simpl. rewrite lookup_insert_eq. eexists _, _, _. split; [reflexivity|]. by left.
    + apply follows_insert; [done|]. cbn [mt_heap set_mheap]. rewrite !insert_insert_eq. by apply follows_insert.
Qed.

Lemma update_chain_spec dir instead l (Q : unit + Z -> mt -> Prop) t :
  chain t mtabhead l -> lk_ok (mt_lock t) ->
  (forall t' l', frame t t' -> fwd_chain t' mtabhead l' -> l'.*2 = updated dir instead l.*2 -> Q (inl tt) t') ->
  (forall r t', exits t r t' -> Q r t') ->
  wp (update_chain dir instead) Q t.
Proof.
  intros Hc Hok HQ Hx. apply wp_xbind, wp_xbind, wp_xget. apply wp_xret.
  pose proof Hc as [(b & k & Hh & Hb) Hlk Hpl Hne].
  apply wp_xbind. eapply wp_chn_get; [done|]. simpl prev. apply wp_xbind.
  assert (Hs : wp (chn_search prev (has_dir dir) (Datatypes.S (size (mt_heap t))) b mtabhead)
    (fun r t' => t' = t /\
       ((r = inl 0 /\ Forall (fun m => has_dir dir m = false) l.*2) \/
        (exists l1 p m l2, r = inl p /\ l = l1 ++ (p, m) :: l2 /\ has_dir dir m = true /\
           Forall (fun m => has_dir dir m = false) l2.*2))) t).
  { destruct Hb as [->|[-> ->]].
    - apply linked_backs in Hlk. apply search_back_spec; [done|done|]. eapply places_size; [done|].
      by eapply backs_dom.
    - apply wp_xret. split; [done|]. by left. }
  eapply wp_mono; [exact Hs|]. intros r t' [-> [[-> Hl]|(l1 & p & m & l2 & -> & -> & Hm & H2)]]; simpl negb; cbv iota.
  - unfold updated in HQ. rewrite change_last_None in HQ by done. destruct instead as [i|].
    + eapply absent_spec; [done|done| |done]. intros t' l' Hf Hc' Hl'. eapply HQ; [done|done|].
      rewrite Hl'. by destruct (l.*2).
    + apply wp_xret. eapply HQ; [done|by apply chain_fwd|]. by destruct (l.*2).
  - assert (Hp0 : p <> 0).
    { intros ->. apply (proj2 Hpl). rewrite fmap_app. apply elem_of_app. right. left. }
    rewrite (proj2 (Z.eqb_neq p 0) Hp0). simpl. unfold updated in HQ.
    rewrite fmap_app in HQ. cbn [fmap list_fmap snd] in HQ. rewrite change_last_Some in HQ by done.
    destruct instead as [i|].
    + eapply remount_spec; [done|]. intros t' Hf Hc'. eapply HQ; [done..|]. by rewrite fmap_app.
    + eapply unlink_chn_spec; [done|]. intros t' Hf Hc'. eapply HQ; [done..|]. by rewrite fmap_app.
Qed.

End Update.
