(* ===== verification/MtabSpec.v ===== *)
(** * Updating the mount table

    What [update_mtab] promises: whatever calls of the system fail, the process
    returns or exits, it has given the lock up, and /etc/mtab is as it was or
    holds exactly the changed table. *)

From S2P Require Import Prelude Mntent MntentSpec Lock LockSpec Mtab MtabFacts MtabUpdate.

Section Rewrite.
Context `{S : SysEnv} {HCL : ChnLaws}.

(** ** Writing the chain *)

Lemma places_tail h p m l : chn_places h ((p, m) :: l) ->
  chn_places h l /\ p <> 0 /\ p <> h /\ p ∉ l.*1.
Proof.
  intros Hpl. pose proof (places_mid h [] p m l Hpl) as (Ht & Hp & Hne). destruct Hpl as [_ Hz].
  split_and!; [done| |done|done]. intros ->. apply Hz. left.
Qed.

Lemma loop_end (h : Z) : (h =? 0) || (h =? h) = true.
Proof. by rewrite Z.eqb_refl, orb_true_r. Qed.

Lemma loop_more (p h : Z) : p <> 0 -> p <> h -> (p =? 0) || (p =? h) = false.
Proof. intros Hp Hh. by rewrite (proj2 (Z.eqb_neq p 0) Hp), (proj2 (Z.eqb_neq p h) Hh). Qed.

Lemma write_chain_spec h fuel l mf (Q : mntFILE + Z -> mt -> Prop) t :
  follows (mt_heap t) l h -> chn_places h l -> lk_ok (mt_lock t) -> (length l < fuel)%nat ->
  (forall e mf', mf_fp mf' = mf_fp mf ++ table_text l.*2 -> Q (inl mf') (set_menv e t)) ->
  (forall r t', exits t r t' -> Q r t') ->
  wp (write_chain fuel (List.hd h l.*1) h mf) Q t.
Proof.
  revert fuel mf t. induction l as [|[p m] l IH]; intros fuel mf t Hf Hpl Hok Hlen HQ Hx;
    (destruct fuel as [|fuel]; [simpl in Hlen; lia|]); cbn [List.hd fmap list_fmap fst write_chain].
  { rewrite loop_end. apply wp_xret. destruct t. apply (HQ mt_env). by rewrite app_nil_r. }
  apply places_tail in Hpl as (Hpl & Hp0 & Hph & _). rewrite loop_more by done.
  destruct Hf as [[b Hp] Hf]. simpl in Hlen.
  apply wp_xbind. eapply wp_chn_get; [done|]. apply wp_xbind, wp_ask. intros seek e1 He1.
  apply wp_xbind, wp_ask. intros cut e2 He2. simpl chn_m. simpl nxt. unfold nfs_addmntent.
  destruct seek; [|destruct cut as [k|]]; simpl.
  - apply wp_die; [done|]. intros ll e c t' Hu. apply Hx. split_and!; [eauto|done|done|by eapply f_sys].
  - apply wp_die; [done|]. intros ll e c t' Hu. apply Hx. split_and!; [eauto|done|done|by eapply f_write].
  - apply IH; [done|done|done|lia| |].
    + intros e mf' Hmf. apply HQ. rewrite Hmf. simpl. by rewrite <- app_assoc.
    + intros r t' Hr. by apply Hx.
Qed.

Lemma discard_spec h fuel l (Q : unit + Z -> mt -> Prop) t :
  follows (mt_heap t) l h -> chn_places h l -> (length l < fuel)%nat ->
  (forall H, Q (inl tt) (set_mheap H t)) ->
  wp (discard_loop fuel (List.hd h l.*1) h) Q t.
Proof.
  revert fuel t. induction l as [|[p m] l IH]; intros fuel t Hf Hpl Hlen HQ;
    (destruct fuel as [|fuel]; [simpl in Hlen; lia|]); cbn [List.hd fmap list_fmap fst discard_loop].
  { rewrite loop_end. apply wp_xret. destruct t. apply (HQ mt_heap). }
  apply places_tail in Hpl as (Hpl & Hp0 & Hph & Hpn). rewrite loop_more by done.
  destruct Hf as [[b Hp] Hf]. simpl in Hlen.
  apply wp_xbind. eapply wp_chn_get; [done|]. apply wp_xbind, wp_xmodify. simpl nxt.
  apply IH; [by apply follows_delete|done|lia|]. intros H. apply HQ.
Qed.

(** From the head on, also when it is NULL. *)
Lemma null_or_hd (n h : Z) (l : chn_list) :
  (n = List.hd h l.*1 \/ (l = [] /\ n = 0)) ->
  (forall fuel mf, write_chain fuel n h mf = write_chain fuel (List.hd h l.*1) h mf) /\
  (forall fuel, discard_loop fuel n h = discard_loop fuel (List.hd h l.*1) h).
Proof.
  intros [->|[-> ->]]; [done|]. split; intros fuel; [intros mf|]; destruct fuel; simpl; by rewrite Z.eqb_refl, orb_true_r.
Qed.

(** What the file is written with: the text, or what [fclose] wrote of it. *)
Definition written (text x : list Z) : Prop :=
  exists e, x = match (fclose_cuts e).1 with None => text | Some k => take k text end.

(** How a step that has the lock leaves the table: as it was, and then a call
    has failed, or as [new] says.  An exit gives the lock up. *)
Definition table_outcome (new : list Z -> Prop) (t : mt) (r : unit + Z) (t' : mt) : Prop :=
  (mt_files t' MOUNTED = mt_files t MOUNTED /\ sys_failure /\
     ((r = inl tt /\ mt_lock t' = mt_lock t) \/ ((exists c, r = inr c) /\ unlocked t'))) \/
  (r = inl tt /\ mt_lock t' = mt_lock t /\ exists x, new x /\ mt_files t' MOUNTED = Some x).

Lemma wp_setmntent_w f (Q : option mntFILE + Z -> mt -> Prop) t :
  f <> MOUNTED -> lk_ok (mt_lock t) ->
  (forall r t', mt_heap t' = mt_heap t -> mt_files t' MOUNTED = mt_files t MOUNTED ->
     ((mt_lock t' = mt_lock t /\
        ((r = inl None /\ sys_failure) \/ (r = inl (Some (mk_mntFILE [] 0 false 0))))) \/
      ((exists c, r = inr c) /\ unlocked t' /\ sys_failure)) -> Q r t') ->
  wp (nfs_setmntent_w f) Q t.
Proof.
  intros Hf Hok HQ. unfold nfs_setmntent_w, xmalloc_mnt. apply wp_xbind, wp_xbind, wp_ask. intros [] e He.
  2:{ apply wp_die; [done|]. intros l e' c t' Hu. apply HQ; [done..|]. right.
      split_and!; [eauto|done|by eapply f_mnt]. }
  apply wp_xret. apply wp_xbind, wp_ask. intros fails e1 He1. apply wp_xbind.
  assert (Hput : wp (if fails then xret tt else put_file f (Some []))
    (fun r t' => r = inl tt /\ mt_heap t' = mt_heap t /\ mt_lock t' = mt_lock t /\
       mt_files t' MOUNTED = mt_files t MOUNTED) (set_menv e1 (set_menv e t))).
  { destruct fails; [by apply wp_xret|]. apply wp_xmodify. split_and!; [done..|]. simpl. by rewrite decide_False. }
  eapply wp_mono; [exact Hput|]. intros r t1 (-> & Hh & Hl & Hm). apply wp_xbind, wp_xbind, wp_ask.
  intros [] e2 He2.
  - apply wp_xret. destruct fails; apply wp_xret; (apply HQ; [done..|left; split; [done|]]);
      [left; split; [done|by eapply f_sys]|by right].
  - apply wp_die; [simpl; by rewrite Hl|]. intros l e' c t' Hu. apply HQ; [done..|]. right.
    split_and!; [eauto|done|by eapply f_mnt].
Qed.

Lemma rewrite_mtab_spec l (Q : unit + Z -> mt -> Prop) t :
  fwd_chain t mtabhead l -> lk_ok (mt_lock t) ->
  (forall r t', table_outcome (written (table_text l.*2)) t r t' -> Q r t') ->
  wp rewrite_mtab Q t.
Proof.
  intros [(n & b & m & Hh & Hn) Hf Hpl] Hok HQ. apply wp_xbind, wp_setmntent_w; [done|done|].
  intros r t1 Hheap Hm [[Hl [[-> Hs]| ->]]|([c ->] & Hu & Hs)].
  - apply wp_xret. apply HQ. left. split_and!; [done..|]. by left.
  - apply wp_xbind, wp_xbind, wp_xget. apply wp_xret.
    rewrite <- Hheap in *. rewrite <- Hl in Hok.
    apply wp_xbind. eapply wp_chn_get; [done|]. simpl nxt. apply wp_xbind.
    destruct (null_or_hd _ _ _ Hn) as [-> _].
    assert (Hsz : (length l < Datatypes.S (size (mt_heap t1)))%nat).
    { eapply places_size; [done|]. by eapply follows_dom. }
    apply write_chain_spec; [done..| |].
    2:{ intros r t' ([c ->] & Hf' & Hu & Hs). apply HQ. left. rewrite Hf', Hm.
        split_and!; [done|done|]. right. eauto. }
    intros e mf Hmf. simpl app in Hmf. apply wp_xbind. unfold discard_mntentchn. apply wp_xbind.
    eapply wp_chn_get; [exact Hh|]. simpl nxt. destruct (null_or_hd _ _ _ Hn) as [_ ->].
    apply discard_spec; [done|done|lia|]. intros H'. apply wp_xbind, wp_xbind, wp_ask. intros cut e2 Hcut.
    apply wp_xmodify. apply wp_xbind, wp_ask. intros fails e3 Hfails. destruct fails.
    + apply wp_xret. apply HQ. left. simpl. split_and!; [done|by eapply f_sys|]. left. by rewrite <- Hl.
    + apply wp_xbind, wp_xget. apply wp_xbind, wp_xmodify, wp_xmodify. apply HQ. right. simpl.
      split_and!; [done|by rewrite <- Hl|]. eexists. split; [|reflexivity]. rewrite Hmf.
      eexists. by rewrite Hcut.
  - apply HQ. left. split_and!; [done..|]. right. eauto.
Qed.
(** ** The whole function *)

(** The table is a regular file that is there, as far as the process knows. *)
Definition may_write (t : mt) : Prop :=
  mt_files t MOUNTED <> None /\ mt_symlink t = false /\
  var_mtab_does_not_exist t = false /\ var_mtab_is_a_symlink t = false.

(** What the steps before the lock keep. *)
Definition before (t t' : mt) : Prop :=
  mt_heap t' = mt_heap t /\ mt_files t' = mt_files t /\ mt_lock t' = mt_lock t /\ mt_symlink t' = mt_symlink t.

Lemma wp_get_mtab_info (Q : unit + Z -> mt -> Prop) t :
  (forall t', before t t' -> have_mtab_info t' = true ->
     (var_mtab_does_not_exist t' = true -> sys_failure \/ ~ may_write t) ->
     (var_mtab_is_a_symlink t' = true -> ~ may_write t) -> Q (inl tt) t') ->
  wp get_mtab_info Q t.
Proof.
  intros HQ. apply wp_xbind, wp_xget. destruct (have_mtab_info t) eqn:E.
  { apply wp_xret, HQ; [done|done|..]; unfold may_write; intros E'; [right|]; intros (_ & _ & H1 & H2); congruence. }
  apply wp_xbind, wp_ask. intros fails e He. apply wp_xmodify, HQ; [done|done|..]; simpl.
  - destruct fails; [by left; eapply f_sys|]. simpl. intros Hb. right. intros (H1 & _ & H2 & _).
    destruct (mt_files t MOUNTED); [simpl in Hb; congruence|done].
  - intros Hb (H1 & H2 & _ & H3). rewrite H2, H3, andb_false_r in Hb. done.
Qed.

(** The early returns; a table that is not there may be made empty. *)
Lemma wp_writable (Q : bool + Z -> mt -> Prop) t :
  (forall t' (w : bool), mt_heap t' = mt_heap t -> mt_lock t' = mt_lock t ->
     default [] (mt_files t' MOUNTED) = default [] (mt_files t MOUNTED) ->
     (if w then mt_files t' MOUNTED <> None else sys_failure \/ ~ may_write t) -> Q (inl w) t') ->
  wp (let^ gone := mtab_does_not_exist in
      if (gone : bool) then xret false else mtab_is_writable) Q t.
Proof.
  intros HQ. apply wp_xbind, wp_xbind, wp_get_mtab_info. intros t1 (B1 & B2 & B3 & B4) Hi Hg Hsl.
  apply wp_xbind, wp_xget. apply wp_xret. destruct (var_mtab_does_not_exist t1) eqn:Eg.
  { apply wp_xret. apply HQ; [done|done|by rewrite B2|]. by apply Hg. }
  apply wp_xbind, wp_xbind, wp_xbind, wp_xget. rewrite Hi. apply wp_xret. apply wp_xbind, wp_xget. apply wp_xret.
  destruct (var_mtab_is_a_symlink t1) eqn:Es.
  { apply wp_xret. apply HQ; [done|done|by rewrite B2|]. right. by apply Hsl. }
  apply wp_xbind, wp_ask. intros fails e He. destruct fails.
  { apply wp_xret. apply HQ; [done|done|by simpl; rewrite B2|]. left. by eapply f_sys. }
  apply wp_xbind, wp_xget. apply wp_xbind. simpl. destruct (mt_files t1 MOUNTED) eqn:Em.
  - apply wp_xret, wp_xret. apply HQ; [done|done|by simpl; rewrite B2|]. simpl. congruence.
  - apply wp_xmodify. apply wp_xret. apply HQ; [done|done| |done]. simpl. by rewrite <- B2, Em.
Qed.

Lemma wp_setmntent_r f c (Q : option mntFILE + Z -> mt -> Prop) t :
  lk_ok (mt_lock t) -> mt_files t f = Some c ->
  (forall e o, (o = Some (mk_mntFILE c 0 false 0)) \/ (o = None /\ sys_failure) -> Q (inl o) (set_menv e t)) ->
  (forall r t', exits t r t' -> Q r t') ->
  wp (nfs_setmntent_r f) Q t.
Proof.
  intros Hok Hf HQ Hx. apply wp_xbind, wp_xbind, wp_ask. intros [] e He.
  2:{ apply wp_die; [done|]. intros l e' x t' Hu. apply Hx. split_and!; [eauto|done|done|by eapply f_mnt]. }
  apply wp_xret. apply wp_xbind, wp_ask. intros fails e1 He1. apply wp_xbind, wp_xget. simpl mt_files.
  apply wp_xbind, wp_xbind, wp_ask. intros [] e2 He2.
  2:{ apply wp_die; [done|]. intros l e' x t' Hu. apply Hx. split_and!; [eauto|done|done|by eapply f_mnt]. }
  apply wp_xret. rewrite Hf. destruct fails; apply wp_xret; apply HQ; [right|by left].
  split; [done|by eapply f_sys].
Qed.

(** The table after [update_mtab]. *)
Definition changed (dir : list Z) (instead : option nfs_mntent) (old x : list Z) : Prop :=
  exists l, seen MOUNTED old l /\ written (table_text (updated dir instead l)) x.

(** The part with the lock. *)
Lemma locked_part_spec dir instead c (Q : unit + Z -> mt -> Prop) t :
  locked t -> mt_files t MOUNTED = Some c ->
  (forall r t', table_outcome (changed dir instead c) t r t' -> Q r t') ->
  wp (do^ xmodify (fun t =>
        set_mheap (<[mtabhead := mk_chn 0 0 (mk_mntent [] [] [] [] 0 0)]> (mt_heap t)) t) in
      let^ o := nfs_setmntent_r MOUNTED in
      match o with
      | None => xret tt
      | Some mfp =>
          do^ read_mntentchn MOUNTED mfp mtabhead in
          do^ update_chain dir instead in
          rewrite_mtab
      end) Q t.
Proof.
  intros [Hok _] Hc HQ.
  assert (Hx : forall (r : unit + Z) t1 t', mt_files t1 = mt_files t -> exits t1 r t' -> Q r t').
  { intros r t1 t' H1 ([x ->] & Hf & Hu & Hs). apply HQ. left. rewrite Hf, H1. split_and!; [done..|]. right. eauto. }
  apply wp_xbind, wp_xmodify. apply wp_xbind, (wp_setmntent_r _ c); [done|done| |].
  2:{ intros r t' ([x ->] & Hr). eapply Hx; [|split; eauto]. done. }
  intros e o [->|[-> Hs]].
  2:{ apply wp_xret, HQ. left. split_and!; [done..|]. by left. }
  apply wp_xbind, (read_mntentchn_spec _ c); [|done| |].
  3:{ intros r t' ([x ->] & Hr). eapply Hx; [|split; eauto]. done. }
  { constructor; [|done|split; [apply NoDup_singleton|apply not_elem_of_nil]|done].
    simpl. rewrite lookup_insert_eq. eauto. }
  intros t1 l [Hf1 Hl1] Hch Hseen. apply wp_xbind.
  eapply update_chain_spec; [exact Hch|by rewrite Hl1| |].
  2:{ intros r t' ([x ->] & Hr). eapply Hx; [|split; eauto]. by rewrite Hf1. }
  intros t2 l' [Hf2 Hl2] Hfw Hl'. eapply rewrite_mtab_spec; [exact Hfw|by rewrite Hl2, Hl1|].
  intros r t' Ho. apply HQ. unfold table_outcome in *. rewrite Hf2, Hl2, Hf1, Hl1 in Ho.
  destruct Ho as [Ho|(-> & Hlk & x & Hx' & Hm)]; [by left|right]. split_and!; [done..|].
  exists x. split; [|done]. exists l.*2. by rewrite <- Hl'.
Qed.
Lemma wp_xassoc {A B C D} (x : X A) (y : X B) (z : B -> X C) (k : C -> X D) Q t :
  wp (let^ c := (do^ x in let^ b := y in z b) in k c) Q t ->
  wp (do^ x in let^ b := y in let^ c := z b in k c) Q t.
Proof.
  unfold xbind, bind, wp. destruct (x t) as [[a|c] t1| | |]; try done.
  destruct (y t1) as [[b|c] t2| | |]; done.
Qed.

Lemma wp_early (x : X bool) (y : X bool) (z : X unit) Q t :
  wp (let^ w := (let^ g := x in if (g : bool) then xret false else y) in if negb w then xret tt else z) Q t ->
  wp (let^ g := x in if (g : bool) then xret tt else let^ w := y in if negb w then xret tt else z) Q t.
Proof.
  unfold xbind, bind, wp. destruct (x t) as [[[]|c] t1| | |]; done.
Qed.

Lemma update_mtab_spec dir instead t :
  lk_ok (mt_lock t) -> lk_pc (mt_lock t) = Idle ->
  let old := default [] (mt_files t MOUNTED) in
  wp (update_mtab dir instead)
    (fun r t' =>
       let new := default [] (mt_files t' MOUNTED) in
       unlocked t' /\
       ((new = old /\ (sys_failure \/ ~ may_write t)) \/ (r = inl tt /\ changed dir instead old new))) t.
Proof.
  intros Hok Hi old.
  assert (Hu0 : unlocked t).
  { split; [done|]. pose proof (lo_pc _ Hok) as Hp. unfold pc_ok in Hp. by rewrite Hi in Hp. }
  apply wp_early, wp_xbind, wp_writable. intros t1 w Hh Hl Hf Hw. destruct w; simpl negb; cbv iota.
  2:{ apply wp_xret. split; [by unfold unlocked; rewrite Hl|]. left. auto. }
  apply wp_xbind, wp_lock; [by rewrite Hl|by rewrite Hl|].
  intros l e r t2 [[-> Hlk]|([c ->] & Hu & Hs)].
  2:{ split; [done|]. left. split; [done|]. by left. }
  destruct (mt_files t1 MOUNTED) as [c|] eqn:Ec; [|done]. simpl in Hf.
  apply wp_xassoc. apply wp_xbind, (locked_part_spec _ _ c); [done|done|].
  intros r t3 [(Hm & Hs & [[-> Hl3]|[[x ->] Hu]])|(-> & Hl3 & x & Hx & Hm)].
  - apply wp_unlock; [by unfold locked; rewrite Hl3|]. intros l' e' t4 Hu _. split; [done|]. left.
    simpl. rewrite Hm. simpl. rewrite Ec. split; [done|by left].
  - split; [done|]. left. rewrite Hm. simpl. rewrite Ec. split; [done|by left].
  - apply wp_unlock; [by unfold locked; rewrite Hl3|]. intros l' e' t4 Hu _. split; [done|]. right.
    simpl. rewrite Hm. split; [done|]. by subst old; rewrite <- Hf.
Qed.
End Rewrite.

(** ** What it promises *)

Section Claims.
Context `{S : SysEnv} {HCL : ChnLaws}.

(** A run in which no call fails: the table is the changed one. *)
Lemma update_mtab_done dir instead t :
  ~ sys_failure -> may_write t -> lk_ok (mt_lock t) -> lk_pc (mt_lock t) = Idle ->
  exists t', update_mtab dir instead t = Ret (inl tt) t' /\ unlocked t' /\
    changed dir instead (default [] (mt_files t MOUNTED)) (default [] (mt_files t' MOUNTED)).
Proof.
  intros Hn Hw Hok Hi.
  destruct (update_mtab_spec dir instead t Hok Hi) as (r & t' & Hr & Hu & [[_ [H|H]]|[-> H]]); [done..|]. eauto.
Qed.


(** An error while /etc/mtab is read empties it: [update_mtab] goes on with
    no entries, writes the table with the new entry at most, and renames it over
    the old one. *)
Theorem read_error_empties_mtab dir instead t :
  (forall e, (sys_fails (FERROR MOUNTED) e).1 = true) -> (forall e, (fclose_cuts e).1 = None) ->
  ~ sys_failure -> may_write t -> lk_ok (mt_lock t) -> lk_pc (mt_lock t) = Idle ->
  exists t', update_mtab dir instead t = Ret (inl tt) t' /\
    default [] (mt_files t' MOUNTED) = match instead with None => [] | Some i => mntent_line i end.
Proof.
  intros Hfe Hcl Hns Hw Hok Hi.
  destruct (update_mtab_done dir instead t Hns Hw Hok Hi) as (t' & Hr & _ & l & [e Hl] & [e' Hx]).
  exists t'. split; [done|]. rewrite Hx, Hcl, Hl, Hfe. destruct instead as [i|]; [|done].
  apply app_nil_r.
Qed.

(** A new entry is not added to a table that has entries, none of them for
    its directory: the function writes the table without it. *)
Theorem absent_entry_lost dir i t :
  (forall f e, (sys_fails (FERROR f) e).1 = false) -> (forall e, (fclose_cuts e).1 = None) ->
  ~ sys_failure -> may_write t -> lk_ok (mt_lock t) -> lk_pc (mt_lock t) = Idle ->
  let l := entries (default [] (mt_files t MOUNTED)) in
  l <> [] -> Forall (fun m => mnt_dir m <> dir) l ->
  exists t', update_mtab dir (Some i) t = Ret (inl tt) t' /\
    default [] (mt_files t' MOUNTED) = table_text l.
Proof.
  intros Hfe Hcl Hns Hw Hok Hi l Hne Hl.
  destruct (update_mtab_done dir (Some i) t Hns Hw Hok Hi) as (t' & Hr & _ & l' & [e Hl'] & [e' Hx]).
  exists t'. split; [done|]. rewrite Hx, Hcl, Hl', Hfe. fold l. unfold updated.
  rewrite change_last_None; [by destruct l|]. eapply Forall_impl; [exact Hl|]. intros m Hm.
  by apply bool_decide_eq_false_2.
Qed.
End Claims.

(** ** A system without failures, and one that cannot read *)

Definition above (h : gmap Z mntentchn) : Z := map_fold (fun p _ m => Z.max p m) 100 h + 1.

Lemma above_fresh h : h !! above h = None /\ above h <> 0.
Proof.
  assert (Hb : 100 <= map_fold (fun p (_ : mntentchn) m => Z.max p m) 100 h /\
               forall p, is_Some (h !! p) -> p <= map_fold (fun p _ m => Z.max p m) 100 h).
  { apply (map_fold_weak_ind (fun m h => 100 <= m /\ forall p, is_Some (h !! p) -> p <= m)).
    - split; [lia|]. intros p Hp. rewrite lookup_empty in Hp. by destruct Hp.
    - intros p c h' m Hp [H1 H2]. split; [lia|]. intros q. destruct (decide (p = q)) as [->|Hne]; [lia|].
      rewrite lookup_insert_ne by done. intros Hq. specialize (H2 _ Hq). lia. }
  destruct Hb as [H1 H2]. unfold above. split; [|lia].
  destruct (h !! _) eqn:E; [|done]. specialize (H2 _ (mk_is_Some _ _ E)). lia.
Qed.

(** [err] is whether reading fails. *)
Definition quiet (err : bool) : SysEnv := {|
  sysenv := unit;
  sys_fails c e := (match c with FERROR _ => err | _ => false end, e);
  fprintf_fails e := (None, e);
  fclose_cuts e := (None, e);
  lock_result _ e := (Ok 3, e);
  malloc_chn h e := (Some (above h), e);
  malloc_mnt e := (true, e) |}.

Lemma quiet_laws err : @ChnLaws (quiet err).
Proof. constructor. simpl. intros h e p e' [= <- _]. apply above_fresh. Qed.

Lemma quiet_no_failure err : ~ @sys_failure (quiet err).
Proof.
  intros [c e e' Hc Hn|e n e' Hc|h e e' Hc|e e' Hc|c e n e' Hc]; simplify_eq/=.
  destruct c; simplify_eq/=. by eapply Hn.
Qed.

Definition mtab_line : list Z := mntent_line sample_mnt.

Definition mtab_state (err : bool) : @mt (quiet err) :=
  @mk_mt (quiet err) ∅ (fun f => match f with MOUNTED => Some mtab_line | _ => None end)
    false false false false false false lk_init tt.

Lemma lk_init_ok : lk_ok lk_init.
Proof. by constructor. Qed.

Lemma mtab_state_may err : @may_write (quiet err) (mtab_state err).
Proof. by split_and!. Qed.


Lemma read_error_empties_mtab_witness :
  exists t', @update_mtab (quiet true) [47] None (mtab_state true) = Ret (inl tt) t' /\
    default [] (@mt_files (quiet true) t' MOUNTED) = [].
Proof.
  apply (@read_error_empties_mtab (quiet true) (quiet_laws true) [47] None (mtab_state true));
    [done|done|apply quiet_no_failure|apply mtab_state_may|apply lk_init_ok|done].
Defined.

Lemma absent_entry_lost_witness :
  exists t', @update_mtab (quiet false) [47] (Some sample_mnt) (mtab_state false) = Ret (inl tt) t' /\
    default [] (@mt_files (quiet false) t' MOUNTED) = mtab_line.
Proof.
  apply (@absent_entry_lost (quiet false) (quiet_laws false) [47] sample_mnt (mtab_state false));
    [done|done|apply quiet_no_failure|apply mtab_state_may|apply lk_init_ok|done|by vm_compute|].
  apply (bool_decide_unpack (Forall (fun m => mnt_dir m <> [47]) _)). vm_compute. exact I.
Defined.
