(* ===== verification/Options.v ===== *)
(** * Mount options and addresses ([nfs3/hsi_nfs3_mount.c], the parsing part)

    A C string is the list of its bytes before the NUL.  The options are split
    at the commas outside quotes by the same loop here and in [hsfs_main.c]. *)

From S2P Require Import Prelude Bitops Hash Proto World Icache IcacheFacts Blocks Rpc Mntent.

Definition QUOTE : Z := 34.
Definition COMMA : Z := 44.
Definition COLON : Z := 58.
Definition EQUALS : Z := 61.

(** ** The items of an option string

    [cur] is what is read of the current item, [open_quote] the state of the
    quotes.  An item ends at a comma outside quotes or at the end of the string;
    one whose quotes are not closed at the end is not given. *)
Fixpoint opt_items (open_quote : bool) (cur s : list Z) : list (list Z) :=
  match s with
  | [] => []
  | c :: s' =>
      let open_quote := if c =? QUOTE then negb open_quote else open_quote in
      if open_quote then opt_items open_quote (cur ++ [c]) s'
      else if c =? COMMA then cur :: opt_items open_quote [] s'
      else match s' with
           | [] => [cur ++ [c]]
           | _ => opt_items open_quote (cur ++ [c]) s'
           end
  end.

(** [strchr(s, c)]: what is before the first [c] and after it. *)
Fixpoint strchr (c : Z) (s : list Z) : option (list Z * list Z) :=
  match s with
  | [] => None
  | x :: s => if x =? c then Some ([], s)
              else match strchr c s with Some (a, b) => Some (x :: a, b) | None => None end
  end.

(** ** What the options set *)

Definition set_port (v : Z) (p : pmap) : pmap :=
  {| pm_prog := pm_prog p; pm_vers := pm_vers p; pm_prot := pm_prot p; pm_port := v |}.
Definition set_prog (v : Z) (p : pmap) : pmap :=
  {| pm_prog := v; pm_vers := pm_vers p; pm_prot := pm_prot p; pm_port := pm_port p |}.
Definition set_vers (v : Z) (p : pmap) : pmap :=
  {| pm_prog := pm_prog p; pm_vers := v; pm_prot := pm_prot p; pm_port := pm_port p |}.
Definition set_prot (v : Z) (p : pmap) : pmap :=
  {| pm_prog := pm_prog p; pm_vers := pm_vers p; pm_prot := v; pm_port := pm_port p |}.

Record popts := mk_po {
  po_super : hsfs_super;
  po_retry : Z;
  po_mnt : pmap;
  po_nfs : pmap;
  po_mounthost : option (list Z);
  po_new : list Z }.

Definition on_super (f : hsfs_super -> hsfs_super) (o : popts) : popts :=
  mk_po (f (po_super o)) (po_retry o) (po_mnt o) (po_nfs o) (po_mounthost o) (po_new o).
Definition on_mnt (f : pmap -> pmap) (o : popts) : popts :=
  mk_po (po_super o) (po_retry o) (f (po_mnt o)) (po_nfs o) (po_mounthost o) (po_new o).
Definition on_nfs (f : pmap -> pmap) (o : popts) : popts :=
  mk_po (po_super o) (po_retry o) (po_mnt o) (f (po_nfs o)) (po_mounthost o) (po_new o).
Definition set_retry (v : Z) (o : popts) : popts :=
  mk_po (po_super o) v (po_mnt o) (po_nfs o) (po_mounthost o) (po_new o).
Definition set_mounthost (v : list Z) (o : popts) : popts :=
  mk_po (po_super o) (po_retry o) (po_mnt o) (po_nfs o) (Some v) (po_new o).
Definition add_new (v : list Z) (o : popts) : popts :=
  mk_po (po_super o) (po_retry o) (po_mnt o) (po_nfs o) (po_mounthost o) (po_new o ++ v).

Definition NFS_MOUNT_TCP : Z := 1.

(** [xstrndup(s, strcspn(s, " \t\n\r,"))] *)
Fixpoint host_part (s : list Z) : list Z :=
  match s with
  | [] => []
  | c :: s => if bool_decide (c ∈ [SPACE; TAB; NEWLINE; RETURN; COMMA]) then [] else c :: host_part s
  end.

Definition prot_tcp (o : popts) : popts :=
  on_super (fun s => set_sb_flags (Z.lor (sb_flags s) NFS_MOUNT_TCP) s)
    (on_mnt (set_prot IPPROTO_TCP) (on_nfs (set_prot IPPROTO_TCP) o)).
Definition prot_udp (o : popts) : popts :=
  on_mnt (set_prot IPPROTO_UDP) (on_nfs (set_prot IPPROTO_UDP) o).
Definition clear_tcp (o : popts) : popts :=
  on_super (fun s => set_sb_flags (Z.ldiff (sb_flags s) NFS_MOUNT_TCP) s) o.

(** The options that take a number, in the order of the comparisons; [arg] is
    what follows the equals sign and [val] its value. *)
Definition num_opts : list (string * (Z -> list Z -> popts -> popts)) := [
  ("rsize", fun val arg => on_super (set_sb_rsize (u32 val)));
  ("wsize", fun val arg => on_super (set_sb_wsize (u32 val)));
  ("timeo", fun val arg => on_super (set_sb_timeo val));
  ("retrans", fun val arg => on_super (set_sb_retrans val));
  ("acregmin", fun val arg => on_super (set_sb_acregmin val));
  ("acregmax", fun val arg => on_super (set_sb_acregmax val));
  ("acdirmin", fun val arg => on_super (set_sb_acdirmin val));
  ("acdirmax", fun val arg => on_super (set_sb_acdirmax val));
  ("actimeo", fun val arg => on_super (fun s =>
     set_sb_acdirmax val (set_sb_acdirmin val (set_sb_acregmax val (set_sb_acregmin val s)))));
  ("retry", fun val arg => set_retry val);
  ("port", fun val arg => on_nfs (set_port (u64 val)));
  ("mountport", fun val arg => on_mnt (set_port (u64 val)));
  ("mountprog", fun val arg => on_mnt (set_prog (u64 val)));
  ("mountvers", fun val arg => on_mnt (set_vers (u64 val)));
  ("mounthost", fun val arg => set_mounthost (host_part arg));
  ("nfsprog", fun val arg => on_nfs (set_prog (u64 val)));
  ("nfsvers", fun val arg => on_nfs (set_vers (u64 val)));
  ("vers", fun val arg => on_nfs (set_vers (u64 val))) ]%string.

Definition num_skipped : list string := ["namlen"; "addr"]%string.

(** The options without a value that are read and have no effect. *)
Definition flags_skipped : list string :=
  ["bg"; "fg"; "soft"; "hard"; "intr"; "posix"; "cto"; "ac";
   "lock"; "broken_suid"; "acl"; "rdirplus"; "sharecache"]%string.

Definition named (opt : list Z) (s : string) : bool := bool_decide (opt = bytes_of s).

Definition find_opt {A} (opt : list Z) (l : list (string * A)) : option A :=
  snd <$> List.find (fun p => named opt p.1) l.

(** How the body of the loop ends. *)
Inductive item_end :=
  | it_continue                           (* [continue] *)
  | it_text (o : popts) (text : list Z)   (* [text] is printed to [cbuf] *)
  | it_bad_parameter
  | it_out_bad.

Definition cbuf_size : Z := 128.
Definition zlen (l : list Z) : Z := Z.of_nat (length l).

Definition num_item (opt arg : list Z) (o : popts) : item_end :=
  match find_opt opt num_opts with
  | Some f =>
      let name := if named opt "vers" then bytes_of "nfsvers" else opt in
      it_text (f (atoi arg) arg o) (name ++ [EQUALS] ++ arg ++ [COMMA])
  | None => if existsb (named opt) num_skipped then it_continue else it_bad_parameter
  end.

Definition text_item (opt arg : list Z) (o : popts) : item_end :=
  let text := opt ++ [EQUALS] ++ arg ++ [COMMA] in
  if named opt "proto" then
    if named arg "udp" then it_text (clear_tcp (prot_udp o)) text
    else if named arg "tcp" then it_text (prot_tcp o) text
    else it_bad_parameter
  else if named opt "sec" then it_continue
  else if named opt "mounthost" then it_text (set_mounthost (host_part arg) o) text
  else if named opt "context" then it_text o text
  else it_bad_parameter.

Definition flag_item (opt : list Z) (o : popts) : item_end :=
  let val := negb (bool_decide (take 2 opt = bytes_of "no")) in
  let opt := if val then opt else drop 2 opt in
  let text := (if val then [] else bytes_of "no") ++ opt ++ [COMMA] in
  if existsb (named opt) flags_skipped then it_continue
  else if named opt "tcp" then it_text (if val then prot_tcp o else prot_udp o) text
  else if named opt "udp" then
    let o := clear_tcp o in it_text (if val then prot_udp o else prot_tcp o) text
  else it_out_bad.

Definition parse_item (opt : list Z) (o : popts) : item_end :=
  if cbuf_size <=? zlen opt then it_bad_parameter
  else match strchr EQUALS opt with
  | Some (name, arg) =>
      if match arg with c :: _ => isdigit c | [] => false end then num_item name arg o
      else text_item name arg o
  | None => flag_item opt o
  end.

(** The loop: [None] when [sprintf] writes past the end of [cbuf], else whether
    it ended at [bad_parameter] or [out_bad]. *)
Inductive parse_end := pe_done | pe_bad_parameter | pe_out_bad.

Fixpoint parse_items (opt_size : Z) (items : list (list Z)) (o : popts) : option (parse_end * popts) :=
  match items with
  | [] => Some (pe_done, o)
  | opt :: items =>
      match parse_item opt o with
      | it_continue => parse_items opt_size items o
      | it_bad_parameter => Some (pe_bad_parameter, o)
      | it_out_bad => Some (pe_out_bad, o)
      | it_text o text =>
          if cbuf_size <=? zlen text then None
          else if opt_size <=? zlen (po_new o) + zlen text then Some (pe_out_bad, o)
          else parse_items opt_size items (add_new text o)
      end
  end.

Section Addresses.
Context {env : Type}.

(** [inet_aton] and [gethostbyname]: an address, or the value of [errno]. *)
Context (resolve : list Z -> env -> (Z + Z) * env).

Definition set_sin_addr (a : Z) (s : sockaddr_in) : sockaddr_in :=
  {| sin_addr := a; sin_port := sin_port s |}.

Definition hsi_gethostbyname (hostname : list Z) (saddr : sockaddr_in) (e : env) :
    (Z * sockaddr_in) * env :=
  let '(r, e) := resolve hostname e in
  (match r with inl a => (0, set_sin_addr a saddr) | inr errno => (errno, saddr) end, e).

(** The return value, what the options set, and the mount server with its
    address; [None] is undefined. *)
Definition hsi_nfs3_parse_options (old_opts : list Z) (super : hsfs_super) (retry : Z)
    (mnt_server : clnt_addr_t) (nfs_server : clnt_addr_t) (opt_size : Z) (e : env) :
    option (Z * popts * sockaddr_in * env) :=
  let o := mk_po super retry (ca_pmap mnt_server) (ca_pmap nfs_server) None [] in
  match parse_items opt_size (opt_items false [] old_opts) o with
  | None => None
  | Some (pe_bad_parameter, o) => Some (0, o, ca_saddr mnt_server, e)
  | Some (pe_out_bad, o) => Some (1, o, ca_saddr mnt_server, e)
  | Some (pe_done, o) =>
      match po_mounthost o with
      | None => Some (0, o, ca_saddr mnt_server, e)
      | Some h =>
          let '((r, a), e) := hsi_gethostbyname h (ca_saddr mnt_server) e in
          if r =? 0 then Some (0, o, a, e) else Some (1, o, a, e)
      end
  end.
End Addresses.

(** 1 when a version is not supported. *)
Definition hsi_nfsmnt_check_compat (nfs_pmap mnt_pmap : pmap) : Z :=
  if negb (pm_vers nfs_pmap =? 0) && negb (pm_vers nfs_pmap =? 3) then 1
  else if negb (pm_vers mnt_pmap =? 0) then 1
  else 0.

(** The host and the directory of [host:dir]; the hostname ends at a comma. *)
Definition hsi_parse_spec (devname : list Z) : option (list Z * list Z) :=
  match strchr COLON devname with
  | None => None
  | Some (host, dir) =>
      Some (match strchr COMMA host with Some (h, _) => h | None => host end, dir)
  end.

(** ** Defaults *)

Definition UDPMSGSIZE : Z := 8800.
Definition RPC_MAXDATASIZE : Z := 9000.

Definition or_default (v d : Z) : Z := if v =? 0 then d else v.

(** The two bounds of a cache time. *)
Definition ac_range (mn mx dmin : Z) : Z * Z :=
  let mn := or_default mn dmin in
  let mx := or_default mx 60 in
  if mx <? mn then (dmin, 60) else (mn, mx).

Definition hsi_validate_mount_data (super : hsfs_super) (ms ns : clnt_addr_t) (retry : Z) :
    hsfs_super * clnt_addr_t * clnt_addr_t * Z :=
  let reg := ac_range (sb_acregmin super) (sb_acregmax super) 3 in
  let dir := ac_range (sb_acdirmin super) (sb_acdirmax super) 30 in
  let b := hsfs_block_size (sb_bsize super) true in
  let np_prot := or_default (pm_prot (ca_pmap ns)) IPPROTO_TCP in
  let size := if np_prot =? IPPROTO_TCP then 64 * 1024
              else if np_prot =? IPPROTO_UDP then UDPMSGSIZE else RPC_MAXDATASIZE in
  let super :=
    set_sb_timeo (or_default (sb_timeo super) 600)
      (set_sb_retrans (or_default (sb_retrans super) 3)
        (set_sb_acregmin reg.1 (set_sb_acregmax reg.2
          (set_sb_acdirmin dir.1 (set_sb_acdirmax dir.2
            (set_sb_bsize (u32 b.1) (set_sb_bsize_bits (default 0 b.2)
              (set_sb_rsize size (set_sb_wsize size super))))))))) in
  (super,
   {| ca_hostname := ca_hostname ms; ca_saddr := sb_addr super;
      ca_pmap := {| pm_prog := MOUNTPROG; pm_vers := MOUNTVERS_NFSV3;
                    pm_prot := or_default (pm_prot (ca_pmap ms)) IPPROTO_TCP;
                    pm_port := pm_port (ca_pmap ms) |} |},
   {| ca_hostname := ca_hostname ns; ca_saddr := sb_addr super;
      ca_pmap := {| pm_prog := NFS_PROGRAM; pm_vers := NFS_V3; pm_prot := np_prot;
                    pm_port := pm_port (ca_pmap ns) |} |},
   if retry =? -1 then 10000 else retry).
