(* ===== verification/MainOpts.v ===== *)
(** * The command line and the entry of the mount table ([fuse/hsfs_main.c])

    Options of the map become flags and options for libfuse, the others are
    passed on in [udata].  libfuse and [getopt_long] are parameters. *)

From S2P Require Import Prelude Bitops Hash Proto World Icache IcacheFacts Blocks Rpc Mntent Lock Mtab Options.

(** ** The map of options *)

Definition MS_RDONLY : Z := 1.
Definition MS_NOSUID : Z := 2.
Definition MS_NODEV : Z := 4.
Definition MS_NOEXEC : Z := 8.
Definition MS_SYNCHRONOUS : Z := 16.
Definition MS_REMOUNT : Z := 32.
Definition MS_MANDLOCK : Z := 64.
Definition MS_DIRSYNC : Z := 128.
Definition MS_NOATIME : Z := 1024.
Definition MS_NODIRATIME : Z := 2048.
Definition MS_BIND : Z := 4096.
Definition MS_REC : Z := 16384.
Definition MS_SILENT : Z := 32768.
Definition MS_DUMMY : Z := 0.
Definition MS_USERS : Z := 0x40000000.
Definition MS_USER : Z := 0x20000000.

Record opt_map_entry := mk_om {
  nfs_opt : string; om_skip : bool; om_inv : bool; om_mask : Z; om_fuse_opt : option string }.

(** The table of the source with the entries of the C library's flags; there is
    no MS_NOSUB. *)
Definition opt_map : list opt_map_entry := [
  mk_om "defaults" false false 0 None;
  mk_om "ro" true false MS_RDONLY (Some "ro");
  mk_om "rw" true true MS_RDONLY (Some "rw");
  mk_om "exec" false true MS_NOEXEC (Some "exec");
  mk_om "noexec" false false MS_NOEXEC (Some "noexec");
  mk_om "suid" false true MS_NOSUID (Some "suid");
  mk_om "nosuid" false false MS_NOSUID (Some "nosuid");
  mk_om "dev" false true MS_NODEV (Some "dev");
  mk_om "nodev" false false MS_NODEV (Some "nodev");
  mk_om "sync" false false MS_SYNCHRONOUS (Some "sync");
  mk_om "async" false true MS_SYNCHRONOUS (Some "async");
  mk_om "dirsync" false false MS_DIRSYNC (Some "dirsync");
  mk_om "remount" false false MS_REMOUNT None;
  mk_om "bind" false false MS_BIND None;
  mk_om "rbind" false false (Z.lor MS_BIND MS_REC) None;
  mk_om "auto" false false MS_DUMMY None;
  mk_om "noauto" false false MS_DUMMY None;
  mk_om "users" false false MS_USERS (Some "allow_other");
  mk_om "nousers" false true MS_USERS (Some "allow_root");
  mk_om "user" false false MS_USER (Some "allow_other");
  mk_om "nouser" false true MS_USER (Some "allow_root");
  mk_om "owner" false false MS_DUMMY None;
  mk_om "noowner" false false MS_DUMMY None;
  mk_om "group" false false MS_DUMMY None;
  mk_om "nogroup" false false MS_DUMMY None;
  mk_om "_netdev" false false MS_DUMMY None;
  mk_om "comment" false false MS_DUMMY None;
  mk_om "quiet" false false MS_SILENT None;
  mk_om "loud" false true MS_SILENT None;
  mk_om "mand" false false MS_MANDLOCK None;
  mk_om "nomand" false true MS_MANDLOCK None;
  mk_om "loop" true false MS_DUMMY None;
  mk_om "atime" false true MS_NOATIME (Some "atime");
  mk_om "noatime" false false MS_NOATIME (Some "noatime");
  mk_om "diratime" false true MS_NODIRATIME None;
  mk_om "nodiratime" false false MS_NODIRATIME None ]%string.

(** ** libfuse *)

Class FuseLib := {
  fuse_args : Type;
  fuse_opt_add_opt : fuse_args -> list Z -> Z * fuse_args;
  fuse_opt_add_arg : fuse_args -> list Z -> Z * fuse_args;
  is_lib_option : list Z -> bool;
  fuse_daemonize : bool -> Z }.

Section CmdLine.
Context `{F : FuseLib}.

Definition hsi_fuse_add_opt (args : fuse_args) (opt : list Z) : Z * fuse_args :=
  fuse_opt_add_opt args opt.

(** The loop over the map: the entry of the option, or that libfuse knows it, or
    neither.  libfuse is asked at each entry that is not the one. *)
Inductive om_find := om_entry (om : opt_map_entry) | om_lib | om_none.

Fixpoint find_om (opt : list Z) (l : list opt_map_entry) : om_find :=
  match l with
  | [] => om_none
  | om :: l =>
      if named opt (nfs_opt om) then om_entry om
      else if is_lib_option opt then om_lib
      else find_om opt l
  end.

Definition apply_mask (om : opt_map_entry) (flags : Z) : Z :=
  if om_inv om then Z.ldiff flags (om_mask om) else Z.lor flags (om_mask om).

(** The part after the loop: [len] is the size of the buffer and a [size_t].
    [None] when a string is written past the end of it. *)
Definition strcat_n (size : Z) (s t : list Z) : option (list Z) :=
  if zlen s + zlen t <? size then Some (s ++ t) else None.

Definition add_extra (opt extra_opts : list Z) (size : Z) : option (list Z) :=
  let len := u64 (size - zlen extra_opts) in
  let len1 := match extra_opts with [] => len | _ => u64 (len - 1) end in
  match (match extra_opts with
         | [] => Some []
         | _ => if 0 <? len1 then strcat_n size extra_opts [COMMA] else Some extra_opts
         end) with
  | None => None
  | Some extra =>
      if 0 <? u64 (len1 - zlen opt) then strcat_n size extra opt else Some extra
  end.

Record pstate := mk_ps { ps_flags : Z; ps_args : fuse_args; ps_udata : list Z }.

Definition hsi_parse_opt (opt : list Z) (len : Z) (s : pstate) : option pstate :=
  match find_om opt opt_map with
  | om_entry om =>
      match om_fuse_opt om with
      | Some f => Some (mk_ps (apply_mask om (ps_flags s))
                         (hsi_fuse_add_opt (ps_args s) (bytes_of f)).2 (ps_udata s))
      | None => Some s
      end
  | om_lib => Some (mk_ps (ps_flags s) (hsi_fuse_add_opt (ps_args s) opt).2 (ps_udata s))
  | om_none =>
      match add_extra opt (ps_udata s) len with
      | Some u => Some (mk_ps (ps_flags s) (ps_args s) u)
      | None => None
      end
  end.

Fixpoint parse_opt_list (len : Z) (items : list (list Z)) (s : pstate) : option pstate :=
  match items with
  | [] => Some s
  | opt :: items =>
      match hsi_parse_opt opt len s with
      | Some s => parse_opt_list len items s
      | None => None
      end
  end.

(** The flags, the arguments and [udata], which stays NULL without options. *)
Definition hsi_parse_opts (options : option (list Z)) (flags : Z) (args : fuse_args) :
    option (Z * fuse_args * option (list Z)) :=
  match options with
  | None => Some (flags, args, None)
  | Some opts =>
      match parse_opt_list (zlen opts + 1) (opt_items false [] opts) (mk_ps flags args []) with
      | Some s => Some (ps_flags s, ps_args s, Some (ps_udata s))
      | None => None
      end
  end.

(** What [getopt_long] returns, one after the other. *)
Inductive cl_opt := cl_r | cl_v | cl_V | cl_w | cl_f | cl_n | cl_o (optarg : list Z) | cl_h | cl_other.

Record clstate := mk_cls {
  cls_flags : Z; cls_verbose : Z; cls_fg : bool; cls_nomtab : bool; cls_tdata : option (list Z) }.

(** [None] when the process exits, with 0, after the version or the usage. *)
Fixpoint read_cl (l : list cl_opt) (s : clstate) : option clstate :=
  match l with
  | [] => Some s
  | c :: l =>
      match c with
      | cl_r => read_cl l (mk_cls (Z.lor (cls_flags s) MS_RDONLY) (cls_verbose s) (cls_fg s) (cls_nomtab s) (cls_tdata s))
      | cl_v => read_cl l (mk_cls (cls_flags s) (cls_verbose s + 1) (cls_fg s) (cls_nomtab s) (cls_tdata s))
      | cl_w => read_cl l (mk_cls (Z.ldiff (cls_flags s) MS_RDONLY) (cls_verbose s) (cls_fg s) (cls_nomtab s) (cls_tdata s))
      | cl_f => read_cl l (mk_cls (cls_flags s) (cls_verbose s) true (cls_nomtab s) (cls_tdata s))
      | cl_n => read_cl l (mk_cls (cls_flags s) (cls_verbose s) (cls_fg s) true (cls_tdata s))
      | cl_o t => read_cl l (mk_cls (cls_flags s) (cls_verbose s) (cls_fg s) (cls_nomtab s) (Some t))
      | cl_V | cl_h | cl_other => None
      end
  end.

(** How [hsi_parse_cmdline] ends. *)
Inductive cl_end :=
  | cl_exit                                  (* exit(0) *)
  | cl_undef                                 (* a buffer overflows *)
  | cl_ret (ret : Z) (s : clstate) (args : fuse_args) (udata : option (list Z)).

Definition subtype_size : Z := 4096.

(** [more]: whether arguments are left after the options ([optind != argc]). *)
Definition hsi_parse_cmdline (opts : list cl_opt) (more : bool) (progname : list Z) (flags : Z)
    (args : fuse_args) : cl_end :=
  match read_cl opts (mk_cls flags 0 false false None) with
  | None => cl_exit
  | Some s =>
      if more then cl_exit
      else
        let subtype := bytes_of "-osubtype=" ++ progname in
        if subtype_size <=? zlen subtype then cl_undef
        else
          let '(r, args) := fuse_opt_add_arg args subtype in
          if negb (r =? 0) then cl_ret r s args None
          else
            let mode := if flag (cls_flags s) MS_RDONLY then "ro"%string else "rw"%string in
            let '(r, args) := hsi_fuse_add_opt args (bytes_of mode) in
            if negb (r =? 0) then cl_ret r s args None
            else match hsi_parse_opts (cls_tdata s) (cls_flags s) args with
            | None => cl_undef
            | Some (flags, args, udata) =>
                cl_ret (fuse_daemonize (cls_fg s))
                  (mk_cls flags (cls_verbose s) (cls_fg s) (cls_nomtab s) (cls_tdata s)) args udata
            end
  end.
End CmdLine.

(** ** The entry in the mount table *)

(** The loop of [hsi_fix_opts_string]. *)
Fixpoint fix_loop (l : list opt_map_entry) (flags : Z) (new_opts : list Z) : list Z :=
  match l with
  | [] => new_opts
  | om :: l =>
      if om_skip om || om_inv om || (om_mask om =? 0) || negb (Z.land flags (om_mask om) =? om_mask om)
      then fix_loop l flags new_opts
      else fix_loop l (Z.ldiff flags (om_mask om)) (new_opts ++ [COMMA] ++ bytes_of (nfs_opt om))
  end.

(** [pw_name] is what [getpwuid(getuid())] gives. *)
Definition hsi_fix_opts_string (pw_name : option (list Z)) (flags : Z) (extra_opts : option (list Z)) : list Z :=
  let new_opts := bytes_of (if flag flags MS_RDONLY then "ro" else "rw")%string in
  let new_opts := if flag flags MS_USER then
                    match pw_name with Some n => new_opts ++ bytes_of ",user=" ++ n | None => new_opts end
                  else new_opts in
  let new_opts := fix_loop opt_map flags new_opts in
  match extra_opts with
  | Some (c :: e) => new_opts ++ [COMMA] ++ (c :: e)
  | _ => new_opts
  end.

Section Table.
Context `{S : SysEnv}.

(** [setmntent(MOUNTED, "a+")] makes the file when it is not there; [addmntent]
    of the C library writes the line that [nfs_addmntent] writes, and flushes
    it. *)
Definition hsi_add_mtab (nomtab : bool) (pw_name : option (list Z))
    (spec mount_point fstype : list Z) (flags : Z) (opts : option (list Z)) : X Z :=
  if nomtab then xret 0
  else
    let ment := mk_mntent spec mount_point fstype (hsi_fix_opts_string pw_name flags opts) 0 0 in
    if flag flags MS_REMOUNT then do^ update_mtab mount_point (Some ment) in xret 0
    else
      do^ lock_mtab_x in
      let^ fails := ask (sys_fails (FOPEN MOUNTED)) in
      let^ res := (if (fails : bool) then xret 1
                   else
                     let^ t := xget in
                     let old := default [] (mt_files t MOUNTED) in
                     let^ cut := ask fprintf_fails in
                     match cut with
                     | Some k =>
                         do^ put_file MOUNTED (Some (old ++ take k (mntent_line ment))) in xret 1
                     | None => do^ put_file MOUNTED (Some (old ++ mntent_line ment)) in xret 0
                     end) in
      do^ unlock_mtab_x in
      xret res.

Definition hsi_del_mtab (nomtab : bool) (node : list Z) : X Z :=
  if nomtab then xret 0 else do^ update_mtab node None in xret 0.
End Table.
