(* ===== verification/OptionsSpec.v ===== *)
(** * Options from the command line to the mount

    Splitting is the inverse of joining; the options libfuse and the map do not
    take reach the parser of the mount options unchanged and never overflow their
    buffer; the string written to the mount table gives its flags back. *)

From S2P Require Import Prelude Bitops Hash Proto World Icache IcacheFacts Blocks Rpc Mntent Lock Mtab Options MainOpts.

Lemma fix_loop_prefix l flags s : exists rest, fix_loop l flags s = s ++ rest.
Proof.
  revert flags s. induction l as [|om l IH]; intros flags s; simpl; [exists []; by rewrite app_nil_r|].
  case_if; [apply IH|]. destruct (IH (Z.ldiff flags (om_mask om)) (s ++ COMMA :: bytes_of (nfs_opt om))) as [r ->].
  rewrite <- app_assoc. eauto.
Qed.

Lemma zlen_nonneg l : 0 <= zlen l.
Proof. unfold zlen. lia. Qed.
Lemma zlen_app a b : zlen (a ++ b) = zlen a + zlen b.
Proof. unfold zlen. rewrite length_app. lia. Qed.
Lemma zlen_cons c a : zlen (c :: a) = 1 + zlen a.
Proof. unfold zlen. simpl. lia. Qed.

(** ** Splitting and joining *)

(** The state of the quotes after [s]; [None] at a comma outside them. *)
Fixpoint item_scan (q : bool) (s : list Z) : option bool :=
  match s with
  | [] => Some q
  | c :: s =>
      let q := if c =? QUOTE then negb q else q in
      if negb q && (c =? COMMA) then None else item_scan q s
  end.

Definition item_ok (s : list Z) : Prop := item_scan false s = Some false.

Fixpoint join (l : list (list Z)) : list Z :=
  match l with
  | [] => []
  | [x] => x
  | x :: l => x ++ [COMMA] ++ join l
  end.

(** What joined items need, a comma each. *)
Fixpoint cost (l : list (list Z)) : Z :=
  match l with [] => 0 | x :: l => zlen x + 1 + cost l end.

Lemma cost_nonneg l : 0 <= cost l.
Proof. induction l as [|x l IH]; simpl; [lia|]. pose proof (zlen_nonneg x). lia. Qed.

Lemma item_scan_app q q' s t : item_scan q s = Some q' -> item_scan q (s ++ t) = item_scan q' t.
Proof.
  revert q. induction s as [|c s IH]; intros q; simpl; [by intros [= ->]|]. case_if; [done|]. apply IH.
Qed.

Lemma opt_items_in q q' cur s t :
  item_scan q s = Some q' -> t <> [] -> opt_items q cur (s ++ t) = opt_items q' (cur ++ s) t.
Proof.
  intros Hs Ht. revert q cur Hs. induction s as [|c s IH]; intros q cur; simpl.
  { intros [= ->]. by rewrite app_nil_r. }
  destruct (if c =? QUOTE then negb q else q) eqn:Hq; simpl.
  - intros Hs. rewrite IH by done. by rewrite <- app_assoc.
  - destruct (c =? COMMA); [done|]. intros Hs. destruct (s ++ t) as [|x l] eqn:E.
    { by apply app_eq_nil in E as [_ ?]. }
    rewrite IH by done. by rewrite <- app_assoc.
Qed.

Lemma opt_items_last q cur s :
  item_scan q s = Some false -> s <> [] -> opt_items q cur s = [cur ++ s].
Proof.
  intros Hs Hne. destruct s as [|c l _] using rev_ind; [done|].
  destruct (item_scan q l) as [q1|] eqn:Hl.
  - rewrite (opt_items_in _ q1) by done. rewrite (item_scan_app _ q1) in Hs by done. simpl in *.
    destruct (if c =? QUOTE then negb q1 else q1); simpl in *; [done|].
    destruct (c =? COMMA); [done|]. by rewrite <- app_assoc.
  - exfalso. clear Hne. revert q Hs Hl. induction l as [|x l IH]; intros q; simpl; [done|].
    case_if; [done|]. apply IH.
Qed.

Lemma join_nonempty x l : Forall (fun x => x <> []) (x :: l) -> join (x :: l) <> [].
Proof.
  intros Hl. apply Forall_cons in Hl as [Hx Hl]. destruct l; [done|]. simpl. by destruct x.
Qed.

Lemma opt_items_join l :
  Forall item_ok l -> Forall (fun x => x <> []) l -> opt_items false [] (join l) = l.
Proof.
  induction l as [|x l IH]; intros Hok Hne; [done|].
  apply Forall_cons in Hok as [Hx Hok]. pose proof Hne as Hne0. apply Forall_cons in Hne as [Hxn Hne].
  destruct l as [|y l]; [by apply (opt_items_last false [])|].
  change (join (x :: y :: l)) with (x ++ COMMA :: join (y :: l)).
  rewrite (opt_items_in _ false) by done. cbn [opt_items]. cbn [negb]. f_equal. by apply IH.
Qed.

Lemma opt_items_ok q cur s :
  item_scan false cur = Some q -> Forall item_ok (opt_items q cur s).
Proof.
  revert q cur. induction s as [|c s IH]; intros q cur Hc; simpl; [constructor|].
  assert (Hsn : forall q', (if c =? QUOTE then negb q else q) = q' -> negb q' && (c =? COMMA) = false ->
    item_scan false (cur ++ [c]) = Some q').
  { intros q' Hq Hn. rewrite (item_scan_app _ q) by done. simpl. by rewrite Hq, Hn. }
  destruct (if c =? QUOTE then negb q else q) eqn:Hq.
  - apply IH. by apply Hsn.
  - destruct (c =? COMMA) eqn:Hcm.
    + constructor; [|by apply IH]. unfold item_ok. rewrite Hc.
      rewrite (proj2 (Z.eqb_neq c QUOTE)) in Hq by (intros ->; done). by rewrite Hq.
    + destruct s as [|d s]; [|by apply IH, Hsn]. constructor; [by apply Hsn|constructor].
Qed.

Lemma opt_items_cost q cur s : s <> [] -> cost (opt_items q cur s) <= zlen cur + zlen s + 1.
Proof.
  revert q cur. induction s as [|c s IH]; intros q cur Hne; [done|]. simpl.
  pose proof (zlen_nonneg cur). pose proof (zlen_nonneg s).
  assert (Hnext : forall q' cur', zlen cur' <= zlen cur + 1 ->
    cost (opt_items q' cur' s) <= zlen cur + zlen (c :: s) + 1).
  { intros q' cur' Hl. rewrite zlen_cons. destruct s as [|d s]; [simpl; lia|].
    specialize (IH q' cur' ltac:(done)). lia. }
  assert (Hc1 : zlen (cur ++ [c]) = zlen cur + 1) by (rewrite zlen_app; done).
  destruct (if c =? QUOTE then negb q else q); [apply Hnext; lia|].
  destruct (c =? COMMA).
  - simpl. rewrite zlen_cons. destruct s as [|d s]; [simpl; lia|].
    specialize (IH false [] ltac:(done)). change (zlen []) with 0 in IH. lia.
  - destruct s as [|d s]; [|apply Hnext; lia]. simpl. rewrite Hc1, zlen_cons. lia.
Qed.

(** ** What is passed on *)

Section Udata.
Context `{F : FuseLib}.

Definition is_extra (opt : list Z) : bool :=
  match find_om opt opt_map with om_none => true | _ => false end.

(** [x] is added to what is there. *)
Definition with_extra (u x : list Z) : list Z := match u with [] => x | _ => u ++ [COMMA] ++ x end.

(** Room for [u] and the items that are left. *)
Definition fits (size : Z) (u : list Z) (items : list (list Z)) : Prop :=
  match u with [] => cost items <= size | _ => zlen u + cost items <= size - 1 end.

Lemma add_extra_fits size u x items :
  0 <= size < 2 ^ 64 -> fits size u (x :: items) ->
  add_extra x u size = Some (with_extra u x) /\ fits size (with_extra u x) items.
Proof.
  intros Hs Hf. pose proof (zlen_nonneg x). pose proof (zlen_nonneg u). pose proof (cost_nonneg items).
  unfold add_extra, strcat_n, u64, fits in *. simpl cost in Hf. destruct u as [|c u].
  - change (zlen []) with 0. rewrite Z.sub_0_r, (Z.mod_small size) by lia. rewrite Z.mod_small by lia.
    rewrite (proj2 (Z.ltb_lt 0 _)), (proj2 (Z.ltb_lt _ size)) by lia. split; [done|]. simpl.
    destruct x; [simpl in *; lia|]. lia.
  - set (v := c :: u) in *. rewrite (Z.mod_small (size - zlen v)), (Z.mod_small (_ - 1)) by lia.
    rewrite (proj2 (Z.ltb_lt 0 _)) by lia. change (zlen [COMMA]) with 1.
    rewrite (proj2 (Z.ltb_lt _ size)) by lia. rewrite Z.mod_small by lia.
    rewrite (proj2 (Z.ltb_lt 0 _)) by lia. rewrite zlen_app. change (zlen [COMMA]) with 1.
    rewrite (proj2 (Z.ltb_lt _ size)) by lia. rewrite <- app_assoc. split; [done|].
    change (zlen (v ++ [COMMA] ++ x) + cost items <= size - 1).
    rewrite !zlen_app. change (zlen [COMMA]) with 1. lia.
Qed.

(** [udata] after the items. *)
Fixpoint extras (u : list Z) (items : list (list Z)) : list Z :=
  match items with
  | [] => u
  | x :: items => extras (if is_extra x then with_extra u x else u) items
  end.

Lemma fits_skip size u x items : fits size u (x :: items) -> fits size u items.
Proof. pose proof (zlen_nonneg x). unfold fits. simpl. destruct u; lia. Qed.

Lemma parse_opt_list_fits size items s :
  0 <= size < 2 ^ 64 -> fits size (ps_udata s) items ->
  exists s', parse_opt_list size items s = Some s' /\ ps_udata s' = extras (ps_udata s) items /\
    fits size (ps_udata s') [].
Proof.
  intros Hs. revert s. induction items as [|x items IH]; intros s Hf; simpl; [by exists s|].
  unfold hsi_parse_opt, is_extra. destruct (find_om x opt_map) as [om| |].
  - apply fits_skip in Hf. destruct (om_fuse_opt om); [by apply (IH (mk_ps _ _ _))|by apply IH].
  - apply fits_skip in Hf. by apply (IH (mk_ps _ _ _)).
  - destruct (add_extra_fits _ _ _ _ Hs Hf) as [-> Hf']. by apply (IH (mk_ps _ _ _)).
Qed.

Lemma parse_opts_fits opts flags args :
  zlen opts + 1 < 2 ^ 64 ->
  exists flags' args' u, hsi_parse_opts (Some opts) flags args = Some (flags', args', Some u) /\
    zlen u <= zlen opts /\ u = extras [] (opt_items false [] opts).
Proof.
  intros Hl. pose proof (zlen_nonneg opts).
  destruct (parse_opt_list_fits (zlen opts + 1) (opt_items false [] opts) (mk_ps flags args [])) as
    (s & Hs & Hu & Hf); [lia| |].
  { simpl. destruct opts as [|c opts]; [simpl; lia|].
    pose proof (opt_items_cost false [] (c :: opts) ltac:(done)) as Hc. change (zlen []) with 0 in Hc. lia. }
  unfold hsi_parse_opts. rewrite Hs. eexists _, _, _. split; [done|]. split; [|done].
  unfold fits in Hf. destruct (ps_udata s); simpl cost in Hf; [done|lia].
Qed.

Lemma join_snoc l x : Forall (fun x => x <> []) l -> join (l ++ [x]) = with_extra (join l) x.
Proof.
  induction l as [|y l IH]; intros Hl; [done|]. pose proof (join_nonempty _ _ Hl) as Hj.
  apply Forall_cons in Hl as [Hy Hl]. specialize (IH Hl). destruct l as [|z l].
  - simpl. by destruct y.
  - change (join ((y :: z :: l) ++ [x])) with (y ++ [COMMA] ++ join ((z :: l) ++ [x])). rewrite IH.
    change (join (y :: z :: l)) with (y ++ [COMMA] ++ join (z :: l)) in *.
    pose proof (join_nonempty _ _ Hl). unfold with_extra.
    destruct (join (z :: l)) eqn:E; [done|]. destruct y; [done|]. simpl. by rewrite <- app_assoc.
Qed.

Lemma extras_join l items :
  Forall (fun x => x <> []) l -> Forall (fun x => x <> []) items ->
  extras (join l) items = join (l ++ List.filter is_extra items).
Proof.
  revert l. induction items as [|x items IH]; intros l Hl Hi; simpl; [by rewrite app_nil_r|].
  apply Forall_cons in Hi as [Hx Hi]. destruct (is_extra x); [|by apply IH].
  rewrite <- join_snoc by done. rewrite IH; [by rewrite <- app_assoc| |done].
  apply Forall_app. auto.
Qed.

Lemma Forall_filter_bool {A} (P : A -> Prop) f (l : list A) : Forall P l -> Forall P (List.filter f l).
Proof. induction 1 as [|x l Hx _ IH]; simpl; [constructor|]. case_if; [by constructor|done]. Qed.

(** C20: The options given with [-o] that neither the map nor libfuse takes reach
    the parser of the mount options: writing them to [udata] stays within its
    buffer, whatever the string is, and when no item of it is empty the items of
    [udata] are exactly those options, in order, quotes included. *)
Theorem options_reach_mount opts flags args :
  zlen opts + 1 < 2 ^ 64 ->
  exists flags' args' u, hsi_parse_opts (Some opts) flags args = Some (flags', args', Some u) /\
    zlen u + 1 <= zlen opts + 1 /\
    (Forall (fun x => x <> []) (opt_items false [] opts) ->
     opt_items false [] u = List.filter is_extra (opt_items false [] opts)).
Proof.
  intros Hl. destruct (parse_opts_fits opts flags args Hl) as (f' & a' & u & Hp & Hu & ->).
  exists f', a', (extras [] (opt_items false [] opts)). split_and!; [done|lia|]. intros Hne.
  rewrite (extras_join []) by done. apply opt_items_join; apply Forall_filter_bool; [|done].
  by apply opt_items_ok.
Qed.
End Udata.

(** ** The buffers of the mount options *)

Lemma strchr_split c s a b : strchr c s = Some (a, b) -> s = a ++ c :: b.
Proof.
  revert a b. induction s as [|x s IH]; intros a b; simpl; [done|].
  destruct (Z.eqb_spec x c) as [->|Hx]; [by intros [= <- <-]|].
  destruct (strchr c s) as [[a' b']|]; [|done]. intros [= <- <-]. simpl. f_equal. by apply IH.
Qed.

Lemma parse_item_text opt o o' text :
  parse_item opt o = it_text o' text -> zlen text <= zlen opt + 4 /\ po_new o' = po_new o.
Proof.
  unfold parse_item. case_if; [done|]. destruct (strchr EQUALS opt) as [[a b]|] eqn:Hc.
  - apply strchr_split in Hc. subst opt.
    assert (Hlen : zlen (a ++ EQUALS :: b) = zlen a + zlen b + 1) by (rewrite zlen_app, zlen_cons; lia).
    rewrite Hlen. case_if.
    + unfold num_item, find_opt. destruct (List.find _ num_opts) as [[nm f]|] eqn:Hf; simpl.
      2:{ case_if; done. }
      intros [= <- <-]. apply List.find_some in Hf as [Hf _]. split.
      * rewrite zlen_app, zlen_cons, zlen_app. change (zlen [COMMA]) with 1.
        destruct (named a "vers") eqn:Hv; [|lia]. apply bool_decide_eq_true in Hv. subst a.
        change (zlen (bytes_of "nfsvers")) with 7. change (zlen (bytes_of "vers")) with 4. lia.
      * simpl in Hf. by repeat (destruct Hf as [[= <- <-]|Hf]; [done|]).
    + unfold text_item. assert (Ht : zlen (a ++ [EQUALS] ++ b ++ [COMMA]) <= zlen a + zlen b + 1 + 4).
      { rewrite !zlen_app. change (zlen [EQUALS]) with 1. change (zlen [COMMA]) with 1. lia. }
      repeat case_if; intros [= <- <-]; done.
  - unfold flag_item.
    set (val := negb (bool_decide (take 2 opt = bytes_of "no"))).
    set (opt' := if val then opt else drop 2 opt).
    assert (Ht : zlen ((if val then [] else bytes_of "no") ++ opt' ++ [COMMA]) <= zlen opt + 4).
    { rewrite !zlen_app. change (zlen [COMMA]) with 1. subst opt'. unfold zlen. destruct val; simpl; [lia|].
      rewrite length_drop. lia. }
    repeat case_if; intros [= <- <-]; try done; by destruct val.
Qed.

Lemma parse_items_fit opt_size items o :
  Forall (fun x => zlen x < 124) items -> zlen (po_new o) < opt_size ->
  exists e o', parse_items opt_size items o = Some (e, o') /\ zlen (po_new o') < opt_size.
Proof.
  intros Hi. revert o. induction Hi as [|x items Hx _ IH]; intros o Hn; simpl; [by eexists _, _|].
  destruct (parse_item x o) as [|o' text| |] eqn:Hp; [by apply IH| |by eexists _, _..].
  apply parse_item_text in Hp as [Ht Hnew].
  rewrite (proj2 (Z.leb_gt _ _)) by (unfold cbuf_size; lia).
  destruct (Z.leb_spec opt_size (zlen (po_new o') + zlen text)).
  - rewrite <- Hnew in Hn. by eexists _, _.
  - apply IH. simpl. rewrite zlen_app. lia.
Qed.

(** C22: When every option is shorter than 124 bytes the parser stays within its
    buffers: it returns, and what it has put together, which it copies to the
    1024 bytes of its caller with [strcat], is shorter than they are. *)
Theorem mount_options_bounded {env} (resolve : list Z -> env -> (Z + Z) * env)
    opts super retry mnt_server nfs_server opt_size e :
  0 < opt_size -> Forall (fun x => zlen x < 124) (opt_items false [] opts) ->
  exists r o a e', hsi_nfs3_parse_options resolve opts super retry mnt_server nfs_server opt_size e =
    Some (r, o, a, e') /\ zlen (po_new o) < opt_size /\ 0 <= zlen (po_new o).
Proof.
  intros Hs Hi. unfold hsi_nfs3_parse_options.
  destruct (parse_items_fit opt_size (opt_items false [] opts)
    (mk_po super retry (ca_pmap mnt_server) (ca_pmap nfs_server) None [])) as (pe & o & -> & Hn);
    [done|done|]. pose proof (zlen_nonneg (po_new o)).
  destruct pe; [|eauto 10..]. destruct (po_mounthost o) as [h|]; [|eauto 10].
  destruct (hsi_gethostbyname _ _ _ _) as [[r a] e']. case_if; eauto 10.
Qed.

(** The check that an option is shorter than [cbuf] does not count the comma
    that is added to it: an option of 127 bytes is accepted and written one byte
    past the end of the buffer. *)
Theorem long_option_overflows {env} (resolve : list Z -> env -> (Z + Z) * env)
    arg super retry mnt_server nfs_server opt_size e :
  item_ok arg -> zlen arg = 119 -> match arg with c :: _ => isdigit c | [] => true end = false ->
  hsi_nfs3_parse_options resolve (bytes_of "context=" ++ arg) super retry mnt_server nfs_server opt_size e =
    None.
Proof.
  intros Ho Hl Hd. unfold hsi_nfs3_parse_options.
  rewrite (opt_items_last false []); [|by rewrite (item_scan_app _ false)|by destruct arg].
  rewrite app_nil_l. cbn [parse_items]. unfold parse_item. rewrite zlen_app, Hl.
  change (cbuf_size <=? zlen (bytes_of "context=") + 119) with false. cbv iota.
  change (strchr EQUALS (bytes_of "context=" ++ arg)) with (Some (bytes_of "context", arg)). cbv iota beta.
  assert (Hd' : match arg with c :: _ => isdigit c | [] => false end = false) by by destruct arg.
  rewrite Hd'. set (o := mk_po _ _ _ _ _ _).
  change (text_item (bytes_of "context") arg o) with
    (it_text o (bytes_of "context" ++ [EQUALS] ++ arg ++ [COMMA])). cbv iota beta.
  rewrite !zlen_app, Hl.
  by change (cbuf_size <=? zlen (bytes_of "context") + (zlen [EQUALS] + (119 + zlen [COMMA]))) with true.
Qed.

(** ** The options in the mount table *)

(** Every flag that the options can set: MS_RDONLY, NOSUID, NODEV, NOEXEC,
    SYNCHRONOUS, DIRSYNC, NOATIME, USER and USERS.  The entries of the map without
    an option for libfuse ([remount], [bind], ...) set none. *)
Definition flag_bits : list Z := [0; 1; 2; 3; 4; 7; 10; 29; 30].
Definition flag_mask : Z := foldr (fun k m => Z.lor (2 ^ k) m) 0 flag_bits.

Fixpoint flag_sets (bits : list Z) : list Z :=
  match bits with
  | [] => [0]
  | k :: bits => flag_sets bits ++ (Z.lor (2 ^ k) <$> flag_sets bits)
  end.

Lemma land_bit x k : 0 <= k -> Z.land x (2 ^ k) = if Z.testbit x k then 2 ^ k else 0.
Proof.
  intros Hk. apply Z.bits_inj'. intros n Hn. rewrite Z.land_spec, Z.pow2_bits_eqb by done.
  destruct (Z.eqb_spec k n) as [->|Hne].
  - rewrite andb_true_r. destruct (Z.testbit x n) eqn:Hb; [by rewrite Z.pow2_bits_true|by rewrite Z.bits_0].
  - rewrite andb_false_r. destruct (Z.testbit x k); [|by rewrite Z.bits_0].
    by rewrite Z.pow2_bits_false by done.
Qed.

Lemma flag_sets_complete bits x :
  Forall (fun k => 0 <= k) bits -> Z.ldiff x (foldr (fun k m => Z.lor (2 ^ k) m) 0 bits) = 0 ->
  x ∈ flag_sets bits.
Proof.
  intros Hb. revert x. induction Hb as [|k bits Hk _ IH]; intros x; simpl.
  { rewrite Z.ldiff_0_r. intros ->. left. }
  intros Hx. assert (Hin : Z.ldiff x (2 ^ k) ∈ flag_sets bits).
  { apply IH. by rewrite Z.ldiff_ldiff_l. }
  assert (Hsplit : x = Z.lor (Z.land x (2 ^ k)) (Z.ldiff x (2 ^ k))).
  { apply Z.bits_inj'. intros n Hn. rewrite Z.lor_spec, Z.land_spec, Z.ldiff_spec.
    by destruct (Z.testbit x n), (Z.testbit (2 ^ k) n). }
  rewrite land_bit in Hsplit by done. rewrite Hsplit. apply elem_of_app. destruct (Z.testbit x k).
  - right. by apply list_elem_of_fmap_2.
  - left. by rewrite Z.lor_0_l.
Qed.

Section FixOpts.
Context `{F : FuseLib}.

(** libfuse does not know the names of the map. *)
Hypothesis Hlib : forall om, In om opt_map -> is_lib_option (bytes_of (nfs_opt om)) = false.

Definition om_of (opt : list Z) : option opt_map_entry :=
  List.find (fun om => named opt (nfs_opt om)) opt_map.

Lemma find_om_known opt om l :
  is_lib_option opt = false -> List.find (fun om => named opt (nfs_opt om)) l = Some om ->
  find_om opt l = om_entry om.
Proof.
  intros Hl. induction l as [|om' l IH]; simpl; [done|]. destruct (named opt (nfs_opt om')).
  - by intros [= ->].
  - rewrite Hl. apply IH.
Qed.

Lemma om_of_known opt om : om_of opt = Some om -> find_om opt opt_map = om_entry om.
Proof.
  intros Ho. apply find_om_known; [|done]. apply List.find_some in Ho as [Hin Hn].
  apply bool_decide_eq_true in Hn. rewrite Hn. by apply Hlib.
Qed.

(** The flags of items that are all in the map. *)
Fixpoint known_flags (items : list (list Z)) (flags : Z) : option Z :=
  match items with
  | [] => Some flags
  | x :: items =>
      match om_of x with
      | Some om => known_flags items (match om_fuse_opt om with Some _ => apply_mask om flags | None => flags end)
      | None => None
      end
  end.

(** *** The string as a list of items *)

(** The names [fix_loop] adds. *)
Fixpoint fix_names (l : list opt_map_entry) (flags : Z) : list (list Z) :=
  match l with
  | [] => []
  | om :: l =>
      if om_skip om || om_inv om || (om_mask om =? 0) || negb (Z.land flags (om_mask om) =? om_mask om)
      then fix_names l flags
      else bytes_of (nfs_opt om) :: fix_names l (Z.ldiff flags (om_mask om))
  end.

Definition mode_of (flags : Z) : list Z := bytes_of (if flag flags MS_RDONLY then "ro" else "rw")%string.

Definition user_items (pw_name : option (list Z)) (flags : Z) : list (list Z) :=
  if flag flags MS_USER then match pw_name with Some n => [bytes_of "user=" ++ n] | None => [] end else [].

Definition after_comma (l : list (list Z)) : list Z := concat (cons COMMA <$> l).

Lemma after_comma_app l k : after_comma (l ++ k) = after_comma l ++ after_comma k.
Proof. unfold after_comma. by rewrite fmap_app, concat_app. Qed.

Lemma join_cons x l : join (x :: l) = x ++ after_comma l.
Proof.
  revert x. induction l as [|y l IH]; intros x; [by rewrite app_nil_r|].
  change (join (x :: y :: l)) with (x ++ COMMA :: join (y :: l)). by rewrite IH.
Qed.

Lemma fix_loop_names l flags s : fix_loop l flags s = s ++ after_comma (fix_names l flags).
Proof.
  revert flags s. induction l as [|om l IH]; intros flags s; simpl; [by rewrite app_nil_r|].
  case_if; [apply IH|]. rewrite IH, <- app_assoc. done.
Qed.

Lemma fix_string_join pw flags xs :
  Forall (fun x => x <> []) xs ->
  hsi_fix_opts_string pw flags (Some (join xs)) =
    join (mode_of flags :: user_items pw flags ++ fix_names opt_map flags ++ xs).
Proof.
  intros Hne. rewrite join_cons, !after_comma_app. unfold hsi_fix_opts_string. rewrite fix_loop_names.
  assert (Hu : forall s, (if flag flags MS_USER then match pw with Some n => s ++ bytes_of ",user=" ++ n | None => s end
    else s) = s ++ after_comma (user_items pw flags)).
  { intros s0. unfold user_items. case_if; [destruct pw|]; simpl; rewrite ?app_nil_r; try done.
    unfold after_comma. simpl. by rewrite app_nil_r. }
  rewrite Hu. fold (mode_of flags). destruct xs as [|x xs].
  - by rewrite app_nil_r, <- app_assoc.
  - pose proof (join_nonempty _ _ Hne) as Hj. destruct (join (x :: xs)) as [|c e] eqn:E; [done|].
    rewrite <- E, join_cons. change (after_comma (x :: xs)) with ([COMMA] ++ x ++ after_comma xs).
    by rewrite <- !app_assoc.
Qed.

(** *** What its items do *)

(** An option that is passed on: neither in the map nor one of libfuse. *)
Definition passed_on (x : list Z) : Prop := item_ok x /\ x <> [] /\ is_extra x = true.

(** The name of the user has no comma, and the option with it is not one of libfuse. *)
Definition user_ok (pw_name : option (list Z)) : Prop :=
  forall n, pw_name = Some n -> item_ok n /\ is_lib_option (bytes_of "user=" ++ n) = false.

Lemma user_passed pw flags : user_ok pw -> Forall passed_on (user_items pw flags).
Proof.
  intros Hu. unfold user_items. case_if; [|constructor]. destruct pw as [n|]; [|constructor].
  destruct (Hu n eq_refl) as [Hn Hl]. apply Forall_singleton. split_and!; [|done|].
  - unfold item_ok. by rewrite (item_scan_app _ false).
  - unfold is_extra.
    assert (Hm : Forall (fun om => named (bytes_of "user=" ++ n) (nfs_opt om) = false) opt_map)
      by (repeat constructor; by apply bool_decide_eq_false).
    clear Hlib. induction Hm as [|om l Hom _ IH]; [done|]. cbn [find_om]. rewrite Hom, Hl. exact IH.
Qed.

Lemma map_items : Forall (fun om => item_ok (bytes_of (nfs_opt om)) /\ bytes_of (nfs_opt om) <> []) opt_map.
Proof. by repeat constructor. Qed.

Lemma fix_names_items flags : Forall (fun x => item_ok x /\ x <> []) (fix_names opt_map flags).
Proof.
  clear Hlib. pose proof map_items as Hm. revert flags. induction Hm as [|om l Hom _ IH]; intros flags; simpl; [done|].
  case_if; [done|by constructor].
Qed.

(** The flags after one item. *)
Definition item_flags (flags : Z) (x : list Z) : Z :=
  match find_om x opt_map with
  | om_entry om => match om_fuse_opt om with Some _ => apply_mask om flags | None => flags end
  | _ => flags
  end.

Lemma parse_opt_list_flags size items s s' :
  parse_opt_list size items s = Some s' -> ps_flags s' = fold_left item_flags items (ps_flags s).
Proof.
  revert s. induction items as [|x items IH]; intros s; simpl; [by intros [= ->]|].
  destruct (hsi_parse_opt x size s) as [s1|] eqn:Hx; [|done]. intros ->%IH. f_equal.
  unfold hsi_parse_opt, item_flags in *. destruct (find_om x opt_map) as [om| |].
  - destruct (om_fuse_opt om); by injection Hx as <-.
  - by injection Hx as <-.
  - destruct (add_extra _ _ _); [|done]. by injection Hx as <-.
Qed.

Lemma passed_flags xs flags : Forall passed_on xs -> fold_left item_flags xs flags = flags.
Proof.
  induction 1 as [|x xs (_ & _ & Hx) _ IH]; simpl; [done|]. unfold item_flags at 2. unfold is_extra in Hx.
  by destruct (find_om x opt_map).
Qed.

Lemma known_item_flags items flags f :
  known_flags items flags = Some f -> fold_left item_flags items flags = f.
Proof.
  revert flags. induction items as [|x items IH]; intros flags; simpl; [by intros [= ->]|].
  destruct (om_of x) as [om|] eqn:Ho; [|done]. intros Hk%IH. rewrite <- Hk. f_equal. unfold item_flags.
  by rewrite (om_of_known _ _ Ho).
Qed.

Definition fixed_back (flags : Z) : bool :=
  bool_decide (known_flags (mode_of flags :: fix_names opt_map flags) 0 = Some flags).

Lemma all_fixed_back : forallb fixed_back (flag_sets flag_bits) = true.
Proof. vm_compute. reflexivity. Qed.

Lemma fixed_back_known flags :
  Z.ldiff flags flag_mask = 0 -> known_flags (mode_of flags :: fix_names opt_map flags) 0 = Some flags.
Proof.
  intros Hf. pose proof (proj1 (List.forallb_forall _ _) all_fixed_back flags) as Hall.
  assert (Hb : fixed_back flags = true).
  { apply Hall. apply list_elem_of_In, flag_sets_complete; [by repeat constructor|exact Hf]. }
  by apply bool_decide_eq_true in Hb.
Qed.

(** The options set no other flags. *)
Lemma item_flags_mask flags x : Z.ldiff flags flag_mask = 0 -> Z.ldiff (item_flags flags x) flag_mask = 0.
Proof.
  intros Hf. unfold item_flags, apply_mask. destruct (find_om x opt_map) as [om| |] eqn:Ho; [|done..].
  assert (Hm : om_fuse_opt om <> None -> Z.ldiff (om_mask om) flag_mask = 0).
  { assert (Hall : Forall (fun om => om_fuse_opt om <> None -> Z.ldiff (om_mask om) flag_mask = 0) opt_map)
      by by repeat constructor.
    clear Hlib. induction Hall as [|om' l Hom _ IH]; simpl in Ho; [done|]. revert Ho. case_if; [by intros [= <-]|].
    case_if; [done|apply IH]. }
  destruct (om_fuse_opt om); [|done]. specialize (Hm ltac:(done)). case_if.
  - rewrite Z.ldiff_ldiff_l, Z.lor_comm, <- Z.ldiff_ldiff_l, Hf. apply Z.ldiff_0_l.
  - rewrite Z.ldiff_land in *. by rewrite Z.land_lor_distr_l, Hf, Hm.
Qed.

Lemma fold_flags_mask items flags :
  Z.ldiff flags flag_mask = 0 -> Z.ldiff (fold_left item_flags items flags) flag_mask = 0.
Proof.
  revert flags. induction items as [|x items IH]; intros flags Hf; simpl; [done|].
  by apply IH, item_flags_mask.
Qed.

(** Joined options: the flags of those of the map, and the others passed on. *)
Lemma parse_joined l args :
  Forall (fun x => item_ok x /\ x <> []) l -> zlen (join l) + 1 < 2 ^ 64 ->
  exists args' u, hsi_parse_opts (Some (join l)) 0 args = Some (fold_left item_flags l 0, args', Some u) /\
    opt_items false [] u = List.filter is_extra l.
Proof.
  intros Hl Hlen. destruct (parse_opts_fits (join l) 0 args Hlen) as (f & a & u & Hp & _ & Hu).
  assert (Hok : Forall item_ok l) by (eapply Forall_impl; [exact Hl|by intros x []]).
  assert (Hne : Forall (fun x => x <> []) l) by (eapply Forall_impl; [exact Hl|by intros x []]).
  exists a, u. split.
  - rewrite Hp. do 3 f_equal. unfold hsi_parse_opts in Hp.
    destruct (parse_opt_list _ _ _) as [s0|] eqn:Hs; [|done]. injection Hp as <- _ _.
    apply parse_opt_list_flags in Hs. by rewrite opt_items_join in Hs.
  - rewrite Hu, opt_items_join by done. rewrite (extras_join []) by done.
    apply opt_items_join; by apply Forall_filter_bool.
Qed.

Lemma known_not_passed x : is_Some (om_of x) -> is_extra x = false.
Proof. intros [om Ho]. unfold is_extra. by rewrite (om_of_known _ _ Ho). Qed.

Lemma filter_known items flags f : known_flags items flags = Some f -> List.filter is_extra items = [].
Proof.
  revert flags. induction items as [|x items IH]; intros flags; simpl; [done|].
  destruct (om_of x) as [om|] eqn:Ho; [|done]. rewrite known_not_passed by by eexists. apply IH.
Qed.

Lemma filter_passed xs : Forall passed_on xs -> List.filter is_extra xs = xs.
Proof. induction 1 as [|x xs (_ & _ & Hx) _ IH]; simpl; [done|]. by rewrite Hx, IH. Qed.

(** The udata of a list without empty items. *)
Lemma parsed_udata opts args f a u :
  zlen opts + 1 < 2 ^ 64 -> Forall (fun x => x <> []) (opt_items false [] opts) ->
  hsi_parse_opts (Some opts) 0 args = Some (f, a, Some u) ->
  Z.ldiff f flag_mask = 0 /\ exists xs, u = join xs /\ Forall passed_on xs.
Proof.
  intros Hl Hne Hp. destruct (parse_opts_fits opts 0 args Hl) as (f' & a' & u' & Hp' & _ & Hu).
  rewrite Hp in Hp'. injection Hp' as <- <- <-. split.
  - unfold hsi_parse_opts in Hp. destruct (parse_opt_list _ _ _) as [s0|] eqn:Hs; [|done].
    injection Hp as <- _ _. rewrite (parse_opt_list_flags _ _ _ _ Hs). by apply fold_flags_mask.
  - exists (List.filter is_extra (opt_items false [] opts)). rewrite Hu, (extras_join []) by done. split; [done|].
    pose proof (opt_items_ok false [] opts eq_refl) as Hok. clear Hu Hp.
    induction Hne as [|x l Hx _ IH]; simpl; [constructor|]. apply Forall_cons in Hok as [Hx2 Hok].
    destruct (is_extra x) eqn:He; [|by apply IH]. constructor; [done|by apply IH].
Qed.

Lemma passed_items l : Forall passed_on l -> Forall (fun x => item_ok x /\ x <> []) l.
Proof. intros Hl. eapply Forall_impl; [exact Hl|]. by intros x (? & ? & _). Qed.

(** Options of the map between those that are passed on. *)
Lemma parse_mixed mode us names xs flags args :
  known_flags (mode :: names) 0 = Some flags -> Forall (fun x => item_ok x /\ x <> []) (mode :: names) ->
  Forall passed_on us -> Forall passed_on xs -> zlen (join (mode :: us ++ names ++ xs)) + 1 < 2 ^ 64 ->
  exists args' u', hsi_parse_opts (Some (join (mode :: us ++ names ++ xs))) 0 args = Some (flags, args', Some u') /\
    opt_items false [] u' = us ++ xs.
Proof.
  intros Hk Hm Hus Hxs Hlen. apply Forall_cons in Hm as [Hm Hn].
  destruct (parse_joined (mode :: us ++ names ++ xs) args) as (args' & u' & Hr & Hi); [|done|].
  { constructor; [done|]. repeat (apply Forall_app; split); auto using passed_items. }
  exists args', u'. split.
  - rewrite Hr. do 3 f_equal. cbn [fold_left]. rewrite !fold_left_app, (passed_flags us), (passed_flags xs) by done.
    exact (known_item_flags _ _ _ Hk).
  - rewrite Hi. apply filter_known in Hk. cbn [List.filter] in *.
    rewrite !List.filter_app, (filter_passed us), (filter_passed xs) by done.
    destruct (is_extra mode); [discriminate Hk|]. by rewrite Hk.
Qed.

(** C21: The options of a mount survive its entry in the mount table.  Let [opts],
    a list without empty items, be read as the flags [f] and the options [u] that
    are passed on.  Then [f] is among the nine flags of [flag_mask], and for every
    such combination of flags (that of the entry has the bit of TCP as well) the
    string that [hsi_fix_opts_string] makes of the flags, [u] and the name of the
    user, read again, gives exactly those flags, and the options that are passed on
    are those of [u] after [user=NAME], which is there when MS_USER is set and the
    user has a name.  It is assumed that libfuse claims neither the names of the map
    nor [user=NAME], that the name has no comma or open quote, and that the strings
    are shorter than the address space.  Flags that no option sets ([remount],
    [bind] and so on) are not covered. *)
Theorem fix_opts_roundtrip pw opts args f a u flags :
  zlen opts + 1 < 2 ^ 64 -> Forall (fun x => x <> []) (opt_items false [] opts) ->
  hsi_parse_opts (Some opts) 0 args = Some (f, a, Some u) ->
  Z.ldiff flags flag_mask = 0 -> user_ok pw -> zlen (hsi_fix_opts_string pw flags (Some u)) + 1 < 2 ^ 64 ->
  Z.ldiff f flag_mask = 0 /\
  exists args' u', hsi_parse_opts (Some (hsi_fix_opts_string pw flags (Some u))) 0 args = Some (flags, args', Some u') /\
    opt_items false [] u' = user_items pw flags ++ opt_items false [] u.
Proof.
  intros Hl Hne Hp Hf Hu Hlen. destruct (parsed_udata _ _ _ _ _ Hl Hne Hp) as (Hm & xs & -> & Hxs).
  split; [done|]. pose proof (passed_items xs Hxs) as Hi.
  assert (Hx1 : Forall (fun x => x <> []) xs) by (eapply Forall_impl; [exact Hi|by intros x []]).
  assert (Hx2 : Forall item_ok xs) by (eapply Forall_impl; [exact Hi|by intros x []]).
  rewrite fix_string_join in * by exact Hx1. rewrite (opt_items_join xs Hx2 Hx1).
  apply parse_mixed; [by apply fixed_back_known| |by apply user_passed|exact Hxs|exact Hlen].
  constructor; [unfold mode_of; by case_if|]. apply fix_names_items.
Qed.
End FixOpts.

(** ** Witnesses *)

(** libfuse with [debug] as its only option. *)
Definition sample_fuse : FuseLib := {|
  fuse_args := list (list Z);
  fuse_opt_add_opt args opt := (0, args ++ [opt]);
  fuse_opt_add_arg args opt := (0, args ++ [opt]);
  is_lib_option opt := named opt "debug";
  fuse_daemonize _ := 0 |}.

(** The quoted comma stays with its option. *)
Definition sample_opts : list Z :=
  (fun c => if c =? 39 then QUOTE else c) <$> bytes_of "ro,timeo=7,debug,context='a,b',nosuid,tcp".

Lemma options_reach_mount_witness :
  exists flags' args' u,
    @hsi_parse_opts sample_fuse (Some sample_opts) 0 ([] : list (list Z)) = Some (flags', args', Some u) /\
    zlen u + 1 <= zlen sample_opts + 1 /\
    opt_items false [] u =
      [bytes_of "timeo=7";
       (fun c => if c =? 39 then QUOTE else c) <$> bytes_of "context='a,b'"; bytes_of "tcp"].
Proof.
  destruct (@options_reach_mount sample_fuse sample_opts 0 ([] : list (list Z))) as (f & a & u & Hp & Hl & Hi);
    [by vm_compute|].
  exists f, a, u. split; [exact Hp|split; [exact Hl|]]. rewrite Hi; [vm_compute; reflexivity|].
  apply (bool_decide_unpack (Forall (fun x => x <> []) _)). vm_compute. exact I.
Defined.

Definition no_host (h : list Z) (e : unit) : (Z + Z) * unit := (inr 0, e).

Lemma mount_options_bounded_witness :
  exists r o a e', hsi_nfs3_parse_options no_host (bytes_of "rsize=8192,tcp") super_zero (-1)
      clnt_addr_zero clnt_addr_zero 1024 tt = Some (r, o, a, e') /\ zlen (po_new o) < 1024 /\
    0 <= zlen (po_new o).
Proof.
  refine (mount_options_bounded no_host (bytes_of "rsize=8192,tcp") super_zero (-1)
    clnt_addr_zero clnt_addr_zero 1024 tt eq_refl _).
  apply (bool_decide_unpack (Forall (fun x => zlen x < 124) _)). vm_compute. exact I.
Defined.

Lemma long_option_overflows_witness :
  hsi_nfs3_parse_options no_host (bytes_of "context=" ++ replicate 119 97) super_zero (-1)
    clnt_addr_zero clnt_addr_zero 1024 tt = None.
Proof.
  refine (long_option_overflows no_host (replicate 119 97) super_zero (-1)
    clnt_addr_zero clnt_addr_zero 1024 tt _ eq_refl eq_refl). vm_compute. reflexivity.
Defined.

(** A mount by a user. *)
Lemma fix_opts_roundtrip_witness :
  exists args' u', @hsi_parse_opts sample_fuse
    (Some (hsi_fix_opts_string (Some (bytes_of "joe")) (Z.lor MS_USER MS_NOSUID) (Some (bytes_of "timeo=7,tcp"))))
      0 ([] : list (list Z)) = Some (Z.lor MS_USER MS_NOSUID, args', Some u') /\
    opt_items false [] u' = [bytes_of "user=joe"; bytes_of "timeo=7"; bytes_of "tcp"].
Proof.
  destruct (@fix_opts_roundtrip sample_fuse) with (pw := Some (bytes_of "joe"))
    (opts := bytes_of "user,timeo=7,nosuid,tcp") (args := [] : list (list Z)) (f := Z.lor MS_USER MS_NOSUID)
    (a := [bytes_of "allow_other"; bytes_of "nosuid"]) (u := bytes_of "timeo=7,tcp") (flags := Z.lor MS_USER MS_NOSUID)
    as (_ & args' & u' & Hr & Hi).
  - apply List.Forall_forall. by repeat constructor.
  - by vm_compute.
  - apply (bool_decide_unpack (Forall (fun x => x <> []) _)). vm_compute. exact I.
  - vm_compute. reflexivity.
  - by vm_compute.
  - intros n [= <-]. by split; vm_compute.
  - by vm_compute.
  - exists args', u'. split; [exact Hr|]. rewrite Hi. vm_compute. reflexivity.
Defined.
