(* ===== verification/Xcommon.v ===== *)
(** * Strings on the heap and fatal errors ([fuse/xcommon.c])

    The functions that allocate, copy and join strings, on a heap of blocks of
    bytes.  A [char *] is NULL, a literal, or the start of a block; an access
    outside of a block, and [free] of what [malloc] did not give, are undefined.
    A process that has no memory ends in [die], which calls [at_die] first.
    Messages are not modelled. *)

From S2P Require Import Prelude Mntent Lock Mtab Options MainOpts.

Inductive char_ptr := PNULL | PLIT (s : list Z) | PBLK (p : Z).

(** The allocator answers the address and the bytes that happen to be there;
    [realpath] is of the C library, and [at_die] acts on the rest of the
    process. *)
Class StrEnv := {
  senv : Type;
  malloc_bytes : Z -> gmap Z (list Z) -> senv -> option (Z * list Z) * senv;
  realpath : list Z -> senv -> option (list Z) * senv;
  at_die : option (senv -> senv) }.

Record smem `{S : StrEnv} := mk_smem { sm_blocks : gmap Z (list Z); sm_env : senv }.
Arguments smem {S}.
Arguments mk_smem {S} _ _.

(** A block that [malloc] gives is new and has the size asked for. *)
Class StrLaws `{S : StrEnv} : Prop :=
  malloc_bytes_law : forall n h e p b e', malloc_bytes n h e = (Some (p, b), e') ->
    h !! p = None /\ Z.of_nat (length b) = n.

Definition EX_SOFTWARE : Z := 4.

(** The bytes before the first zero. *)
Fixpoint c_string (b : list Z) : option (list Z) :=
  match b with
  | [] => None
  | c :: b => if c =? 0 then Some [] else s ← c_string b; Some (c :: s)
  end.

(** The string in the first [n] bytes, which need not end there. *)
Fixpoint c_string_n (n : nat) (b : list Z) : option (list Z) :=
  match n with
  | O => Some []
  | S n =>
      match b with
      | [] => None
      | c :: b => if c =? 0 then Some [] else s ← c_string_n n b; Some (c :: s)
      end
  end.

(** [d] over the bytes of [b] from [off] on; [None] when it ends after them. *)
Definition overwrite (off : nat) (d b : list Z) : option (list Z) :=
  if decide (off + length d <= length b)%nat
  then Some (take off b ++ d ++ drop (off + length d) b) else None.

Section Strings.
Context `{S : StrEnv}.

Definition SX (A : Type) : Type := XM smem A.

Definition sundef {A} : SX A := fun _ => Undef.

Definition read_string (p : char_ptr) : SX (list Z) :=
  fun m => match p with
           | PNULL => Undef
           | PLIT s => Ret (inl s) m
           | PBLK a => match sm_blocks m !! a ≫= c_string with Some s => Ret (inl s) m | None => Undef end
           end.

Definition read_string_n (n : nat) (p : char_ptr) : SX (list Z) :=
  fun m => match p with
           | PNULL => Undef
           | PLIT s => Ret (inl (take n s)) m
           | PBLK a =>
               match sm_blocks m !! a ≫= c_string_n n with Some s => Ret (inl s) m | None => Undef end
           end.

Definition write_bytes (p : char_ptr) (off : nat) (d : list Z) : SX unit :=
  fun m => match p with
           | PBLK a => match sm_blocks m !! a ≫= overwrite off d with
                       | Some b => Ret (inl tt) (mk_smem (<[a := b]> (sm_blocks m)) (sm_env m))
                       | None => Undef
                       end
           | _ => Undef
           end.

(** ** The C library *)

Definition strlen_c (p : char_ptr) : SX Z := let^ s := read_string p in xret (zlen s).

Definition strcpy_c (dst src : char_ptr) : SX unit :=
  let^ s := read_string src in write_bytes dst 0 (s ++ [0]).

Definition strcat_c (dst src : char_ptr) : SX unit :=
  let^ d := read_string dst in
  let^ s := read_string src in
  write_bytes dst (length d) (s ++ [0]).

(** [n] bytes: the string, cut or filled with zeros. *)
Definition strncpy_c (dst src : char_ptr) (n : Z) : SX unit :=
  let^ s := read_string_n (Z.to_nat n) src in
  write_bytes dst 0 (s ++ replicate (Z.to_nat n - length s) 0).

Definition malloc_c (size : Z) : SX char_ptr :=
  fun m => match malloc_bytes size (sm_blocks m) (sm_env m) with
           | (Some (a, b), e) => Ret (inl (PBLK a)) (mk_smem (<[a := b]> (sm_blocks m)) e)
           | (None, e) => Ret (inl PNULL) (mk_smem (sm_blocks m) e)
           end.

Definition free_c (p : char_ptr) : SX unit :=
  fun m => match p with
           | PNULL => Ret (inl tt) m
           | PLIT _ => Undef
           | PBLK a => match sm_blocks m !! a with
                       | Some _ => Ret (inl tt) (mk_smem (delete a (sm_blocks m)) (sm_env m))
                       | None => Undef
                       end
           end.

(** The new block may be where the old one was; without memory the old one
    stays.  A size of 0 frees the block. *)
Definition realloc_c (p : char_ptr) (size : Z) : SX char_ptr :=
  fun m => match p with
           | PNULL => malloc_c size m
           | PLIT _ => Undef
           | PBLK a =>
               match sm_blocks m !! a with
               | None => Undef
               | Some old =>
                   let rest := delete a (sm_blocks m) in
                   if size =? 0 then Ret (inl PNULL) (mk_smem rest (sm_env m))
                   else match malloc_bytes size rest (sm_env m) with
                        | (Some (a', b), e) =>
                            let kept := take (length b) old in
                            Ret (inl (PBLK a')) (mk_smem (<[a' := kept ++ drop (length kept) b]> rest) e)
                        | (None, e) => Ret (inl PNULL) (mk_smem (sm_blocks m) e)
                        end
               end
           end.

Definition strdup_c (s : char_ptr) : SX char_ptr :=
  let^ v := read_string s in
  let^ t := malloc_c (zlen v + 1) in
  match t with
  | PNULL => xret PNULL
  | _ => do^ write_bytes t 0 (v ++ [0]) in xret t
  end.

(** ** xcommon.c *)

Definition x_die {A} (err : Z) : SX A :=
  do^ xmodify (fun m => match at_die with
                        | Some f => mk_smem (sm_blocks m) (f (sm_env m))
                        | None => m
                        end) in
  xexit err.

Definition die_if_null (t : char_ptr) : SX unit :=
  match t with PNULL => x_die EX_SYSERR | _ => xret tt end.

Definition xmalloc (size : Z) : SX char_ptr :=
  if size =? 0 then xret PNULL
  else
    let^ t := malloc_c size in
    do^ die_if_null t in
    xret t.

Definition xrealloc (p : char_ptr) (size : Z) : SX char_ptr :=
  let^ t := realloc_c p size in
  do^ die_if_null t in
  xret t.

Definition xfree (ptr : char_ptr) : SX unit := free_c ptr.

Definition xstrdup (s : char_ptr) : SX char_ptr :=
  match s with
  | PNULL => xret PNULL
  | _ =>
      let^ t := strdup_c s in
      do^ die_if_null t in
      xret t
  end.

(** [n] is an [int]: [n + 1] and [n] become a [size_t]. *)
Definition xstrndup (s : char_ptr) (n : Z) : SX char_ptr :=
  do^ (match s with PNULL => x_die EX_SOFTWARE | _ => xret tt end) in
  if n =? 2 ^ 31 - 1 then sundef
  else
    let^ t := xmalloc (u64 (n + 1)) in
    do^ strncpy_c t s (u64 n) in
    do^ (if n <? 0 then sundef else write_bytes t (Z.to_nat n) [0]) in
    xret t.

(** [if (!s) s = "";] *)
Definition or_empty (s : char_ptr) : char_ptr := match s with PNULL => PLIT [] | _ => s end.

Definition xstrconcat2 (s t : char_ptr) : SX char_ptr :=
  let s := or_empty s in
  let t := or_empty t in
  let^ ls := strlen_c s in
  let^ lt := strlen_c t in
  let^ res := xmalloc (u64 (ls + lt + 1)) in
  do^ strcpy_c res s in
  do^ strcat_c res t in
  xret res.

Definition xstrconcat3 (s t u : char_ptr) : SX char_ptr :=
  let s := or_empty s in
  let t := or_empty t in
  let u := or_empty u in
  let^ ls := strlen_c s in
  let^ lt := strlen_c t in
  let^ lu := strlen_c u in
  let^ res := xmalloc (u64 (ls + lt + lu + 1)) in
  do^ strcpy_c res s in
  do^ strcat_c res t in
  do^ strcat_c res u in
  do^ free_c s in
  xret res.

Definition xstrconcat4 (s t u v : char_ptr) : SX char_ptr :=
  let s := or_empty s in
  let t := or_empty t in
  let u := or_empty u in
  let v := or_empty v in
  let^ ls := strlen_c s in
  let^ lt := strlen_c t in
  let^ lu := strlen_c u in
  let^ lv := strlen_c v in
  let^ res := xmalloc (u64 (ls + lt + lu + lv + 1)) in
  do^ strcpy_c res s in
  do^ strcat_c res t in
  do^ strcat_c res u in
  do^ strcat_c res v in
  do^ free_c s in
  xret res.

(** The message itself goes to stderr. *)
Definition nfs_error (fmt : char_ptr) : SX unit :=
  let^ fmt2 := xstrconcat2 fmt (PLIT [10]) in
  free_c fmt2.

(** [canonical] is on the stack. *)
Definition canonicalize (path : char_ptr) : SX char_ptr :=
  match path with
  | PNULL => xret PNULL
  | _ =>
      let^ s := read_string path in
      if named s "none" || named s "proc" || named s "devpts" then xstrdup path
      else
        let^ m := xget in
        let '(r, e) := realpath s (sm_env m) in
        do^ xmodify (fun m => mk_smem (sm_blocks m) e) in
        match r with
        | Some canonical => xstrdup (PLIT canonical)
        | None => xstrdup path
        end
  end.

(** ** The options of the mount table ([fuse/hsfs_main.c])

    [hsi_fix_opts_string] as it runs on the heap; MainOpts has it on lists. *)

Fixpoint fix_loop_c (l : list opt_map_entry) (flags : Z) (new_opts : char_ptr) : SX char_ptr :=
  match l with
  | [] => xret new_opts
  | om :: l =>
      if om_skip om then fix_loop_c l flags new_opts
      else if om_inv om || (om_mask om =? 0) || negb (Z.land flags (om_mask om) =? om_mask om)
      then fix_loop_c l flags new_opts
      else
        let^ new_opts := xstrconcat3 new_opts (PLIT [COMMA]) (PLIT (bytes_of (nfs_opt om))) in
        fix_loop_c l (Z.ldiff flags (om_mask om)) new_opts
  end.

(** [pw_name] is what [getpwuid(getuid())] gives, in storage of the C library. *)
Definition fix_opts_string_c (pw_name : option (list Z)) (flags : Z) (extra_opts : char_ptr) : SX char_ptr :=
  let^ new_opts := xstrdup (PLIT (bytes_of (if flag flags MS_RDONLY then "ro" else "rw")%string)) in
  let^ new_opts := (if flag flags MS_USER then
                      match pw_name with
                      | Some n => xstrconcat3 new_opts (PLIT (bytes_of ",user=")) (PLIT n)
                      | None => xret new_opts
                      end
                    else xret new_opts) in
  let^ new_opts := fix_loop_c opt_map flags new_opts in
  match extra_opts with
  | PNULL => xret new_opts
  | _ =>
      let^ e := read_string extra_opts in
      match e with
      | [] => xret new_opts
      | _ => xstrconcat3 new_opts (PLIT [COMMA]) extra_opts
      end
  end.
End Strings.
