(* ===== verification/XcommonSpec.v ===== *)
(** * Properties of the string functions

    The functions of [fuse/xcommon.c] write inside the blocks they allocate,
    free what they say they free, and nothing else; the string for the mount table
    is built on the heap as MainOpts builds it on lists. *)

From S2P Require Import Prelude Mntent Lock Mtab Options MainOpts OptionsSpec Xcommon.

(** ** Strings in blocks *)

Lemma c_string_app s r : 0 ∉ s -> c_string (s ++ 0 :: r) = Some s.
Proof.
  induction s as [|c s IH]; intros Hz; [done|]. apply not_elem_of_cons in Hz as [Hc Hz]. simpl.
  rewrite (proj2 (Z.eqb_neq c 0)) by done. by rewrite IH.
Qed.

Lemma c_string_some b s : c_string b = Some s -> (0 ∉ s) /\ exists r, b = s ++ 0 :: r.
Proof.
  revert s. induction b as [|c b IH]; intros s; [done|]. simpl. destruct (Z.eqb_spec c 0) as [->|Hc].
  - intros [= <-]. split; [apply not_elem_of_nil|by exists b].
  - destruct (c_string b) as [t|] eqn:Ht; [|done]. intros [= <-]. destruct (IH t eq_refl) as (Hz & r & ->).
    split; [by apply not_elem_of_cons|by exists r].
Qed.

(** A block that starts with the string [s] and is as it was after that. *)
Definition filled (b s : list Z) : list Z := s ++ 0 :: drop (length s + 1) b.

Lemma overwrite_start b s : (length s < length b)%nat -> overwrite 0 (s ++ [0]) b = Some (filled b s).
Proof.
  intros Hl. unfold overwrite, filled. rewrite length_app. simpl.
  rewrite decide_True by lia. by rewrite <- app_assoc.
Qed.

Lemma overwrite_more b s t :
  (length s + length t < length b)%nat ->
  overwrite (length s) (t ++ [0]) (filled b s) = Some (filled b (s ++ t)).
Proof.
  intros Hl. unfold overwrite, filled. rewrite !length_app. simpl. rewrite length_drop.
  rewrite decide_True by lia. f_equal. rewrite take_app_length, <- !app_assoc. do 2 f_equal.
  change ([0] ++ ?x) with (0 :: x). f_equal.
  rewrite drop_app_ge by lia. replace (length s + (length t + 1) - length s)%nat with (S (length t)) by lia.
  simpl. rewrite drop_drop. f_equal. lia.
Qed.

Lemma filled_exact b s : length b = (length s + 1)%nat -> filled b s = s ++ [0].
Proof. intros Hl. unfold filled. by rewrite drop_ge by lia. Qed.

Section Rules.
Context `{S : StrEnv} {HL : StrLaws}.

(** The string a pointer stands for; NULL stands for the empty one. *)
Definition str_at (m : smem) (p : char_ptr) (s : list Z) : Prop :=
  (0 ∉ s) /\ match p with
           | PNULL => s = []
           | PLIT l => s = l
           | PBLK a => exists b, sm_blocks m !! a = Some b /\ c_string b = Some s
           end.

(** The allocator has no memory, at some time. *)
Definition no_memory : Prop := exists n h e e', malloc_bytes n h e = (None, e').

Lemma str_at_insert m p s a b e :
  sm_blocks m !! a = None -> str_at m p s -> str_at (mk_smem (<[a := b]> (sm_blocks m)) e) p s.
Proof.
  intros Ha [Hz Hp]. split; [done|]. destruct p as [| |q]; [done..|].
  destruct Hp as (c & Hq & Hc). exists c. split; [|done]. simpl. by rewrite lookup_insert_ne by congruence.
Qed.

Lemma str_at_or_empty m p s : str_at m p s -> str_at m (or_empty p) s.
Proof. by destruct p. Qed.

Lemma wp_read_string p s (Q : list Z + Z -> smem -> Prop) m :
  str_at m p s -> Q (inl s) m -> wp (read_string (or_empty p)) Q m.
Proof.
  intros [Hz Hp] HQ. exists (inl s), m. split; [|done]. unfold read_string.
  destruct p as [|l|q]; simpl; [by rewrite Hp|by rewrite Hp|]. destruct Hp as (b & -> & Hb). simpl. by rewrite Hb.
Qed.

Lemma wp_strlen p s (Q : Z + Z -> smem -> Prop) m :
  str_at m p s -> Q (inl (zlen s)) m -> wp (strlen_c (or_empty p)) Q m.
Proof. intros Hp HQ. apply wp_xbind. eapply wp_read_string; [done|]. by apply wp_xret. Qed.

Lemma wp_write_bytes a b off d b' (Q : unit + Z -> smem -> Prop) m :
  sm_blocks m !! a = Some b -> overwrite off d b = Some b' ->
  Q (inl tt) (mk_smem (<[a := b']> (sm_blocks m)) (sm_env m)) -> wp (write_bytes (PBLK a) off d) Q m.
Proof.
  intros Ha Hb HQ. eexists _, _. split; [|exact HQ]. unfold write_bytes. rewrite Ha. simpl. by rewrite Hb.
Qed.

Lemma wp_x_die {A} err (Q : A + Z -> smem -> Prop) m :
  (forall e, Q (inr err) (mk_smem (sm_blocks m) e)) -> wp (x_die err) Q m.
Proof.
  intros HQ. apply wp_xbind, wp_xmodify. apply wp_ret. destruct m as [h e]. destruct at_die; apply HQ.
Qed.

Lemma wp_malloc_c n (Q : char_ptr + Z -> smem -> Prop) m :
  (no_memory -> forall e, Q (inl PNULL) (mk_smem (sm_blocks m) e)) ->
  (forall a b e, sm_blocks m !! a = None -> Z.of_nat (length b) = n ->
     Q (inl (PBLK a)) (mk_smem (<[a := b]> (sm_blocks m)) e)) ->
  wp (malloc_c n) Q m.
Proof.
  intros Hno Hyes. unfold malloc_c, wp. destruct (malloc_bytes n (sm_blocks m) (sm_env m)) as [[[a b]|] e] eqn:E.
  - eexists _, _. split; [done|]. apply malloc_bytes_law in E as [? ?]. auto.
  - eexists _, _. split; [done|]. apply Hno. by exists n, (sm_blocks m), (sm_env m), e.
Qed.

Lemma wp_xmalloc n (Q : char_ptr + Z -> smem -> Prop) m :
  n <> 0 ->
  (no_memory -> forall e, Q (inr EX_SYSERR) (mk_smem (sm_blocks m) e)) ->
  (forall a b e, sm_blocks m !! a = None -> Z.of_nat (length b) = n ->
     Q (inl (PBLK a)) (mk_smem (<[a := b]> (sm_blocks m)) e)) ->
  wp (xmalloc n) Q m.
Proof.
  intros Hn Hno Hyes. unfold xmalloc. rewrite (proj2 (Z.eqb_neq n 0)) by done.
  apply wp_xbind, wp_malloc_c.
  - intros Hm e. apply wp_xbind, wp_x_die. intros e'. by apply Hno.
  - intros a b e Ha Hb. apply wp_xbind, wp_xret, wp_xret. by apply Hyes.
Qed.

(** What the functions do to the block [a] they have just allocated, which is [b]
    and not yet in [h]. *)
Lemma wp_strcpy a b src s h e (Q : unit + Z -> smem -> Prop) e0 :
  h !! a = None -> str_at (mk_smem h e0) src s -> (length s < length b)%nat ->
  Q (inl tt) (mk_smem (<[a := filled b s]> h) e) ->
  wp (strcpy_c (PBLK a) (or_empty src)) Q (mk_smem (<[a := b]> h) e).
Proof.
  intros Ha Hs Hl HQ. apply wp_xbind.
  eapply wp_read_string; [by apply (str_at_insert (mk_smem h e0))|].
  eapply wp_write_bytes; [apply lookup_insert_eq|by apply overwrite_start|]. simpl. by rewrite insert_insert_eq.
Qed.

Lemma wp_strcat a b src s t h e (Q : unit + Z -> smem -> Prop) e0 :
  h !! a = None -> str_at (mk_smem h e0) src t -> 0 ∉ s -> (length s + length t < length b)%nat ->
  Q (inl tt) (mk_smem (<[a := filled b (s ++ t)]> h) e) ->
  wp (strcat_c (PBLK a) (or_empty src)) Q (mk_smem (<[a := filled b s]> h) e).
Proof.
  intros Ha Ht Hz Hl HQ. apply wp_xbind. apply (wp_read_string (PBLK a) s).
  { split; [done|]. exists (filled b s). split; [apply lookup_insert_eq|]. by apply c_string_app. }
  apply wp_xbind. eapply wp_read_string; [by apply (str_at_insert (mk_smem h e0))|].
  eapply wp_write_bytes; [apply lookup_insert_eq|by apply overwrite_more|]. simpl. by rewrite insert_insert_eq.
Qed.

Lemma wp_free a (Q : unit + Z -> smem -> Prop) m :
  is_Some (sm_blocks m !! a) -> Q (inl tt) (mk_smem (delete a (sm_blocks m)) (sm_env m)) ->
  wp (free_c (PBLK a)) Q m.
Proof. intros [b Hb] HQ. eexists _, _. split; [|exact HQ]. unfold free_c. by rewrite Hb. Qed.

(** ** Joining *)

Lemma xstrconcat2_spec s t vs vt (Q : char_ptr + Z -> smem -> Prop) m :
  str_at m s vs -> str_at m t vt -> zlen vs + zlen vt + 1 < 2 ^ 64 ->
  (no_memory -> forall e, Q (inr EX_SYSERR) (mk_smem (sm_blocks m) e)) ->
  (forall p e, sm_blocks m !! p = None ->
     Q (inl (PBLK p)) (mk_smem (<[p := (vs ++ vt) ++ [0]]> (sm_blocks m)) e)) ->
  wp (xstrconcat2 s t) Q m.
Proof.
  destruct m as [h e0]. intros Hs Ht Hlen Hno HQ. unfold xstrconcat2, zlen in *.
  apply wp_xbind. eapply wp_strlen; [exact Hs|]. apply wp_xbind. eapply wp_strlen; [exact Ht|].
  unfold zlen. rewrite u64_small by lia. apply wp_xbind, wp_xmalloc; [lia|done|]. intros p b e Hp Hb. simpl in *.
  apply wp_xbind. eapply wp_strcpy; [done|exact Hs|lia|].
  apply wp_xbind. eapply wp_strcat; [done|exact Ht|apply Hs|lia|].
  apply wp_xret. rewrite filled_exact by (rewrite length_app; lia). by apply HQ.
Qed.

Lemma str_at_no_zero m s t vs vt : str_at m s vs -> str_at m t vt -> 0 ∉ vs ++ vt.
Proof. intros [H1 _] [H2 _]. by apply not_elem_of_app. Qed.

Lemma xstrconcat3_spec a t u vs vt vu (Q : char_ptr + Z -> smem -> Prop) m :
  str_at m (PBLK a) vs -> str_at m t vt -> str_at m u vu -> zlen vs + zlen vt + zlen vu + 1 < 2 ^ 64 ->
  (no_memory -> forall e, Q (inr EX_SYSERR) (mk_smem (sm_blocks m) e)) ->
  (forall p e, sm_blocks m !! p = None ->
     Q (inl (PBLK p)) (mk_smem (<[p := (vs ++ vt ++ vu) ++ [0]]> (delete a (sm_blocks m))) e)) ->
  wp (xstrconcat3 (PBLK a) t u) Q m.
Proof.
  destruct m as [h e0]. intros Hs Ht Hu Hlen Hno HQ. unfold xstrconcat3, zlen in *.
  apply wp_xbind. eapply wp_strlen; [exact Hs|]. apply wp_xbind. eapply wp_strlen; [exact Ht|].
  apply wp_xbind. eapply wp_strlen; [exact Hu|].
  unfold zlen. rewrite u64_small by lia. apply wp_xbind, wp_xmalloc; [lia|done|]. intros p b e Hp Hb. simpl in *.
  apply wp_xbind. eapply (wp_strcpy _ _ (PBLK a)); [done|exact Hs|lia|].
  apply wp_xbind. eapply wp_strcat; [done|exact Ht|apply Hs|lia|].
  apply wp_xbind. eapply wp_strcat; [done|exact Hu|by eapply str_at_no_zero|rewrite length_app; lia|].
  destruct Hs as [_ (b0 & Ha & _)]. simpl in Ha. assert (p <> a) by congruence.
  apply wp_xbind, wp_free; [simpl; rewrite lookup_insert_ne; eauto|]. apply wp_xret. simpl.
  rewrite filled_exact by (rewrite !length_app; lia). rewrite delete_insert_ne by congruence.
  rewrite <- (app_assoc vs vt vu). by apply HQ.
Qed.

Lemma xstrconcat4_spec a t u v vs vt vu vv (Q : char_ptr + Z -> smem -> Prop) m :
  str_at m (PBLK a) vs -> str_at m t vt -> str_at m u vu -> str_at m v vv ->
  zlen vs + zlen vt + zlen vu + zlen vv + 1 < 2 ^ 64 ->
  (no_memory -> forall e, Q (inr EX_SYSERR) (mk_smem (sm_blocks m) e)) ->
  (forall p e, sm_blocks m !! p = None ->
     Q (inl (PBLK p)) (mk_smem (<[p := (vs ++ vt ++ vu ++ vv) ++ [0]]> (delete a (sm_blocks m))) e)) ->
  wp (xstrconcat4 (PBLK a) t u v) Q m.
Proof.
  destruct m as [h e0]. intros Hs Ht Hu Hv Hlen Hno HQ. unfold xstrconcat4, zlen in *.
  apply wp_xbind. eapply wp_strlen; [exact Hs|]. apply wp_xbind. eapply wp_strlen; [exact Ht|].
  apply wp_xbind. eapply wp_strlen; [exact Hu|]. apply wp_xbind. eapply wp_strlen; [exact Hv|].
  unfold zlen. rewrite u64_small by lia. apply wp_xbind, wp_xmalloc; [lia|done|]. intros p b e Hp Hb. simpl in *.
  apply wp_xbind. eapply (wp_strcpy _ _ (PBLK a)); [done|exact Hs|lia|].
  apply wp_xbind. eapply wp_strcat; [done|exact Ht|apply Hs|lia|].
  apply wp_xbind. eapply wp_strcat; [done|exact Hu|by eapply str_at_no_zero|rewrite length_app; lia|].
  apply wp_xbind. eapply wp_strcat; [done|exact Hv| |rewrite !length_app; lia|].
  { apply not_elem_of_app. split; [by eapply str_at_no_zero|apply Hu]. }
  destruct Hs as [_ (b0 & Ha & _)]. simpl in Ha. assert (p <> a) by congruence.
  apply wp_xbind, wp_free; [simpl; rewrite lookup_insert_ne; eauto|]. apply wp_xret. simpl.
  rewrite filled_exact by (rewrite !length_app; lia). rewrite delete_insert_ne by congruence.
  replace ((((vs ++ vt) ++ vu) ++ vv) ++ [0]) with ((vs ++ vt ++ vu ++ vv) ++ [0]) by by rewrite <- !app_assoc.
  by apply HQ.
Qed.

(** ** Copying *)

Lemma xstrdup_spec l (Q : char_ptr + Z -> smem -> Prop) m :
  (no_memory -> forall e, Q (inr EX_SYSERR) (mk_smem (sm_blocks m) e)) ->
  (forall p e, sm_blocks m !! p = None -> Q (inl (PBLK p)) (mk_smem (<[p := l ++ [0]]> (sm_blocks m)) e)) ->
  wp (xstrdup (PLIT l)) Q m.
Proof.
  intros Hno HQ. apply wp_xbind, wp_xbind. eexists _, _. split; [reflexivity|]. cbv beta iota.
  apply wp_xbind, wp_malloc_c.
  - intros Hm e. apply wp_xret. apply wp_xbind, wp_x_die. intros e'. by apply Hno.
  - intros a b e Ha Hb. unfold zlen in Hb. apply wp_xbind.
    eapply wp_write_bytes; [apply lookup_insert_eq|apply overwrite_start; lia|]. simpl.
    apply wp_xret, wp_xbind, wp_xret, wp_xret. rewrite insert_insert_eq, filled_exact by lia. by apply HQ.
Qed.

(** [n] bytes of the string, or all of it, filled with zeros. *)
Lemma xstrndup_spec l n (Q : char_ptr + Z -> smem -> Prop) m :
  0 <= n < 2 ^ 31 - 1 ->
  (no_memory -> forall e, Q (inr EX_SYSERR) (mk_smem (sm_blocks m) e)) ->
  (forall p e, sm_blocks m !! p = None ->
     let s := take (Z.to_nat n) l in
     Q (inl (PBLK p)) (mk_smem (<[p := s ++ replicate (Z.to_nat n - length s) 0 ++ [0]]> (sm_blocks m)) e)) ->
  wp (xstrndup (PLIT l) n) Q m.
Proof.
  intros Hn Hno HQ. unfold xstrndup. apply wp_xbind, wp_xret.
  rewrite (proj2 (Z.eqb_neq n _)), (proj2 (Z.ltb_ge n 0)), !u64_small by lia.
  apply wp_xbind, wp_xmalloc; [lia|done|]. intros a b e Ha Hb. set (s := take (Z.to_nat n) l).
  assert (Hs : (length s <= Z.to_nat n)%nat) by (unfold s; rewrite length_take; lia).
  set (pad := replicate (Z.to_nat n - length s) 0).
  assert (Hsp : length (s ++ pad) = Z.to_nat n) by (unfold pad; rewrite length_app, length_replicate; lia).
  apply wp_xbind, wp_xbind. eexists _, _. split; [reflexivity|]. cbv beta iota. fold s pad.
  eapply (wp_write_bytes _ _ _ _ ((s ++ pad) ++ drop (Z.to_nat n) b)); [apply lookup_insert_eq| |].
  { unfold overwrite. rewrite decide_True by lia. by rewrite Hsp. }
  simpl. rewrite insert_insert_eq.
  apply wp_xbind. eapply (wp_write_bytes _ _ _ _ ((s ++ pad) ++ [0])); [apply lookup_insert_eq| |].
  { unfold overwrite. rewrite length_app, length_drop. simpl. rewrite decide_True by lia. f_equal.
    rewrite take_app_exact by done. f_equal. rewrite drop_ge; [done|]. rewrite length_app, length_drop. lia. }
  simpl. apply wp_xret. rewrite insert_insert_eq, <- app_assoc. by apply HQ.
Qed.
End Rules.

(** ** The string for the mount table *)

Section FixOpts.
Context `{S : StrEnv} {HL : StrLaws}.

(** The result is a new block with the string [s], and the heap [h] is otherwise
    as it was; or there was no memory and the process has ended. *)
Definition built (h : gmap Z (list Z)) (s : list Z) (r : char_ptr + Z) (m : smem) : Prop :=
  match r with
  | inl q => exists p e, q = PBLK p /\ h !! p = None /\ m = mk_smem (<[p := s ++ [0]]> h) e
  | inr c => c = EX_SYSERR /\ no_memory
  end.

(** [new_opts = xstrconcat3(new_opts, t, u)] frees the old string. *)
Lemma append_spec h s t u vt vu p e e0 :
  h !! p = None -> 0 ∉ s -> str_at (mk_smem h e0) t vt -> str_at (mk_smem h e0) u vu ->
  zlen (s ++ vt ++ vu) + 1 < 2 ^ 64 ->
  wp (xstrconcat3 (PBLK p) t u) (built h (s ++ vt ++ vu)) (mk_smem (<[p := s ++ [0]]> h) e).
Proof.
  intros Hp Hz Ht Hu Hlen. rewrite !zlen_app in Hlen.
  apply (xstrconcat3_spec p t u s vt vu).
  - split; [done|]. exists (s ++ [0]). split; [apply lookup_insert_eq|by apply c_string_app].
  - by apply (str_at_insert (mk_smem h e0)).
  - by apply (str_at_insert (mk_smem h e0)).
  - lia.
  - done.
  - intros q e' Hq. simpl in *. exists q, e'. rewrite delete_insert_id by done.
    split; [done|]. split; [|done]. apply lookup_insert_None in Hq. tauto.
Qed.

Lemma str_at_lit m l : 0 ∉ l -> str_at m (PLIT l) l.
Proof. done. Qed.

(** The rest of a computation on the string that has been built. *)
Lemma built_bind {A} h s (x : SX char_ptr) (k : char_ptr -> SX A) (Q : A + Z -> smem -> Prop) m :
  wp x (built h s) m ->
  (forall p e, h !! p = None -> wp (k (PBLK p)) Q (mk_smem (<[p := s ++ [0]]> h) e)) ->
  (forall m', no_memory -> Q (inr EX_SYSERR) m') ->
  wp (xbind x k) Q m.
Proof.
  intros Hx Hk Hno. apply wp_xbind. eapply wp_mono; [exact Hx|]. intros [q|c] m'.
  - intros (p & e & -> & Hp & ->). auto.
  - intros [-> Hm]. auto.
Qed.

Lemma no_zero_b s : existsb (Z.eqb 0) s = false -> 0 ∉ s.
Proof.
  intros Hs Hz. apply not_true_iff_false in Hs. apply Hs, existsb_exists. exists 0.
  by rewrite <- list_elem_of_In.
Qed.

Lemma built_exit h s m : no_memory -> built h s (inr EX_SYSERR) m.
Proof. intros Hm. by split. Qed.

Lemma built_block h s p e : h !! p = None -> built h s (inl (PBLK p)) (mk_smem (<[p := s ++ [0]]> h) e).
Proof. intros Hp. by exists p, e. Qed.

Lemma nfs_opt_no_zero om : om ∈ opt_map -> 0 ∉ bytes_of (nfs_opt om).
Proof.
  assert (H : forallb (fun om => negb (existsb (Z.eqb 0) (bytes_of (nfs_opt om)))) opt_map = true)
    by by vm_compute.
  rewrite forallb_forall in H. intros Hin. apply no_zero_b, negb_true_iff, H. by rewrite <- list_elem_of_In.
Qed.

Lemma fix_loop_length l flags s : zlen s <= zlen (fix_loop l flags s).
Proof. destruct (fix_loop_prefix l flags s) as [r ->]. rewrite zlen_app. pose proof (zlen_nonneg r). lia. Qed.

Lemma fix_loop_no_zero l flags s :
  (forall om, om ∈ l -> om ∈ opt_map) -> 0 ∉ s -> 0 ∉ fix_loop l flags s.
Proof.
  revert flags s. induction l as [|om l IH]; intros flags s Hl Hz; [done|]. simpl.
  assert (Hl' : forall om', om' ∈ l -> om' ∈ opt_map) by (intros; apply Hl; by right).
  case_if; [by apply IH|]. apply IH; [done|]. rewrite not_elem_of_app, not_elem_of_cons.
  split_and!; [done|done|]. apply nfs_opt_no_zero, Hl. left.
Qed.

Lemma fix_loop_c_spec l flags s h p e :
  (forall om, om ∈ l -> om ∈ opt_map) -> h !! p = None -> 0 ∉ s ->
  zlen (fix_loop l flags s) + 1 < 2 ^ 64 ->
  wp (fix_loop_c l flags (PBLK p)) (built h (fix_loop l flags s)) (mk_smem (<[p := s ++ [0]]> h) e).
Proof.
  revert flags s p e. induction l as [|om l IH]; intros flags s p e Hl Hp Hz Hlen.
  { apply wp_xret. by exists p, e. }
  assert (Hl' : forall om', om' ∈ l -> om' ∈ opt_map) by (intros; apply Hl; by right).
  assert (Hom : 0 ∉ bytes_of (nfs_opt om)) by (apply nfs_opt_no_zero, Hl; left).
  simpl in *. destruct (om_skip om); simpl in *; [by apply IH|].
  destruct (om_inv om || (om_mask om =? 0) || negb (Z.land flags (om_mask om) =? om_mask om)); [by apply IH|].
  pose proof (fix_loop_length l (Z.ldiff flags (om_mask om)) (s ++ COMMA :: bytes_of (nfs_opt om))).
  eapply built_bind.
  - apply (append_spec h s (PLIT [COMMA]) (PLIT (bytes_of (nfs_opt om))) [COMMA]
      (bytes_of (nfs_opt om)) p e e); [done|done| | |].
    + by apply str_at_lit, no_zero_b.
    + by apply str_at_lit.
    + simpl. lia.
  - intros q e' Hq. apply IH; [done..| |done]. simpl. rewrite not_elem_of_app, not_elem_of_cons. done.
  - done.
Qed.

(** What the options of the user are: NULL, or a string. *)
Definition extra_of (h : gmap Z (list Z)) (extra : char_ptr) (o : option (list Z)) : Prop :=
  match o with
  | None => extra = PNULL
  | Some x => extra <> PNULL /\ forall e, str_at (mk_smem h e) extra x
  end.

(** The first part of the string. *)
Definition mode_user (pw : option (list Z)) (flags : Z) : list Z :=
  let ro := bytes_of (if flag flags MS_RDONLY then "ro" else "rw") in
  if flag flags MS_USER then match pw with Some n => ro ++ bytes_of ",user=" ++ n | None => ro end else ro.

Lemma mode_no_zero flags : 0 ∉ bytes_of (if flag flags MS_RDONLY then "ro" else "rw").
Proof. destruct (flag flags MS_RDONLY); by apply no_zero_b. Qed.

Lemma mode_user_no_zero pw flags : (forall n, pw = Some n -> 0 ∉ n) -> 0 ∉ mode_user pw flags.
Proof.
  intros Hpw. unfold mode_user. pose proof (mode_no_zero flags). destruct (flag flags MS_USER); [|done].
  destruct pw as [n|]; [|done]. rewrite !not_elem_of_app. split_and!; [done|by apply no_zero_b|by apply Hpw].
Qed.

Lemma user_spec pw flags h p e :
  (forall n, pw = Some n -> 0 ∉ n) -> h !! p = None -> zlen (mode_user pw flags) + 1 < 2 ^ 64 ->
  let ro := bytes_of (if flag flags MS_RDONLY then "ro" else "rw") in
  wp (if flag flags MS_USER then
        match pw with
        | Some n => xstrconcat3 (PBLK p) (PLIT (bytes_of ",user=")) (PLIT n)
        | None => xret (PBLK p)
        end
      else xret (PBLK p)) (built h (mode_user pw flags)) (mk_smem (<[p := ro ++ [0]]> h) e).
Proof.
  intros Hpw Hp. unfold mode_user. pose proof (mode_no_zero flags) as Hz.
  set (ro := bytes_of (if flag flags MS_RDONLY then _ else _)) in *.
  destruct (flag flags MS_USER); [|intros _; by apply wp_xret, built_block].
  destruct pw as [n|]; [|intros _; by apply wp_xret, built_block]. intros Hlen.
  apply (append_spec h ro (PLIT (bytes_of ",user=")) (PLIT n) (bytes_of ",user=") n p e e); [done|done| | |done].
  - by apply str_at_lit, no_zero_b.
  - by apply str_at_lit, Hpw.
Qed.

(** The last part, and what it makes of [base]. *)
Definition with_extra (base : list Z) (o : option (list Z)) : list Z :=
  match o with Some (c :: x) => base ++ [COMMA] ++ c :: x | _ => base end.

Lemma extra_spec base extra o h p e :
  h !! p = None -> 0 ∉ base -> extra_of h extra o -> zlen (with_extra base o) + 1 < 2 ^ 64 ->
  wp (match extra with
      | PNULL => xret (PBLK p)
      | _ => let^ x := read_string extra in
             match x with [] => xret (PBLK p) | _ => xstrconcat3 (PBLK p) (PLIT [COMMA]) extra end
      end) (built h (with_extra base o)) (mk_smem (<[p := base ++ [0]]> h) e).
Proof.
  intros Hp Hz Hx Hlen. destruct o as [x|]; simpl in Hx; [|subst extra; by apply wp_xret, built_block].
  destruct Hx as [Hnn Hx]. assert (Hor : or_empty extra = extra) by (by destruct extra).
  assert (Hgo : wp (let^ v := read_string (or_empty extra) in
    match v with [] => xret (PBLK p) | _ => xstrconcat3 (PBLK p) (PLIT [COMMA]) extra end)
    (built h (with_extra base (Some x))) (mk_smem (<[p := base ++ [0]]> h) e)).
  { apply wp_xbind. eapply wp_read_string; [by apply (str_at_insert (mk_smem h e))|].
    destruct x as [|c x]; [by apply wp_xret, built_block|].
    apply (append_spec h base (PLIT [COMMA]) extra [COMMA] (c :: x) p e e); [done|done| |apply Hx|done].
    by apply str_at_lit, no_zero_b. }
  rewrite Hor in Hgo. by destruct extra.
Qed.

Lemma fix_opts_parts pw flags o :
  hsi_fix_opts_string pw flags o = with_extra (fix_loop opt_map flags (mode_user pw flags)) o.
Proof. done. Qed.

Lemma with_extra_length base o : zlen base <= zlen (with_extra base o).
Proof.
  destruct o as [[|c x]|]; simpl; [lia| |lia]. rewrite zlen_app. pose proof (zlen_nonneg (COMMA :: c :: x)). lia.
Qed.

(** C24: The options string of the mount table is built on the heap as it is on
    lists, and nothing leaks: [hsi_fix_opts_string], with its chain of
    [xstrconcat3], never writes outside of a block or frees twice; it returns one
    new block that holds exactly the string, all other blocks being as they
    were (every intermediate string has been freed), or it ends the process with
    EX_SYSERR, which only happens when the allocator has no memory. *)
Theorem fix_opts_string_refines pw flags extra o h e :
  (forall n, pw = Some n -> 0 ∉ n) -> extra_of h extra o ->
  zlen (hsi_fix_opts_string pw flags o) + 1 < 2 ^ 64 ->
  exists r m, fix_opts_string_c pw flags extra (mk_smem h e) = Ret r m /\
    match r with
    | inl q => exists p e', q = PBLK p /\ h !! p = None /\
        m = mk_smem (<[p := hsi_fix_opts_string pw flags o ++ [0]]> h) e'
    | inr c => c = EX_SYSERR /\ no_memory
    end.
Proof.
  intros Hpw Hx Hlen.
  change (wp (fix_opts_string_c pw flags extra) (built h (hsi_fix_opts_string pw flags o)) (mk_smem h e)).
  rewrite fix_opts_parts in Hlen |- *.
  pose proof (fix_loop_length opt_map flags (mode_user pw flags)) as Hl1.
  pose proof (with_extra_length (fix_loop opt_map flags (mode_user pw flags)) o) as Hl2.
  pose proof (mode_user_no_zero pw flags Hpw) as Hz.
  pose proof (fix_loop_no_zero opt_map flags _ (fun _ H => H) Hz) as Hbz.
  unfold fix_opts_string_c.
  eapply (built_bind h); [|intros p e1 Hp; cbv beta|intros; by apply built_exit].
  { apply xstrdup_spec; [intros; by apply built_exit|]. intros p e' Hp. by apply built_block. }
  eapply (built_bind h); [apply user_spec; [done|done|lia]|intros p2 e2 Hp2|intros; by apply built_exit].
  eapply (built_bind h); [apply (fix_loop_c_spec opt_map flags (mode_user pw flags)); [done|done|done|lia]
                         |intros p3 e3 Hp3|intros; by apply built_exit].
  by apply extra_spec.
Qed.
End FixOpts.

(** ** Witness *)

(** An allocator that always has memory, at an address that is free. *)
Definition roomy : StrEnv := {|
  senv := unit;
  malloc_bytes n h e := (if n <? 0 then None else Some (fresh (dom h), replicate (Z.to_nat n) 170), e);
  realpath p e := (None, e);
  at_die := None |}.

Lemma roomy_laws : @StrLaws roomy.
Proof.
  intros n h e p b e'. simpl. case_if; intros [= <- <- <-]. split.
  - apply not_elem_of_dom, is_fresh.
  - rewrite length_replicate. lia.
Qed.

Definition user_flags : Z := Z.lor MS_USER MS_NOSUID.

Lemma fix_opts_string_refines_witness :
  hsi_fix_opts_string (Some (bytes_of "joe")) user_flags (Some (bytes_of "timeo=7")) =
    bytes_of "rw,user=joe,nosuid,user,timeo=7" /\
  exists r m, @fix_opts_string_c roomy (Some (bytes_of "joe")) user_flags (PBLK 5)
      (@mk_smem roomy {[5 := bytes_of "timeo=7" ++ [0]]} tt) = Ret r m /\
    match r with
    | inl q => exists p e', q = PBLK p /\ ({[5 := bytes_of "timeo=7" ++ [0]]} : gmap Z (list Z)) !! p = None /\
        m = @mk_smem roomy (<[p := hsi_fix_opts_string (Some (bytes_of "joe")) user_flags
          (Some (bytes_of "timeo=7")) ++ [0]]> {[5 := bytes_of "timeo=7" ++ [0]]}) e'
    | inr c => c = EX_SYSERR /\ @no_memory roomy
    end.
Proof.
  split; [by vm_compute|]. apply (@fix_opts_string_refines roomy roomy_laws).
  - intros n [= <-]. by apply no_zero_b.
  - split; [done|]. intros e. split; [by apply no_zero_b|]. eexists. split; [apply lookup_insert_eq|by vm_compute].
  - by vm_compute.
Defined.

(** [xstrconcat3] and [xstrconcat4] free their first argument also when it was NULL
    and has been replaced by a literal. *)
Example xstrconcat3_null :
  @xstrconcat3 roomy PNULL (PLIT [COMMA]) (PLIT (bytes_of "ro")) (@mk_smem roomy ∅ tt) = Undef.
Proof. by vm_compute. Qed.

(** A negative length gives [xmalloc] the size 0, for which it answers NULL. *)
Example xstrndup_negative : @xstrndup roomy (PLIT (bytes_of "ro")) (-1) (@mk_smem roomy ∅ tt) = Undef.
Proof.
  unfold xstrndup, xbind, bind, xret, ret. rewrite (proj2 (Z.eqb_neq (-1) _)) by done. reflexivity.
Qed.
