(* ===== verification/MainSpec.v ===== *)
(** * The entry of a mount in the mount table

    [main] adds an entry to /etc/mtab after the mount and removes it at the end. *)

From S2P Require Import Prelude Bitops Hash Proto World Icache IcacheFacts Blocks Rpc Mntent MntentSpec Lock.
From S2P Require Import LockSpec Mtab MtabFacts MtabUpdate MtabSpec Options MainOpts.

Section Entry.
Context `{S : SysEnv} {HCL : ChnLaws}.

(** The entry that [hsi_add_mtab] makes. *)
Definition mount_entry (pw_name : option (list Z)) (spec mount_point fstype : list Z) (flags : Z)
    (opts : option (list Z)) : nfs_mntent :=
  mk_mntent spec mount_point fstype (hsi_fix_opts_string pw_name flags opts) 0 0.

Lemma add_mtab_spec pw spec mp ty flags opts t :
  flag flags MS_REMOUNT = false -> lk_ok (mt_lock t) -> lk_pc (mt_lock t) = Idle ->
  wp (hsi_add_mtab false pw spec mp ty flags opts)
    (fun r t' =>
       unlocked t' /\
       ((sys_failure /\ r <> inl 0) \/
        (r = inl 0 /\ lk_pc (mt_lock t') = Idle /\ mt_symlink t' = mt_symlink t /\
         var_mtab_does_not_exist t' = var_mtab_does_not_exist t /\
         var_mtab_is_a_symlink t' = var_mtab_is_a_symlink t /\
         mt_files t' MOUNTED = Some (default [] (mt_files t MOUNTED) ++
           mntent_line (mount_entry pw spec mp ty flags opts))))) t.
Proof.
  intros Hrm Hok Hi. unfold hsi_add_mtab. rewrite Hrm.
  apply wp_xbind, wp_lock; [done|done|]. intros l e r t1 [[-> Hlk]|([c ->] & Hu & Hs)].
  2:{ split; [done|]. by left. }
  apply wp_xbind, wp_ask. intros fails e1 He1. apply wp_xbind. destruct fails.
  { apply wp_xret. apply wp_xbind, wp_unlock; [done|]. intros l' e' t' Hu _. apply wp_xret. split; [done|].
    left. split; [by eapply f_sys|done]. }
  apply wp_xbind, wp_xget. apply wp_xbind, wp_ask. intros cut e2 He2. destruct cut as [k|].
  - apply wp_xbind, wp_xmodify. apply wp_xret. apply wp_xbind, wp_unlock; [done|]. intros l' e' t' Hu _.
    apply wp_xret. split; [done|]. left. split; [by eapply f_write|done].
  - apply wp_xbind, wp_xmodify. apply wp_xret. apply wp_xbind, wp_unlock; [done|]. intros l' e' t' Hu Hidle.
    apply wp_xret. split; [done|]. right. simpl. done.
Qed.

(** The mount table is there and can be rewritten, no call fails, the process does
    not have the lock, and the table has the entries [l]. *)
Record quiet_table (l : list nfs_mntent) (t : mt) : Prop := {
  qt_read : forall f e, (sys_fails (FERROR f) e).1 = false;
  qt_close : forall e, (fclose_cuts e).1 = None;
  qt_calls : ~ sys_failure;
  qt_write : may_write t;
  qt_lock : lk_ok (mt_lock t);
  qt_idle : lk_pc (mt_lock t) = Idle;
  qt_text : mt_files t MOUNTED = Some (table_text l);
  qt_ok : Forall tab_ok l }.

(** Mounting and unmounting leave the mount table as it was: when no call
    fails, [hsi_add_mtab] appends one entry, which is read back as it was meant,
    and [hsi_del_mtab] of its directory removes that entry, also when the
    table has others for the directory. *)
Lemma mtab_add_del pw spec mp ty flags opts l t :
  quiet_table l t -> flag flags MS_REMOUNT = false -> tab_ok (mount_entry pw spec mp ty flags opts) ->
  exists t1 t2,
    hsi_add_mtab false pw spec mp ty flags opts t = Ret (inl 0) t1 /\
    entries (default [] (mt_files t1 MOUNTED)) = l ++ [mount_entry pw spec mp ty flags opts] /\
    hsi_del_mtab false mp t1 = Ret (inl 0) t2 /\
    default [] (mt_files t2 MOUNTED) = table_text l.
Proof.
  intros [Hfe Hcl Hns Hmw Hok Hi Ht Hl] Hrm Hm.
  destruct (add_mtab_spec pw spec mp ty flags opts t Hrm Hok Hi) as
    (r & t1 & Hr & [Hok1 _] & [[Hf _]|(-> & Hi1 & Hsl & Hv1 & Hv2 & Ht1)]); [done|].
  set (m := mount_entry _ _ _ _ _ _) in *. rewrite Ht in Ht1. simpl in Ht1.
  assert (Htext : table_text l ++ mntent_line m = table_text (l ++ [m])).
  { unfold table_text. rewrite fmap_app, concat_app. simpl. by rewrite app_nil_r. }
  assert (He : entries (default [] (mt_files t1 MOUNTED)) = l ++ [m]).
  { rewrite Ht1. simpl. rewrite Htext. apply entries_text. apply Forall_app. auto. }
  assert (Hmw1 : may_write t1).
  { destruct Hmw as (_ & H2 & H3 & H4). split_and!; congruence. }
  destruct (update_mtab_done mp None t1 Hns Hmw1 Hok1 Hi1) as (t2 & Hr2 & _ & l' & [e Hl'] & [e' Hx]).
  exists t1, t2. split_and!; [done|done| |].
  - unfold hsi_del_mtab, xbind, bind. by rewrite Hr2.
  - rewrite Hx, Hcl, Hl', Hfe, He. unfold updated.
    rewrite (change_last_Some _ _ l m []); [by rewrite !app_nil_r|by apply bool_decide_eq_true|done].
Qed.
End Entry.

(** ** Witness *)

(** The conditions on an entry, decided. *)
Definition tab_b (m : nfs_mntent) : bool :=
  chars_b (mnt_fsname m) && bool_decide (head (mnt_fsname m) <> Some HASH) &&
  chars_b (mnt_dir m) && chars_b (mnt_type m) && chars_b (mnt_opts m) &&
  bool_decide (mnt_freq m = 0) && bool_decide (mnt_passno m = 0) &&
  (length (mntent_line m) <=? 4095)%nat && bool_decide (mnt_type m <> MNTTYPE_IGNORE).

Lemma tab_b_ok m : tab_b m = true -> tab_ok m.
Proof.
  unfold tab_b. rewrite !andb_true_iff, !bool_decide_eq_true. 
  intros [[[[[[[[Hf Hn] Hd] Ht] Ho] Hq] Hp] Hl] Hi].
  apply chars_b_ok in Hf as [??]. split; [|split; [by apply Nat.leb_le|done]].
  constructor; [done|by apply chars_b_ok..|rewrite Hq; done|rewrite Hp; done].
Qed.

Definition new_entry : nfs_mntent :=
  mount_entry None (bytes_of "host:/d") (bytes_of "/mnt/a b") (bytes_of "hsfs") MS_RDONLY None.

Lemma quiet_table_sample : @quiet_table (quiet false) [sample_mnt] (mtab_state false).
Proof.
  constructor; [done|done|apply quiet_no_failure|apply mtab_state_may|apply lk_init_ok|done|by vm_compute|].
  repeat constructor; by apply tab_b_ok; vm_compute.
Qed.

(** The table has an entry for the directory already. *)
Lemma mtab_add_del_witness :
  exists t1 t2,
    @hsi_add_mtab (quiet false) false None (bytes_of "host:/d") (bytes_of "/mnt/a b") (bytes_of "hsfs")
      MS_RDONLY None (mtab_state false) = Ret (inl 0) t1 /\
    entries (default [] (@mt_files (quiet false) t1 MOUNTED)) = [sample_mnt; new_entry] /\
    @hsi_del_mtab (quiet false) false (bytes_of "/mnt/a b") t1 = Ret (inl 0) t2 /\
    default [] (@mt_files (quiet false) t2 MOUNTED) = table_text [sample_mnt].
Proof.
  apply (@mtab_add_del (quiet false) (quiet_laws false) None (bytes_of "host:/d") (bytes_of "/mnt/a b")
    (bytes_of "hsfs") MS_RDONLY None [sample_mnt] (mtab_state false));
    [apply quiet_table_sample|done|by apply tab_b_ok; vm_compute].
Defined.
