(* ===== verification/Getopt.v ===== *)
(** * The arguments of the command line ([fuse/hsfs_main.c])

    The table [hsfs_opts] and the letters of the [switch] are those of the program.
    [getopt_long], with [cluster] and [find_long], is a model of the function of the
    GNU C library as it is documented, called by [hsi_parse_cmdline] until it answers
    -1: arguments that are no options are passed over (they end up behind the
    options), short options may stand together, and a long option may be cut to a
    beginning that is unique.  POSIXLY_CORRECT is not set. *)

From S2P Require Import Prelude Bitops Hash Proto World Icache IcacheFacts Blocks Rpc Mntent Lock Mtab Options MainOpts.

Definition DASH : Z := 45.

(** [hsfs_opts]: the name, whether it has an argument, and the short option. *)
Definition hsfs_opts : list (string * bool * Z) := [
  ("foreground", false, 102); ("help", false, 104); ("no-mtab", false, 110);
  ("read-only", false, 114); ("ro", false, 114); ("read-write", false, 119);
  ("rw", false, 119); ("verbose", false, 118); ("version", false, 86);
  ("options", true, 111) ]%string.

(** The cases of the [switch] for an option without argument: the letters r, v,
    V, w, f, n and h; all others are errors. *)
Definition letter (c : Z) : cl_opt :=
  if c =? 114 then cl_r else if c =? 118 then cl_v else if c =? 86 then cl_V
  else if c =? 119 then cl_w else if c =? 102 then cl_f else if c =? 110 then cl_n
  else if c =? 104 then cl_h else cl_other.

(** Short options in one argument; [true] when the last is [o] and its argument
    is not there. *)
Fixpoint cluster (cs : list Z) : list cl_opt * bool :=
  match cs with
  | [] => ([], false)
  | c :: cs =>
      if c =? 111 then match cs with [] => ([], true) | _ => ([cl_o cs], false) end
      else let '(l, missing) := cluster cs in (letter c :: l, missing)
  end.

Definition starts_with (p s : list Z) : bool := bool_decide (take (length p) s = p).

(** The entry of a name: the one that is equal, or else the one that starts with
    it, when all that do stand for the same option. *)
Definition find_long (name : list Z) : option (bool * Z) :=
  match List.find (fun e => named name e.1.1) hsfs_opts with
  | Some (_, arg, val) => Some (arg, val)
  | None =>
      match List.filter (fun e => starts_with name (bytes_of e.1.1)) hsfs_opts with
      | [] => None
      | (_, arg, val) :: l =>
          if forallb (fun e => Bool.eqb e.1.2 arg && (e.2 =? val)) l then Some (arg, val) else None
      end
  end.

(** What [getopt_long] answers, one after the other, and whether an argument that
    is no option is left. *)
Fixpoint getopt_long (args : list (list Z)) : list cl_opt * bool :=
  match args with
  | [] => ([], false)
  | a :: rest =>
      match a with
      | c :: d :: cs =>
          if c =? DASH then
            if d =? DASH then
              match cs with
              | [] => ([], match rest with [] => false | _ => true end)
              | _ =>
                  match strchr EQUALS cs with
                  | Some (name, val) =>
                      let '(l, more) := getopt_long rest in
                      (match find_long name with
                       | Some (true, _) => cl_o val
                       | _ => cl_other
                       end :: l, more)
                  | None =>
                      match find_long cs with
                      | Some (false, v) => let '(l, more) := getopt_long rest in (letter v :: l, more)
                      | Some (true, _) =>
                          match rest with
                          | [] => ([cl_other], false)
                          | o :: rest => let '(l, more) := getopt_long rest in (cl_o o :: l, more)
                          end
                      | None => let '(l, more) := getopt_long rest in (cl_other :: l, more)
                      end
                  end
              end
            else
              let '(short, missing) := cluster (d :: cs) in
              if (missing : bool) then
                match rest with
                | [] => (short ++ [cl_other], false)
                | o :: rest => let '(l, more) := getopt_long rest in (short ++ cl_o o :: l, more)
                end
              else let '(l, more) := getopt_long rest in (short ++ l, more)
          else let '(l, _) := getopt_long rest in (l, true)
      | _ => let '(l, _) := getopt_long rest in (l, true)
      end
  end.
