(* ===== verification/GetoptSpec.v ===== *)
(** * What the command line means

    Every way to spell an option is read as the option, in the order of the
    command line, and the switches add up to what the user asked for. *)

From S2P Require Import Prelude Bitops Hash Proto World Icache IcacheFacts Blocks Rpc Mntent Lock Mtab Options.
From S2P Require Import MainOpts Getopt.

(** ** The ways to give options

    The letter of an option without argument. *)
Definition letter_of (c : cl_opt) : option Z :=
  match c with
  | cl_r => Some 114 | cl_v => Some 118 | cl_V => Some 86 | cl_w => Some 119
  | cl_f => Some 102 | cl_n => Some 110 | cl_h => Some 104 | cl_o _ | cl_other => None
  end.

(** [p] is a long name, or the beginning of one that all the names it begins agree
    on. *)
Definition abbreviates (p : list Z) (arg : bool) (x : Z) : Prop :=
  (exists nm, In (nm, arg, x) hsfs_opts /\ p = bytes_of nm) \/
  ((exists nm, In (nm, arg, x) hsfs_opts /\ starts_with p (bytes_of nm) = true) /\
   forall nm a y, In (nm, a, y) hsfs_opts -> starts_with p (bytes_of nm) = true -> a = arg /\ y = x).

Abbreviation letters := (Forall2 (fun c x => letter_of c = Some x)).

(** The arguments that stand for some options: letters after one dash, the last
    of them perhaps [o], with its argument behind it or in the next argument; or a
    long name, perhaps abbreviated, with its argument behind [=] or in the next
    argument. *)
Inductive spells : list cl_opt -> list (list Z) -> Prop :=
  | sp_short cs xs : letters cs xs -> cs <> [] -> spells cs [DASH :: xs]
  | sp_short_next cs xs v : letters cs xs -> spells (cs ++ [cl_o v]) [DASH :: xs ++ [111]; v]
  | sp_short_here cs xs v : letters cs xs -> v <> [] -> spells (cs ++ [cl_o v]) [DASH :: xs ++ 111 :: v]
  | sp_long c x p : letter_of c = Some x -> p <> [] -> abbreviates p false x -> spells [c] [DASH :: DASH :: p]
  | sp_long_next v p : p <> [] -> abbreviates p true 111 -> spells [cl_o v] [DASH :: DASH :: p; v]
  | sp_long_here v p : p <> [] -> abbreviates p true 111 -> spells [cl_o v] [DASH :: DASH :: p ++ EQUALS :: v].

Lemma letter_of_read c x : letter_of c = Some x -> letter x = c /\ (x =? 111) = false /\ (x =? DASH) = false.
Proof. destruct c; intros [= <-]; by repeat split. Qed.

Lemma cluster_letters cs xs rest :
  letters cs xs -> cluster (xs ++ rest) = (cs ++ (cluster rest).1, (cluster rest).2).
Proof.
  induction 1 as [|c x cs xs Hx _ IH]; [simpl; by destruct (cluster rest)|]. cbn [app cluster].
  destruct (letter_of_read c x Hx) as (Hl & Ho & _). by rewrite Ho, IH, Hl.
Qed.

(** The names of the table are different and have no equals sign. *)
Lemma find_exact nm arg x :
  In (nm, arg, x) hsfs_opts -> List.find (fun e => named (bytes_of nm) e.1.1) hsfs_opts = Some (nm, arg, x).
Proof. simpl In. by intuition (simplify_eq; vm_compute). Qed.

Lemma name_no_equals nm arg x : In (nm, arg, x) hsfs_opts -> EQUALS ∉ bytes_of nm.
Proof.
  intros Hin. assert (H : bool_decide (EQUALS ∈ bytes_of nm) = false); [|by apply bool_decide_eq_false in H].
  revert Hin. simpl In. by intuition (simplify_eq; vm_compute).
Qed.

Lemma starts_with_prefix p s : starts_with p s = true -> exists t, s = p ++ t.
Proof. intros H%bool_decide_eq_true. exists (drop (length p) s). rewrite <- H at 1. by rewrite take_drop. Qed.

Lemma find_long_abbrev p arg x : abbreviates p arg x -> find_long p = Some (arg, x).
Proof.
  unfold find_long. intros [(nm & Hin & ->)|[(nm & Hin & Hs) Hall]]; [by rewrite (find_exact nm arg x)|].
  destruct (List.find _ _) as [[[m a] y]|] eqn:Hf.
  - apply List.find_some in Hf as [Hi Hn%bool_decide_eq_true]. simpl in Hn.
    destruct (Hall m a y Hi) as [-> ->]; [|done]. apply bool_decide_eq_true. by rewrite Hn, firstn_all.
  - assert (Hi : In (nm, arg, x) (List.filter (fun e => starts_with p (bytes_of e.1.1)) hsfs_opts))
      by by apply filter_In.
    assert (Ha : forall m a y, In (m, a, y) (List.filter (fun e => starts_with p (bytes_of e.1.1)) hsfs_opts) ->
      a = arg /\ y = x) by (intros m a y [? ?]%filter_In; by eapply Hall).
    destruct (List.filter _ _) as [|[[m a] y] l]; [done|]. destruct (Ha m a y) as [-> ->]; [by left|].
    rewrite (proj2 (forallb_forall _ l)); [done|]. intros [[m' a'] y'] Hl. destruct (Ha m' a' y') as [-> ->]; [by right|].
    simpl. by rewrite eqb_reflx, Z.eqb_refl.
Qed.

Lemma abbrev_no_equals p arg x : abbreviates p arg x -> EQUALS ∉ p.
Proof.
  intros [(nm & Hin & ->)|[(nm & Hin & Hs) _]]; [by eapply name_no_equals|].
  apply starts_with_prefix in Hs as [t Ht]. pose proof (name_no_equals _ _ _ Hin) as Hn. rewrite Ht in Hn. set_solver.
Qed.

Lemma strchr_none c s : c ∉ s -> strchr c s = None.
Proof.
  induction s as [|x s IH]; simpl; [done|]. rewrite not_elem_of_cons. intros [Hx Hs].
  rewrite (proj2 (Z.eqb_neq x c)) by done. by rewrite IH.
Qed.

Lemma strchr_first c s t : c ∉ s -> strchr c (s ++ c :: t) = Some (s, t).
Proof.
  induction s as [|x s IH]; simpl; [by rewrite Z.eqb_refl|]. rewrite not_elem_of_cons. intros [Hx Hs].
  rewrite (proj2 (Z.eqb_neq x c)) by done. by rewrite IH.
Qed.

Definition and_then (cs : list cl_opt) (r : list cl_opt * bool) : list cl_opt * bool := (cs ++ r.1, r.2).

(** An argument of letters, by what [cluster] makes of it. *)
Lemma getopt_short d cs rest :
  (d =? DASH) = false ->
  getopt_long ((DASH :: d :: cs) :: rest) =
    let '(short, missing) := cluster (d :: cs) in
    if (missing : bool) then
      match rest with [] => (short ++ [cl_other], false) | o :: rest => and_then (short ++ [cl_o o]) (getopt_long rest) end
    else and_then short (getopt_long rest).
Proof.
  intros Hd. cbn [getopt_long]. change (DASH =? DASH) with true. rewrite Hd. cbv iota.
  destruct (cluster (d :: cs)) as [short [|]]; [destruct rest as [|o rest]|]; try done.
  - destruct (getopt_long rest) as [l m]. unfold and_then. simpl. by rewrite <- app_assoc.
  - by destruct (getopt_long rest).
Qed.

Lemma spelling_read cs s rest : spells cs s -> getopt_long (s ++ rest) = and_then cs (getopt_long rest).
Proof.
  destruct 1 as [cs xs Hc Hne|cs xs v Hc|cs xs v Hc Hv|c x p Hc Hp Ha|v p Hp Ha|v p Hp Ha]; cbn [app].
  - pose proof (cluster_letters cs xs [] Hc) as Hk. rewrite app_nil_r in Hk.
    destruct Hc as [|c x cs xs Hx Hc]; [done|]. destruct (letter_of_read c x Hx) as (_ & _ & Hd).
    rewrite getopt_short by done. rewrite Hk. cbn [cluster fst snd]. by rewrite app_nil_r.
  - pose proof (cluster_letters cs xs [111] Hc) as Hk.
    destruct Hc as [|c x cs xs Hx Hc]; [by rewrite (getopt_short 111 [])|].
    destruct (letter_of_read c x Hx) as (_ & _ & Hd). cbn [app] in *. rewrite getopt_short by done. rewrite Hk. cbn [cluster fst snd]. by rewrite app_nil_r.
  - pose proof (cluster_letters cs xs (111 :: v) Hc) as Hk.
    assert (Ho : cluster (111 :: v) = ([cl_o v], false)) by by destruct v. rewrite Ho in Hk. cbn [fst snd] in Hk.
    destruct Hc as [|c x cs xs Hx Hc]; cbn [app] in *.
    + rewrite getopt_short by done. by rewrite Ho.
    + destruct (letter_of_read c x Hx) as (_ & _ & Hd). rewrite getopt_short by done. by rewrite Hk.
  - pose proof (strchr_none EQUALS p (abbrev_no_equals _ _ _ Ha)) as He. pose proof (find_long_abbrev _ _ _ Ha) as Hf.
    destruct p as [|y p]; [done|]. cbn [getopt_long]. change (DASH =? DASH) with true. cbv iota. rewrite He, Hf.
    destruct (letter_of_read c x Hc) as (-> & _). by destruct (getopt_long rest).
  - pose proof (strchr_none EQUALS p (abbrev_no_equals _ _ _ Ha)) as He. pose proof (find_long_abbrev _ _ _ Ha) as Hf.
    destruct p as [|y p]; [done|]. cbn [getopt_long]. change (DASH =? DASH) with true. cbv iota. rewrite He, Hf.
    by destruct (getopt_long rest).
  - pose proof (strchr_first EQUALS p v (abbrev_no_equals _ _ _ Ha)) as He. pose proof (find_long_abbrev _ _ _ Ha) as Hf.
    destruct p as [|y p]; [done|]. cbn [app getopt_long] in *. change (DASH =? DASH) with true. cbv iota. rewrite He, Hf.
    by destruct (getopt_long rest).
Qed.

(** ** What the options set *)

(** The mode is what the last of [-r] and [-w] says, and read-write before. *)
Definition mode_after (ro : bool) (l : list cl_opt) : bool :=
  fold_left (fun ro c => match c with cl_r => true | cl_w => false | _ => ro end) l ro.

(** The argument of the last [-o]. *)
Definition data_after (d : option (list Z)) (l : list cl_opt) : option (list Z) :=
  fold_left (fun d c => match c with cl_o v => Some v | _ => d end) l d.

Definition is_v (c : cl_opt) : bool := match c with cl_v => true | _ => false end.
Definition is_f (c : cl_opt) : bool := match c with cl_f => true | _ => false end.
Definition is_n (c : cl_opt) : bool := match c with cl_n => true | _ => false end.

(** The options that do not end the process. *)
Definition goes_on (c : cl_opt) : bool := match c with cl_V | cl_h | cl_other => false | _ => true end.

Lemma read_cl_spec l s :
  (forallb goes_on l = false /\ read_cl l s = None) \/
  (forallb goes_on l = true /\ exists s', read_cl l s = Some s' /\
     flag (cls_flags s') MS_RDONLY = mode_after (flag (cls_flags s) MS_RDONLY) l /\
     Z.ldiff (cls_flags s') MS_RDONLY = Z.ldiff (cls_flags s) MS_RDONLY /\
     cls_verbose s' = cls_verbose s + Z.of_nat (length (List.filter is_v l)) /\
     cls_fg s' = cls_fg s || existsb is_f l /\ cls_nomtab s' = cls_nomtab s || existsb is_n l /\
     cls_tdata s' = data_after (cls_tdata s) l).
Proof.
  assert (Hlor : forall x, flag (Z.lor x MS_RDONLY) MS_RDONLY = true).
  { intros x. unfold flag, MS_RDONLY. rewrite Z.land_lor_distr_l. change (Z.land 1 1) with 1.
    destruct (Z.eqb_spec (Z.lor (Z.land x 1) 1) 0) as [H|H]; [|done]. by apply Z.lor_eq_0_iff in H as [_ ?]. }
  assert (Hld : forall x, flag (Z.ldiff x MS_RDONLY) MS_RDONLY = false).
  { intros x. unfold flag, MS_RDONLY. by rewrite Z.land_ldiff. }
  revert s. induction l as [|c l IH]; intros s.
  { right. split; [done|]. exists s. simpl. rewrite !orb_false_r. split_and!; try done. lia. }
  destruct c; simpl; try (by left);
    (edestruct IH as [[Hg Hr]|(Hg & s' & Hr & Hm & Hx & Hv & Hf & Hn & Ht)];
     [left; split; [exact Hg|exact Hr]|right; split; [exact Hg|]; exists s'; simpl in *;
      rewrite Hm, Hx, Hv, Hf, Hn, Ht; split_and!; try done; try lia]).
  all: rewrite ?Hlor, ?Hld, ?orb_true_r; try done.
  - apply Z.bits_inj'. intros i Hi. rewrite !Z.ldiff_spec, Z.lor_spec.
    by destruct (Z.testbit (cls_flags s) i), (Z.testbit MS_RDONLY i).
  - apply Z.bits_inj'. intros i Hi. rewrite !Z.ldiff_spec.
    by destruct (Z.testbit (cls_flags s) i), (Z.testbit MS_RDONLY i).
Qed.

Lemma spellings_read ls ss rest :
  Forall2 spells ls ss -> getopt_long (concat ss ++ rest) = and_then (concat ls) (getopt_long rest).
Proof.
  induction 1 as [|cs s ls ss Hs _ IH]; [simpl; by destruct (getopt_long rest)|].
  simpl. rewrite <- app_assoc, (spelling_read cs) by done. rewrite IH. unfold and_then. simpl. by rewrite app_assoc.
Qed.

(** An argument that is no option. *)
Definition operand (a : list Z) : bool :=
  match a with c :: _ :: _ => negb (c =? DASH) | _ => true end.

Lemma operand_left a rest : operand a = true -> (getopt_long (a :: rest)).2 = true.
Proof.
  destruct a as [|c [|d cs]]; simpl; try (by destruct (getopt_long rest)).
  intros Hc%negb_true_iff. rewrite Hc. by destruct (getopt_long rest).
Qed.

(** C25: The command line round trip.  Options in any sequence, each given in any of
    the ways of [getopt_long] ([spells]: letters that stand together after a dash,
    [-o] with its argument attached or next, long names in full or cut to an
    unambiguous beginning, their argument after [=] or next), are read back as that
    sequence with nothing left over, where [getopt_long] is a model of the function
    of the GNU C library on the table [hsfs_opts].  They add up: the mount is
    read-only when the last of [-r] and [-w] is [-r], verbose counts the [-v], [-f]
    asks for the foreground (the manual page says that it makes a fake mount) and
    [-n] for no entry in the mount table, and the argument of the last [-o] is the
    one that counts.  With [-V], [-h] or with an operand among them,
    [hsi_parse_cmdline] ends the process. *)
Theorem cmdline_roundtrip `{F : FuseLib} ls ss prog args :
  Forall2 spells ls ss ->
  let l := concat ls in
  getopt_long (concat ss) = (l, false) /\
  (forallb goes_on l = true -> exists s,
     read_cl l (mk_cls 0 0 false false None) = Some s /\
     cls_flags s = (if mode_after false l then MS_RDONLY else 0) /\
     cls_verbose s = Z.of_nat (length (List.filter is_v l)) /\ cls_fg s = existsb is_f l /\
     cls_nomtab s = existsb is_n l /\ cls_tdata s = data_after None l) /\
  (forallb goes_on l = false -> hsi_parse_cmdline l false prog 0 args = cl_exit) /\
  (forall a rest, operand a = true ->
     let r := getopt_long (concat ss ++ a :: rest) in hsi_parse_cmdline r.1 r.2 prog 0 args = cl_exit).
Proof.
  intros Hs l. split_and!.
  - pose proof (spellings_read ls ss [] Hs) as H. unfold and_then in H. simpl in H. by rewrite !app_nil_r in H.
  - intros Hg. destruct (read_cl_spec l (mk_cls 0 0 false false None)) as [[H _]|(_ & s & Hr & Hm & Hx & Hv & Hf & Hn & Ht)];
      [congruence|]. exists s. simpl in *. split_and!; [done| |done..].
    change (flag 0 MS_RDONLY) with false in Hm. change (Z.ldiff 0 MS_RDONLY) with 0 in Hx. rewrite <- Hm.
    pose proof (Z.lor_ldiff_and (cls_flags s) MS_RDONLY) as Hl. rewrite Hx, Z.lor_0_l in Hl.
    pose proof (Z.land_ones (cls_flags s) 1 ltac:(lia)) as Ho. change (Z.ones 1) with MS_RDONLY in Ho.
    pose proof (Z.mod_pos_bound (cls_flags s) (2 ^ 1) ltac:(lia)). unfold flag, MS_RDONLY in *.
    destruct (Z.eqb_spec (Z.land (cls_flags s) 1) 0); simpl; lia.
  - intros Hg. unfold hsi_parse_cmdline.
    destruct (read_cl_spec l (mk_cls 0 0 false false None)) as [[_ ->]|[H _]]; [done|congruence].
  - intros a rest Ha r. unfold hsi_parse_cmdline.
    assert (Hr : r.2 = true) by (unfold r; rewrite (spellings_read ls) by done; by apply operand_left).
    rewrite Hr. by destruct (read_cl r.1 _).
Qed.

(** libfuse, with its arguments as the list of options. *)
Definition list_fuse : FuseLib := {|
  fuse_args := list (list Z);
  fuse_opt_add_opt args o := (0, args ++ [o]);
  fuse_opt_add_arg args o := (0, args ++ [o]);
  is_lib_option o := false;
  fuse_daemonize fg := 0 |}.

(** Letters together, the last with its argument; and an abbreviation. *)
Lemma cmdline_roundtrip_witness :
  getopt_long [bytes_of "-rvo"; bytes_of "timeo=7"; bytes_of "--read-w"] =
    ([cl_r; cl_v; cl_o (bytes_of "timeo=7"); cl_w], false) /\
  exists s, read_cl [cl_r; cl_v; cl_o (bytes_of "timeo=7"); cl_w] (mk_cls 0 0 false false None) = Some s /\
    cls_flags s = 0 /\ cls_tdata s = Some (bytes_of "timeo=7").
Proof.
  destruct (@cmdline_roundtrip list_fuse [[cl_r; cl_v; cl_o (bytes_of "timeo=7")]; [cl_w]]
    [[bytes_of "-rvo"; bytes_of "timeo=7"]; [bytes_of "--read-w"]] [] []) as (Hg & Hr & _).
  - constructor; [|constructor; [|constructor]].
    + apply (sp_short_next [cl_r; cl_v] [114; 118]). by repeat constructor.
    + apply (sp_long cl_w 119); [done|done|]. right. split.
      * exists "read-write"%string. split; [simpl; tauto|by vm_compute].
      * intros nm a y. simpl In. intuition (simplify_eq; (by split) || (exfalso; revert H0; by vm_compute)).
  - split; [exact Hg|]. destruct (Hr eq_refl) as (s & H1 & H2 & _ & _ & _ & H3). by exists s.
Defined.
