(* ===== verification/Mount.v ===== *)
(** * Mounting and unmounting ([nfs3/hsi_nfs3_mount.c])

    [hsx_fuse_mount] asks the mount daemon of the server for the root handle,
    opens the clients, fills the superblock with the root inode and mounts the
    FUSE channel.  Name resolution, the two calls of the mount protocol, the
    clock and libfuse are parameters.  Log messages are not modelled. *)

From S2P Require Import Prelude Bitops Hash Proto World Icache IcacheFacts Attr Rpc NfsInode Blocks Nfs3Ops.
From S2P Require Import Mntent Options.

Record mountres3 := { fhs_status : Z; mr_fhandle : nfs_fh3 }.

(** The services a mount uses.  [mnt_call] and [umnt_call] are [clnt_call] with
    MOUNTPROC3_MNT and MOUNTPROC_UMNT: a status, which is 0 for RPC_SUCCESS, and
    the result. *)
Class MountEnv `{E : Env} := {
  resolve : list Z -> env -> (Z + Z) * env;
  mnt_call : Z -> list Z -> env -> (Z * mountres3) * env;
  umnt_call : Z -> list Z -> env -> Z * env;
  time_now : env -> Z * env;
  rpc_createerr : env -> Z;
  sys_errno : env -> Z;
  fuse_mount : list Z -> env -> option Z * env;
  fuse_unmount : list Z -> env -> env }.

Definition MNT_SENDBUFSIZE : Z := 2048.
Definition MNT_RECVBUFSIZE : Z := 1024.
Definition RPC_TIMEDOUT : Z := 5.
Definition RPC_SYSTEMERROR : Z := 12.
Definition ETIMEDOUT : Z := 110.

(** [char hostdir[1024]] and [char new_opts[1024]]. *)
Definition hostdir_size : Z := 1024.
Definition new_opts_size : Z := 1024.

Definition mountres_zero : mountres3 := {| fhs_status := 0; mr_fhandle := [] |}.

(** A hostname as the string of an address. *)
Definition host_string (h : list Z) : string :=
  String.string_of_list_ascii ((fun c => Ascii.ascii_of_nat (Z.to_nat c)) <$> h).

Section Mount.
Context `{E : Env} {ME : MountEnv}.

(** A call of the library on a client handle. *)
Definition on_clnt {A} (clnt : Z) (f : env -> A * env) : M world A :=
  fun w => if decide (clnt ∈ w_clnts w) then from_env f w else Undef.

(** The return value, the server, whose port is set, and [*mntres] when it is
    written. *)
Definition hsi_nfs3_mount (mnt_server : clnt_addr_t) (mntarg : list Z) :
    M world (Z * clnt_addr_t * option mountres3) :=
  let! ca := hsi_mnt_openclnt mnt_server MNT_SENDBUFSIZE MNT_RECVBUFSIZE in
  if ca.1 =? NULL then ret (-1, ca.2, None)
  else
    let! r := on_clnt ca.1 (mnt_call ca.1 mntarg) in
    let tres := if r.1 =? 0 then r.2 else mountres_zero in
    let! tmp := c_malloc (Z.of_nat (length (mr_fhandle tres))) in
    do! clnt_freeres ca.1 in
    do! hsi_mnt_closeclnt ca.1 in
    if (tmp : bool) then ret (r.1, ca.2, Some tres) else ret (ENOMEM, ca.2, None).

Definition hsi_nfs3_unmount (mnt_server : clnt_addr_t) (umntarg : list Z) : M world Z :=
  let! ca := hsi_mnt_openclnt mnt_server MNT_SENDBUFSIZE MNT_RECVBUFSIZE in
  if ca.1 =? NULL then ret (-1)
  else
    let! r := on_clnt ca.1 (umnt_call ca.1 umntarg) in
    do! hsi_mnt_closeclnt ca.1 in
    ret r.

(** [super->sop] is the constant [hsi_nfs_sop]. *)
Definition hsi_fill_super (fh : nfs_fh3) : M world Z :=
  let! r := hsfs_init_icache in
  if negb (r =? 0) then ret r
  else
    do! update_sb (set_sb_curr_id 0) in
    let! rf := hsi_nfs3_fsinfo fh (nfs_init_fattr fattr_local) in
    if negb (rf.1 =? 0) then ret rf.1
    else
      let! nfh := copy_fh3 fh in
      let! root := hsi_nfs_fhget hsi_nfs_sop nfh rf.2 in
      if IS_ERR root then ret (s32 (PTR_ERR root))
      else
        do! update_sb (set_sb_root root) in
        let! n := deref root in
        do! c_assert (in_ino (ni_hsfs_inode n) =? 1) in
        hsi_nfs3_pathconf root.

(** The loop around [hsi_nfs3_mount]; [None] is [goto fail].  In the background
    only a success ends it. *)
Fixpoint mount_loop (fuel : nat) (fg : bool) (timeout : Z) (mnt_server : clnt_addr_t) (dirname : list Z)
    (mntres : mountres3) : M world (option (clnt_addr_t * mountres3)) :=
  match fuel with
  | O => fun _ => NoFuel
  | S fuel =>
      let! r := hsi_nfs3_mount mnt_server dirname in
      let '(err, mnt_server, res) := r in
      let mntres := default mntres res in
      if err =? 0 then ret (Some (mnt_server, mntres))
      else if fg then
        let! w := get in
        let st := rpc_createerr (w_env w) in
        if (st =? RPC_TIMEDOUT) || ((st =? RPC_SYSTEMERROR) && (sys_errno (w_env w) =? ETIMEDOUT)) then
          let! t := from_env time_now in
          if timeout <=? t then ret None
          else mount_loop fuel fg timeout mnt_server dirname mntres
        else ret None
      else mount_loop fuel fg timeout mnt_server dirname mntres
  end.

(** [umnt_fail] and [fmnt_fail] but for the memory of the handle. *)
Definition fmnt_fail (mnt_server : clnt_addr_t) (dirname : list Z) : M world (option Z) :=
  let! sb := get_sb in
  do! (if sb_acl_clntp sb =? NULL then ret tt else clnt_destroy (sb_acl_clntp sb)) in
  do! clnt_destroy (sb_clntp sb) in
  do! hsi_nfs3_unmount mnt_server dirname in
  ret None.

(** From the root handle on. *)
Definition mount_root (mnt_server nfs_server : clnt_addr_t) (dirname point : list Z) (mntres : mountres3) :
    M world (option Z) :=
  let! sb := get_sb in
  let! ca := hsi_nfs3_clnt_create nfs_server (sb_wsize sb) (sb_rsize sb) in
  do! update_sb (set_sb_clntp ca.1) in
  if ca.1 =? NULL then fmnt_fail mnt_server dirname
  else
    let nfs_server := ca.2 in
    let p := ca_pmap nfs_server in
    let acl_server := {| ca_hostname := ca_hostname nfs_server; ca_saddr := ca_saddr nfs_server;
                         ca_pmap := {| pm_prog := NFS_ACL_PROGRAM; pm_vers := NFS_ACL_V3;
                                       pm_prot := pm_prot p; pm_port := pm_port p |} |} in
    let! cb := hsi_nfs3_clnt_create acl_server (sb_wsize sb) (sb_rsize sb) in
    do! update_sb (set_sb_acl_clntp cb.1) in
    if negb (fhs_status mntres =? 0) then ret None
    else
      let! r := hsi_fill_super (mr_fhandle mntres) in
      if negb (r =? 0) then fmnt_fail mnt_server dirname
      else
        let! ch := from_env (fuse_mount point) in
        match ch with
        | None => fmnt_fail mnt_server dirname
        | Some ch => ret (Some ch)
        end.

(** Everything before the first call: the servers, [retry] and the directory;
    [None] is [goto fail]. *)
Definition mount_setup (spec : list Z) (udata : option (list Z)) :
    M world (option (clnt_addr_t * clnt_addr_t * Z * list Z)) :=
  if hostdir_size <=? zlen spec then ret None
  else match hsi_parse_spec spec with
  | None => ret None
  | Some (hostname, dirname) =>
      let! sb := get_sb in
      let! ra := from_env (hsi_gethostbyname resolve hostname (sb_addr sb)) in
      do! update_sb (set_sb_addr ra.2) in
      if negb (ra.1 =? 0) then ret None
      else
        let server := {| ca_hostname := host_string hostname; ca_saddr := sockaddr_zero; ca_pmap := pmap_zero |} in
        let! w := get in
        match hsi_nfs3_parse_options resolve (default [] udata) (w_sb w) (-1) server server new_opts_size
                (w_env w) with
        | None => undef
        | Some (r, o, _, e) =>
            do! modify (fun w => set_sb (po_super o) (set_env e w)) in
            if negb (r =? 0) then ret None
            else if negb (hsi_nfsmnt_check_compat (po_nfs o) (po_mnt o) =? 0) then ret None
            else
              let name := match po_mounthost o with Some h => host_string h | None => host_string hostname end in
              let srv p := {| ca_hostname := name; ca_saddr := sockaddr_zero; ca_pmap := p |} in
              let '(super, ms, ns, retry) :=
                hsi_validate_mount_data (po_super o) (srv (po_mnt o)) (srv (po_nfs o)) (po_retry o) in
              do! update_sb (fun _ => super) in
              ret (Some (ms, ns, retry, dirname))
        end
  end.

(** The channel, or NULL.  [60 * retry] is computed as an [int]. *)
Definition hsx_fuse_mount (fuel : nat) (fg : bool) (spec point : list Z) (udata : option (list Z)) :
    M world (option Z) :=
  let! s := mount_setup spec udata in
  match s with
  | None => ret None
  | Some (ms, ns, retry, dirname) =>
      let! t := from_env time_now in
      if (60 * retry <? - 2 ^ 31) || (2 ^ 31 <=? 60 * retry) then undef
      else
        let! r := mount_loop fuel fg (t + 60 * retry) ms dirname mountres_zero in
        match r with
        | None => ret None
        | Some (ms, mntres) => mount_root ms ns dirname point mntres
        end
  end.

Definition hsx_fuse_unmount (spec point : list Z) : M world Z :=
  if hostdir_size <=? zlen spec then undef
  else match hsi_parse_spec spec with
  | None => ret (-1)
  | Some (hostname, dirname) =>
      do! modify (fun w => set_env (fuse_unmount point (w_env w)) w) in
      let! sb := get_sb in
      do! clnt_destroy (sb_clntp sb) in
      let prot := if flag (sb_flags sb) NFS_MOUNT_TCP then IPPROTO_TCP else IPPROTO_UDP in
      do! hsfs_iput hsi_nfs_sop (sb_root sb) in
      hsi_nfs3_unmount
        {| ca_hostname := host_string hostname; ca_saddr := sb_addr sb;
           ca_pmap := {| pm_prog := MOUNTPROG; pm_vers := MOUNTVERS_NFSV3; pm_prot := prot; pm_port := 0 |} |}
        dirname
  end.
End Mount.
