(* ===== verification/MountSpec.v ===== *)
(** * A mount and the session it starts

    When the services answer, a mount succeeds and leaves what a session starts
    from: the cache is consistent and holds the root as inode 1, not yet held by
    the kernel.  When the NFS server does not answer the first call, the code
    that undoes the mount destroys a client that is not there. *)

From S2P Require Import Prelude Bitops Hash Proto World Icache IcacheFacts Attr Rpc NfsInode Wp Blocks.
From S2P Require Import Nfs3Ops Nfs3Spec Acl FuseOps FuseIo FileSpec FuseSpec RefSpec Session Sample Calm.
From S2P Require Import Mntent Lock Mtab Options MainOpts OptionsSpec Mount.

(** A client can be made, with a handle of its own, and the server answers a ping. *)
Class Clients `{E : Env} : Prop := {
  sv_create : forall l a s r e, exists c e', clnt_create l a s r e = (Some c, e') /\ c <> NULL /\ c ∉ l;
  sv_auth : forall e, (authunix_create e).1 = true;
  sv_ping : forall c t e, exists r e', clnt_call c NULLPROC t e = (RPC_SUCCESS r, e') }.

(** Every service answers, at the first attempt. *)
Class Services `{E : Env} {ME : MountEnv} : Prop := {
  sv_clients :: Clients;
  sv_resolve : forall h e, exists a, (resolve h e).1 = inl a;
  sv_mnt : forall c d e, exists fh e',
    mnt_call c d e = ((0, {| fhs_status := 0; mr_fhandle := fh |}), e') /\ handle_ok fh;
  sv_fsinfo : forall c fh t e, exists r e',
    clnt_call c (NFSPROC3_FSINFO fh) t e = (RPC_SUCCESS (RES_OK r), e') /\
    attrs_ok (fi_obj_attributes r) /\
    0 <= fi_rtpref r /\ 0 <= fi_rtmax r /\ 0 <= fi_wtpref r /\ 0 <= fi_wtmax r;
  sv_pathconf : forall c fh t e, exists r e',
    clnt_call c (NFSPROC3_PATHCONF fh) t e = (RPC_SUCCESS (RES_OK r), e');
  sv_fuse : forall p e, exists ch e', fuse_mount p e = (Some ch, e') }.

(** What a session starts from: the root is inode 1, and the only inode. *)
Definition fresh_root (n : nfs_inode) : Prop :=
  ino_of n = 1 /\ refs_of n = 0 /\ 0 <= in_i_count (ni_hsfs_inode n).

Definition root_ready `{E : Env} (w : world) : Prop :=
  good w /\ exists n, w_heap w = {[ sb_root (w_sb w) := n ]} /\ fresh_root n.

Lemma root_ready_inode `{E : Env} w :
  root_ready w -> exists n, w_heap w !! sb_root (w_sb w) = Some n /\ fresh_root n.
Proof. intros (_ & n & Hh & Hn). exists n. by rewrite Hh, lookup_singleton_eq. Qed.

Section Core.
Context `{E : Env}.

Lemma wp_init conn w n (Q : fuse_conn_info -> world -> Prop) :
  w_heap w !! sb_root (w_sb w) = Some n -> refs_of n = 0 ->
  Q (hsx_fuse_init_cap conn) (set_heap (<[sb_root (w_sb w) := set_private 1 n]> (w_heap w)) w) ->
  wp (hsx_fuse_init conn) Q w.
Proof.
  intros Hn Hrefs HQ. apply wp_bind, wp_get_sb, wp_bind, wp_bind. eapply wp_deref; [done|]. apply wp_bind.
  eapply wp_update; [done|]. apply wp_ret, wp_bind, wp_assert; [by apply Z.eqb_eq|by apply wp_ret].
Qed.

(** What the steps before the superblock is filled keep. *)
Definition same_core (w w' : world) : Prop :=
  w_heap w' = w_heap w /\ w_sb w' = w_sb w /\ w_out w' = w_out w.

#[export] Instance same_core_preorder : PreOrder same_core.
Proof.
  split; [by intros w|]. intros w1 w2 w3 (H1 & H2 & H3) (H4 & H5 & H6). split_and!; congruence.
Qed.

Lemma good_super s w :
  w_heap w = ∅ -> sb_clntp s ∈ w_clnts w -> sb_acl_clntp s = NULL \/ sb_acl_clntp s ∈ w_clnts w ->
  0 < sb_rsize s -> 0 < sb_wsize s ->
  good (set_sb (set_sb_curr_id 0 (set_sb_fh_table (__hash_init HSFS_HASH_SIZE)
    (set_sb_id_table (__hash_init HSFS_HASH_SIZE) s))) w).
Proof.
  intros Hh Hc Ha Hr Hw. constructor; [|done..]. split; [|simpl; rewrite Hh; by constructor].
  constructor; simpl; rewrite ?Hh, ?hash_init_nodes; try done; try apply NoDup_nil_2;
    intros p; (split; [by intros ?%not_elem_of_nil|by intros []]).
Qed.
End Core.

(** ** The clients *)

Section ClientFacts.
Context `{E : Env} {HCl : Clients}.

Definition prot_ok (p : pmap) : Prop := pm_prot p = IPPROTO_UDP \/ pm_prot p = IPPROTO_TCP.

Lemma open_ok a s r w :
  prot_ok (ca_pmap a) ->
  wp (hsi_mnt_openclnt a s r)
    (fun ca w' => ca.1 <> NULL /\ ca.1 ∈ w_clnts w' /\ w_clnts w ⊆ w_clnts w' /\
       ca_pmap ca.2 = ca_pmap a /\ same_core w w' /\ w_clnts w' = {[ca.1]} ∪ w_clnts w /\ ca.1 ∉ w_clnts w) w.
Proof.
  intros Hp. unfold hsi_mnt_openclnt.
  assert (Hb : (pm_prot (ca_pmap a) =? IPPROTO_UDP) || (pm_prot (ca_pmap a) =? IPPROTO_TCP) = true)
    by (destruct Hp as [-> | ->]; done).
  rewrite Hb. set (addr := {| ca_hostname := ca_hostname a |}). apply wp_bind.
  destruct (sv_create (w_clnts w) addr s r (w_env w)) as (c & e' & Hc & Hn & Hnew).
  exists (Some c), (set_env e' w). split; [unfold new_clnt, from_env; by rewrite Hc|].
  apply wp_bind. eexists _, _. split; [reflexivity|]. apply wp_bind.
  pose proof (sv_auth e') as Ha. destruct (authunix_create e') as [ok e2] eqn:Hau. simpl in Ha. subst ok.
  eexists true, _. split; [unfold from_env; simpl; by rewrite Hau|]. apply wp_ret. simpl.
  split_and!; [done|set_solver|set_solver|done|done|done|done].
Qed.

Lemma clnt_create_ok a s r w :
  prot_ok (ca_pmap a) ->
  wp (hsi_nfs3_clnt_create a s r)
    (fun ca w' => ca.1 <> NULL /\ ca.1 ∈ w_clnts w' /\ w_clnts w ⊆ w_clnts w' /\
       ca_pmap ca.2 = ca_pmap a /\ same_core w w' /\ w_clnts w' = {[ca.1]} ∪ w_clnts w /\ ca.1 ∉ w_clnts w) w.
Proof.
  intros Hp. apply wp_bind. eapply wp_mono; [by apply open_ok|].
  intros [c addr] w1 (Hn & Hl & Hsub & Hpm & Hcore & Heq & Hnew). cbn [fst snd] in *.
  rewrite (proj2 (Z.eqb_neq c NULL) Hn). apply wp_bind, wp_rpc; [done|]. intros x e He.
  destruct (sv_ping c TIMEOUT (w_env w1)) as (u & e' & Hping). rewrite Hping in He. injection He as <- <-.
  apply wp_bind. eexists _, _. split; [reflexivity|]. apply wp_ret. done.
Qed.
End ClientFacts.

Section Ready.
Context `{E : Env} {ME : MountEnv} {HS : Services} {HML : MallocLaws} {HMem : MemLaws}.
Hypothesis Hbad : bad_inode_placed.

(** The root inode of an empty cache is number 1. *)
Lemma fhget_root fh a w :
  good w -> w_heap w = ∅ -> sb_curr_id (w_sb w) = 0 -> fh_wf fh -> attrs_ok a ->
  wp (hsi_nfs_fhget hsi_nfs_sop fh (fattr_of a))
    (fun p w' => good w' /\ IS_ERR p = false /\ w_out w' = w_out w /\
       sb_flags (w_sb w') = sb_flags (w_sb w) /\
       exists n, w_heap w' = {[ p := n ]} /\ fresh_root n) w.
Proof.
  intros Hg Hh Hcur Hfh Ha. destruct (fattr_of_usable a Ha) as [Hval Hnl].
  destruct (fhget_spec hsi_nfs_sop Hbad fh (fattr_of a) w (good_cache _ Hg) Hfh) as (p & w' & Hf & Hres).
  pose proof (fhget_result_ok _ _ _ _ _ _ Hfh (good_cache _ Hg) Hres) as Hok'.
  exists p, w'. split; [done|].
  inversion Hres as [[H0|H0]|e' Hal|q n Hq Hb|q c w1 Hno Hq Hv Hpk Hw1 Hok1 Hfr]; subst; [done|done| | |].
  - apply alloc_succeeds in Hal; [done|]. by rewrite Hh.
  - by rewrite Hh in Hq.
  - split_and!; [by eapply cache_frame_good|by apply valid_ptr_not_err|apply Hfr| |].
    { destruct Hfr as (_ & _ & _ & t1 & t2 & cc & ->). done. }
    exists (new_inode fh (fattr_of a) (w_sb w) c). split; [by rewrite Hw1, Hh|]. split_and!; [|done|done].
    rewrite Hcur in Hpk. change (c = 1). apply Hpk. intros q m Hm. by rewrite Hh in Hm.
Qed.

Lemma pathconf_ok p n w :
  good w -> w_heap w !! p = Some n ->
  wp (hsi_nfs3_pathconf p) (fun r w' => r = 0 /\ good w' /\ w_heap w' = w_heap w /\
    sb_root (w_sb w') = sb_root (w_sb w) /\ sb_flags (w_sb w') = sb_flags (w_sb w) /\ w_out w' = w_out w) w.
Proof.
  intros Hg Hn. pose proof (good_clnt _ Hg) as Hl. unfold hsi_nfs3_pathconf. wp_go.
  destruct (sv_pathconf (sb_clntp (w_sb w)) (hsi_nfs3_getfh3 n) (call_timeout (sb_timeo (w_sb w))) (w_env w))
    as (r & e' & Hc).
  eexists _, _. split; [by apply call_at_once|]. cbn beta iota zeta delta [snd].
  apply wp_bind, wp_update_sb. apply wp_bind, wp_freeres; [done|]. apply wp_ret. split_and!; [done| |done..].
  apply (good_sb (set_env e' w)); [by apply good_env|done..|apply Hg|apply Hg].
Qed.

Lemma fsinfo_ok fh w :
  good w ->
  wp (hsi_nfs3_fsinfo fh (nfs_init_fattr fattr_local))
    (fun r w' => exists a, r = (0, fattr_of a) /\ attrs_ok a /\ good w' /\ w_heap w' = w_heap w /\
       sb_curr_id (w_sb w') = sb_curr_id (w_sb w) /\ sb_flags (w_sb w') = sb_flags (w_sb w) /\
       w_out w' = w_out w) w.
Proof.
  intros Hg. pose proof (good_clnt _ Hg) as Hl. unfold hsi_nfs3_fsinfo. wp_go.
  destruct (sv_fsinfo (sb_clntp (w_sb w)) fh (call_timeout (sb_timeo (w_sb w))) (w_env w))
    as (r & e' & Hc & Ha & Hr1 & Hr2 & Hw1 & Hw2).
  eexists _, _. split; [by apply call_at_once|]. cbn beta iota zeta delta [snd].
  apply wp_bind, wp_update_sb.
  change (let (_, y) := hsi_nfs3_post2fattr (fi_obj_attributes r) (nfs_init_fattr fattr_local) in y) with
    (fattr_of (fi_obj_attributes r)).
  assert (Hv : flag (fa_valid (fattr_of (fi_obj_attributes r))) NFS_ATTR_FATTR = true).
  { destruct Ha as (f & -> & _). by vm_compute. }
  rewrite Hv. simpl negb. cbv iota. apply wp_bind, wp_ret. apply wp_bind, wp_freeres; [done|]. apply wp_ret.
  exists (fi_obj_attributes r). split_and!; [done|done| |done..].
  pose proof (good_rsize _ Hg). pose proof (good_wsize _ Hg).
  apply (good_sb (set_env e' w)); [by apply good_env|done..| |]; apply io_size_spec; simpl; lia.
Qed.

Lemma fill_super_ok fh w :
  w_heap w = ∅ -> sb_clntp (w_sb w) ∈ w_clnts w ->
  sb_acl_clntp (w_sb w) = NULL \/ sb_acl_clntp (w_sb w) ∈ w_clnts w ->
  0 < sb_rsize (w_sb w) -> 0 < sb_wsize (w_sb w) -> handle_ok fh ->
  wp (hsi_fill_super fh)
    (fun r w' => r = 0 /\ root_ready w' /\ sb_flags (w_sb w') = sb_flags (w_sb w) /\ w_out w' = w_out w) w.
Proof.
  intros Hh Hc Ha Hr Hw Hfh. unfold hsi_fill_super, hsfs_init_icache.
  apply wp_bind, wp_bind, wp_update_sb, wp_bind, wp_update_sb, wp_ret. simpl negb. cbv iota.
  apply wp_bind, wp_update_sb. set (w1 := set_sb _ _).
  assert (Hg1 : good w1) by (by apply (good_super (w_sb w) w)).
  apply wp_bind. eapply wp_mono; [by apply fsinfo_ok|].
  intros rf w2 (a & -> & Hat & Hg2 & Hh2 & Hcur & Hf2 & Hout). simpl fst. simpl negb. cbv iota.
  apply wp_bind, wp_copy_fh3; [done|]. intros f Hf Hfb. simpl snd. apply wp_bind.
  eapply wp_mono; [apply fhget_root; [done|by rewrite Hh2|by rewrite Hcur|done|done]|].
  intros p w3 (Hg3 & -> & Hout3 & Hf3 & n & Hh3 & Hroot). apply wp_bind, wp_update_sb.
  assert (Hn : w_heap w3 !! p = Some n) by by rewrite Hh3, lookup_singleton_eq.
  set (w4 := set_sb _ w3).
  assert (Hg4 : good w4) by (apply good_sb; [exact Hg3|done..|apply Hg3|apply Hg3]).
  apply wp_bind. eapply wp_deref; [exact Hn|]. apply wp_bind, wp_assert; [apply Z.eqb_eq; apply Hroot|].
  eapply wp_mono; [by apply (pathconf_ok p n)|]. intros r w5 (-> & Hg5 & Hh5 & Hr5 & Hf5 & Ho5).
  split_and!; [done| |rewrite Hf5; simpl; rewrite Hf3, Hf2; done|rewrite Ho5; simpl; rewrite Hout3, Hout; done].
  split; [done|]. exists n. by rewrite Hh5, Hr5.
Qed.

Lemma nfs3_mount_ok ms dir w :
  prot_ok (ca_pmap ms) ->
  wp (hsi_nfs3_mount ms dir)
    (fun r w' => exists a fh, r = (0, a, Some {| fhs_status := 0; mr_fhandle := fh |}) /\ handle_ok fh /\
       same_core w w') w.
Proof.
  intros Hp. apply wp_bind. eapply wp_mono; [by apply open_ok|].
  intros [c addr] w1 (Hn & Hl & _ & _ & Hcore & _ & _). cbn [fst snd] in *.
  rewrite (proj2 (Z.eqb_neq c NULL) Hn).
  destruct (sv_mnt c dir (w_env w1)) as (fh & e' & Hm & Hfh).
  apply wp_bind. eexists _, (set_env e' w1). split.
  { unfold on_clnt, from_env. rewrite decide_True, Hm by done. reflexivity. }
  cbn [fst snd fhs_status mr_fhandle Z.eqb]. apply wp_bind.
  destruct (small_memory (Z.of_nat (length fh)) e') as [e2 Hmem].
  { unfold handle_ok, NFS3_FHSIZE in Hfh. lia. }
  eexists true, (set_env e2 w1). split; [unfold c_malloc, from_env; simpl; by rewrite Hmem|].
  apply wp_bind, wp_freeres; [done|]. apply wp_bind. eexists tt, _.
  split; [unfold hsi_mnt_closeclnt, clnt_destroy; by rewrite decide_True|].
  apply wp_ret. exists addr, fh. done.
Qed.

Lemma mount_loop_ok fuel fg timeout ms dir mr w :
  prot_ok (ca_pmap ms) -> (0 < fuel)%nat ->
  wp (mount_loop fuel fg timeout ms dir mr)
    (fun r w' => exists a fh, r = Some (a, {| fhs_status := 0; mr_fhandle := fh |}) /\ handle_ok fh /\
       same_core w w') w.
Proof.
  intros Hp Hf. destruct fuel as [|fuel]; [lia|]. cbn [mount_loop]. apply wp_bind.
  eapply wp_mono; [by apply nfs3_mount_ok|]. intros r w1 (a & fh & -> & Hfh & Hcore).
  apply wp_ret. exists a, fh. done.
Qed.

Lemma mount_root_ok ms ns dir point fh w :
  w_heap w = ∅ -> prot_ok (ca_pmap ns) -> 0 < sb_rsize (w_sb w) -> 0 < sb_wsize (w_sb w) -> handle_ok fh ->
  wp (mount_root ms ns dir point {| fhs_status := 0; mr_fhandle := fh |})
    (fun r w' => (exists ch, r = Some ch) /\ root_ready w' /\ sb_flags (w_sb w') = sb_flags (w_sb w) /\
       w_out w' = w_out w) w.
Proof.
  intros Hh Hp Hr Hw Hfh. apply wp_bind, wp_get_sb, wp_bind.
  eapply wp_mono; [by apply clnt_create_ok|]. intros [c ns'] w1 (Hn & Hl & _ & Hpm & (Hh1 & Hs1 & Ho1) & _).
  cbn [fst snd] in *. apply wp_bind, wp_update_sb. rewrite (proj2 (Z.eqb_neq c NULL) Hn).
  apply wp_bind. eapply wp_mono; [apply clnt_create_ok; simpl; rewrite Hpm; exact Hp|].
  intros [d as'] w2 (Hn2 & Hl2 & Hsub & _ & (Hh2 & Hs2 & Ho2) & _). cbn [fst snd] in *.
  apply wp_bind, wp_update_sb. simpl negb. cbv iota. apply wp_bind.
  eapply wp_mono; [apply fill_super_ok; simpl; rewrite ?Hs2; simpl; rewrite ?Hs1|].
  - simpl in Hh2. by rewrite Hh2, Hh1.
  - by apply Hsub.
  - by right.
  - done.
  - done.
  - done.
  - intros r w3 (-> & Hready & Hf3 & Ho3). simpl negb. cbv iota. apply wp_bind.
    destruct (sv_fuse point (w_env w3)) as (ch & e' & Hch).
    eexists (Some ch), (set_env e' w3). split; [unfold from_env; by rewrite Hch|].
    apply wp_ret. split_and!; [eauto| | |simpl; rewrite Ho3; simpl; rewrite Ho2; done].
    2:{ simpl. rewrite Hf3. simpl. rewrite Hs2. simpl. by rewrite Hs1. }
    destruct Hready as [Hg Hroot]. split; [by apply good_env|done].
Qed.
End Ready.

(** ** The options *)

(** TCP, UDP or not yet set. *)
Definition prot_set (p : pmap) : Prop := pm_prot p = 0 \/ prot_ok p.
Definition prots (o : popts) : Prop := prot_set (po_mnt o) /\ prot_set (po_nfs o).

Lemma parse_item_prots opt o o' text : parse_item opt o = it_text o' text -> prots o -> prots o'.
Proof.
  assert (Htcp : forall q, prots (prot_tcp q)) by (intros q; split; right; by right).
  assert (Hudp : forall q, prots (prot_udp q)) by (intros q; split; right; by left).
  unfold parse_item. case_if; [done|]. destruct (strchr EQUALS opt) as [[a b]|].
  - case_if.
    + unfold num_item, find_opt. destruct (List.find _ num_opts) as [[nm f]|] eqn:Hf; simpl.
      2:{ case_if; done. }
      intros [= <- <-] Ho. apply List.find_some in Hf as [Hf _]. simpl in Hf.
      by repeat (destruct Hf as [[= <- <-]|Hf]; [exact Ho|]).
    + unfold text_item. repeat case_if; intros [= <- <-] Ho; try done; try apply Htcp; exact (Hudp o).
  - unfold flag_item. set (val := negb (bool_decide (take 2 opt = bytes_of "no"))).
    set (opt' := if val then opt else drop 2 opt).
    destruct (existsb _ _); [done|]. destruct (named opt' "tcp").
    { intros [= <- <-] Ho. by destruct val. }
    destruct (named opt' "udp"); [|done]. intros [= <- <-] Ho. destruct val; [apply Hudp|apply Htcp].
Qed.

Lemma parse_items_prots size items o e o' :
  parse_items size items o = Some (e, o') -> prots o -> prots o'.
Proof.
  revert o. induction items as [|x items IH]; intros o; simpl; [by intros [= _ <-]|].
  destruct (parse_item x o) as [|o1 text| |] eqn:Hp; [by apply IH| |by intros [= _ <-]..].
  case_if; [done|]. case_if.
  - intros [= _ <-] Ho. by eapply parse_item_prots.
  - intros Hq Ho. eapply IH; [exact Hq|]. by apply (parse_item_prots _ _ _ _ Hp).
Qed.

(** The options change one bit of the flags. *)
Definition flags_of (o : popts) : Z := Z.ldiff (sb_flags (po_super o)) NFS_MOUNT_TCP.

Lemma parse_item_flags opt o o' text : parse_item opt o = it_text o' text -> flags_of o' = flags_of o.
Proof.
  assert (Htcp : forall q, flags_of (prot_tcp q) = flags_of q).
  { intros q. unfold flags_of. simpl. apply Z.bits_inj'. intros i Hi. rewrite !Z.ldiff_spec, Z.lor_spec.
    by destruct (Z.testbit (sb_flags (po_super q)) i), (Z.testbit NFS_MOUNT_TCP i). }
  assert (Hclr : forall q, flags_of (clear_tcp q) = flags_of q).
  { intros q. unfold flags_of. simpl. apply Z.bits_inj'. intros i Hi. rewrite !Z.ldiff_spec.
    by destruct (Z.testbit (sb_flags (po_super q)) i), (Z.testbit NFS_MOUNT_TCP i). }
  unfold parse_item. case_if; [done|]. destruct (strchr EQUALS opt) as [[a b]|].
  - case_if.
    + unfold num_item, find_opt. destruct (List.find _ num_opts) as [[nm f]|] eqn:Hf; simpl.
      2:{ case_if; done. }
      intros [= <- <-]. apply List.find_some in Hf as [Hf _]. simpl in Hf.
      by repeat (destruct Hf as [[= <- <-]|Hf]; [reflexivity|]).
    + unfold text_item. repeat case_if; intros [= <- <-]; try done; try apply Htcp; exact (Hclr (prot_udp o)).
  - unfold flag_item. set (val := negb (bool_decide (take 2 opt = bytes_of "no"))).
    set (opt' := if val then opt else drop 2 opt).
    destruct (existsb _ _); [done|]. destruct (named opt' "tcp").
    { intros [= <- <-]. destruct val; [apply Htcp|done]. }
    destruct (named opt' "udp"); [|done]. intros [= <- <-].
    destruct val; [exact (Hclr o)|]. rewrite Htcp. apply Hclr.
Qed.

Lemma parse_items_flags size items o e o' :
  parse_items size items o = Some (e, o') -> flags_of o' = flags_of o.
Proof.
  revert o. induction items as [|x items IH]; intros o; simpl; [by intros [= _ <-]|].
  destruct (parse_item x o) as [|o1 text| |] eqn:Hp; [by apply IH| |by intros [= _ <-]..].
  apply parse_item_flags in Hp. case_if; [done|]. case_if.
  - by intros [= _ <-].
  - intros Hq. apply IH in Hq. by rewrite Hq.
Qed.

Lemma or_default_prot p : prot_set p -> or_default (pm_prot p) IPPROTO_TCP = IPPROTO_UDP \/
  or_default (pm_prot p) IPPROTO_TCP = IPPROTO_TCP.
Proof. intros [-> |[-> | ->]]; [by right|by left|by right]. Qed.

(** The options are read to their end, name versions that are supported and a
    number of minutes that fits. *)
Definition opts_accepted (opts : list Z) : Prop :=
  forall super, exists o,
    parse_items new_opts_size (opt_items false [] opts) (mk_po super (-1) pmap_zero pmap_zero None []) =
      Some (pe_done, o) /\
    hsi_nfsmnt_check_compat (po_nfs o) (po_mnt o) = 0 /\ - 2 ^ 31 <= 60 * po_retry o < 2 ^ 31.

Section Setup.
Context `{E : Env} {ME : MountEnv}.

(** Some host is not found. *)
Definition unresolved : Prop := exists h e x, (resolve h e).1 = inr x.

Lemma gethost_fails h a e : (hsi_gethostbyname resolve h a e).1.1 <> 0 -> unresolved.
Proof.
  unfold hsi_gethostbyname. destruct (resolve h e) as [[x|x] e'] eqn:Hr; [done|]. intros _.
  exists h, e, x. by rewrite Hr.
Qed.

(** The options are read, unless the mount host is not found. *)
Lemma parse_options_ok opts super ms ns e :
  ca_pmap ms = pmap_zero -> ca_pmap ns = pmap_zero -> opts_accepted opts ->
  exists r o a e', hsi_nfs3_parse_options resolve opts super (-1) ms ns new_opts_size e = Some (r, o, a, e') /\
    (r <> 0 -> unresolved) /\
    hsi_nfsmnt_check_compat (po_nfs o) (po_mnt o) = 0 /\ - 2 ^ 31 <= 60 * po_retry o < 2 ^ 31 /\ prots o /\
    flags_of o = Z.ldiff (sb_flags super) NFS_MOUNT_TCP.
Proof.
  intros Hm Hn Ho. unfold hsi_nfs3_parse_options. rewrite Hm, Hn.
  destruct (Ho super) as (o & Hp & Hc & Hr). rewrite Hp.
  assert (Hprots : prots o) by (eapply parse_items_prots; [exact Hp|]; split; by left).
  apply parse_items_flags in Hp as Hfl.
  destruct (po_mounthost o) as [h|]; [|by eexists 0, o, _, _].
  pose proof (gethost_fails h (ca_saddr ms) e) as Hg.
  destruct (hsi_gethostbyname resolve h (ca_saddr ms) e) as [[r a] e']. destruct (Z.eqb_spec r 0) as [->|H0]; [by eexists 0, o, _, _|].
  eexists 1, o, _, _. split; [reflexivity|]. split; [|done]. intros _. by apply Hg.
Qed.

(** What the setup hands on. *)
Record setup_done (dir : list Z) (w w' : world) (s : clnt_addr_t * clnt_addr_t * Z * list Z) : Prop := {
  sd_dir : s.2 = dir;
  sd_mnt : prot_ok (ca_pmap s.1.1.1);
  sd_nfs : prot_ok (ca_pmap s.1.1.2);
  sd_retry : - 2 ^ 31 <= 60 * s.1.2 < 2 ^ 31;
  sd_rsize : 0 < sb_rsize (w_sb w');
  sd_wsize : 0 < sb_wsize (w_sb w');
  sd_flags : Z.ldiff (sb_flags (w_sb w')) NFS_MOUNT_TCP = Z.ldiff (sb_flags (w_sb w)) NFS_MOUNT_TCP }.

Lemma mount_setup_ok spec udata host dir w :
  zlen spec < hostdir_size -> hsi_parse_spec spec = Some (host, dir) -> opts_accepted (default [] udata) ->
  wp (mount_setup spec udata)
    (fun r w' => w_heap w' = w_heap w /\ w_out w' = w_out w /\ w_clnts w' = w_clnts w /\
       match r with None => unresolved | Some s => setup_done dir w w' s end) w.
Proof.
  intros Hl Hs Ho. unfold mount_setup. rewrite (proj2 (Z.leb_gt _ _) Hl), Hs.
  apply wp_bind, wp_get_sb, wp_bind, wp_asks.
  pose proof (gethost_fails host (sb_addr (w_sb w)) (w_env w)) as Hg.
  destruct (hsi_gethostbyname resolve host (sb_addr (w_sb w)) (w_env w)) as [[r0 a'] e']. cbn [fst snd] in *.
  apply wp_bind, wp_update_sb. destruct (Z.eqb_spec r0 0) as [->|H0].
  2:{ apply wp_ret. split_and!; [done..|]. by apply Hg. }
  simpl negb. cbv iota zeta. apply wp_bind. eexists _, _. split; [reflexivity|].
  match goal with |- context [hsi_nfs3_parse_options resolve ?o ?s _ ?m ?n _ ?e] =>
    destruct (parse_options_ok o s m n e eq_refl eq_refl Ho) as (r1 & o' & x & e1 & -> & H1 & Hc & Hr & [Hpm Hpn] & Hfl) end.
  apply wp_bind. eexists _, _. split; [reflexivity|]. destruct (Z.eqb_spec r1 0) as [->|Hr1].
  2:{ apply wp_ret. split_and!; [done..|]. by apply H1. }
  rewrite Hc. simpl negb. cbv iota.
  set (name := match po_mounthost o' with Some _ => _ | None => _ end).
  unfold hsi_validate_mount_data. cbv iota. cbn [ca_pmap pm_prot].
  apply wp_bind, wp_update_sb, wp_ret. cbn [w_sb set_sb w_heap w_out].
  set (size := if _ =? IPPROTO_TCP then _ else _).
  assert (Hsize : 0 < size) by (subst size; repeat case_if; done).
  split_and!; [done..|]. constructor; cbn [fst snd ca_pmap pm_prot];
    [done|exact (or_default_prot _ Hpm)|exact (or_default_prot _ Hpn)|case_if; lia|done..].
Qed.
End Setup.

Section Whole.
Context `{E : Env} {ME : MountEnv} {HS : Services} {HML : MallocLaws} {HMem : MemLaws}.
Hypothesis Hbad : bad_inode_placed.

Lemma services_resolve : ~ unresolved.
Proof. intros (h & e & x & Hx). destruct (sv_resolve h e) as [a Ha]. congruence. Qed.

(** [60 * retry] does not overflow. *)
Lemma retry_fits retry : - 2 ^ 31 <= 60 * retry < 2 ^ 31 -> (60 * retry <? - 2 ^ 31) || (2 ^ 31 <=? 60 * retry) = false.
Proof. intros Hr. rewrite (proj2 (Z.ltb_ge _ _)), (proj2 (Z.leb_gt _ _)) by lia. done. Qed.

Lemma mount_ready fuel fg spec point udata host dir w :
  (0 < fuel)%nat -> w_heap w = ∅ ->
  zlen spec < hostdir_size -> hsi_parse_spec spec = Some (host, dir) -> opts_accepted (default [] udata) ->
  wp (hsx_fuse_mount fuel fg spec point udata)
    (fun r w' => (exists ch, r = Some ch) /\ root_ready w' /\
       Z.ldiff (sb_flags (w_sb w')) NFS_MOUNT_TCP = Z.ldiff (sb_flags (w_sb w)) NFS_MOUNT_TCP /\
       w_out w' = w_out w) w.
Proof.
  intros Hf Hh Hl Hs Ho. apply wp_bind. eapply wp_mono; [by eapply mount_setup_ok|].
  intros [[[[ms ns] retry] d]|] w1 (Hh1 & Ho1 & _ & Hset); [|by destruct services_resolve].
  destruct Hset as [Hd Hpm Hpn Hr Hrs Hws Hfl]. cbn [fst snd] in *. subst d.
  apply wp_bind, wp_from_env. intros t e. rewrite (retry_fits _ Hr).
  apply wp_bind. eapply wp_mono; [by apply mount_loop_ok|].
  intros r w2 (a & fh & -> & Hfh & Hh2 & Hs2 & Ho2). simpl in Hh2, Hs2, Ho2.
  eapply wp_mono; [apply mount_root_ok; try done|].
  - by rewrite Hh2, Hh1.
  - by rewrite Hs2.
  - by rewrite Hs2.
  - intros r w3 (Hch & Hready & Hf3 & Ho3). split_and!; [done|done| |congruence].
    by rewrite Hf3, Hs2.
Qed.

(** C8: A mount starts a session.  When every service answers and the options
    are accepted, mounting with an empty heap returns a channel, nothing has been
    replied, and the state is one from which INIT starts a session with the root
    as the one inode the kernel holds. *)
Theorem mount_starts_session fuel fg spec point udata host dir w :
  (0 < fuel)%nat -> w_heap w = ∅ ->
  zlen spec < hostdir_size -> hsi_parse_spec spec = Some (host, dir) -> opts_accepted (default [] udata) ->
  exists ch w', hsx_fuse_mount fuel fg spec point udata w = Ret (Some ch) w' /\ w_out w' = w_out w /\
    forall conn, exists conn' w1, hsx_fuse_init conn w' = Ret conn' w1 /\ reachable (one 1) w1.
Proof.
  intros Hf Hh Hl Hs Ho.
  destruct (mount_ready fuel fg spec point udata host dir w Hf Hh Hl Hs Ho) as
    (r & w' & Hrun & (ch & ->) & Hready & _ & Hout).
  destruct (root_ready_inode _ Hready) as (n & Hn & Hino & Hrefs & _).
  exists ch, w'. split_and!; [done|done|]. intros conn. 
  destruct (wp_init conn w' n (fun _ _ => True) Hn Hrefs I) as (c' & w1 & Hi & _).
  exists c', w1. split; [done|]. rewrite <- Hino. by eapply reach_init; [apply Hready|..].
Qed.
End Whole.

(** ** A server that does not answer *)

Section NoAnswer.
Context `{E : Env} {ME : MountEnv} {HCL : ClntLaws}.

Lemma open_nonnull a s r w ca w' :
  hsi_mnt_openclnt a s r w = Ret ca w' -> NULL ∉ w_clnts w -> NULL ∉ w_clnts w'.
Proof.
  unfold hsi_mnt_openclnt. case_if; [|by intros [= _ <-]]. intros Ho Hn.
  apply bind_ret_inv in Ho as (x & w0 & Hm & Hk). unfold new_clnt, from_env in Hm.
  destruct (clnt_create _ _ s r (w_env w)) as [o e] eqn:Hc. injection Hm as <- <-.
  destruct o as [c|]; [|by injection Hk as _ <-]. apply clnt_create_new in Hc as [Hc _].
  apply bind_ret_inv in Hk as ([] & w1 & Hm1 & Hk). injection Hm1 as <-.
  apply bind_ret_inv in Hk as (au & w2 & Hm2 & Hk). apply from_env_frame in Hm2 as (_ & Hcl & _).
  assert (H2 : NULL ∉ w_clnts w2) by (rewrite Hcl; simpl; set_solver).
  destruct au; [by injection Hk as _ <-|]. apply bind_ret_inv in Hk as ([] & w3 & Hm3 & Hk).
  injection Hk as _ <-. unfold clnt_destroy in Hm3. case_decide; [|done]. injection Hm3 as <-. simpl. set_solver.
Qed.

Lemma clnt_create_null a s r w ca w' :
  hsi_nfs3_clnt_create a s r w = Ret ca w' -> NULL ∉ w_clnts w -> NULL ∉ w_clnts w'.
Proof.
  intros Ho Hn. apply bind_ret_inv in Ho as ([c0 a0] & w1 & Hm & Hk). apply open_nonnull in Hm; [|done].
  cbn [fst snd] in Hk. case_if_in Hk; [by injection Hk as _ <-|].
  apply bind_ret_inv in Hk as (x & w2 & Hp & Hk). apply rpc_ret in Hp as (_ & Hcl & _).
  rewrite <- Hcl in Hm. destruct x.
  - apply bind_ret_inv in Hk as ([] & w3 & Hm3 & Hk). injection Hm3 as <-. by injection Hk as _ <-.
  - apply bind_ret_inv in Hk as ([] & w3 & Hm3 & Hk). injection Hk as _ <-.
    unfold hsi_mnt_closeclnt, clnt_destroy in Hm3. case_decide; [|done]. injection Hm3 as <-. simpl. set_solver.
Qed.

(** C34: When the mount daemon answers and the NFS server does not, so that no
    client for it is made, the mount does not fail cleanly: the cleanup destroys
    the client of the superblock, which is NULL. *)
Theorem no_server_undefined ms ns dir point mntres w a w1 :
  NULL ∉ w_clnts w -> sb_acl_clntp (w_sb w) = NULL ->
  hsi_nfs3_clnt_create ns (sb_wsize (w_sb w)) (sb_rsize (w_sb w)) w = Ret (NULL, a) w1 ->
  mount_root ms ns dir point mntres w = Undef.
Proof.
  intros Hn Ha Hc. pose proof (nfs3_clnt_create_ret _ _ _ _ _ _ _ Hc) as (_ & Hs & _).
  apply clnt_create_null in Hc as Hn1; [|done]. unfold mount_root.
  rewrite (bind_ret _ _ _ (w_sb w) w), (bind_ret _ _ _ _ _ Hc) by done.
  unfold bind at 1, update_sb, modify. simpl fst. unfold fmnt_fail, bind at 1, get_sb. simpl.
  rewrite Hs, Ha. simpl. unfold bind at 1, ret. unfold bind at 1, clnt_destroy. simpl.
  by rewrite decide_False.
Qed.
End NoAnswer.

(** ** Two meanings of one bit *)

Lemma fix_opts_prefix pw flags extra :
  exists rest, hsi_fix_opts_string pw flags extra =
    bytes_of (if flag flags MS_RDONLY then "ro" else "rw") ++ rest.
Proof.
  unfold hsi_fix_opts_string. set (b := bytes_of (if flag flags MS_RDONLY then _ else _)).
  assert (Hu : exists r, (if flag flags MS_USER then
      match pw with Some n => b ++ bytes_of ",user=" ++ n | None => b end else b) = b ++ r).
  { case_if; [destruct pw|]; [eauto|exists []; by rewrite app_nil_r..]. }
  destruct Hu as [r ->]. destruct (fix_loop_prefix opt_map flags (b ++ r)) as [r' ->].
  destruct extra as [[|c x]|]; rewrite <- !app_assoc; eauto.
Qed.

Lemma flag_lor_1 x : flag (Z.lor x NFS_MOUNT_TCP) MS_RDONLY = true.
Proof.
  unfold flag, NFS_MOUNT_TCP, MS_RDONLY. rewrite Z.land_lor_distr_l. change (Z.land 1 1) with 1.
  destruct (Z.eqb_spec (Z.lor (Z.land x 1) 1) 0) as [H|H]; [|done]. by apply Z.lor_eq_0_iff in H as [_ ?].
Qed.

Lemma flag_ldiff_1 x : flag (Z.ldiff x NFS_MOUNT_TCP) MS_RDONLY = false.
Proof.
  unfold flag, NFS_MOUNT_TCP, MS_RDONLY. by rewrite Z.land_ldiff.
Qed.

(** The option [tcp] marks the mount read-only: NFS_MOUNT_TCP is the bit of
    MS_RDONLY in the same flags, so the entry of the mount table starts with
    [ro], whatever the user asked for; [udp] clears the bit. *)
Theorem tcp_marks_readonly {env} (resolve : list Z -> env -> (Z + Z) * env) super retry ms ns e :
  (exists o, hsi_nfs3_parse_options resolve (bytes_of "tcp") super retry ms ns new_opts_size e =
     Some (0, o, ca_saddr ms, e) /\ flag (sb_flags (po_super o)) MS_RDONLY = true /\
     forall pw extra, take 2 (hsi_fix_opts_string pw (sb_flags (po_super o)) extra) = bytes_of "ro") /\
  (exists o, hsi_nfs3_parse_options resolve (bytes_of "udp") super retry ms ns new_opts_size e =
     Some (0, o, ca_saddr ms, e) /\ flag (sb_flags (po_super o)) MS_RDONLY = false).
Proof.
  split.
  - exists (add_new (bytes_of "tcp,") (prot_tcp (mk_po super retry (ca_pmap ms) (ca_pmap ns) None []))).
    split; [reflexivity|]. split; [apply flag_lor_1|]. intros pw extra.
    destruct (fix_opts_prefix pw (Z.lor (sb_flags super) NFS_MOUNT_TCP) extra) as [rest Hr].
    rewrite flag_lor_1 in Hr. cbn [po_super add_new prot_tcp on_super on_mnt on_nfs sb_flags set_sb_flags].
    rewrite Hr. done.
  - exists (add_new (bytes_of "udp,") (prot_udp (clear_tcp
      (mk_po super retry (ca_pmap ms) (ca_pmap ns) None [])))).
    split; [reflexivity|]. apply flag_ldiff_1.
Qed.

(** ** Witnesses *)

(** The sample server, which always answers. *)
Definition ready_env : Env := {|
  env := sample_state;
  clnt_call R c p t s := calm_call c p t (set_fail [] s);
  clnt_create l _ _ _ s := (Some (sample_clnt l s), next_clnt s);
  authunix_create s := (true, s);
  malloc_inode := calm_malloc_inode;
  malloc n s := (n <? 2 ^ 40, s);
  direntry_size s := 0;
  direntry_plus_size s := 0;
  page_size := 4096;
  bad_hsfs_inode := 0x8000 |}.

Definition ready_mount : @MountEnv ready_env := {|
  resolve h s := (inl 0x7f000001, s);
  mnt_call c d s := ((0, {| fhs_status := 0; mr_fhandle := [1] |}), s);
  umnt_call c d s := (0, s);
  time_now s := (1000, s);
  rpc_createerr s := 0;
  sys_errno s := 0;
  fuse_mount p s := (Some 5, s);
  fuse_unmount p s := s |}.

Lemma ready_services : @Services ready_env ready_mount.
Proof.
  constructor; simpl.
  - constructor; simpl; [|done|intros c t e; by eexists _, _].
    intros l a s r e. eexists _, _. split; [reflexivity|apply sample_clnt_new].
  - intros h e. by eexists.
  - intros c d e. exists [1], e. by split.
  - intros c fh t e. eexists _, _. split; [reflexivity|]. split; [by apply sample_attrs_ok|]. simpl. lia.
  - intros c fh t e. by eexists _, _.
  - intros p e. by eexists _, _.
Qed.

Lemma ready_malloc : @MallocLaws ready_env.
Proof. constructor. apply (@malloc_inode_law CalmEnv _). Qed.

Lemma ready_mem : @MemLaws ready_env.
Proof. constructor; [apply (@inode_memory CalmEnv _)|apply (@small_memory CalmEnv _)]. Qed.

(** [main] starts with a zeroed superblock. *)
Definition ready_world : @world ready_env := @mk_world ready_env ∅ super_zero ∅ backup_zero calm0 [].

Lemma accepted_sample : opts_accepted (bytes_of "timeo=7,tcp").
Proof. intros super. eexists. split; [reflexivity|]. by split. Qed.

Lemma mount_starts_session_witness :
  exists ch w', @hsx_fuse_mount ready_env ready_mount 1 true (bytes_of "host:/export") (bytes_of "/mnt")
      (Some (bytes_of "timeo=7,tcp")) ready_world = Ret (Some ch) w' /\
    @w_out ready_env w' = [] /\
    forall conn, exists conn' w1,
      @hsx_fuse_init ready_env conn w' = Ret conn' w1 /\ @reachable ready_env (one 1) w1.
Proof.
  apply (@mount_starts_session ready_env ready_mount ready_services ready_malloc ready_mem) with
    (host := bytes_of "host") (dir := bytes_of "/export").
  - by split.
  - lia.
  - reflexivity.
  - by vm_compute.
  - by vm_compute.
  - exact accepted_sample.
Defined.

(** No client can be made. *)
Definition dead_env : Env := {|
  env := sample_state;
  clnt_call R c p t s := (RPC_FAILED EIO, s);
  clnt_create _ _ _ _ s := (None, s);
  authunix_create s := (true, s);
  malloc_inode := calm_malloc_inode;
  malloc n s := (n <? 2 ^ 40, s);
  direntry_size s := 0;
  direntry_plus_size s := 0;
  page_size := 4096;
  bad_hsfs_inode := 0x8000 |}.

Definition dead_mount : @MountEnv dead_env := {|
  resolve h s := (inl 0x7f000001, s);
  mnt_call c d s := ((0, {| fhs_status := 0; mr_fhandle := [1] |}), s);
  umnt_call c d s := (0, s);
  time_now s := (1000, s);
  rpc_createerr s := 0;
  sys_errno s := 0;
  fuse_mount p s := (Some 5, s);
  fuse_unmount p s := s |}.

Definition nfs_tcp : clnt_addr_t :=
  {| ca_hostname := ""; ca_saddr := sockaddr_zero;
     ca_pmap := {| pm_prog := NFS_PROGRAM; pm_vers := NFS_V3; pm_prot := IPPROTO_TCP; pm_port := 0 |} |}.

Lemma no_server_undefined_witness :
  @mount_root dead_env dead_mount clnt_addr_zero nfs_tcp (bytes_of "/export") (bytes_of "/mnt")
    mountres_zero (@mk_world dead_env ∅ super_zero ∅ backup_zero calm0 []) = Undef.
Proof.
  assert (Hl : @ClntLaws dead_env) by by constructor.
  eapply (@no_server_undefined dead_env dead_mount Hl); [by apply not_elem_of_empty|reflexivity|].
  reflexivity.
Defined.
