(* ===== verification/MountLoop.v ===== *)
(** * The attempts to mount

    [hsx_fuse_mount] asks the mount daemon until it answers.  In the foreground the
    attempts end when the time of the option [retry] is over; in the background
    only an answer ends them. *)

From S2P Require Import Prelude Bitops Hash Proto World Icache IcacheFacts Attr Rpc NfsInode Wp Blocks.
From S2P Require Import Nfs3Ops Nfs3Spec FileSpec FuseSpec RefSpec Session Sample Calm.
From S2P Require Import Mntent Options Mount MountSpec.

(** Time passes in ticks, [hz] of them a second: every attempt to make a client takes
    one or more, and no call takes time back. *)
Class ClockLaws `{E : Env} {ME : MountEnv} := {
  hz : Z;
  ticks : env -> Z;
  hz_pos : 0 < hz;
  clk_time : forall e, (time_now e).1 = ticks e / hz;
  clk_time_keeps : forall e, ticks e <= ticks (time_now e).2;
  clk_create : forall l a s r e, ticks e < ticks (clnt_create l a s r e).2;
  clk_auth : forall e, ticks e <= ticks (authunix_create e).2;
  clk_mnt : forall c d e, ticks e <= ticks (mnt_call c d e).2;
  clk_malloc : forall n e, ticks e <= ticks (malloc n e).2 }.

(** The test of the loop: the last attempt to make a client timed out. *)
Definition timed_out `{E : Env} {ME : MountEnv} (e : env) : bool :=
  (rpc_createerr e =? RPC_TIMEDOUT) || ((rpc_createerr e =? RPC_SYSTEMERROR) && (sys_errno e =? ETIMEDOUT)).

Section Clock.
Context `{E : Env} {ME : MountEnv} {HCK : ClockLaws}.

(** An attempt returns, and takes time. *)
Definition took (w w' : world) : Prop := ticks (w_env w) < ticks (w_env w') /\ same_core w w'.

Lemma open_takes a s r w :
  prot_ok (ca_pmap a) ->
  wp (hsi_mnt_openclnt a s r)
    (fun ca w' => took w w' /\ ca_pmap ca.2 = ca_pmap a /\ (ca.1 <> NULL -> ca.1 ∈ w_clnts w')) w.
Proof.
  intros Hp. unfold hsi_mnt_openclnt.
  assert (Hb : (pm_prot (ca_pmap a) =? IPPROTO_UDP) || (pm_prot (ca_pmap a) =? IPPROTO_TCP) = true)
    by (destruct Hp as [-> | ->]; done).
  rewrite Hb. set (addr := {| ca_hostname := ca_hostname a |}). apply wp_bind, wp_asks.
  pose proof (clk_create (w_clnts w) addr s r (w_env w)) as Hc.
  destruct (clnt_create (w_clnts w) addr s r (w_env w)) as [[c|] e]; simpl in Hc |- *; [|by apply wp_ret].
  apply wp_bind. eexists tt, _. split; [reflexivity|]. apply wp_bind, wp_asks. cbn [w_env set_clnts set_env].
  pose proof (clk_auth e) as Ha. destruct (authunix_create e) as [[] e2]; simpl in Ha |- *.
  - apply wp_ret. split_and!; [split; [simpl; lia|done]|done|set_solver].
  - apply wp_bind. eexists tt, _. split; [apply clnt_destroy_total; set_solver|]. apply wp_ret.
    split_and!; [split; [simpl; lia|done]|done|done].
Qed.

Lemma attempt_takes ms dir w :
  prot_ok (ca_pmap ms) ->
  wp (hsi_nfs3_mount ms dir) (fun r w' => took w w' /\ ca_pmap r.1.2 = ca_pmap ms) w.
Proof.
  intros Hp. apply wp_bind. eapply wp_mono; [by apply open_takes|].
  intros [c addr] w1 ([Ht Hcore] & Hpm & Hl). cbn [fst snd] in *.
  destruct (Z.eqb_spec c NULL) as [->|Hn]; [by apply wp_ret|]. specialize (Hl Hn).
  apply wp_bind. destruct (mnt_call c dir (w_env w1)) as [r e] eqn:Hm.
  exists r, (set_env e w1). split; [unfold on_clnt, from_env; by rewrite decide_True, Hm|].
  pose proof (clk_mnt c dir (w_env w1)) as Hc. rewrite Hm in Hc. cbv zeta.
  apply wp_bind, wp_asks. set (n := Z.of_nat _). pose proof (clk_malloc n e) as Hmem.
  apply wp_bind, wp_freeres; [done|]. apply wp_bind. eexists tt, _. split; [by apply clnt_destroy_total|].
  simpl in *. destruct (malloc n e).1; apply wp_ret; (split; [split; [simpl; lia|done]|done]).
Qed.

(** The loop gives up for a reason. *)
Definition loop_end (timeout : Z) (w : world) (r : option (clnt_addr_t * mountres3)) (w' : world) : Prop :=
  same_core w w' /\
  (r = None -> timed_out (w_env w') = false \/ timeout <= ticks (w_env w') / hz).

Lemma loop_takes timeout fuel ms dir mr w :
  prot_ok (ca_pmap ms) -> (0 < fuel)%nat -> hz * timeout <= ticks (w_env w) + Z.of_nat fuel ->
  wp (mount_loop fuel true timeout ms dir mr) (loop_end timeout w) w.
Proof.
  revert ms mr w. induction fuel as [|fuel IH]; intros ms mr w Hp Hf Hb; [lia|]. cbn [mount_loop].
  apply wp_bind. eapply wp_mono; [by apply attempt_takes|].
  intros [[err ms'] res] w1 ([Ht Hcore] & Hpm). cbn [fst snd] in *.
  destruct (err =? 0); [apply wp_ret; by split|]. apply wp_bind. exists w1, w1. split; [done|].
  fold (timed_out (w_env w1)). destruct (timed_out (w_env w1)) eqn:Hto.
  2:{ apply wp_ret. split; [done|]. by left. }
  apply wp_bind, wp_asks. rewrite clk_time. pose proof (clk_time_keeps (w_env w1)) as Hk. pose proof hz_pos as Hz.
  destruct (Z.leb_spec timeout (ticks (w_env w1) / hz)) as [Hle|Hgt].
  - apply wp_ret. split; [done|]. right. simpl. etransitivity; [done|]. by apply Z.div_le_mono.
  - assert (hz * (ticks (w_env w1) / hz) + ticks (w_env w1) mod hz = ticks (w_env w1)) by (symmetry; by apply Z.div_mod; lia).
    pose proof (Z.mod_pos_bound (ticks (w_env w1)) hz Hz).
    eapply wp_mono; [apply IH; [by rewrite Hpm| |]|].
    + assert (hz * (ticks (w_env w1) / hz + 1) <= hz * timeout) by (apply Z.mul_le_mono_nonneg_l; lia). lia.
    + simpl. lia.
    + intros r w2 [Hc2 Hr2]. split; [|done]. by transitivity w1.
Qed.

Lemma loop_returns fuel retry ms dir mr w :
  prot_ok (ca_pmap ms) -> (Z.to_nat (60 * retry * hz) < fuel)%nat ->
  exists r w',
    mount_loop fuel true ((time_now (w_env w)).1 + 60 * retry) ms dir mr
      (set_env (time_now (w_env w)).2 w) = Ret r w' /\
    loop_end ((time_now (w_env w)).1 + 60 * retry) w r w'.
Proof.
  intros Hp Hf. pose proof hz_pos as Hz. pose proof (clk_time_keeps (w_env w)) as Hk. rewrite clk_time.
  pose proof (Z.mul_div_le (ticks (w_env w)) hz Hz).
  destruct (loop_takes (ticks (w_env w) / hz + 60 * retry) fuel ms dir mr (set_env (time_now (w_env w)).2 w))
    as (r & w' & Hr & Hend); [done|lia|cbn [w_env set_env]; lia|].
  by exists r, w'.
Qed.

(** An attempt, and asking for the time, take [d] ticks at most. *)
Definition attempts_within (d : Z) : Prop :=
  (forall ms dir w x w', hsi_nfs3_mount ms dir w = Ret x w' -> ticks (w_env w') <= ticks (w_env w) + d) /\
  (forall e, ticks (time_now e).2 <= ticks e + d).

(** No attempt starts when the time is over. *)
Lemma loop_in_time d last timeout fuel ms dir mr w r w' :
  attempts_within d -> hz * timeout + d <= last -> ticks (w_env w) <= last ->
  mount_loop fuel true timeout ms dir mr w = Ret r w' -> ticks (w_env w') <= last + 2 * d.
Proof.
  intros [Ha Ht] Hl. pose proof hz_pos as Hz.
  assert (Hd : 0 <= d) by (pose proof (Ht (w_env w)); pose proof (clk_time_keeps (w_env w)); lia).
  revert ms mr w. induction fuel as [|fuel IH]; intros ms mr w Hw; [done|]. cbn [mount_loop].
  intros ([[err ms'] res] & w1 & Hm & Hr)%bind_ret_inv. apply Ha in Hm. cbn [fst snd] in *.
  destruct (err =? 0); [injection Hr as _ <-; lia|].
  apply bind_ret_inv in Hr as (w2 & w3 & [= <- <-] & Hr). fold (timed_out (w_env w1)) in Hr.
  destruct (timed_out (w_env w1)); [|injection Hr as _ <-; lia].
  apply bind_ret_inv in Hr as (t & w2 & Hn & Hr).
  assert (Hn' : t = ticks (w_env w1) / hz /\ w_env w2 = (time_now (w_env w1)).2).
  { unfold from_env in Hn. pose proof (clk_time (w_env w1)). destruct (time_now (w_env w1)). by injection Hn as <- <-. }
  destruct Hn' as [-> He]. pose proof (Ht (w_env w1)) as Ht1. rewrite <- He in Ht1.
  destruct (Z.leb_spec timeout (ticks (w_env w1) / hz)) as [Hle|Hgt]; [injection Hr as _ <-; lia|].
  eapply IH; [|exact Hr].
  assert (ticks (w_env w1) < hz * timeout); [|lia].
  pose proof (Z.mul_succ_div_gt (ticks (w_env w1)) hz Hz).
  assert (hz * Z.succ (ticks (w_env w1) / hz) <= hz * timeout) by (apply Z.mul_le_mono_nonneg_l; lia). lia.
Qed.

(** C23: The attempts to mount in the foreground end, and in time.  Let a clock of
    [hz] ticks a second run, so that every attempt takes a tick and no call takes
    time back, and let the loop be entered with the time now and [retry] minutes, as
    [hsx_fuse_mount] does, for TCP or UDP.  Then it returns, whatever the mount
    daemon answers, after [60 * retry * hz] attempts and one at most; the superblock
    and the inodes are untouched, and it gives up only when the last attempt did
    not time out or the time is over.  No attempt starts later: when an attempt, and
    asking for the time, take [d] ticks at most, the loop is over [3 * d] ticks after
    that time (or after it was entered, when [retry] is negative). *)
Theorem foreground_mount_ends fuel retry ms dir mr w :
  prot_ok (ca_pmap ms) -> (Z.to_nat (60 * retry * hz) < fuel)%nat ->
  let timeout := (time_now (w_env w)).1 + 60 * retry in
  exists r w',
    mount_loop fuel true timeout ms dir mr (set_env (time_now (w_env w)).2 w) = Ret r w' /\
    loop_end timeout w r w' /\
    (forall d, attempts_within d -> ticks (w_env w') <= Z.max (ticks (w_env w)) (hz * timeout) + 3 * d).
Proof.
  intros Hp Hf timeout. destruct (loop_returns fuel retry ms dir mr w Hp Hf) as (r & w' & Hr & He).
  exists r, w'. split_and!; [done|done|]. intros d Hd. pose proof (proj2 Hd (w_env w)).
  pose proof (loop_in_time d (Z.max (ticks (w_env w)) (hz * timeout) + d) timeout fuel ms dir mr
    (set_env (time_now (w_env w)).2 w) r w' Hd) as Ht.
  cbn [w_env set_env] in Ht. specialize (Ht ltac:(lia) ltac:(lia) Hr). lia.
Qed.
End Clock.

Section Background.
Context `{E : Env} {ME : MountEnv}.

(** No client for the mount daemon can be made. *)
Definition no_daemon : Prop := forall l a s r e, exists e', clnt_create l a s r e = (None, e').

Lemma attempt_fails ms dir w :
  no_daemon -> exists ms' w', hsi_nfs3_mount ms dir w = Ret (-1, ms', None) w'.
Proof.
  intros Hn. unfold hsi_nfs3_mount, hsi_mnt_openclnt. case_if; [|by eexists _, _].
  set (addr := {| ca_hostname := ca_hostname ms |}).
  destruct (Hn (w_clnts w) addr MNT_SENDBUFSIZE MNT_RECVBUFSIZE (w_env w)) as [e' He].
  exists addr, (set_env e' w). unfold bind, new_clnt, from_env. by rewrite He.
Qed.

(** In the background the option [retry] has no effect: while no client for
    the mount daemon can be made, the loop does not end, whatever time it was given
    and however many attempts are made.  In the foreground it ends after the first
    attempt that does not time out. *)
Theorem background_mount_forever timeout ms dir mr w :
  no_daemon ->
  (forall fuel, mount_loop fuel false timeout ms dir mr w = NoFuel) /\
  ((forall e, timed_out e = false) -> exists w', mount_loop 1 true timeout ms dir mr w = Ret None w').
Proof.
  intros Hn. split.
  - intros fuel. revert ms mr w. induction fuel as [|fuel IH]; intros ms mr w; [done|]. cbn [mount_loop].
    destruct (attempt_fails ms dir w Hn) as (ms' & w' & Hr). rewrite (bind_ret _ _ _ _ _ Hr). apply IH.
  - intros Ht. cbn [mount_loop]. destruct (attempt_fails ms dir w Hn) as (ms' & w' & Hr).
    rewrite (bind_ret _ _ _ _ _ Hr). exists w'. unfold bind, get. cbn [Z.eqb negb].
    fold (timed_out (w_env w')). by rewrite Ht.
Qed.
End Background.

(** ** Witnesses *)

(** The state is a clock of four ticks a second; every attempt to make a client
    times out. *)
Definition clock_env : Env := {|
  env := Z;
  clnt_call R c p t s := (RPC_FAILED EIO, s);
  clnt_create _ _ _ _ s := (None, s + 3);
  authunix_create s := (true, s);
  malloc_inode h s := (None, s);
  malloc n s := (n <? 2 ^ 40, s);
  direntry_size s := 0;
  direntry_plus_size s := 0;
  page_size := 4096;
  bad_hsfs_inode := 0x8000 |}.

Definition clock_mount : @MountEnv clock_env :=
  @Build_MountEnv clock_env (fun h s => (inl 0x7f000001, s)) (fun c d s => ((5, mountres_zero), s))
    (fun c d s => (0, s)) (fun s : Z => (s / 4, s)) (fun s => RPC_TIMEDOUT) (fun s => 0)
    (fun p s => (Some 5, s)) (fun p s => s).

Lemma clock_laws : @ClockLaws clock_env clock_mount.
Proof. refine (@Build_ClockLaws clock_env clock_mount 4 (fun s => s) _ _ _ _ _ _ _); simpl; intros; lia. Defined.

Definition clock_world : @world clock_env := @mk_world clock_env ∅ super_zero ∅ backup_zero 4000 [].

Definition mnt_tcp : clnt_addr_t :=
  {| ca_hostname := ""; ca_saddr := sockaddr_zero;
     ca_pmap := {| pm_prog := MOUNTPROG; pm_vers := MOUNTVERS_NFSV3; pm_prot := IPPROTO_TCP; pm_port := 0 |} |}.

(** One minute: 240 ticks. *)
Lemma clock_within : @attempts_within clock_env clock_mount clock_laws 3.
Proof.
  split; [|simpl; intros e; lia]. intros ms dir w x w'. unfold hsi_nfs3_mount, hsi_mnt_openclnt. case_if.
  - intros ([c a] & w1 & Ho & Hr)%bind_ret_inv.
    apply bind_ret_inv in Ho as (o & w2 & [= <- <-] & [= <- _ <-]). injection Hr as _ <-. simpl. lia.
  - intros ([c a] & w1 & [= <- _ <-] & [= _ <-])%bind_ret_inv. simpl. lia.
Qed.

Lemma foreground_mount_ends_witness :
  exists r w', @mount_loop clock_env clock_mount 241 true 1060 mnt_tcp (bytes_of "/export") mountres_zero
      clock_world = Ret r w' /\
    @loop_end clock_env clock_mount clock_laws 1060 clock_world r w' /\ @w_env clock_env w' <= 4249.
Proof.
  destruct (@foreground_mount_ends clock_env clock_mount clock_laws 241 1 mnt_tcp (bytes_of "/export")
    mountres_zero clock_world) as (r & w' & Hr & He & Hd).
  - by right.
  - by apply Nat.ltb_lt.
  - exists r, w'. split_and!; [exact Hr|exact He|]. exact (Hd 3 clock_within).
Defined.

(** It gives up at the end of the minute, after 80 attempts. *)
Example foreground_gives_up :
  match @mount_loop clock_env clock_mount 241 true 1060 mnt_tcp (bytes_of "/export") mountres_zero clock_world with
  | Ret None w' => @w_env clock_env w'
  | _ => 0
  end = 4240.
Proof. vm_compute. reflexivity. Qed.

Lemma background_mount_forever_witness :
  (forall fuel, @mount_loop clock_env clock_mount fuel false 1060 mnt_tcp (bytes_of "/export") mountres_zero
     clock_world = NoFuel) /\
  ((forall e, @timed_out clock_env clock_mount e = false) -> exists w',
     @mount_loop clock_env clock_mount 1 true 1060 mnt_tcp (bytes_of "/export") mountres_zero clock_world = Ret None w').
Proof.
  apply (@background_mount_forever clock_env clock_mount 1060 mnt_tcp (bytes_of "/export") mountres_zero clock_world).
  intros l a s r e. by eexists.
Defined.
