(* ===== verification/Main.v ===== *)
(** * The program ([main] of [fuse/hsfs_main.c])

    [main] reads the command line, mounts, enters the mount in the mount table,
    serves requests until libfuse ends the session, takes the entry out and
    unmounts.  Its state has the two halves that the parts work on: the [world] of
    the file system and the state [mt] of the mount table.  libfuse's session is a
    parameter: [session_loop] is given the handlers of the table [hsfs_oper]. *)

From S2P Require Import Prelude Bitops Hash Proto World Icache IcacheFacts Attr Rpc NfsInode Wp Blocks.
From S2P Require Import Nfs3Ops Nfs3Spec Acl FuseOps FuseIo FileSpec FuseSpec RefSpec Session.
From S2P Require Import Mntent Lock Mtab Options MainOpts Getopt Mount.

(** Calls of libfuse that change nothing of this program. *)
Inductive fuse_call :=
  | fuse_session_add_chan | fuse_remove_signal_handlers | fuse_session_remove_chan | fuse_session_destroy.

(** [lowlevel_new]: whether there is a session; [set_signal_handlers]: whether it
    succeeded. *)
Class LibFuse `{E : Env} := {
  lowlevel_new : env -> bool * env;
  set_signal_handlers : env -> bool * env;
  fuse_do : fuse_call -> env -> env;
  session_loop : (fuse_conn_info -> M world fuse_conn_info) -> (request -> M world unit) -> M world Z }.

Record prog `{E : Env} `{S : SysEnv} := mk_prog { pg_world : world; pg_mt : mt }.
Arguments prog {E S}.
Arguments mk_prog {E S} _ _.

Definition SLASH : Z := 47.
Definition HSFS_TYPE : list Z := bytes_of "hsfs".

(** ** [basename] of <libgen.h> *)

Fixpoint drop_slashes (s : list Z) : list Z :=
  match s with [] => [] | c :: s' => if c =? SLASH then drop_slashes s' else s end.

Fixpoint up_to_slash (s : list Z) : list Z :=
  match s with [] => [] | c :: s => if c =? SLASH then [] else c :: up_to_slash s end.

(** The part after the last slash; slashes at the end are left out. *)
Definition basename (path : list Z) : list Z :=
  match path with
  | [] => bytes_of "."
  | _ => match drop_slashes (rev path) with
         | [] => [SLASH]
         | r => rev (up_to_slash r)
         end
  end.

(** ** lib/hsfs_inode.c

    [HSFS_PAGE_SIZE] is the [page_size] of the environment. *)
Definition hsfs_init `{E : Env} : M world Z := ret 0.

Section Main.
Context `{E : Env} {ME : MountEnv} {LF : LibFuse} `{F : FuseLib} `{S : SysEnv}.

Definition in_world {A} (m : M world A) : XM prog A :=
  fun s => match m (pg_world s) with
           | Ret a w => Ret (inl a) (mk_prog w (pg_mt s))
           | Abort => Abort
           | Undef => Undef
           | NoFuel => NoFuel
           end.

Definition in_mtab {A} (x : X A) : XM prog A :=
  fun s => match x (pg_mt s) with
           | Ret r t => Ret r (mk_prog (pg_world s) t)
           | Abort => Abort
           | Undef => Undef
           | NoFuel => NoFuel
           end.

Definition fuse_step (c : fuse_call) : XM prog unit :=
  in_world (modify (fun w => set_env (fuse_do c (w_env w)) w)).

(** Both print and end the process. *)
Definition hsi_mount_usage {A} : XM prog A := xexit 0.
Definition hsi_print_version {A} : XM prog A := xexit 0.

(** From [fuse_lowlevel_new] to [fuse_session_destroy]; [err] is 0 before. *)
Definition run_session : XM prog Z :=
  let^ se := in_world (from_env lowlevel_new) in
  if (se : bool) then
    let^ ok := in_world (from_env set_signal_handlers) in
    let^ err := (if (ok : bool) then
                   do^ fuse_step fuse_session_add_chan in
                   let^ err := in_world (session_loop hsx_fuse_init hsfs_oper) in
                   do^ fuse_step fuse_remove_signal_handlers in
                   do^ fuse_step fuse_session_remove_chan in
                   xret err
                 else xret 0) in
    do^ fuse_step fuse_session_destroy in
    xret err
  else xret 0.

(** After the command line: [s] is what it has set, [udata] the options for the
    mount.  [fuel] bounds the attempts to mount. *)
Definition main_mounted (fuel : nat) (uid : Z) (pw_name : option (list Z)) (spec point : list Z)
    (s : clstate) (udata : option (list Z)) : XM prog Z :=
  let^ err := in_world hsfs_init in
  if negb (err =? 0) then xret 1
  else
    let^ ch := in_world (hsx_fuse_mount fuel (cls_fg s) spec point udata) in
    match ch with
    | None => xret (if err =? 0 then 0 else 1)
    | Some ch =>
        let^ sb := in_world get_sb in
        do^ (if uid =? 0
             then let^ r := in_mtab (hsi_add_mtab (cls_nomtab s) pw_name spec point HSFS_TYPE (sb_flags sb) udata) in
                  xret tt
             else xret tt) in
        let^ err := run_session in
        do^ (if uid =? 0
             then let^ r := in_mtab (hsi_del_mtab (cls_nomtab s) point) in xret tt
             else xret tt) in
        do^ in_world (hsx_fuse_unmount spec point) in
        xret (if err =? 0 then 0 else 1)
    end.

(** [argv[1] && argv[1][0] == '-'] *)
Definition dashed (rest : list (list Z)) : bool :=
  match rest with (c :: _) :: _ => c =? DASH | _ => false end.

(** [argv] with the name of the program; [args0] are the zeroed [fuse_args], and
    [super] is zeroed by [main] before its flags are set. *)
Definition main (fuel : nat) (uid : Z) (pw_name : option (list Z)) (args0 : fuse_args)
    (argv : list (list Z)) : XM prog Z :=
  match argv with
  | [] => fun _ => Undef
  | argv0 :: rest =>
      do^ in_world (update_sb (fun _ => super_zero)) in
      if dashed rest then
        if bool_decide (head rest ≫= (fun a => a !! 1%nat) = Some 86) then hsi_print_version
        else hsi_mount_usage
      else match rest with
      | spec :: point :: opts =>
          let '(l, more) := getopt_long opts in
          match hsi_parse_cmdline l more (basename argv0) 0 args0 with
          | cl_exit => xexit 0
          | cl_undef => fun _ => Undef
          | cl_ret err s _ udata =>
              do^ in_world (update_sb (set_sb_flags (cls_flags s))) in
              if negb (err =? 0) then xret 1
              else main_mounted fuel uid pw_name spec point s udata
          end
      | _ => hsi_mount_usage
      end
  end.
End Main.
