(* ===== verification/ProgSpec.v ===== *)
(** * The whole program

    From the command line to the exit status: when the services answer, [main]
    mounts, serves every request that arrives, with one reply each, and leaves the
    mount table and the clients as it should. *)

From S2P Require Import Prelude Bitops BitSpec Hash Proto World Icache IcacheFacts Attr Rpc NfsInode Wp Blocks.
From S2P Require Import Nfs3Ops Nfs3Spec Acl FuseOps FuseIo FileSpec FuseSpec RefSpec Session Sample Calm.
From S2P Require Import Mntent MntentSpec Lock LockSpec Mtab MtabFacts MtabUpdate MtabSpec Options MainOpts.
From S2P Require Import OptionsSpec MainSpec Getopt GetoptSpec Mount MountSpec Main.

(** ** What libfuse and the kernel do *)

Section Loop.
Context `{E : Env}.

(** A sequence of requests that are all [allowed], each after the reply to the one
    before, while the counters are within their [limits]. *)
Inductive kernel_sends : ledger -> world -> list request -> Prop :=
  | ks_end k w : limits w -> kernel_sends k w []
  | ks_send k w req reqs :
      limits w -> allowed k w req ->
      (forall r w', hsfs_oper req w = Ret tt w' -> w_out w' = w_out w ++ [r] ->
         kernel_sends (settle k req r) w' reqs) ->
      kernel_sends k w (req :: reqs).
End Loop.

(** [arrives w]: what comes in through a channel mounted in the state [w], and the
    result of the loop.  The loop calls the handler of INIT and then the handler of
    each request, in the order in which they come. *)
Class LoopLaws `{E : Env} {LF : LibFuse} := {
  arrives : world -> fuse_conn_info * list request * Z;
  loop_runs : forall init oper w,
    session_loop init oper w =
      (do! init (arrives w).1.1 in do! run_requests oper (arrives w).1.2 in ret (arrives w).2) w }.

(** The two calls before the loop do not fail. *)
Class LoopStarts `{E : Env} {LF : LibFuse} : Prop := {
  loop_new : forall e, (lowlevel_new e).1 = true;
  loop_signals : forall e, (set_signal_handlers e).1 = true }.

(** The sessions considered: from a fresh root on, only [allowed] requests arrive;
    so no LINK and no SETXATTR. *)
Definition allowed_sessions `{E : Env} {LF : LibFuse} {HLL : LoopLaws} : Prop :=
  forall w conn w1, root_ready w -> hsx_fuse_init (arrives w).1.1 w = Ret conn w1 ->
    kernel_sends (one 1) w1 (arrives w).1.2.

Section Session.
Context {E : Env} {HC : Connected} {HSL : ServerLaws} {HML : MallocLaws} {HMem : MemLaws} {HF : FileServer}.
Hypothesis Hbad : bad_inode_placed.

(** Every request is served, with one reply. *)
Lemma requests_served k w reqs :
  kernel_sends k w reqs -> session_inv k w ->
  wp (run_requests hsfs_oper reqs)
    (fun _ w' => (exists k', session_inv k' w') /\ limits w' /\
       length (w_out w') = (length (w_out w) + length reqs)%nat) w.
Proof.
  induction 1 as [k w Hl|k w req reqs Hl Ha _ IH]; intros Hi.
  - apply wp_ret. split_and!; [eauto|done|simpl; lia].
  - destruct (request_inv Hbad k w req Hi Hl Ha) as (r & w' & Hr & Ho & Hi').
    apply wp_bind. exists tt, w'. split; [done|].
    eapply wp_mono; [by eapply IH|]. intros _ w2 (Hk & Hl2 & Hlen). split_and!; [done|done|].
    rewrite Hlen, Ho, length_app. simpl. lia.
Qed.

Lemma init_served conn w :
  root_ready w ->
  wp (hsx_fuse_init conn) (fun _ w' => session_inv (one 1) w' /\ w_out w' = w_out w) w.
Proof.
  intros Hready. destruct (root_ready_inode _ Hready) as (n & Hn & Hino & H0 & _).
  destruct (wp_init conn w n (fun _ w' => w_out w' = w_out w) Hn H0 eq_refl) as (c & w' & Hr & Ho).
  exists c, w'. split; [done|]. split; [|done].
  rewrite <- Hino. by eapply init_inv; [apply Hready|..].
Qed.

Context {LF : LibFuse} {HLL : LoopLaws}.

Lemma loop_served w :
  allowed_sessions -> root_ready w ->
  wp (session_loop hsx_fuse_init hsfs_oper)
    (fun r w' => r = (arrives w).2 /\ (exists k, session_inv k w') /\ limits w' /\
       length (w_out w') = (length (w_out w) + length (arrives w).1.2)%nat) w.
Proof.
  intros Hks Hr. unfold wp. rewrite loop_runs. apply wp_bind.
  destruct (init_served (arrives w).1.1 w Hr) as (c & w1 & Hi & Hinv & Ho).
  exists c, w1. split; [done|]. apply wp_bind.
  eapply wp_mono; [eapply requests_served; [by eapply Hks|done]|].
  intros _ w2 (Hk & Hl & Hlen). apply wp_ret. split_and!; [done..|]. by rewrite Hlen, Ho.
Qed.
End Session.

(** ** Unmounting *)

Section Unmount.
Context `{E : Env} {ME : MountEnv} {HCl : Clients}.

Lemma nfs3_unmount_ok ms dir w :
  prot_ok (ca_pmap ms) ->
  wp (hsi_nfs3_unmount ms dir) (fun _ w' => w_clnts w' ⊆ w_clnts w /\ same_core w w') w.
Proof.
  intros Hp. apply wp_bind. eapply wp_mono; [by apply open_ok|].
  intros [c a] w1 (Hn & Hl & _ & _ & Hcore & Heq & _). cbn [fst snd] in *.
  rewrite (proj2 (Z.eqb_neq c NULL) Hn). apply wp_bind.
  destruct (umnt_call c dir (w_env w1)) as [r e] eqn:Hu.
  exists r, (set_env e w1). split; [unfold on_clnt, from_env; by rewrite decide_True, Hu|].
  apply wp_bind. eexists tt, _. split; [by apply clnt_destroy_total|]. apply wp_ret. simpl.
  split; [rewrite Heq; set_solver|done].
Qed.

(** The client of the superblock is destroyed, and nothing is sent. *)
Lemma unmount_ok spec point host dir w :
  zlen spec < hostdir_size -> hsi_parse_spec spec = Some (host, dir) ->
  good w -> is_Some (w_heap w !! sb_root (w_sb w)) -> limits w ->
  wp (hsx_fuse_unmount spec point)
    (fun _ w' => w_clnts w' ⊆ w_clnts w ∖ {[sb_clntp (w_sb w)]} /\ w_sb w' = w_sb w /\ w_out w' = w_out w) w.
Proof.
  intros Hl Hs Hg [n Hn] Hlim. unfold hsx_fuse_unmount. rewrite (proj2 (Z.leb_gt _ _) Hl), Hs.
  apply wp_bind. eexists tt, _. split; [reflexivity|]. apply wp_bind, wp_get_sb. simpl.
  apply wp_bind. eexists tt, _. split; [apply clnt_destroy_total; simpl; apply Hg|].
  set (w1 := set_clnts _ _).
  assert (Hc : cache_ok w1) by apply (good_cache _ Hg).
  destruct (iput_ret hsi_nfs_sop w1 (sb_root (w_sb w)) n Hc Hn (lim_count _ Hlim _ _ Hn)) as [Hr _].
  apply wp_bind. eexists tt, _. split; [exact Hr|].
  eapply wp_mono; [apply nfs3_unmount_ok|].
  - unfold prot_ok. simpl. case_if; auto.
  - intros r w' (Hsub & _ & Hsb & Ho). simpl in *. split_and!; [done|congruence|congruence].
Qed.
End Unmount.

(** ** The flags of the command line *)

(** No option for libfuse sets MS_REMOUNT. *)
Lemma lib_masks om f : om ∈ opt_map -> om_fuse_opt om = Some f -> Z.testbit (om_mask om) 5 = false.
Proof.
  assert (H : forallb (fun om => match om_fuse_opt om with
    | Some _ => negb (Z.testbit (om_mask om) 5) | None => true end) opt_map = true) by by vm_compute.
  rewrite forallb_forall in H. intros Hin Hf. rewrite list_elem_of_In in Hin. specialize (H om Hin).
  rewrite Hf in H. by apply negb_true_iff in H.
Qed.

Section Flags.
Context `{F : FuseLib}.

Lemma find_om_in opt l om : find_om opt l = om_entry om -> om ∈ l.
Proof.
  induction l as [|x l IH]; simpl; [done|]. case_if; [intros [= ->]; left|]. case_if; [done|]. intros H. right. auto.
Qed.

Lemma parse_opt_bit opt len s s' :
  hsi_parse_opt opt len s = Some s' -> Z.testbit (ps_flags s) 5 = false -> Z.testbit (ps_flags s') 5 = false.
Proof.
  unfold hsi_parse_opt. destruct (find_om opt opt_map) as [om| |] eqn:Hf.
  - destruct (om_fuse_opt om) as [f|] eqn:Ho; intros [= <-] Hb; [|done]. cbn [ps_flags]. unfold apply_mask.
    apply find_om_in in Hf. pose proof (lib_masks om f Hf Ho) as Hm.
    destruct (om_inv om); [by rewrite Z.ldiff_spec, Hb|by rewrite Z.lor_spec, Hb, Hm].
  - by intros [= <-].
  - destruct (add_extra _ _ _); [|done]. by intros [= <-].
Qed.

Lemma parse_list_bit len items s s' :
  parse_opt_list len items s = Some s' -> Z.testbit (ps_flags s) 5 = false -> Z.testbit (ps_flags s') 5 = false.
Proof.
  revert s. induction items as [|x items IH]; intros s; simpl; [by intros [= <-]|].
  destruct (hsi_parse_opt x len s) as [s1|] eqn:Hp; [|done]. intros Hs Hb. eapply IH; [done|].
  by eapply parse_opt_bit.
Qed.

Lemma parse_cmdline_bit l more prog args r s args' udata :
  hsi_parse_cmdline l more prog 0 args = cl_ret r s args' udata -> Z.testbit (cls_flags s) 5 = false.
Proof.
  unfold hsi_parse_cmdline.
  destruct (read_cl_spec l (mk_cls 0 0 false false None)) as [[_ ->]|(_ & s0 & -> & _ & Hx & _)]; [done|].
  assert (Hb : Z.testbit (cls_flags s0) 5 = false).
  { apply (f_equal (fun x => Z.testbit x 5)) in Hx. rewrite !Z.ldiff_spec in Hx.
    change (Z.testbit MS_RDONLY 5) with false in Hx. by rewrite !andb_true_r in Hx. }
  destruct more; [done|]. case_if; [done|]. destruct (fuse_opt_add_arg _ _) as [r1 a1].
  case_if; [by intros [= _ <- _ _]|]. destruct (hsi_fuse_add_opt _ _) as [r2 a2].
  case_if; [by intros [= _ <- _ _]|].
  unfold hsi_parse_opts. destruct (cls_tdata s0) as [o|]; [|by intros [= _ <- _ _]].
  destruct (parse_opt_list _ _ _) as [ps|] eqn:Hp; [|done]. intros [= _ <- _ _]. cbn [cls_flags].
  by apply (parse_list_bit _ _ _ _ Hp).
Qed.
End Flags.

Lemma no_remount flags flags' :
  Z.testbit flags 5 = false -> Z.ldiff flags' NFS_MOUNT_TCP = Z.ldiff flags NFS_MOUNT_TCP ->
  flag flags' MS_REMOUNT = false.
Proof.
  intros Hb Hd. apply (f_equal (fun x => Z.testbit x 5)) in Hd. rewrite !Z.ldiff_spec, Hb in Hd.
  change (Z.testbit NFS_MOUNT_TCP 5) with false in Hd. rewrite andb_true_r in Hd.
  change MS_REMOUNT with (Z.shiftl 1 5). by rewrite flag_pow2.
Qed.

(** ** [main] *)

Section Prog.
Context {E : Env} {ME : MountEnv} {LF : LibFuse} {F : FuseLib} {S : SysEnv}.

Lemma wp_in_world {A} (m : M world A) (Q : A + Z -> prog -> Prop) s :
  wp m (fun a w => Q (inl a) (mk_prog w (pg_mt s))) (pg_world s) -> wp (in_world m) Q s.
Proof. intros (a & w & Hm & HQ). eexists _, _. split; [|exact HQ]. unfold in_world. by rewrite Hm. Qed.

Lemma wp_in_mtab {A} (x : X A) r t (Q : A + Z -> prog -> Prop) s :
  x (pg_mt s) = Ret r t -> Q r (mk_prog (pg_world s) t) -> wp (in_mtab x) Q s.
Proof. intros Hx HQ. eexists _, _. split; [|exact HQ]. unfold in_mtab. by rewrite Hx. Qed.

Lemma wp_fuse_step c (Q : unit + Z -> prog -> Prop) s :
  Q (inl tt) (mk_prog (set_env (fuse_do c (w_env (pg_world s))) (pg_world s)) (pg_mt s)) ->
  wp (fuse_step c) Q s.
Proof. intros HQ. apply wp_in_world. by eexists tt, _. Qed.

(** Both halves of [main] around a command line that is read to its end. *)
Lemma main_reads fuel uid pw args0 argv0 spec point opts err s args udata w t (Q : Z + Z -> prog -> Prop) :
  dashed [spec] = false ->
  hsi_parse_cmdline (getopt_long opts).1 (getopt_long opts).2 (basename argv0) 0 args0 = cl_ret err s args udata ->
  wp (if negb (err =? 0) then xret 1 else main_mounted fuel uid pw spec point s udata) Q
    (mk_prog (set_sb (set_sb_flags (cls_flags s) super_zero) w) t) ->
  wp (main fuel uid pw args0 (argv0 :: spec :: point :: opts)) Q (mk_prog w t).
Proof.
  intros Hd Hp Hk. unfold main. apply wp_xbind, wp_in_world, wp_update_sb.
  change (dashed (spec :: point :: opts)) with (dashed [spec]). rewrite Hd.
  destruct (getopt_long opts) as [l more]. simpl in Hp. rewrite Hp.
  apply wp_xbind, wp_in_world, wp_update_sb. exact Hk.
Qed.

Context {HS : Services} {HML : MallocLaws} {HMem : MemLaws} {HC : Connected} {HSL : ServerLaws}
  {HF : FileServer} {HCL : ChnLaws} {HLL : LoopLaws} {HLS : LoopStarts}.
Hypothesis Hbad : bad_inode_placed.
Hypothesis Hks : allowed_sessions.

Lemma root_ready_env e w : root_ready w -> root_ready (set_env e w).
Proof. intros [Hg Hn]. split; [by apply good_env|done]. Qed.

Lemma session_inv_env k e w : session_inv k w -> session_inv k (set_env e w).
Proof. intros [Hg Hr Hp Hh]. constructor; [by apply good_env|done..]. Qed.

Lemma limits_env e w : limits w -> limits (set_env e w).
Proof. by intros []. Qed.

(** The session from the state [w], as seen when the loop is entered in [w1]. *)
Record session_over (w w1 w' : world) : Prop := {
  so_ready : root_ready w1;
  so_inv : exists k, session_inv k w';
  so_limits : limits w';
  so_replies : length (w_out w') = (length (w_out w) + length (arrives w1).1.2)%nat }.

Lemma run_session_ok w t :
  root_ready w ->
  wp run_session
    (fun r s => exists w1, r = inl (arrives w1).2 /\ pg_mt s = t /\ session_over w w1 (pg_world s))
    (mk_prog w t).
Proof using HC HSL HML HMem HF HLL HLS Hbad Hks.
  intros Hr. unfold run_session. apply wp_xbind, wp_in_world, wp_asks. cbn [pg_world pg_mt w_env].
  rewrite loop_new. set (w2 := set_env _ w).
  apply wp_xbind, wp_in_world, wp_asks. cbn [pg_world pg_mt]. rewrite loop_signals. set (w3 := set_env _ w2).
  apply wp_xbind, wp_xbind, wp_fuse_step. cbn [pg_world pg_mt]. set (w4 := set_env _ w3).
  assert (Hr4 : root_ready w4) by by do 3 apply root_ready_env.
  apply wp_xbind, wp_in_world. eapply wp_mono; [by apply (loop_served Hbad _ Hks)|].
  intros r w5 (-> & [k Hk] & Hl & Hlen). cbn [pg_world pg_mt].
  apply wp_xbind, wp_fuse_step, wp_xbind, wp_fuse_step, wp_xret, wp_xbind, wp_fuse_step, wp_xret.
  exists w4. split; [done|]. split; [done|]. constructor; cbn [pg_world].
  - done.
  - exists k. by do 3 apply session_inv_env.
  - by do 3 apply limits_env.
  - exact Hlen.
Qed.

(** Adding the entry, and removing it when the session is over. *)
Lemma table_steps uid nomtab pw spec point flags udata l t :
  quiet_table l t -> flag flags MS_REMOUNT = false -> tab_ok (mount_entry pw spec point HSFS_TYPE flags udata) ->
  exists t1 t2,
    (forall w, wp (if uid =? 0
       then let^ r := in_mtab (hsi_add_mtab nomtab pw spec point HSFS_TYPE flags udata) in xret tt
       else xret tt) (fun r s => r = inl tt /\ s = mk_prog w t1) (mk_prog w t)) /\
    (forall w, wp (if uid =? 0
       then let^ r := in_mtab (hsi_del_mtab nomtab point) in xret tt
       else xret tt) (fun r s => r = inl tt /\ s = mk_prog w t2) (mk_prog w t1)) /\
    entries (default [] (mt_files t1 MOUNTED)) =
      l ++ (if (uid =? 0) && negb nomtab then [mount_entry pw spec point HSFS_TYPE flags udata] else []) /\
    default [] (mt_files t2 MOUNTED) = table_text l.
Proof using HCL.
  intros Hq Hrm Hok. pose proof (qt_text _ _ Hq) as Ht.
  assert (Hl : entries (default [] (mt_files t MOUNTED)) = l) by (rewrite Ht; apply entries_text, Hq).
  destruct (uid =? 0), nomtab; simpl.
  2:{ destruct (mtab_add_del pw spec point HSFS_TYPE flags udata l t Hq Hrm Hok) as (t1 & t2 & Ha & He & Hd & Hx).
      exists t1, t2. split_and!; [| |done|done]; intros w.
      - by apply wp_xbind; eapply wp_in_mtab; [exact Ha|]; apply wp_xret.
      - by apply wp_xbind; eapply wp_in_mtab; [exact Hd|]; apply wp_xret. }
  all: exists t, t; rewrite app_nil_r; split_and!; [| |done|by rewrite Ht]; intros w.
  1,2: by apply wp_xbind; eapply wp_in_mtab; [done|]; apply wp_xret.
  all: by apply wp_xret.
Qed.

(** What [main] leaves: the status is that of the loop, every request that arrived
    has one reply, the mount table has its text and the client of the superblock
    is destroyed. *)
Definition served (l : list nfs_mntent) (w : world) (r : Z + Z) (s : prog) : Prop :=
  exists w1, root_ready w1 /\ r = inl (if (arrives w1).2 =? 0 then 0 else 1) /\
    length (w_out (pg_world s)) = (length (w_out w) + length (arrives w1).1.2)%nat /\
    default [] (mt_files (pg_mt s) MOUNTED) = table_text l /\
    sb_clntp (w_sb (pg_world s)) ∉ w_clnts (pg_world s).

Lemma main_mounted_ok fuel uid pw spec point cs udata host dir l w t :
  (0 < fuel)%nat -> w_heap w = ∅ -> sb_flags (w_sb w) = cls_flags cs -> Z.testbit (cls_flags cs) 5 = false ->
  zlen spec < hostdir_size -> hsi_parse_spec spec = Some (host, dir) -> opts_accepted (default [] udata) ->
  quiet_table l t ->
  (forall flags, Z.ldiff flags NFS_MOUNT_TCP = Z.ldiff (cls_flags cs) NFS_MOUNT_TCP ->
     tab_ok (mount_entry pw spec point HSFS_TYPE flags udata)) ->
  wp (main_mounted fuel uid pw spec point cs udata) (served l w) (mk_prog w t).
Proof using All.
  intros Hf Hh Hfl Hb Hlen Hs Ho Hq Hok. unfold main_mounted.
  apply wp_xbind, wp_in_world, wp_ret. cbn [pg_world pg_mt Z.eqb negb].
  apply wp_xbind, wp_in_world. eapply wp_mono; [by eapply mount_ready|].
  intros r w1 ([ch ->] & Hready & Hf1 & Ho1). cbn [pg_world pg_mt] in *.
  rewrite Hfl in Hf1. pose proof (no_remount _ _ Hb Hf1) as Hrm.
  destruct (table_steps uid (cls_nomtab cs) pw spec point _ udata l t Hq Hrm (Hok _ Hf1))
    as (t1 & t2 & Hadd & Hdel & _ & Ht2).
  apply wp_xbind, wp_in_world, wp_get_sb. cbn [pg_world pg_mt].
  apply wp_xbind. eapply wp_mono; [apply Hadd|]. intros r s [-> ->].
  apply wp_xbind. eapply wp_mono; [by apply run_session_ok|].
  intros r [w2 t'] (w3 & -> & Ht & [Hr3 [k Hk] Hlim Hn]). cbn [pg_world pg_mt] in *. subst t'.
  apply wp_xbind. eapply wp_mono; [apply Hdel|]. intros r s [-> ->].
  apply wp_xbind, wp_in_world. eapply wp_mono;
    [exact (unmount_ok spec point host dir w2 Hlen Hs (si_good _ _ Hk) (si_root _ _ Hk) Hlim)|].
  intros r w4 (Hcl & Hsb & Hout). cbn [pg_world pg_mt]. apply wp_xret.
  exists w3. cbn [pg_world pg_mt]. split_and!; [done|done|by rewrite Hout, Hn, Ho1|done|].
  rewrite Hsb. set_solver.
Qed.

Lemma main_runs fuel uid pw args0 argv0 spec point opts cs args udata host dir l w t :
  (0 < fuel)%nat -> w_heap w = ∅ -> dashed [spec] = false ->
  hsi_parse_cmdline (getopt_long opts).1 (getopt_long opts).2 (basename argv0) 0 args0 = cl_ret 0 cs args udata ->
  zlen spec < hostdir_size -> hsi_parse_spec spec = Some (host, dir) -> opts_accepted (default [] udata) ->
  quiet_table l t ->
  (forall flags, Z.ldiff flags NFS_MOUNT_TCP = Z.ldiff (cls_flags cs) NFS_MOUNT_TCP ->
     tab_ok (mount_entry pw spec point HSFS_TYPE flags udata)) ->
  wp (main fuel uid pw args0 (argv0 :: spec :: point :: opts)) (served l w) (mk_prog w t).
Proof using All.
  intros Hf Hh Hd Hc Hlen Hs Ho Hq Hok. eapply main_reads; [done|exact Hc|]. cbn [Z.eqb negb].
  apply (main_mounted_ok fuel uid pw spec point cs udata host dir l
    (set_sb (set_sb_flags (cls_flags cs) super_zero) w) t); try done.
  by eapply parse_cmdline_bit.
Qed.


(** C33: A mount that fails is not told to the caller: when the command line is
    read to its end and [hsx_fuse_mount] returns no channel, [main] returns 0,
    which is also its status after a session that ended well; the mount table is
    not touched. *)
Theorem mount_failure_status fuel uid pw args0 argv0 spec point opts cs args udata w w1 t :
  dashed [spec] = false ->
  hsi_parse_cmdline (getopt_long opts).1 (getopt_long opts).2 (basename argv0) 0 args0 = cl_ret 0 cs args udata ->
  hsx_fuse_mount fuel (cls_fg cs) spec point udata (set_sb (set_sb_flags (cls_flags cs) super_zero) w) = Ret None w1 ->
  main fuel uid pw args0 (argv0 :: spec :: point :: opts) (mk_prog w t) = Ret (inl 0) (mk_prog w1 t).
Proof.
  intros Hd Hc Hm.
  assert (Hwp : wp (main fuel uid pw args0 (argv0 :: spec :: point :: opts))
    (fun r s => r = inl 0 /\ s = mk_prog w1 t) (mk_prog w t)).
  { eapply main_reads; [done|exact Hc|]. cbn [Z.eqb negb].
    apply wp_xbind, wp_in_world, wp_ret. apply wp_xbind, wp_in_world. cbn [pg_world pg_mt Z.eqb negb].
    eexists _, _. split; [exact Hm|]. by apply wp_xret. }
  destruct Hwp as (r & s & Hr & -> & ->). exact Hr.
Qed.
End Prog.

(** ** An instance *)

Lemma ready_answers {R} (p : nfsproc R) r : @answers ready_env R p r -> @answers CalmEnv R p r.
Proof. intros (c & t & e & e' & Hc). by exists c, t, (set_fail [] e), e'. Qed.

Lemma ready_connected : @Connected ready_env.
Proof. constructor. intros R c p t e x e' Hc. by apply (@call_not_lost CalmEnv _ R c p t (set_fail [] e) x e'). Qed.

Lemma ready_server : @ServerLaws ready_env.
Proof.
  constructor.
  - intros R p r st Ha%ready_answers. by apply (@law_status CalmEnv _ R p).
  - intros a r Ha%ready_answers. by apply (@law_lookup CalmEnv _ a).
  - intros a r Ha%ready_answers. by apply (@law_create CalmEnv _ a).
  - intros a r Ha%ready_answers. by apply (@law_mkdir CalmEnv _ a).
  - intros a r Ha%ready_answers. by apply (@law_symlink CalmEnv _ a).
  - intros a r Ha%ready_answers. by apply (@law_mknod CalmEnv _ a).
  - intros a r Ha%ready_answers. by apply (@law_fsinfo CalmEnv _ a).
  - intros a r Ha%ready_answers. by apply (@law_readdirplus CalmEnv _ a).
Qed.

Definition ready_files : @FileServer ready_env.
Proof.
  refine (@Build_FileServer ready_env (fun (s : @env ready_env) _ => se_file (s : sample_state)) _ _ _ _ _).
  - intros c a t e x e'. exact (@fs_read_keeps CalmEnv calm_files c a t (set_fail [] e) x e').
  - intros c a t e r e'. exact (@fs_read CalmEnv calm_files c a t (set_fail [] e) r e').
  - intros c a t e r e'. exact (@fs_write CalmEnv calm_files c a t (set_fail [] e) r e').
  - done.
  - intros c a t e x e'. exact (@fs_write_fail CalmEnv calm_files c a t (set_fail [] e) x e').
Defined.

(** A kernel that sends a script as far as it may. *)
Section Kernel.
Context `{E : Env}.

Definition sendable (k : ledger) (req : request) : bool :=
  match req with
  | FUSE_LOOKUP ino _ | FUSE_GETATTR ino | FUSE_OPENDIR ino | FUSE_ACCESS ino _ => 0 <? k ino
  | FUSE_FORGET ino n => (0 <? k ino) && (0 <=? n) && (n <=? k ino)
  | FUSE_OPEN | FUSE_STATFS | FUSE_RELEASE => true
  | _ => false
  end.

Lemma sendable_allowed k w req : sendable k req = true -> allowed k w req.
Proof. destruct req; simpl; try done; intros H; to_prop; lia. Qed.

Fixpoint script (k : ledger) (w : world) (reqs : list request) : list request :=
  match reqs with
  | [] => []
  | req :: reqs =>
      if sendable k req then
        match hsfs_oper req w with
        | Ret _ w' => match last (w_out w') with
                      | Some r => if limits_b w' then req :: script (settle k req r) w' reqs else []
                      | None => []
                      end
        | _ => []
        end
      else []
  end.

Lemma script_sends k w reqs : limits w -> kernel_sends k w (script k w reqs).
Proof.
  revert k w. induction reqs as [|req reqs IH]; intros k w Hl; simpl; [by constructor|].
  destruct (sendable k req) eqn:Hs; [|by constructor].
  destruct (hsfs_oper req w) as [u w'| | |] eqn:Ho; [|by constructor..].
  destruct (last (w_out w')) as [r|] eqn:Hr; [|by constructor].
  destruct (limits_b w') eqn:Hb; [|by constructor].
  constructor; [done|by apply sendable_allowed|]. intros r2 w2 H2 Hw2. rewrite Ho in H2. injection H2 as _ <-.
  rewrite Hw2, last_snoc in Hr. injection Hr as <-. apply IH. by apply limits_b_ok.
Qed.

Lemma init_limits conn c w w1 : root_ready w -> hsx_fuse_init conn w = Ret c w1 -> limits w1.
Proof.
  intros (_ & n & Hh & Hino & Hrefs & Hcnt) Hi.
  assert (Hn : w_heap w !! sb_root (w_sb w) = Some n) by by rewrite Hh, lookup_singleton_eq.
  destruct (wp_init conn w n (fun _ w' => w_heap w' = {[ sb_root (w_sb w) := set_private 1 n ]}) Hn Hrefs)
    as (c' & w' & Hi' & Hw).
  { simpl. by rewrite Hh, insert_singleton_eq. }
  rewrite Hi in Hi'. injection Hi' as <- <-.
  constructor; rewrite Hw.
  - by rewrite map_size_singleton.
  - intros p m [<- <-]%lookup_singleton_Some. done.
  - intros p m [<- <-]%lookup_singleton_Some. simpl in *. lia.
Qed.

(** LOOKUP of a file, its attributes, the figures of the file system, FORGET. *)
Definition requests : list request :=
  [FUSE_GETATTR 1; FUSE_LOOKUP 1 "f"; FUSE_GETATTR 2; FUSE_STATFS; FUSE_FORGET 2 1].

Definition script_arrives (conn : fuse_conn_info) (w : world) : list request :=
  match hsx_fuse_init conn w with
  | Ret _ w1 => script (one 1) w1 requests
  | _ => []
  end.

Definition script_fuse : LibFuse := {|
  lowlevel_new s := (true, s);
  set_signal_handlers s := (true, s);
  fuse_do _ s := s;
  session_loop init oper := fun w =>
    (do! init calm_conn in do! run_requests oper (script_arrives calm_conn w) in ret 0) w |}.

Definition script_loop : @LoopLaws E script_fuse.
Proof. by refine (@Build_LoopLaws E script_fuse (fun w => (calm_conn, script_arrives calm_conn w, 0)) _). Defined.

Lemma script_starts : @LoopStarts E script_fuse.
Proof. by constructor. Qed.

Lemma script_allowed : @allowed_sessions E script_fuse script_loop.
Proof.
  intros w c w1 Hr Hi. simpl in *. unfold script_arrives. rewrite Hi. apply script_sends. by eapply init_limits.
Qed.
End Kernel.

Definition main_argv : list (list Z) :=
  [bytes_of "/sbin/mount.hsfs"; bytes_of "host:/export"; bytes_of "/mnt"; bytes_of "-o"; bytes_of "timeo=7,tcp"].

Definition main_run : outcome (@prog ready_env (quiet false)) (Z + Z) :=
  @main ready_env ready_mount (@script_fuse ready_env) list_fuse (quiet false) 1 0 None [] main_argv
    (@mk_prog ready_env (quiet false) ready_world (mtab_state false)).

(** The run of [main], evaluated: five requests are answered, and the table is as
    before. *)
Example main_evaluated :
  match main_run with
  | Ret r s => (r, length (@w_out ready_env (@pg_world ready_env (quiet false) s)), size (@w_heap ready_env (@pg_world ready_env (quiet false) s)),
      bool_decide (@mt_files (quiet false) (@pg_mt ready_env (quiet false) s) MOUNTED = Some (table_text [sample_mnt])))
  | _ => (inr 0, 0%nat, 0%nat, false)
  end = (inl 0, 5%nat, 2%nat, true).
Proof. vm_compute. reflexivity. Qed.

(** Two values of the flags: the bit of TCP may be set. *)
Lemma entry_either_ok flags :
  Z.ldiff flags NFS_MOUNT_TCP = Z.ldiff 0 NFS_MOUNT_TCP ->
  tab_ok (mount_entry None (bytes_of "host:/export") (bytes_of "/mnt") HSFS_TYPE flags (Some (bytes_of "timeo=7,tcp"))).
Proof.
  intros H. assert (Hb : flags = 0 \/ flags = 1).
  { rewrite <- (Z.lor_ldiff_and flags NFS_MOUNT_TCP), H. change (Z.ldiff 0 NFS_MOUNT_TCP) with 0.
    change NFS_MOUNT_TCP with (Z.ones 1). rewrite Z.land_ones by lia. rewrite Z.lor_0_l.
    pose proof (Z.mod_pos_bound flags (2 ^ 1) ltac:(lia)). lia. }
  destruct Hb as [-> | ->]; apply tab_b_ok; by vm_compute.
Qed.


(** The specification has no host. *)
Lemma mount_failure_status_witness :
  exists w1, @main ready_env ready_mount (@script_fuse ready_env) list_fuse (quiet false) 1 0 None []
      [bytes_of "mount.hsfs"; bytes_of "export"; bytes_of "/mnt"]
      (@mk_prog ready_env (quiet false) ready_world (mtab_state false)) =
    Ret (inl 0) (@mk_prog ready_env (quiet false) w1 (mtab_state false)).
Proof.
  eexists. eapply (@mount_failure_status ready_env ready_mount (@script_fuse ready_env) list_fuse (quiet false)).
  - reflexivity.
  - reflexivity.
  - reflexivity.
Defined.
