(* ===== verification/MountFail.v ===== *)
(** * Mounts that fail

    A foreground mount whose services fail at any step: the host is not found, the
    mount daemon does not answer or refuses, FSINFO, PATHCONF or [fuse_mount] fail.
    While clients can be made the mount returns, with a channel and the state a
    session starts from or with none. *)

From S2P Require Import Prelude Bitops Hash Proto World Icache IcacheFacts Attr Rpc NfsInode Wp Blocks.
From S2P Require Import Nfs3Ops Nfs3Spec Acl FuseOps FuseIo FileSpec FuseSpec RefSpec Session Sample Calm.
From S2P Require Import Mntent Lock Mtab Options MainOpts OptionsSpec Mount MountSpec MountLoop ProgSpec.

(** A handle the mount daemon gives has a length XDR allows, and the root exists. *)
Class RootLaws `{E : Env} {ME : MountEnv} : Prop := {
  root_handle : forall c d e r e', mnt_call c d e = ((0, r), e') -> fhs_status r = 0 -> handle_ok (mr_fhandle r);
  root_info : forall fh r f, answers (NFSPROC3_FSINFO fh) (RES_OK r) -> fi_obj_attributes r = Some f -> f3_nlink f <> 0;
  root_attr : forall fh f, answers (NFSPROC3_GETATTR fh) (RES_OK f) -> f3_nlink f <> 0 }.

Section Attempts.
Context `{E : Env} {ME : MountEnv} {HRL : RootLaws} {HCl : Clients}.

(** Undoing a mount destroys the clients. *)
Lemma fmnt_fail_any ms dir w :
  prot_ok (ca_pmap ms) -> sb_clntp (w_sb w) ∈ w_clnts w ->
  sb_acl_clntp (w_sb w) ∈ w_clnts w ∖ {[sb_clntp (w_sb w)]} -> sb_acl_clntp (w_sb w) <> NULL ->
  wp (fmnt_fail ms dir)
    (fun r w' => r = None /\ w_clnts w' ⊆ w_clnts w ∖ {[sb_clntp (w_sb w); sb_acl_clntp (w_sb w)]} /\
       w_heap w' = w_heap w /\ w_out w' = w_out w) w.
Proof.
  intros Hp Hc [Ha Hac]%elem_of_difference Hn. apply wp_bind, wp_get_sb.
  rewrite (proj2 (Z.eqb_neq _ _) Hn). apply wp_bind. eexists tt, _. split; [by apply clnt_destroy_total|].
  apply wp_bind. eexists tt, _. split; [apply clnt_destroy_total; simpl; set_solver|].
  apply wp_bind. eapply wp_mono; [by apply nfs3_unmount_ok|]. intros r w' (Hsub & Hh & _ & Ho).
  apply wp_ret. split_and!; [done| |done|done]. simpl in Hsub. set_solver.
Qed.

(** The attempts to mount. *)
Definition daemon_answers (dir : list Z) (mr : mountres3) : Prop :=
  exists c e e', mnt_call c dir e = ((0, mr), e').

Definition attempt_end (ms : clnt_addr_t) (dir : list Z) (w : world) (a : clnt_addr_t) (res : option mountres3) (w' : world) : Prop :=
  same_core w w' /\ w_clnts w' = w_clnts w /\ ca_pmap a = ca_pmap ms /\
  forall mr, res = Some mr -> daemon_answers dir mr.

Lemma attempt_any ms dir w :
  prot_ok (ca_pmap ms) ->
  wp (hsi_nfs3_mount ms dir)
    (fun r w' => attempt_end ms dir w r.1.2 (if r.1.1 =? 0 then r.2 else None) w' /\ (r.1.1 = 0 -> is_Some r.2)) w.
Proof.
  intros Hp. apply wp_bind. eapply wp_mono; [by apply open_ok|].
  intros [c addr] w1 (Hn & Hl & _ & Hpm & Hcore & Hc1 & Hnew). cbn [fst snd] in *.
  rewrite (proj2 (Z.eqb_neq c NULL) Hn). apply wp_bind.
  destruct (mnt_call c dir (w_env w1)) as [[st mr] e] eqn:Hm.
  exists (st, mr), (set_env e w1). split; [unfold on_clnt, from_env; by rewrite decide_True, Hm|]. cbv zeta.
  apply wp_bind, wp_asks, wp_bind, wp_freeres; [done|]. apply wp_bind. eexists tt, _.
  split; [by apply clnt_destroy_total|]. cbn [fst snd].
  assert (Hsub : w_clnts w1 ∖ {[c]} = w_clnts w) by (rewrite Hc1; set_solver).
  destruct (malloc _ _).1; apply wp_ret; cbn [fst snd].
  - split; [|eauto]. split_and!; [done..|]. intros r. destruct (Z.eqb_spec st 0) as [->|]; [|done].
    intros [= <-]. by exists c, (w_env w1), e.
  - split; [|done]. by split_and!.
Qed.

Lemma loop_any fuel fg timeout ms dir mr w r w' :
  prot_ok (ca_pmap ms) -> mount_loop fuel fg timeout ms dir mr w = Ret r w' ->
  match r with
  | None => same_core w w' /\ w_clnts w' = w_clnts w
  | Some (a, res) => attempt_end ms dir w a (Some res) w'
  end.
Proof.
  revert ms mr w. induction fuel as [|fuel IH]; intros ms mr w Hp; [done|]. cbn [mount_loop]. intros Hr.
  destruct (attempt_any ms dir w Hp) as ([[err a] res] & w1 & Ha & (Hcore & Hsub & Hpm & Hres) & Hok).
  rewrite (bind_ret _ _ _ _ _ Ha) in Hr. cbn [fst snd] in *.
  assert (Hnext : forall w2 mr', same_core w1 w2 -> w_clnts w2 = w_clnts w1 ->
    mount_loop fuel fg timeout a dir mr' w2 = Ret r w' ->
    match r with
    | None => same_core w w' /\ w_clnts w' = w_clnts w
    | Some (b, mr) => attempt_end ms dir w b (Some mr) w'
    end).
  { intros w2 mr' Hc2 Hcl Hr2. apply IH in Hr2; [|by rewrite Hpm]. destruct r as [[b mr2]|].
    - destruct Hr2 as (H1 & H2 & H3 & H4). split_and!; [|congruence|congruence|done].
      etrans; [exact Hcore|]. by etrans.
    - destruct Hr2 as [H1 H2]. split; [|congruence]. etrans; [exact Hcore|]. by etrans. }
  destruct (Z.eqb_spec err 0) as [->|H0].
  - injection Hr as <- <-. destruct (Hok eq_refl) as [mr2 ->]. split_and!; done.
  - destruct fg; [|by eapply (Hnext w1)]. apply bind_ret_inv in Hr as (w2 & w3 & Hg & Hr). injection Hg as <- <-.
    revert Hr. case_if; [|by intros [= <- <-]]. intros Hr.
    apply bind_ret_inv in Hr as (t & w4 & Ht & Hr). unfold from_env in Ht.
    destruct (time_now (w_env w1)) as [t' e]. injection Ht as <- <-. revert Hr.
    case_if; [by intros [= <- <-]|]. by apply Hnext.
Qed.
End Attempts.

Section Steps.
Context `{E : Env} {ME : MountEnv} {HC : Connected} {HSL : ServerLaws} {HRL : RootLaws}
  {HML : MallocLaws} {HMem : MemLaws} {HCl : Clients}.
Hypothesis Hbad : bad_inode_placed.

(** What the calls of the mount keep. *)
Record kept_super (w w' : world) : Prop := {
  ks_steps : steps w w';
  ks_heap : w_heap w' = w_heap w;
  ks_curr : sb_curr_id (w_sb w') = sb_curr_id (w_sb w);
  ks_flags : sb_flags (w_sb w') = sb_flags (w_sb w) }.

#[export] Instance kept_super_preorder : PreOrder kept_super.
Proof.
  split; [by intros w|]. intros w1 w2 w3 [] []. constructor; [by etrans|congruence..].
Qed.

Lemma kept_super_env e w : kept_super w (set_env e w).
Proof. constructor; [apply steps_env|done..]. Qed.

(** FSINFO fails, or there are attributes of a root that exists: its own, or those
    of the GETATTR that follows. *)
Lemma fsinfo_any fh w :
  good w ->
  wp (hsi_nfs3_fsinfo fh (nfs_init_fattr fattr_local))
    (fun r w' => good w' /\ kept_super w w' /\ (r.1 = 0 -> exists a, r.2 = fattr_of a /\ attrs_ok a)) w.
Proof.
  intros Hg. pose proof (good_clnt _ Hg) as Hl. unfold hsi_nfs3_fsinfo. wp_go.
  wp_nfs; [|destruct res as [res|st x]].
  - wp_go. split_and!; [by apply good_env|apply kept_super_env|done].
  - wp_go. apply wp_update_sb. set (w1 := set_sb _ (set_env e w)).
    destruct (law_fsinfo _ _ Hans) as (Hr1 & Hr2 & Hw1 & Hw2).
    pose proof (good_rsize _ Hg) as Hrs. pose proof (good_wsize _ Hg) as Hws.
    assert (Hg1 : good w1) by (apply good_sb; [by apply good_env|done..| |]; apply io_size_spec; simpl; lia).
    assert (Hk1 : kept_super w w1) by (constructor; [etrans; [apply (steps_env e)|by apply steps_sb]|done..]).
    destruct (fi_obj_attributes res) as [f|] eqn:Hf; cbn [hsi_nfs3_post2fattr].
    + change (flag (fa_valid (hsi_nfs3_fattr2fattr f (nfs_init_fattr fattr_local))) NFS_ATTR_FATTR) with true.
      apply wp_bind, wp_ret. wp_go. split_and!; [done|done|]. intros _. exists (Some f). split; [done|].
      exists f. split; [done|]. by eapply root_info.
    + change (flag (fa_valid (nfs_init_fattr fattr_local)) NFS_ATTR_FATTR) with false. cbn [negb].
      unfold hsi_nfs3_do_getattr. wp_go. apply wp_call; [exact Hl| |].
      * intros e1 err Herr. wp_go. split_and!; [by apply good_env|by rewrite Hk1, <- kept_super_env|done].
      * intros e1 [f|st x] Hat; wp_go; (split_and!; [by apply good_env|by rewrite Hk1, <- kept_super_env|]).
        -- intros _. exists (Some f). split; [done|]. exists f. split; [done|]. by eapply root_attr.
        -- intros H0. by destruct (errno_nonzero _ _ _ Hat eq_refl).
  - wp_go. split_and!; [by apply good_env|apply kept_super_env|]. intros H0.
    by destruct (errno_nonzero _ _ _ Hans eq_refl).
Qed.

Lemma pathconf_any p n w :
  good w -> w_heap w !! p = Some n -> wp (hsi_nfs3_pathconf p) (fun _ w' => good w' /\ kept_super w w') w.
Proof.
  intros Hg Hn. pose proof (good_clnt _ Hg) as Hl. unfold hsi_nfs3_pathconf. wp_go.
  wp_nfs; [|destruct res as [res|st x]]; wp_go; try by (split; [by apply good_env|apply kept_super_env]).
  apply wp_update_sb, wp_bind, wp_freeres; [done|]. apply wp_ret. split.
  - apply (good_sb (set_env e w)); [by apply good_env|done..|apply Hg|apply Hg].
  - constructor; [etrans; [apply (steps_env e)|by apply steps_sb]|done..].
Qed.

(** The root inode is there, or none; the clients are those that were there. *)
Lemma fill_super_any fh w :
  w_heap w = ∅ -> sb_clntp (w_sb w) ∈ w_clnts w ->
  sb_acl_clntp (w_sb w) = NULL \/ sb_acl_clntp (w_sb w) ∈ w_clnts w ->
  0 < sb_rsize (w_sb w) -> 0 < sb_wsize (w_sb w) -> handle_ok fh ->
  wp (hsi_fill_super fh)
    (fun r w' => (r = 0 -> root_ready w') /\ w_clnts w' = w_clnts w /\ w_out w' = w_out w /\
       sb_clntp (w_sb w') = sb_clntp (w_sb w) /\ sb_acl_clntp (w_sb w') = sb_acl_clntp (w_sb w) /\
       (forall p n, w_heap w' !! p = Some n -> refs_of n = 0)) w.
Proof.
  intros Hh Hc Ha Hr Hw Hfh. unfold hsi_fill_super, hsfs_init_icache.
  apply wp_bind, wp_bind, wp_update_sb, wp_bind, wp_update_sb, wp_ret. simpl negb. cbv iota.
  apply wp_bind, wp_update_sb. set (w1 := set_sb _ _).
  assert (Hg1 : good w1) by (by apply (good_super (w_sb w) w)).
  apply wp_bind. eapply wp_mono; [by apply fsinfo_any|].
  intros [err fa] w2 (Hg2 & [Hst Hh2 Hcur Hfl] & Hat). cbn [fst snd] in *.
  pose proof (steps_clnts _ _ Hst) as Hcl. pose proof (steps_out _ _ Hst) as Ho.
  pose proof (steps_clntp _ _ Hst) as Hcp. pose proof (steps_acl _ _ Hst) as Hacl. simpl in Hcl, Ho, Hcp, Hacl.
  destruct (Z.eqb_spec err 0) as [->|H0]; cbn [negb].
  2:{ apply wp_ret. split_and!; [done..|]. intros p n. rewrite Hh2. simpl. by rewrite Hh. }
  destruct (Hat eq_refl) as (a & -> & Haok).
  apply wp_bind, wp_copy_fh3; [done|]. intros f Hf Hfb. apply wp_bind.
  eapply wp_mono; [apply wp_and;
    [apply (fhget_root Hbad f a w2); [done|rewrite Hh2; exact Hh|by rewrite Hcur|done|done]|]|].
  { apply (fhget_usable Hbad f a w2); [done..|]. rewrite Hh2. simpl. by rewrite Hh. }
  intros p w3 ((Hg3 & -> & Hout3 & Hf3 & n & Hh3 & Hroot) & _ & Hs3 & _). apply wp_bind, wp_update_sb.
  assert (Hn : w_heap w3 !! p = Some n) by by rewrite Hh3, lookup_singleton_eq.
  pose proof (steps_clnts _ _ Hs3) as Hcl3. pose proof (steps_clntp _ _ Hs3) as Hcp3.
  pose proof (steps_acl _ _ Hs3) as Hacl3. set (w4 := set_sb _ w3).
  assert (Hg4 : good w4) by (apply good_sb; [exact Hg3|done..|apply Hg3|apply Hg3]).
  apply wp_bind. eapply wp_deref; [exact Hn|]. apply wp_bind, wp_assert; [apply Z.eqb_eq; apply Hroot|].
  eapply wp_mono; [by apply (pathconf_any p n)|]. intros r w5 (Hg5 & [Hs5 Hh5 _ _]).
  rewrite (steps_clnts _ _ Hs5), (steps_out _ _ Hs5), (steps_clntp _ _ Hs5), (steps_acl _ _ Hs5), Hh5. simpl.
  split_and!; [|congruence..|].
  - intros _. split; [done|]. exists n. by rewrite Hh5, (steps_root _ _ Hs5).
  - rewrite Hh3. intros q m [_ <-]%lookup_singleton_Some. apply Hroot.
Qed.

(** Nothing the kernel refers to is left, and no client either: but when the server
    refused the mount, the two clients are. *)
Definition mount_end (refused : bool) (w : world) (r : option Z) (w' : world) : Prop :=
  w_out w' = w_out w /\
  match r with
  | Some _ => root_ready w'
  | None => (forall p n, w_heap w' !! p = Some n -> refs_of n = 0) /\
      if refused then sb_clntp (w_sb w') ∈ w_clnts w' ∖ w_clnts w else w_clnts w' ⊆ w_clnts w
  end.

Lemma mount_root_any ms ns dir point mr w :
  w_heap w = ∅ -> prot_ok (ca_pmap ms) -> prot_ok (ca_pmap ns) ->
  0 < sb_rsize (w_sb w) -> 0 < sb_wsize (w_sb w) -> (fhs_status mr = 0 -> handle_ok (mr_fhandle mr)) ->
  wp (mount_root ms ns dir point mr) (mount_end (negb (fhs_status mr =? 0)) w) w.
Proof.
  intros Hh Hpm Hp Hr Hw Hfh. apply wp_bind, wp_get_sb, wp_bind.
  eapply wp_mono; [by apply clnt_create_ok|]. intros [c ns'] w1 (Hn & Hl & _ & Hpm1 & (Hh1 & Hs1 & Ho1) & Hc1 & Hnew).
  cbn [fst snd] in *. apply wp_bind, wp_update_sb. rewrite (proj2 (Z.eqb_neq c NULL) Hn).
  apply wp_bind. eapply wp_mono; [apply clnt_create_ok; simpl; rewrite Hpm1; exact Hp|].
  intros [d as'] w2 (Hn2 & Hl2 & Hsub & _ & (Hh2 & Hs2 & Ho2) & Hc2 & Hnew2). cbn [fst snd] in *.
  apply wp_bind, wp_update_sb. simpl in Hh2, Hs2, Ho2, Hc2, Hnew2, Hsub.
  set (w3 := set_sb _ w2).
  assert (Hcd : d <> c) by (intros ->; done).
  destruct (Z.eqb_spec (fhs_status mr) 0) as [H0|H0]; cbn [negb].
  2:{ apply wp_ret. split; [simpl; congruence|]. split; [simpl; rewrite Hh2, Hh1, Hh; done|].
      simpl. rewrite Hs2. simpl. set_solver. }
  apply wp_bind. eapply wp_mono; [apply fill_super_any; simpl; rewrite ?Hs2; simpl; rewrite ?Hs1|].
  - by rewrite Hh2, Hh1.
  - by apply Hsub.
  - by right.
  - done.
  - done.
  - by apply Hfh.
  - intros r w4 (Hok & Hcl & Ho4 & Hcp & Ha & Href). simpl in Hcl, Ho4, Hcp, Ha. rewrite Hs2 in Hcp. simpl in Hcp.
    assert (Hfail : forall w5, w_clnts w5 = w_clnts w4 -> w_sb w5 = w_sb w4 -> w_heap w5 = w_heap w4 ->
      w_out w5 = w_out w4 -> wp (fmnt_fail ms dir) (mount_end false w) w5).
    { intros w5 Hc5 Hs5 Hh5 Ho5. eapply wp_mono; [apply fmnt_fail_any; rewrite ?Hs5, ?Hc5, ?Hcp, ?Ha, ?Hcl|].
      - done.
      - set_solver.
      - set_solver.
      - done.
      - intros x w6 (-> & Hsub6 & Hh6 & Ho6). split; [congruence|]. split; [rewrite Hh6, Hh5; exact Href|].
        rewrite Hs5, Hcp, Ha, Hc5, Hcl, Hc2, Hc1 in Hsub6. set_solver. }
    destruct (Z.eqb_spec r 0) as [->|Hr0]; cbn [negb]; [|by apply Hfail].
    apply wp_bind, wp_asks. destruct (fuse_mount point (w_env w4)).1 as [ch|]; [|by apply Hfail].
    apply wp_ret. split; [simpl; congruence|]. destruct (Hok eq_refl) as [Hg Hroot]. split; [by apply good_env|done].
Qed.

Context {HCK : ClockLaws}.

(** C9: A foreground mount comes to an end, also when services fail after its clients
    are made.  Let every attempt to make a client, its authentication and its ping
    succeed ([Clients]; when the client of the NFS server cannot be made the mount is
    undefined, [no_server_undefined]), let calls not lose the connection ([Connected]),
    and let time pass ([ClockLaws]).  Then [hsx_fuse_mount] with a spec of the form
    host:dir that fits its buffers and options that are accepted returns: a host that
    is not found, a mount daemon that does not answer or refuses, FSINFO, GETATTR,
    PATHCONF or [fuse_mount] that fail, do not lead to undefined behaviour or to an
    assertion.  It replies nothing, and either returns a channel, in the state a
    session starts from, or none; then no inode has references and no client is left,
    unless the mount daemon refused the mount: then the clients that were made are
    left open.  What servers do answer is well formed: a handle of a length XDR
    allows, a root with links ([RootLaws], [ServerLaws]), and there is memory for the
    root ([MemLaws]). *)
Theorem mount_outcome fuel spec point udata host dir w :
  (Z.to_nat (2 ^ 31 * hz) < fuel)%nat -> w_heap w = ∅ ->
  zlen spec < hostdir_size -> hsi_parse_spec spec = Some (host, dir) -> opts_accepted (default [] udata) ->
  exists r w' refused, hsx_fuse_mount fuel true spec point udata w = Ret r w' /\
    mount_end refused w r w' /\
    (refused = true -> exists mr, daemon_answers dir mr /\ fhs_status mr <> 0).
Proof.
  intros Hf Hh Hl Hs Ho. pose proof hz_pos as Hz.
  enough (Hwp : wp (hsx_fuse_mount fuel true spec point udata) (fun r w' => exists b, mount_end b w r w' /\
    (b = true -> exists mr, daemon_answers dir mr /\ fhs_status mr <> 0)) w).
  { destruct Hwp as (r & w' & Hr & b & He). by exists r, w', b. }
  apply wp_bind. eapply wp_mono; [by eapply mount_setup_ok|].
  intros [[[[ms ns] retry] d]|] w1 (Hh1 & Ho1 & Hc1 & Hset).
  2:{ apply wp_ret. exists false. split; [|done]. split; [done|]. split; [by rewrite Hh1, Hh|by rewrite Hc1]. }
  destruct Hset as [Hd Hpm Hpn Hr Hrs Hws Hfl]. cbn [fst snd] in *. subst d.
  apply wp_bind, wp_asks. rewrite (retry_fits _ Hr). set (w2 := set_env _ w1). apply wp_bind.
  destruct (loop_returns fuel retry ms dir mountres_zero w1 Hpm) as (r & w3 & Hrun & _); [nia|].
  exists r, w3. split; [exact Hrun|]. apply loop_any in Hrun; [|done].
  destruct r as [[a mr]|].
  2:{ destruct Hrun as ((Hh3 & _ & Ho3) & Hc3). apply wp_ret. exists false. split; [|done]. simpl in *.
      split; [congruence|]. split; [by rewrite Hh3, Hh1, Hh|by rewrite Hc3, Hc1]. }
  destruct Hrun as ((Hh3 & Hs3 & Ho3) & Hc3 & Hpa & Hans). specialize (Hans mr eq_refl). simpl in *.
  eapply wp_mono; [apply mount_root_any; rewrite ?Hs3; [by rewrite Hh3, Hh1|by rewrite Hpa|done..|]|].
  - destruct Hans as (c & e & e' & Hm). by eapply root_handle.
  - intros r w4 [Ho4 Hend]. exists (negb (fhs_status mr =? 0)). split; [|intros Hb; exists mr; split; [done|]; to_prop; done].
    split; [congruence|]. destruct r; [done|]. destruct Hend as [Href Hcl]. split; [done|].
    by rewrite Hc3, Hc1 in Hcl.
Qed.
End Steps.

(** ** Witnesses

    Clients can be made and every other call of the NFS server fails.  The state
    counts ticks, one a second; the daemon answers with the given status. *)

Definition fail_call {R} (p : nfsproc R) (s : Z) : clnt_result R * Z :=
  (match p in nfsproc R return clnt_result R with NULLPROC => RPC_SUCCESS tt | _ => RPC_FAILED EIO end, s).

Definition fail_env : Env := {|
  env := Z;
  clnt_call R c p t s := fail_call p s;
  clnt_create l _ _ _ s := (Some (sample_clnt l calm0), s + 1);
  authunix_create s := (true, s);
  malloc_inode h s := ((calm_malloc_inode h calm0).1, s);
  malloc n s := (n <? 2 ^ 40, s);
  direntry_size s := 0;
  direntry_plus_size s := 0;
  page_size := 4096;
  bad_hsfs_inode := 0x8000 |}.

Definition fail_mount (status : Z) : @MountEnv fail_env :=
  @Build_MountEnv fail_env (fun h s => (inl 0x7f000001, s))
    (fun c d s => ((0, {| fhs_status := status; mr_fhandle := [1] |}), s)) (fun c d s => (0, s))
    (fun s : Z => (s, s)) (fun s => 0) (fun s => 0) (fun p s => (Some 5, s)) (fun p s => s).

Lemma fail_connected : @Connected fail_env.
Proof. constructor. intros R c p t e x e'. simpl. unfold fail_call. by destruct p; intros [= <- _]. Qed.

Lemma fail_answers {R} (p : nfsproc R) r : @answers fail_env R p r -> failed_status p r = None.
Proof. intros (c & t & e & e' & Hc). simpl in Hc. unfold fail_call in Hc. by destruct p. Qed.

Lemma fail_server : @ServerLaws fail_env.
Proof.
  constructor; [intros R p r st Ha; by rewrite (fail_answers p r Ha)|..];
    by intros a r (c & t & e & e' & Hc).
Qed.

Lemma fail_root status : @RootLaws fail_env (fail_mount status).
Proof.
  constructor; [by intros c d e r e' [= <- _]|..]; [by intros fh r f (c & t & e & e' & Hc)|].
  by intros fh f (c & t & e & e' & Hc).
Qed.

Lemma fail_malloc : @MallocLaws fail_env.
Proof.
  constructor. intros h e p e' Hm. apply (@malloc_inode_law CalmEnv _ h calm0 p calm0).
  simpl in *. injection Hm as Hm _. unfold calm_malloc_inode in *. simpl in *. by f_equal.
Qed.

Lemma fail_mem : @MemLaws fail_env.
Proof.
  constructor.
  - intros h e Hh. destruct (@inode_memory CalmEnv _ h calm0 Hh) as (p & e' & Hp). exists p, e.
    change (calm_malloc_inode h calm0 = (Some p, e')) in Hp. cbn [malloc_inode fail_env]. by rewrite Hp.
  - intros n e Hn. exists e. simpl. f_equal. apply Z.ltb_lt. lia.
Qed.

Lemma fail_clients : @Clients fail_env.
Proof.
  constructor; simpl; [|done|intros c t e; by eexists _, _].
  intros l a s r e. eexists _, _. split; [reflexivity|apply sample_clnt_new].
Qed.

Definition fail_clock status : @ClockLaws fail_env (fail_mount status).
Proof.
  refine (@Build_ClockLaws fail_env (fail_mount status) 1 (fun s => s) _ _ _ _ _ _ _); simpl; intros; try lia.
  by rewrite Z.div_1_r.
Defined.

Definition fail_world : @world fail_env := @mk_world fail_env ∅ super_zero ∅ backup_zero 1000 [].

Definition mount_fuel : nat := S (Z.to_nat (2 ^ 31)).

Lemma mount_fuel_enough : (Z.to_nat (2 ^ 31 * 1) < mount_fuel)%nat.
Proof. unfold mount_fuel. lia. Qed.
#[global] Opaque mount_fuel.

(** FSINFO fails. *)
Lemma mount_outcome_witness :
  exists r w' refused,
    @hsx_fuse_mount fail_env (fail_mount 0) mount_fuel true (bytes_of "host:/export") (bytes_of "/mnt")
      (Some (bytes_of "timeo=7,tcp")) fail_world = Ret r w' /\
    @mount_end fail_env refused fail_world r w' /\
    (refused = true -> exists mr, @daemon_answers fail_env (fail_mount 0) (bytes_of "/export") mr /\ fhs_status mr <> 0).
Proof.
  apply (@mount_outcome fail_env (fail_mount 0) fail_connected fail_server (fail_root 0) fail_malloc fail_mem
    fail_clients ltac:(by split) (fail_clock 0)) with (host := bytes_of "host").
  - exact mount_fuel_enough.
  - reflexivity.
  - by vm_compute.
  - by vm_compute.
  - exact accepted_sample.
Defined.

(** The clients left after FSINFO failed, and after the daemon refused with status 13. *)
Example mount_failed_clients :
  (fun status => match @hsx_fuse_mount fail_env (fail_mount status) 1 true (bytes_of "host:/export") (bytes_of "/mnt")
     (Some (bytes_of "timeo=7,tcp")) fail_world with
   | Ret None w' => Some (elements (@w_clnts fail_env w'))
   | _ => None
   end) <$> [0; 13] = [Some []; Some [3; 2]].
Proof. vm_compute. reflexivity. Qed.
