(* ===== verification/ProgTypes.v ===== *)
(** * The whole program keeps its types

    The triples of TypeSafe for the mount and the unmount, and with them a theorem
    on [main]: whatever arrives and whatever fails, a run that ends leaves the
    integers of inodes, superblock and replies in the ranges of their C types. *)

From S2P Require Import Prelude Bitops Hash Proto World Icache IcacheFacts Attr Rpc NfsInode Wp Blocks.
From S2P Require Import Nfs3Ops Nfs3Spec Acl FuseOps FuseIo FileSpec FuseSpec RefSpec Session Sample Calm AttrTypes TypeSafe.
From S2P Require Import Mntent MntentSpec Lock LockSpec Mtab MtabFacts MtabUpdate MtabSpec Options MainOpts.
From S2P Require Import OptionsSpec MainSpec Getopt GetoptSpec Mount MountSpec Main ProgSpec.

(** ** The options set fields within their types *)

Lemma atoi_range s : s32_ok (atoi s).
Proof. apply s32_range. Qed.

(** The flags of the command line are bits below the sign of an [int]. *)
Lemma opt_masks : Forall (fun om => 0 <= om_mask om < 2 ^ 31) opt_map.
Proof. by repeat constructor. Qed.

Section Flags.
Context {F : FuseLib}.

Lemma find_om_mask opt om : find_om opt opt_map = om_entry om -> 0 <= om_mask om < 2 ^ 31.
Proof.
  pose proof opt_masks as Hm. induction Hm as [|x l Hx _ IH]; simpl; [done|]. repeat case_if; [|done..].
  by intros [= <-].
Qed.

Lemma parse_opt_flags opt len s s' : hsi_parse_opt opt len s = Some s' -> s32_ok (ps_flags s) -> s32_ok (ps_flags s').
Proof.
  unfold hsi_parse_opt, apply_mask. destruct (find_om opt opt_map) as [om| |] eqn:Hf.
  - apply find_om_mask in Hf. destruct (om_fuse_opt om); intros [= <-]; [|done]. simpl. case_if; intros Hs.
    + by apply ldiff_s32.
    + by apply lor_s32.
  - by intros [= <-].
  - destruct (add_extra _ _ _); [|done]. by intros [= <-].
Qed.

Lemma parse_opts_flags opts flags args f a u :
  hsi_parse_opts opts flags args = Some (f, a, u) -> s32_ok flags -> s32_ok f.
Proof.
  unfold hsi_parse_opts. destruct opts as [o|]; [|by intros [= <- _ _]].
  destruct (parse_opt_list _ _ _) as [s|] eqn:Hp; [|done]. intros [= <- _ _] Hf.
  revert Hp. change flags with (ps_flags (mk_ps flags args [])) in Hf. revert Hf.
  generalize (mk_ps flags args []). induction (opt_items false [] o) as [|x l IH]; intros q Hq; simpl.
  - by intros [= <-].
  - destruct (hsi_parse_opt x _ q) as [q'|] eqn:Hx; [|done]. apply IH. by eapply parse_opt_flags.
Qed.

Lemma read_cl_flags l s s' : read_cl l s = Some s' -> s32_ok (cls_flags s) -> s32_ok (cls_flags s').
Proof.
  revert s. induction l as [|c l IH]; intros s; simpl; [by intros [= <-]|].
  destruct c; try done; intros Hr Hs; (eapply IH; [exact Hr|]); simpl; try done.
  - by apply lor_s32.
  - by apply ldiff_s32.
Qed.

Lemma cmdline_flags l more name args r s a u :
  hsi_parse_cmdline l more name 0 args = cl_ret r s a u -> s32_ok (cls_flags s).
Proof.
  unfold hsi_parse_cmdline. destruct (read_cl _ _) as [s0|] eqn:Hr; [|done]. apply read_cl_flags in Hr; [|by split].
  repeat case_match; try done; intros [= _ <- _ _]; try done; simpl; by eapply parse_opts_flags.
Qed.
End Flags.

Definition opts_typed (o : popts) : Prop := super_typed (po_super o).

Lemma parse_item_typed opt o o' text : parse_item opt o = it_text o' text -> opts_typed o -> opts_typed o'.
Proof.
  assert (Htcp : forall q, opts_typed q -> opts_typed (prot_tcp q)) by (intros q []; constructor; try done; by apply lor_s32).
  assert (Hclr : forall q, opts_typed q -> opts_typed (clear_tcp q))
    by (intros q []; constructor; try done; by apply ldiff_s32).
  unfold parse_item. case_if; [done|]. destruct (strchr EQUALS opt) as [[a b]|].
  - case_if.
    + unfold num_item, find_opt. destruct (List.find _ num_opts) as [[nm f]|] eqn:Hf; simpl.
      2:{ case_if; done. }
      intros [= <- <-] []. apply List.find_some in Hf as [Hf _]. simpl in Hf.
      by repeat (destruct Hf as [[= <- <-]|Hf]; [constructor; simpl; first [done|apply u32_range|apply atoi_range]|]).
    + unfold text_item. repeat case_if; intros [= <- <-] Ho; try done; try (by apply Htcp); exact (Hclr (prot_udp o) Ho).
  - unfold flag_item. set (val := negb (bool_decide (take 2 opt = bytes_of "no"))).
    set (opt' := if val then opt else drop 2 opt).
    destruct (existsb _ _); [done|]. destruct (named opt' "tcp").
    { intros [= <- <-] Ho. destruct val; [by apply Htcp|done]. }
    destruct (named opt' "udp"); [|done]. intros [= <- <-] Ho.
    destruct val; [exact (Hclr o Ho)|]. by apply Htcp, Hclr.
Qed.

Lemma parse_items_typed size items o e o' :
  parse_items size items o = Some (e, o') -> opts_typed o -> opts_typed o'.
Proof.
  revert o. induction items as [|x items IH]; intros o; simpl; [by intros [= _ <-]|].
  destruct (parse_item x o) as [|o1 text| |] eqn:Hp; [by apply IH| |by intros [= _ <-]..].
  case_if; [done|]. case_if.
  - intros [= _ <-] Ho. by eapply parse_item_typed.
  - intros Hq Ho. eapply IH; [exact Hq|]. by apply (parse_item_typed _ _ _ _ Hp).
Qed.

Lemma parse_options_typed {env} (resolve : list Z -> env -> (Z + Z) * env) opts super retry ms ns size e r o a e' :
  hsi_nfs3_parse_options resolve opts super retry ms ns size e = Some (r, o, a, e') ->
  super_typed super -> super_typed (po_super o).
Proof.
  unfold hsi_nfs3_parse_options. destruct (parse_items _ _ _) as [[x o']|] eqn:Hp; [|done].
  intros Hr Hs. apply parse_items_typed in Hp; [|done].
  destruct x; [| |]; try by injection Hr as _ <- _ _.
  destruct (po_mounthost o'); [|by injection Hr as _ <- _ _].
  destruct (hsi_gethostbyname _ _ _ _) as [[y z] t]. revert Hr. case_if; by intros [= _ <- _ _].
Qed.

Lemma top_bit_range n b : 0 <= Z.of_nat (top_bit n b) <= Z.of_nat n.
Proof. induction n as [|n IH]; simpl; [lia|]. case_if; lia. Qed.

Lemma block_bits_range b : 0 <= default 0 (hsfs_block_size b true).2 < 256.
Proof.
  unfold hsfs_block_size, hsfs_block_bits. rewrite orb_true_r. cbn [snd default].
  match goal with |- context [top_bit 31 ?x] => pose proof (top_bit_range 31 x) end. simpl in *. lia.
Qed.

Lemma validate_typed s ms ns retry :
  super_typed s -> super_typed (hsi_validate_mount_data s ms ns retry).1.1.1.
Proof.
  assert (Hd : forall v d, s32_ok v -> s32_ok d -> s32_ok (or_default v d)) by (intros v d; unfold or_default; by case_if).
  assert (Ha : forall mn mx d, s32_ok mn -> s32_ok mx -> s32_ok d ->
    s32_ok (ac_range mn mx d).1 /\ s32_ok (ac_range mn mx d).2).
  { intros mn mx d Hn Hx Hy. unfold ac_range. case_if; split; simpl; try done; by apply Hd. }
  intros []. constructor; try done; simpl.
  all: try apply u32_range; try apply block_bits_range; try (by apply Hd); try (by apply Ha).
  all: repeat case_if; by split.
Qed.

(** ** Mounting *)

#[export] Hint Resolve typed_openclnt typed_clnt_create typed_destroy : typed.

Section Mount.
Context `{E : Env} {ME : MountEnv} {HW : WireLaws}.
Abbreviation safe m := (typed m (fun _ => True)).

Lemma typed_on_clnt {A} c (f : env -> A * env) : safe (on_clnt c f).
Proof.
  apply typed_untouched. intros w a w'. unfold on_clnt, from_env. case_decide; [|done].
  destruct (f (w_env w)). by intros [= <- <-].
Qed.

Lemma typed_set_env (f : world -> env) : safe (modify (fun w => set_env (f w) w)).
Proof. apply typed_untouched. by intros w a w' [= <- <-]. Qed.

Lemma typed_get : typed get world_typed.
Proof. by intros w Hw. Qed.
Hint Resolve typed_on_clnt typed_set_env typed_get : typed.

Lemma typed_mnt_open srv arg : safe (hsi_nfs3_mount srv arg).
Proof. unfold hsi_nfs3_mount, hsi_mnt_closeclnt. typed_go. Qed.

Lemma typed_mnt_close srv arg : safe (hsi_nfs3_unmount srv arg).
Proof. unfold hsi_nfs3_unmount, hsi_mnt_closeclnt. typed_go. Qed.
Hint Resolve typed_mnt_open typed_mnt_close : typed.

Lemma typed_mount_loop fuel fg timeout srv dir res : safe (mount_loop fuel fg timeout srv dir res).
Proof.
  revert srv res. induction fuel as [|fuel IH]; intros srv res; simpl; [by apply typed_stops|].
  typed_bind_as Hm. typed_go.
Qed.

Lemma fsinfo_super s r : fsinfo_typed r -> super_typed s -> super_typed (hsi_fsinfo_to_super s r).
Proof.
  assert (Hi : forall a b c, u32_ok a -> u32_ok (io_size a b c)).
  { intros a b c Ha. unfold io_size. cbv zeta. repeat case_if; try done; apply u32_range. }
  intros [] []. constructor; try done; simpl; try (by apply Hi); [|apply u32_range].
  repeat case_if; try apply u32_range; by apply Hi.
Qed.

Lemma typed_fsinfo fh fa : fattr_typed fa -> typed (hsi_nfs3_fsinfo fh fa) (fun r => fattr_typed r.2).
Proof using HW.
  intros Hf. unfold hsi_nfs3_fsinfo. typed_bind_as Hc. call_as r Hr.
  - eapply typed_bind; [apply typed_update_sb; intros s; by apply fsinfo_super|]. intros [] _. cbv zeta.
    eapply typed_bind with (P := fun x => fattr_typed x.2); [|intros x Hx; typed_bind_as Hu; by apply typed_ret].
    assert (Hg : fattr_typed (hsi_nfs3_post2fattr (fi_obj_attributes r) fa).2).
    { pose proof (fit_attr _ Hr) as Ha. destruct (fi_obj_attributes r) as [f|]; [by apply fattr2fattr_typed, Ha|done]. }
    case_if; [|by apply typed_ret]. eapply typed_bind; [apply typed_do_getattr; [by intros f [= <-]|done]|].
    intros [[e o] st] [Ho _]. apply typed_ret. destruct o; [by apply Ho|done].
  - typed_bind_as Hu. by apply typed_ret.
  - by apply typed_ret.
Qed.

Lemma typed_pathconf p : safe (hsi_nfs3_pathconf p).
Proof using HW.
  assert (Hn : forall x, safe (update_sb (set_sb_namlen (s32 x)))).
  { intros x. apply typed_update_sb. intros s []. constructor; try done. apply s32_range. }
  unfold hsi_nfs3_pathconf. typed_go.
Qed.
Hint Resolve typed_mount_loop typed_pathconf : typed.

(** The numbering starts again from 0. *)
Lemma typed_fill_super fh : safe (hsi_fill_super fh).
Proof using HW.
  unfold hsi_fill_super, hsfs_init_icache. eapply (typed_bind _ _ (fun _ => True)); [by typed_go|].
  intros r _. case_if; [by apply typed_ret|].
  eapply typed_bind; [apply typed_update_sb; intros s []; by constructor|]. intros [] _.
  eapply typed_bind; [apply typed_fsinfo, init_typed|]. intros [e fa] Hf. cbn [fst snd] in *. typed_go.
Qed.

Lemma typed_fmnt_fail srv dir : safe (fmnt_fail srv dir).
Proof. unfold fmnt_fail. typed_go. Qed.
Hint Resolve typed_fill_super typed_fmnt_fail : typed.

Lemma typed_mount_root ms ns dir point res : safe (mount_root ms ns dir point res).
Proof using HW. unfold mount_root. typed_go. Qed.

Lemma typed_mount_setup spec udata : safe (mount_setup spec udata).
Proof.
  unfold mount_setup. case_if; [by apply typed_ret|]. destruct (hsi_parse_spec spec) as [[h d]|]; [|by apply typed_ret].
  typed_bind_as Hs. typed_bind_as Ha. typed_bind_as Hu. case_if; [by apply typed_ret|]. cbv zeta.
  eapply typed_bind; [apply typed_get|]. intros w Hw. cbv beta.
  destruct (hsi_nfs3_parse_options _ _ _ _ _ _ _ _) as [[[[r o] sa] e]|] eqn:Hp; [|by apply typed_stops].
  apply parse_options_typed in Hp; [|apply Hw].
  eapply (typed_bind _ _ (fun _ => True)).
  { intros w1 [Hh _ Ho]. split; [|done]. by constructor. }
  intros [] _. case_if; [by apply typed_ret|]. case_if; [by apply typed_ret|].
  match goal with |- context [hsi_validate_mount_data ?x ?y ?z ?t] =>
    pose proof (validate_typed x y z t Hp) as Hv; destruct (hsi_validate_mount_data x y z t) as [[[sb ms] ns] rt] end.
  eapply typed_bind; [by apply typed_update_sb|]. intros [] _. by apply typed_ret.
Qed.
Hint Resolve typed_mount_root typed_mount_setup : typed.

Lemma typed_fuse_mount fuel fg spec point udata : safe (hsx_fuse_mount fuel fg spec point udata).
Proof using HW. unfold hsx_fuse_mount. typed_go. Qed.

Lemma typed_fuse_unmount spec point : safe (hsx_fuse_unmount spec point).
Proof. unfold hsx_fuse_unmount. typed_go. Qed.
End Mount.

#[export] Hint Resolve typed_fuse_mount typed_fuse_unmount typed_set_env : typed.

(** ** The program *)

Section Prog.
Context {E : Env} {ME : MountEnv} {LF : LibFuse} {F : FuseLib} {S : SysEnv} {HW : WireLaws} {HLL : LoopLaws}.

(** What [typed] is to a step of the file system. *)
Definition keeps_types {A} (m : XM prog A) : Prop :=
  forall s, world_typed (pg_world s) -> match m s with Ret _ s' => world_typed (pg_world s') | _ => True end.

Lemma keeps_xret {A} (a : A) : keeps_types (xret a).
Proof. by intros s Hs. Qed.

Lemma keeps_xexit {A} c : keeps_types (A := A) (xexit c).
Proof. by intros s Hs. Qed.

Lemma keeps_undef {A} : keeps_types (A := A) (fun _ => Undef).
Proof. by intros s Hs. Qed.

Lemma keeps_xbind {A B} (m : XM prog A) (k : A -> XM prog B) :
  keeps_types m -> (forall a, keeps_types (k a)) -> keeps_types (let^ a := m in k a).
Proof.
  intros Hm Hk s Hs. specialize (Hm s Hs). unfold xbind, bind.
  destruct (m s) as [[a|c] s'| | |]; try done. by apply Hk.
Qed.

Lemma keeps_in_world {A} (m : M world A) : typed m (fun _ => True) -> keeps_types (in_world m).
Proof. intros Hm s Hs. specialize (Hm _ Hs). unfold in_world. by destruct (m (pg_world s)) as [a w| | |]; [destruct Hm|..]. Qed.

Lemma keeps_in_mtab {A} (x : X A) : keeps_types (in_mtab x).
Proof. intros s Hs. unfold in_mtab. by destruct (x (pg_mt s)). Qed.

Lemma keeps_fuse_step c : keeps_types (fuse_step c).
Proof. apply keeps_in_world. auto with typed. Qed.

Hint Resolve keeps_xret keeps_xexit keeps_undef keeps_in_mtab keeps_fuse_step : typed.

Ltac keeps_go :=
  repeat first [ solve [auto with typed] | apply keeps_in_world; solve [eapply typed_safe; eauto with typed]
    | apply keeps_xbind; [|intros ?] | case_match ].

(** Whatever arrives has its fields in range. *)
Hypothesis Hreq : forall w, Forall request_typed (arrives w).1.2.

Lemma typed_loop : typed (session_loop hsx_fuse_init hsfs_oper) (fun _ => True).
Proof using HW Hreq.
  intros w Hw. rewrite loop_runs.
  assert (Ht : typed (do! hsx_fuse_init (arrives w).1.1 in do! run_requests hsfs_oper (arrives w).1.2 in
    ret (arrives w).2) (fun _ => True)) by (pose proof (Hreq w); typed_go).
  exact (Ht w Hw).
Qed.
Hint Resolve typed_loop : typed.

Lemma typed_session : keeps_types run_session.
Proof using HW Hreq. unfold run_session. keeps_go. Qed.
Hint Resolve typed_session : typed.

Lemma typed_mounted fuel uid pw spec point cs udata : keeps_types (main_mounted fuel uid pw spec point cs udata).
Proof using HW Hreq. unfold main_mounted, hsfs_init. keeps_go. Qed.
Hint Resolve typed_mounted : typed.

Lemma super_zero_typed : super_typed super_zero.
Proof. by repeat constructor. Qed.

Lemma keeps_set_flags l more name args r cs a u :
  hsi_parse_cmdline l more name 0 args = cl_ret r cs a u -> keeps_types (in_world (update_sb (set_sb_flags (cls_flags cs)))).
Proof.
  intros Hc%cmdline_flags. apply keeps_in_world, typed_update_sb. intros s []. by constructor.
Qed.
Hint Resolve keeps_set_flags : typed.

(** [main] with any arguments and any services, also those that fail. *)
Lemma typed_main fuel uid pw args0 argv : keeps_types (main fuel uid pw args0 argv).
Proof using HW Hreq.
  unfold main. destruct argv as [|a0 rest]; [auto with typed|]. apply keeps_xbind.
  { apply keeps_in_world, typed_update_sb. intros s _. apply super_zero_typed. }
  intros []. unfold hsi_print_version, hsi_mount_usage. keeps_go; eauto with typed.
Qed.

End Prog.

(** ** An instance: a server whose files cannot be written *)

Definition ro_answer {R} (p : nfsproc R) : R :=
  match p in nfsproc R return nfsproc R -> R with
  | NFSPROC3_WRITE a => fun _ => RES_FAIL NFS3ERR_ROFS (sample_wcc (wr_file a) calm0)
  | _ => fun p => (sample_answer p calm0).1
  end p.

Definition ro_env : Env := {|
  env := sample_state;
  clnt_call R c p t s := (RPC_SUCCESS (ro_answer p), s);
  clnt_create l _ _ _ s := (Some (sample_clnt l s), next_clnt s);
  authunix_create s := (true, s);
  malloc_inode := calm_malloc_inode;
  malloc n s := (n <? 2 ^ 40, s);
  direntry_size s := 0;
  direntry_plus_size s := 0;
  page_size := 4096;
  bad_hsfs_inode := 0x8000 |}.

Definition ro_mount : @MountEnv ro_env := {|
  resolve h s := (inl 0x7f000001, s);
  mnt_call c d s := ((0, {| fhs_status := 0; mr_fhandle := [1] |}), s);
  umnt_call c d s := (0, s);
  time_now s := (1000, s);
  rpc_createerr s := 0;
  sys_errno s := 0;
  fuse_mount p s := (Some 5, s);
  fuse_unmount p s := s |}.

Lemma ro_services : @Services ro_env ro_mount.
Proof.
  constructor; simpl.
  - constructor; simpl; [|done|intros c t e; by eexists _, _].
    intros l a s r e. eexists _, _. split; [reflexivity|apply sample_clnt_new].
  - intros h e. by eexists.
  - intros c d e. exists [1], e. by split.
  - intros c fh t e. eexists _, _. split; [reflexivity|]. split; [by apply sample_attrs_ok|]. simpl. lia.
  - intros c fh t e. by eexists _, _.
  - intros p e. by eexists _, _.
Qed.

Lemma ro_malloc : @MallocLaws ro_env.
Proof. constructor. apply (@malloc_inode_law CalmEnv _). Qed.

Lemma ro_mem : @MemLaws ro_env.
Proof. constructor; [apply (@inode_memory CalmEnv _)|apply (@small_memory CalmEnv _)]. Qed.

Lemma ro_connected : @Connected ro_env.
Proof. by constructor. Qed.

(** But for WRITE it answers as the calm server in its first state. *)
Lemma ro_answers {R} (p : nfsproc R) r :
  @answers ro_env R p r -> @answers CalmEnv R p r \/ failed_status p r = Some NFS3ERR_ROFS.
Proof.
  intros (c & t & e & e' & [= <- _]). destruct p; try by right.
  all: left; exists c, t, (set_fail [] calm0); eexists; reflexivity.
Qed.

Lemma ro_answers_ok {ok fail} (p : nfsproc (nfsres ok fail)) r :
  @answers ro_env _ p (RES_OK r) -> failed_status p (RES_OK r) = None -> @answers CalmEnv _ p (RES_OK r).
Proof. intros [Ha|Hf]%ro_answers Hn; [done|congruence]. Qed.

Lemma ro_server : @ServerLaws ro_env.
Proof.
  constructor.
  - intros R p r st [Ha| ->]%ro_answers; [by apply (@law_status CalmEnv _ R p)|]. by intros [= <-].
  - intros a r Ha%ro_answers_ok; [|done]. by apply (@law_lookup CalmEnv _ a).
  - intros a r Ha%ro_answers_ok; [|done]. by apply (@law_create CalmEnv _ a).
  - intros a r Ha%ro_answers_ok; [|done]. by apply (@law_mkdir CalmEnv _ a).
  - intros a r Ha%ro_answers_ok; [|done]. by apply (@law_symlink CalmEnv _ a).
  - intros a r Ha%ro_answers_ok; [|done]. by apply (@law_mknod CalmEnv _ a).
  - intros a r Ha%ro_answers_ok; [|done]. by apply (@law_fsinfo CalmEnv _ a).
  - intros a r Ha%ro_answers_ok; [|done]. by apply (@law_readdirplus CalmEnv _ a).
Qed.

Definition ro_files : @FileServer ro_env.
Proof.
  refine (@Build_FileServer ro_env (fun _ _ => se_file calm0) _ _ _ _ _); simpl; try done.
  intros c a t e r e' [= <- _].
  exact (@fs_read CalmEnv calm_files 1 a t (set_fail [] calm0) (sample_read a calm0) _ eq_refl).
Defined.

Lemma sample_typed h : fattr3_typed (sample_fattr h calm0).
Proof.
  unfold sample_fattr. case_bool_decide; constructor; simpl; try (unfold u32_ok, u64_ok; lia); by repeat constructor.
Qed.

Lemma ro_wire : @WireLaws ro_env.
Proof.
  constructor. intros R c p t e r e' [= <- _].
  assert (Hp : forall h, attr_typed (sample_post h calm0)) by (intros h f [= <-]; apply sample_typed).
  destruct p; simpl; try done; try apply Hp; try apply sample_typed.
  - case_bool_decide; simpl; [apply Hp|done].
  - apply Forall_take, Forall_drop. simpl. by repeat constructor.
  - split_and!; [apply Hp|done|]. by repeat constructor.
  - split_and!; [apply Hp|done|]. apply Forall_singleton. split; [by split|apply Hp].
  - constructor; [apply Hp|by split..].
Qed.

(** The kernel's script for it. *)
Lemma requests_typed : Forall request_typed requests.
Proof. by repeat constructor. Qed.

Lemma script_typed `{E : Env} k w reqs : Forall request_typed reqs -> Forall request_typed (script k w reqs).
Proof.
  intros Hr. revert k w. induction Hr as [|req reqs Hq _ IH]; intros k w; simpl; [done|].
  repeat case_match; by constructor.
Qed.

Definition ro_world : @world ro_env := @mk_world ro_env ∅ super_zero ∅ backup_zero calm0 [].

Definition ro_main : outcome (@prog ro_env (quiet false)) (Z + Z) :=
  @main ro_env ro_mount (@script_fuse ro_env) list_fuse (quiet false) 1 0 None [] main_argv
    (@mk_prog ro_env (quiet false) ro_world (mtab_state false)).

(** The five requests of the script all arrive and are answered. *)
Example ro_evaluated :
  match ro_main with
  | Ret r s => (r, length (@w_out ro_env (@pg_world ro_env (quiet false) s)))
  | _ => (inr 0, 0%nat)
  end = (inl 0, 5%nat).
Proof. vm_compute. reflexivity. Qed.

